(* ===== verification/_CoqProject ===== *)
-Q . S2P
Prelude.v
Memory.v
Layout.v
BuildBug.v
Bitfield.v
BitfieldSpec.v
RxeOpcode.v
RxeHdr.v
RxeHdrSpec.v
RxePkt.v
IbMad.v
Iba.v
IbtaC12.v
IbPack.v
Mbuf.v
Parser.v
CmPacket.v
Tracker.v
Log.v
TrackerInv.v
TrackerStep.v
TrackerSpec.v
Handshake.v
Conform.v
Product.v
Recover.v
Network.v
TrackerTrace.v
Widths.v
Growth.v
Relate.v
Lifetime.v
Reclaim.v
TrackerLog.v
LogSpec.v
TrackerFaults.v
Verdict.v
Cnp.v
DpdkModel.v
Main.v
Portable.v
Release.v
Api.v
Notify.v
TestCnp.v
Witnesses.v
Examples.v
Scenarios.v
Variants.v
