(* ===== verification/Prelude.v ===== *)
(** * libconntrack-cm: a verification library

    libconntrack-cm watches RoCE v2 traffic on a DPDK data path, follows the
    InfiniBand communication management (CM) handshakes in it, and tells for a
    destination address and queue pair which local queue pair belongs to it, so that
    the application can send congestion notification packets (CNPs).

    ** The program and its model

    - src/src/main.cpp is the C interface: a context holds a parser and a tracker.
      [Main] has the context and the calls; [handle] is what an application does with
      a packet (parse, then process).  [Api] is a process that uses the library: all
      calls of the interface on several contexts that share packet buffers and DPDK's
      registry of fields.
    - src/src/parser.cpp and parser.h recognise RoCE and CM packets and keep the
      offsets of the headers in two dynamic fields of the packet buffer, through the
      inline functions of src/include/libconntrack-cm.h.  [Mbuf] has the buffer, the
      fields and the header accessors, [Parser] the parser and its constructor.
    - src/src/cm_connection_tracker.cpp and .h keep flows by local communication id
      and by remote address and id, and the table of established queue pairs.
      [Tracker] has the flow objects (a heap, since the two maps share objects by
      [shared_ptr]), the tables, a handler per message kind and direction, and the
      dispatch, in a state and fault monad.  The tracker reads packets through the
      interface [CmPacket.CmPacket], which packet buffers and decoded messages
      implement.
    - src/src/iba.h, bitfield.h and ibta_vol1_c12.h describe and access the fields of
      CM messages: [Iba], [Bitfield], [IbtaC12].
    - src/src/rxe_hdr.h and rxe_opcode.h (BTH and extended headers): [RxeHdr],
      [RxeOpcode]; src/src/ib_mad.h and ib_pack.h: [IbMad], [IbPack].
    - src/src/cnp.cpp builds notification packets: [Cnp].
    - src/src/build_bug.h and the assertions of linux-compat.h break the build:
      [BuildBug] has the outcome of the build as a value.
    - src/src/logging.h and [flow_state::log]: [Log].  [TrackerLog] has the tracker's
      operations once more with every line that they write.
    - src/tests/test_cnp.cpp is the program's test: [TestCnp].

    [Prelude] has outcomes, machine integers and bit lemmas; [Memory] byte buffers,
    byte order and typed access; [Layout] the C layout of structs, from which every
    [sizeof] and [offsetof] of the model is computed.

    An operation that can stop the program returns [result]: [AssertFailure] for an
    [assert] that fails (the sources are parameterised by the build, [Build]: with
    [NDEBUG] assertions are nothing; theorems are about the build with assertions
    unless they say otherwise), [OutOfBounds] for an access outside the buffer, [NullPointer]
    for the use of a null pointer.  Integers are in [Z], with the conversions to their
    widths written out.  Theorems about bytes hold on hosts of either byte order
    ([Memory.Endian]).

    DPDK is a parameter: [Mbuf.Dpdk] and [Parser.DynfieldRegistry], with the documented
    behaviour that is relied on in [Mbuf.DpdkLaws] and [Parser.DynfieldLaws];
    [DpdkModel] is an instance of both, with the CRC-32 of Ethernet.  So is the table
    rxe_opcode, which rxe_opcode.h declares and no file defines; [RxePkt.entry_ok] says
    what an entry that describes a packet is like.

    ** What is proved

    - The interface ([Main]): parsing and processing complete packets is running the
      tracker on the messages that their bytes carry; creation, exception and offsets;
      a packet shorter than the parser's checks assume is read past its end.  [Api]:
      every process that uses the library keeps the trackers of its contexts
      consistent and their offsets the same, so that contexts can share packets; on
      traffic of peers that follow the protocol no call ever stops the program and
      answers are right.  [Notify]: from the packets of a handshake to a finished
      notification for the sender that the query names.  [Portable]: hosts of any byte
      order that see the same packets give the same answers.
    - The parser ([Parser], [Mbuf]): exactly the RoCE and CM packets are recognised,
      inside the buffer; the two offsets are independent variables; a truncated packet
      fails an assertion.
    - The tracker: [TrackerInv] states the invariant [wf] and what the operations on the
      tables do to it; [TrackerStep] what one message does; [TrackerSpec] that reachable
      states satisfy the invariant and that the tracker refines a table of connections;
      [Handshake] that handshakes, teardowns and rejections have their effect between
      messages of other connections; [Conform] that the messages of peers that name both ids of
      their sessions never stop the program, in whatever order, with losses and
      repetitions; [Product] that on their traffic the tracker is the
      product of one automaton per session;
      [Recover] that a session can always be closed and opened again;
      [Network], with a tracker at every host and a network that loses, repeats and
      reorders messages, that answers at the two ends of a session never contradict
      each other and that both ends answer once the handshake came through;
      [TrackerTrace] the state machine of a flow and that answers were announced by
      messages with the ids and the address of the flow; [Widths] that ids, addresses
      and queue pair numbers keep their widths; [Growth] that a flow advances finitely often,
      that the tables never outgrow the number of packets, and that requests without a
      follow-up do pile up; [TrackerFaults] which packets stop the
      program, and that only assertions can; [Verdict] a decision table of exactly the
      messages that do.
    - Memory and build: [Relate] runs two trackers side by side, with objects at
      different places and translated addresses; from it follow [Portable] and
      [Lifetime], where flow objects have reference counts and are freed between
      packets.  [Reclaim]: on traffic of conforming peers memory then holds exactly the
      flows of the open sessions, and sessions that ended leave nothing behind.
      [Release]: the tracker without assertions is never stopped by a packet that can
      be read, and a truncated packet is read past its end; on the way, that the build
      without assertions does what the other does where that goes on.
    - The log ([LogSpec]): the connections that it reports account for the table of
      queue pairs; the transcription with the log is related to [Tracker] first.
    - Notification packets ([Cnp]): the bytes of the template and of the finished packet,
      that the parser recognises it, and that a finished packet can be used again as a
      template.  The program's test passes on little-endian hosts ([TestCnp]).
    - Headers and fields: accessors read and write the bits that the protocol assigns
      ([RxeHdrSpec], [Iba], [IbtaC12], [IbMad], [Bitfield], [RxeOpcode], [IbPack]), also
      when they find their header through the opcode of the packet, and the extent of
      the payload ([RxePkt]); what
      the field macros check at build time and at run time, and that the generated
      functions are the macros ([BitfieldSpec]).

    [Witnesses], [Examples], [Scenarios] and [Variants] apply the theorems to concrete
    packets and runs, among them the packet of src/tests/test_cnp.cpp.

    ** Bounds

    Loops are over lists ([Tracker.run], [Lifetime.run_rc], [Main.handle_all], [Api.do_calls],
    [Parser.register_loop]) or over the structure of a type ([Layout.layout]).  Two
    have fuel: [Log.hex_digits] the eight digits of a 32-bit number, which
    [Log.hex_roundtrip] shows to be enough, and [TestCnp.hexdump_loop] the length of the
    buffer, which [TestCnp.hexdump_terminates] shows to be enough.
    Communication ids and queue pair numbers are as wide as the messages make them (32
    and 24 bits, [CmPacket.CmPacketLaws]).

    ** What is not modelled

    Where [rte_log] sends the lines of the log (how the compiler spells the name of a
    function in them is a parameter), exhaustion of memory in the standard containers,
    threads (the library has no locks; static state that its calls reach outside it,
    such as the buffer of [inet_ntoa] and the state of [rte_log], is not represented, so
    [Api] says nothing about calls that run at the same time), the point within a
    handler at which an object is freed ([Lifetime] frees when the handler has
    returned), the start and stop of DPDK and the framework around the test
    (parameters of [TestCnp]), packets of more than one segment ([buf] is the
    first segment, as [rte_pktmbuf_mtod] gives it), and functions and tables that headers
    declare and no file defines ([ib_pack], [ib_ud_header_init], [ib_response_mad],
    [rxe_wr_opcode_info] and the like). *)

From Stdlib Require Import ZArith Lia Btauto.
From stdpp Require Import base tactics numbers option list gmap.
From coqutil Require Import Z.bitblast.

Open Scope Z_scope.

(** ** Outcomes

    A C++ expression either yields a value or stops the program.  The ways to
    stop that the sources can reach are an [assert] that fails (meson's default
    build keeps assertions), an access outside the packet buffer, and the
    dereference of a null pointer. *)
Inductive fault := AssertFailure | OutOfBounds | NullPointer.

Inductive result (A : Type) :=
| Ok (a : A)
| Fault (f : fault).
Arguments Ok {A} a.
Arguments Fault {A} f.

#[global] Instance fault_eq_dec : EqDecision fault.
Proof. solve_decision. Defined.

#[global] Instance result_eq_dec `{EqDecision A} : EqDecision (result A).
Proof. solve_decision. Defined.

#[global] Instance result_ret : MRet result := λ A a, Ok a.

#[global] Instance result_bind : MBind result := λ A B k e,
  match e with Ok a => k a | Fault f => Fault f end.

(** [assert(b)] of <assert.h>: with [NDEBUG] defined it expands to nothing. *)
Class Build := { NDEBUG : bool }.
Definition assert_that `{Build} (b : bool) : result unit :=
  if NDEBUG then Ok tt else if b then Ok tt else Fault AssertFailure.

(** The build file leaves assertions on: the build that theorems are about unless
    they say otherwise. *)
#[global] Instance debug_build : Build | 100 := {| NDEBUG := false |}.
Definition release_build : Build := {| NDEBUG := true |}.

(** The use of a possibly null pointer. *)
Definition deref {A} (p : option A) : result A :=
  match p with Some a => Ok a | None => Fault NullPointer end.

(** ** Unsigned machine integers: the value of a cast to the type. *)
Definition u8 (z : Z) : Z := z mod 2 ^ 8.
Definition u16 (z : Z) : Z := z mod 2 ^ 16.
Definition u32 (z : Z) : Z := z mod 2 ^ 32.
Definition u64 (z : Z) : Z := z mod 2 ^ 64.

(** ** Notations of the development *)
Declare Scope ctcm_scope.
Delimit Scope ctcm_scope with ctcm.

(** C's bitwise operators on integers of either signedness (the shifts are
    stdpp's [≪] and [≫]). *)
Infix "&&&" := Z.land (at level 40, left associativity) : ctcm_scope.
Infix "|||" := Z.lor (at level 50, left associativity) : ctcm_scope.
Notation "~~ x" := (Z.lnot x) (at level 35, right associativity) : ctcm_scope.

(** ** Inverting and running monadic code *)
Lemma bind_Ok {A B} (e : result A) (k : A → result B) (b : B) :
  e ≫= k = Ok b ↔ ∃ a, e = Ok a ∧ k a = Ok b.
Proof.
  destruct e as [a | f]; cbn; split; intros H.
  - by exists a.
  - by destruct H as (a' & [= ->] & H).
  - done.
  - by destruct H as (a' & H & _).
Qed.

Lemma bind_Ok_l {A B} (a : A) (k : A → result B) : Ok a ≫= k = k a.
Proof. reflexivity. Qed.

Lemma assert_that_Ok (b : bool) u : assert_that b = Ok u ↔ b = true.
Proof. destruct b, u; cbn; split; congruence. Qed.

Lemma deref_Ok {A} (p : option A) a : deref p = Ok a ↔ p = Some a.
Proof. destruct p; cbn; split; congruence. Qed.

Create HintDb ctcm discriminated.
Create Rewrite HintDb ctcm.
#[export] Hint Rewrite @bind_Ok_l : ctcm.

(** Decompose every hypothesis [x ← e; k = Ok b] into its steps. *)
Ltac inv_ok :=
  repeat match goal with
  | H : _ ≫= _ = Ok _ |- _ =>
      let a := fresh "a" in let E := fresh "E" in
      apply bind_Ok in H as (a & E & H)
  | H : mret _ = Ok _ |- _ => unfold mret, result_ret in H
  | H : Ok _ = Ok _ |- _ => injection H as H; subst
  | H : Fault _ = Ok _ |- _ => discriminate H
  | H : Ok _ = Fault _ |- _ => discriminate H
  | H : assert_that _ = Ok _ |- _ => apply assert_that_Ok in H
  | H : deref _ = Ok _ |- _ => apply deref_Ok in H
  end.

(** ** Bits *)

Lemma testbit_high (n x i : Z) :
  0 ≤ n → 0 ≤ x < 2 ^ n → n ≤ i → Z.testbit x i = false.
Proof.
  intros Hn Hx Hi. rewrite <- (Z.mod_small x (2 ^ n)) by lia.
  rewrite Z.testbit_mod_pow2 by lia. destruct (Z.ltb_spec i n); [lia | done].
Qed.

(** A number is below [2^n] when its bits from [n] on are clear. *)
Lemma bound_of_bits (n x : Z) :
  0 ≤ n → (∀ i, n ≤ i → Z.testbit x i = false) → 0 ≤ x < 2 ^ n.
Proof.
  intros Hn H. assert (x = x mod 2 ^ n) as ->; [|apply Z.mod_pos_bound; lia].
  apply Z.bits_inj'. intros i Hi. rewrite Z.testbit_mod_pow2 by lia.
  destruct (Z.ltb_spec i n); cbn; [done | by apply H].
Qed.

Lemma ones_testbit (n i : Z) :
  0 ≤ n → 0 ≤ i → Z.testbit (Z.ones n) i = (i <? n).
Proof. intros. rewrite Z.testbit_ones_nonneg by lia. done. Qed.

Lemma land_bound_l (n a b : Z) :
  0 ≤ n → 0 ≤ a < 2 ^ n → 0 ≤ Z.land a b < 2 ^ n.
Proof.
  intros Hn Ha. apply bound_of_bits; [done|]. intros i Hi.
  rewrite Z.land_spec, (testbit_high n a) by lia. done.
Qed.

Lemma land_bound_r (n a b : Z) :
  0 ≤ n → 0 ≤ b < 2 ^ n → 0 ≤ Z.land a b < 2 ^ n.
Proof. intros. rewrite Z.land_comm. by apply land_bound_l. Qed.

Lemma lor_bound (n a b : Z) :
  0 ≤ n → 0 ≤ a < 2 ^ n → 0 ≤ b < 2 ^ n → 0 ≤ Z.lor a b < 2 ^ n.
Proof.
  intros Hn Ha Hb. apply bound_of_bits; [done|]. intros i Hi.
  rewrite Z.lor_spec, (testbit_high n a), (testbit_high n b) by lia. done.
Qed.

(** Masked update: what is read back through a mask after the bits of a mask
    were replaced. *)
Lemma mask_update_same (m x r : Z) :
  Z.land m (Z.lor (Z.land m x) (Z.land (Z.lnot m) r)) = Z.land m x.
Proof. Z.bitblast. Qed.

Lemma mask_update_other (m m' x r : Z) :
  Z.land m' m = 0 →
  Z.land m' (Z.lor (Z.land m x) (Z.land (Z.lnot m) r)) = Z.land m' r.
Proof.
  intros H. apply Z.bits_inj'. intros i Hi.
  apply (f_equal (λ z, Z.testbit z i)) in H.
  rewrite Z.land_spec, Z.bits_0 in H.
  rewrite !Z.land_spec, Z.lor_spec, !Z.land_spec, Z.lnot_spec by lia.
  destruct (Z.testbit m' i), (Z.testbit m i), (Z.testbit x i), (Z.testbit r i);
    cbn in *; congruence.
Qed.

(** A contiguous mask starting at bit [l], [n] bits wide, selects a slice. *)
Lemma land_ones_slice (l n x : Z) :
  0 ≤ l → 0 ≤ n →
  Z.shiftr (Z.land x (Z.shiftl (Z.ones n) l)) l = (x / 2 ^ l) mod 2 ^ n.
Proof.
  intros Hl Hn. apply Z.bits_inj'. intros i Hi.
  rewrite Z.shiftr_spec, Z.land_spec, Z.shiftl_spec by lia.
  rewrite Z.testbit_mod_pow2, Z.div_pow2_bits by lia.
  replace (i + l - l) with i by lia. rewrite ones_testbit by lia. btauto.
Qed.

Lemma testbit_shiftl (a n i : Z) :
  0 ≤ i → Z.testbit (Z.shiftl a n) i = (n <=? i) && Z.testbit a (i - n).
Proof.
  intros. rewrite Z.shiftl_spec by lia. destruct (Z.leb_spec n i); [done|].
  by rewrite Z.testbit_neg_r by lia.
Qed.

(** Equality of integers by their bits: push [Z.testbit] through the operations,
    then decide the remaining boolean statement.  Files that define masks extend
    the database with their bits. *)
Create Rewrite HintDb bits.
#[export] Hint Rewrite Z.land_spec Z.lor_spec Z.bits_0 Z.add_0_r Z.sub_0_r Z.add_simpl_r : bits.
#[export] Hint Rewrite Z.lnot_spec Z.testbit_mod_pow2 Z.div_pow2_bits testbit_shiftl
  Z.shiftr_spec ones_testbit Z.pow2_bits_eqb using lia : bits.

Ltac bits_split :=
  repeat match goal with
  | |- context [Z.testbit ?x ?i] =>
      let b := fresh "b" in
      lazymatch i with
      | context [Z.testbit _ _] => fail
      | _ => set (b := Z.testbit x i); clearbody b; destruct b
      end
  end.

(** Widths of the integer types are numerals. *)
Ltac norm_widths :=
  repeat match goal with
  | |- context [Z.of_nat ?n * 8] =>
      let v := eval vm_compute in (Z.of_nat n * 8) in
      lazymatch v with Zpos _ => change (Z.of_nat n * 8) with v end
  end.

Ltac bits_solve :=
  norm_widths; autorewrite with bits; try done; bits_split; try done; lia.

Ltac bits_eq := apply Z.bits_inj'; intros ?i ?Hi; bits_solve.
