(* ===== verification/Memory.v ===== *)
(** * Memory: byte buffers, byte order and typed access

    The packet buffer is a list of bytes and a pointer into it is an integer
    offset.  An access through a pointer of an integer type reads or writes the
    bytes in the host's order; an access outside the buffer is the fault
    [OutOfBounds].  The byte-order conversions of <arpa/inet.h> and <endian.h>
    (renamed by src/src/linux-compat.h) depend on the host's order, which is a
    parameter: every theorem holds on little- and big-endian hosts.  *)

From Stdlib Require Import ZArith Lia Btauto.
From stdpp Require Import base tactics numbers list.
From coqutil Require Import Byte Word.LittleEndianList Z.bitblast.
From S2P Require Import Prelude.

Open Scope Z_scope.

Abbreviation byte := Init.Byte.byte.
Abbreviation le_combine := LittleEndianList.le_combine.
Abbreviation le_split := LittleEndianList.le_split.

(** ** Byte order *)

(** The byte order of the host. *)
Class Endian := { little_endian : bool }.

Definition LittleEndianHost : Endian := {| little_endian := true |}.
Definition BigEndianHost : Endian := {| little_endian := false |}.

(** Network order: the most significant byte first. *)
Definition be_combine (bs : list byte) : Z := le_combine (rev bs).
Definition be_split (n : nat) (v : Z) : list byte := rev (le_split n v).

(** Reversal of the [n] bytes of an integer. *)
Definition bswap (n : nat) (v : Z) : Z := le_combine (rev (le_split n v)).

Section ByteOrder.
Context `{Endian}.

Definition host_combine (bs : list byte) : Z :=
  if little_endian then le_combine bs else be_combine bs.

Definition host_split (n : nat) (v : Z) : list byte :=
  if little_endian then le_split n v else be_split n v.

(** [htobe16]/[htons], [htobe32]/[htonl] and [htobe64] at [n] = 2, 4 and 8; the
    same functions convert back.  The argument is first converted to the type
    of the parameter. *)
Definition htobe (n : nat) (v : Z) : Z :=
  if little_endian then bswap n v else v mod 2 ^ (Z.of_nat n * 8).

(** [htole16] etc., used by the accessors that bitfield.h generates. *)
Definition htole (n : nat) (v : Z) : Z :=
  if little_endian then v mod 2 ^ (Z.of_nat n * 8) else bswap n v.

Definition htons (v : Z) : Z := htobe 2 v.
Definition ntohs (v : Z) : Z := htobe 2 v.
Definition htonl (v : Z) : Z := htobe 4 v.
Definition ntohl (v : Z) : Z := htobe 4 v.
Definition be16toh (v : Z) : Z := htobe 2 v.
Definition be32toh (v : Z) : Z := htobe 4 v.
Definition be64toh (v : Z) : Z := htobe 8 v.
Definition htobe16 (v : Z) : Z := htobe 2 v.
Definition htobe32 (v : Z) : Z := htobe 4 v.
Definition htobe64 (v : Z) : Z := htobe 8 v.

(** ** Access *)

Definition in_range (m : list byte) (p : Z) (n : nat) : bool :=
  (0 <=? p) && (p + Z.of_nat n <=? Z.of_nat (length m)).

Definition load (m : list byte) (p : Z) (n : nat) : result (list byte) :=
  if in_range m p n then Ok (take n (drop (Z.to_nat p) m)) else Fault OutOfBounds.

Definition store (m : list byte) (p : Z) (bs : list byte) : result (list byte) :=
  if in_range m p (length bs)
  then Ok (take (Z.to_nat p) m ++ bs ++ drop (Z.to_nat p + length bs) m)
  else Fault OutOfBounds.

(** Access to an unsigned integer of [n] bytes. *)
Definition load_int (n : nat) (m : list byte) (p : Z) : result Z :=
  bs ← load m p n; Ok (host_combine bs).

Definition store_int (n : nat) (m : list byte) (p v : Z) : result (list byte) :=
  store m p (host_split n v).

Definition load8 := load_int 1.
Definition load16 := load_int 2.
Definition load32 := load_int 4.
Definition load64 := load_int 8.
Definition store8 := store_int 1.
Definition store16 := store_int 2.
Definition store32 := store_int 4.
Definition store64 := store_int 8.

(** What the buffer holds at [p] as an [n]-byte big-endian number: the value
    that the protocol defines, whatever the host. *)
Definition be_at (m : list byte) (p : Z) (n : nat) : Z :=
  be_combine (take n (drop (Z.to_nat p) m)).

(** [m'] is [m] with the [n] bytes at [p] replaced by the big-endian [v]. *)
Record writes (m m' : list byte) (p : Z) (n : nat) (v : Z) : Prop := {
  writes_range : in_range m p n = true;
  writes_value : be_at m' p n = v;
  writes_length : length m' = length m;
  writes_frame : ∀ k : nat, Z.of_nat k < p ∨ p + Z.of_nat n ≤ Z.of_nat k → m' !! k = m !! k;
}.

(** The position of the bit that [htobe] moves to position [i]. *)
Definition bit_source (n : nat) (i : Z) : Z :=
  if little_endian then 8 * (Z.of_nat n - 1 - i / 8) + i mod 8 else i.

(** [m'] has the size of [m] and differs from it only in [[lo, hi)]. *)
Definition same_outside (lo hi : Z) (m m' : list byte) : Prop :=
  length m' = length m ∧
  ∀ k : nat, Z.of_nat k < lo ∨ hi ≤ Z.of_nat k → m' !! k = m !! k.

(** *** Lengths and inverses of the byte-order functions *)

Lemma length_be_split n v : length (be_split n v) = n.
Proof. unfold be_split. by rewrite length_rev, LittleEndianList.length_le_split. Qed.

Lemma length_host_split n v : length (host_split n v) = n.
Proof.
  unfold host_split. destruct little_endian.
  - apply LittleEndianList.length_le_split.
  - apply length_be_split.
Qed.

Lemma le_combine_range bs : 0 ≤ le_combine bs < 2 ^ (Z.of_nat (length bs) * 8).
Proof. rewrite Z.mul_comm. apply LittleEndianList.le_combine_bound. Qed.

Lemma be_combine_range bs : 0 ≤ be_combine bs < 2 ^ (Z.of_nat (length bs) * 8).
Proof. unfold be_combine. rewrite <- length_rev. apply le_combine_range. Qed.

Lemma be_combine_split n v : be_combine (be_split n v) = v mod 2 ^ (Z.of_nat n * 8).
Proof.
  unfold be_combine, be_split. rewrite rev_involutive.
  apply LittleEndianList.le_combine_split.
Qed.

Lemma be_split_combine n bs : length bs = n → be_split n (be_combine bs) = bs.
Proof.
  intros <-. unfold be_split, be_combine. rewrite <- length_rev.
  by rewrite LittleEndianList.split_le_combine, rev_involutive.
Qed.

Lemma bswap_range n v : 0 ≤ bswap n v < 2 ^ (Z.of_nat n * 8).
Proof.
  unfold bswap. pose proof (le_combine_range (rev (le_split n v))) as Hr.
  by rewrite length_rev, LittleEndianList.length_le_split in Hr.
Qed.

Lemma htobe_range n v : 0 ≤ htobe n v < 2 ^ (Z.of_nat n * 8).
Proof.
  unfold htobe. destruct little_endian; [apply bswap_range|].
  apply Z.mod_pos_bound, Z.pow_pos_nonneg; lia.
Qed.

(** Converting to network order and storing writes the bytes big-endian. *)
Lemma host_split_htobe n v : host_split n (htobe n v) = be_split n v.
Proof.
  unfold host_split, htobe, bswap, be_split. destruct little_endian.
  - by rewrite LittleEndianList.split_le_combine'
      by (rewrite length_rev; apply LittleEndianList.length_le_split).
  - by rewrite <- LittleEndianList.le_split_mod.
Qed.

(** What a host-order load reads is the network-order value converted. *)
Lemma host_combine_htobe n bs :
  length bs = n → host_combine bs = htobe n (be_combine bs).
Proof.
  intros Hn. unfold host_combine, htobe, bswap, be_combine. destruct little_endian.
  - rewrite LittleEndianList.split_le_combine' by (by rewrite length_rev).
    by rewrite rev_involutive.
  - rewrite Z.mod_small; [done|]. rewrite <- Hn, <- (length_rev bs).
    apply le_combine_range.
Qed.

(** The conversions are involutive on the type's values. *)
Lemma htobe_htobe n v : htobe n (htobe n v) = v mod 2 ^ (Z.of_nat n * 8).
Proof.
  unfold htobe, bswap. destruct little_endian.
  - rewrite LittleEndianList.split_le_combine'
      by (rewrite length_rev; apply LittleEndianList.length_le_split).
    by rewrite rev_involutive, LittleEndianList.le_combine_split.
  - by rewrite Z.mod_mod by (apply Z.pow_nonzero; lia).
Qed.

Lemma htobe_inv n v : 0 ≤ v < 2 ^ (Z.of_nat n * 8) → htobe n (htobe n v) = v.
Proof. intros. rewrite htobe_htobe. by apply Z.mod_small. Qed.

(** Loading a big-endian field and converting it yields the protocol's value. *)
Lemma ntoh_host_combine n bs :
  length bs = n → htobe n (host_combine bs) = be_combine bs.
Proof.
  intros Hn. rewrite (host_combine_htobe n) by done.
  apply htobe_inv. rewrite <- Hn. apply be_combine_range.
Qed.

(** *** Bits of byte lists *)

(** Bit [i] of a little-endian number is bit [i mod 8] of byte [i / 8]. *)
Lemma testbit_le_combine bs i :
  0 ≤ i →
  Z.testbit (le_combine bs) i =
  Z.testbit (byte.unsigned (nth (Z.to_nat (i / 8)) bs Byte.x00)) (i mod 8).
Proof.
  revert i. induction bs as [|b bs IH]; intros i Hi.
  - change (le_combine []) with 0. destruct (Z.to_nat (i / 8)); cbn [nth];
      change (byte.unsigned Byte.x00) with 0; by rewrite !Z.bits_0.
  - change (le_combine (b :: bs)) with
      (Z.lor (byte.unsigned b) (Z.shiftl (le_combine bs) 8)).
    pose proof (byte.unsigned_range b) as Hb.
    rewrite Z.lor_spec. destruct (Z.ltb_spec i 8) as [H8|H8].
    + rewrite Z.shiftl_spec_low, orb_false_r by lia.
      rewrite Z.div_small, Z.mod_small by lia. done.
    + rewrite (testbit_high 8 _ i) by lia. rewrite Z.shiftl_spec, IH by lia.
      replace (i / 8) with (Z.succ ((i - 8) / 8)) by
        (rewrite <- (Z.add_1_l ((i - 8) / 8)), <- Z.div_add_l by lia; f_equal; lia).
      rewrite Z2Nat.inj_succ by (apply Z.div_pos; lia). cbn [nth orb].
      f_equal. replace i with ((i - 8) + 1 * 8) at 2 by lia.
      by rewrite Z.mod_add by lia.
Qed.

Lemma nth_le_split n v k :
  (k < n)%nat →
  nth k (le_split n v) Byte.x00 = byte.of_Z (Z.shiftr v (8 * Z.of_nat k)).
Proof.
  intros Hk. rewrite <- (LittleEndianList.nth_default_le_split k n v Hk Byte.x00).
  symmetry. apply nth_default_eq.
Qed.

Lemma bit_source_range n i :
  0 ≤ i < Z.of_nat n * 8 → 0 ≤ bit_source n i < Z.of_nat n * 8.
Proof.
  intros Hi. unfold bit_source. destruct little_endian; [|lia].
  pose proof (Z.mod_pos_bound i 8). pose proof (Z.div_mod i 8). nia.
Qed.

Lemma testbit_htobe n v i :
  0 ≤ i →
  Z.testbit (htobe n v) i =
  (i <? Z.of_nat n * 8) && Z.testbit v (bit_source n i).
Proof.
  intros Hi. unfold htobe, bit_source.
  destruct (Z.ltb_spec i (Z.of_nat n * 8)) as [Hn|Hn]; cbn [andb].
  2:{ apply (testbit_high (Z.of_nat n * 8)); [lia| |lia]. apply htobe_range. }
  destruct little_endian.
  2:{ rewrite Z.testbit_mod_pow2 by lia. destruct (Z.ltb_spec i (Z.of_nat n * 8)); [done|lia]. }
  unfold bswap. rewrite testbit_le_combine by done.
  assert (Hq : (Z.to_nat (i / 8) < n)%nat).
  { pose proof (Z.div_lt_upper_bound i 8 (Z.of_nat n)). lia. }
  rewrite rev_nth by (by rewrite LittleEndianList.length_le_split).
  rewrite LittleEndianList.length_le_split, nth_le_split by lia.
  rewrite byte.unsigned_of_Z. unfold byte.wrap.
  pose proof (Z.mod_pos_bound i 8 ltac:(lia)).
  rewrite Z.testbit_mod_pow2, Z.shiftr_spec by lia.
  destruct (Z.ltb_spec (i mod 8) 8); [cbn [andb]|lia].
  f_equal. pose proof (Z.div_pos i 8). lia.
Qed.

(** Bitwise operations may be done before or after the conversion: the code
    tests and sets flags in the raw field against a converted mask. *)
Lemma htobe_land n a b : Z.land (htobe n a) (htobe n b) = htobe n (Z.land a b).
Proof.
  apply Z.bits_inj'. intros i Hi.
  rewrite Z.land_spec, !testbit_htobe, Z.land_spec by done. btauto.
Qed.

Lemma htobe_lor n a b : Z.lor (htobe n a) (htobe n b) = htobe n (Z.lor a b).
Proof.
  apply Z.bits_inj'. intros i Hi.
  rewrite Z.lor_spec, !testbit_htobe, Z.lor_spec by done. btauto.
Qed.

Lemma htobe_land_lnot n a b :
  Z.land (htobe n a) (Z.lnot (htobe n b)) = htobe n (Z.land a (Z.lnot b)).
Proof.
  apply Z.bits_inj'. intros i Hi.
  rewrite Z.land_spec, Z.lnot_spec, !testbit_htobe by done.
  destruct (Z.ltb_spec i (Z.of_nat n * 8)); cbn; [|done].
  pose proof (bit_source_range n i).
  rewrite Z.land_spec, Z.lnot_spec by lia. done.
Qed.

Lemma htobe_0 n : htobe n 0 = 0.
Proof.
  apply Z.bits_inj'. intros i Hi. rewrite testbit_htobe, !Z.bits_0 by done. btauto.
Qed.

Lemma htobe_eqb_0 n v : 0 ≤ v < 2 ^ (Z.of_nat n * 8) → (htobe n v =? 0) = (v =? 0).
Proof.
  intros Hv. destruct (Z.eqb_spec v 0) as [->|Hne]; [by rewrite htobe_0|].
  apply Z.eqb_neq. intros H0. apply Hne.
  by rewrite <- (htobe_inv n v), H0, htobe_0.
Qed.

(** *** Loads and stores *)

Lemma in_range_true m p n :
  in_range m p n = true ↔ 0 ≤ p ∧ p + Z.of_nat n ≤ Z.of_nat (length m).
Proof. unfold in_range. rewrite andb_true_iff, Z.leb_le, Z.leb_le. done. Qed.

Lemma load_Ok m p n bs :
  load m p n = Ok bs ↔ in_range m p n = true ∧ bs = take n (drop (Z.to_nat p) m).
Proof. unfold load. destruct in_range; split; [|intros []|..]; intuition congruence. Qed.

Lemma load_length m p n bs : load m p n = Ok bs → length bs = n.
Proof.
  intros [Hr ->]%load_Ok. apply in_range_true in Hr as [Hp Hn].
  rewrite length_take, length_drop. lia.
Qed.

Lemma load_int_Ok n m p v :
  load_int n m p = Ok v ↔ in_range m p n = true ∧ v = htobe n (be_at m p n).
Proof.
  unfold load_int, be_at. split.
  - intros Hv. inv_ok. pose proof (load_length _ _ _ _ E) as Hl.
    apply load_Ok in E as [Hr ->]. split; [done|]. by apply host_combine_htobe.
  - intros [Hr ->]. unfold load. rewrite Hr. cbn. f_equal.
    apply in_range_true in Hr. apply host_combine_htobe.
    rewrite length_take, length_drop. lia.
Qed.

Lemma load_int_in n m p :
  in_range m p n = true → load_int n m p = Ok (htobe n (be_at m p n)).
Proof. intros Hr. apply load_int_Ok. done. Qed.

Lemma be_at_range m p n : 0 ≤ be_at m p n < 2 ^ (Z.of_nat n * 8).
Proof.
  unfold be_at. pose proof (be_combine_range (take n (drop (Z.to_nat p) m))) as Hb.
  split; [lia|]. eapply Z.lt_le_trans; [apply Hb|].
  apply Z.pow_le_mono_r; [lia|]. rewrite length_take. lia.
Qed.

Lemma htobe_be_at n m p : htobe n (htobe n (be_at m p n)) = be_at m p n.
Proof. apply htobe_inv, be_at_range. Qed.

Lemma store_in m p bs :
  in_range m p (length bs) = true →
  store m p bs = Ok (take (Z.to_nat p) m ++ bs ++ drop (Z.to_nat p + length bs) m).
Proof. intros Hr. unfold store. by rewrite Hr. Qed.

Lemma store_Ok m p bs m' :
  store m p bs = Ok m' ↔
  in_range m p (length bs) = true ∧
  m' = take (Z.to_nat p) m ++ bs ++ drop (Z.to_nat p + length bs) m.
Proof. unfold store. destruct in_range; split; [|intros []|..]; intuition congruence. Qed.

Lemma store_length m p bs m' : store m p bs = Ok m' → length m' = length m.
Proof.
  intros [Hr ->]%store_Ok. apply in_range_true in Hr.
  rewrite !length_app, length_take, length_drop. lia.
Qed.

Lemma in_range_store m p bs m' q n :
  store m p bs = Ok m' → in_range m' q n = in_range m q n.
Proof. intros H'%store_length. unfold in_range. by rewrite H'. Qed.

(** The bytes written are read back, the bytes elsewhere are unchanged. *)
Lemma take_drop_store_same m p bs m' :
  store m p bs = Ok m' → take (length bs) (drop (Z.to_nat p) m') = bs.
Proof.
  intros [Hr ->]%store_Ok. apply in_range_true in Hr.
  rewrite drop_app_ge by (rewrite length_take; lia).
  rewrite length_take, Nat.min_l by lia. rewrite Nat.sub_diag, drop_0.
  by rewrite take_app_le, take_ge by lia.
Qed.

Lemma lookup_store_other m p bs m' (k : nat) :
  store m p bs = Ok m' →
  Z.of_nat k < p ∨ p + Z.of_nat (length bs) ≤ Z.of_nat k →
  m' !! k = m !! k.
Proof.
  intros [Hr ->]%store_Ok Hk. apply in_range_true in Hr. destruct Hk as [Hk|Hk].
  - rewrite lookup_app_l by (rewrite length_take; lia).
    by rewrite lookup_take_lt by lia.
  - rewrite lookup_app_r by (rewrite length_take; lia).
    rewrite length_take, Nat.min_l by lia.
    rewrite lookup_app_r by lia. rewrite lookup_drop. f_equal. lia.
Qed.

Lemma take_drop_store_other m p bs m' q n :
  store m p bs = Ok m' → 0 ≤ q →
  q + Z.of_nat n ≤ p ∨ p + Z.of_nat (length bs) ≤ q →
  take n (drop (Z.to_nat q) m') = take n (drop (Z.to_nat q) m).
Proof.
  intros Hs Hq Hd. apply list_eq. intros k.
  destruct (decide (k < n)%nat) as [Hk|Hk].
  - rewrite !lookup_take_lt, !lookup_drop by done.
    eapply lookup_store_other; [done|]. lia.
  - by rewrite !lookup_take_ge by lia.
Qed.

(** The network-order value after a store, and beside it. *)
Lemma be_at_store_same n m p v m' :
  store_int n m p (htobe n v) = Ok m' → be_at m' p n = v mod 2 ^ (Z.of_nat n * 8).
Proof.
  unfold store_int. rewrite host_split_htobe. intros Hs.
  apply take_drop_store_same in Hs. rewrite length_be_split in Hs.
  unfold be_at. rewrite Hs. apply be_combine_split.
Qed.

Lemma be_at_store_other m p bs m' q n :
  store m p bs = Ok m' → 0 ≤ q →
  q + Z.of_nat n ≤ p ∨ p + Z.of_nat (length bs) ≤ q →
  be_at m' q n = be_at m q n.
Proof. intros. unfold be_at. by erewrite take_drop_store_other. Qed.

Lemma be_at_store_int_other k m p v m' q n :
  store_int k m p v = Ok m' → 0 ≤ q →
  q + Z.of_nat n ≤ p ∨ p + Z.of_nat k ≤ q →
  be_at m' q n = be_at m q n.
Proof.
  intros Hs Hq Hd. eapply be_at_store_other; [done..|].
  by rewrite length_host_split.
Qed.

Lemma store_int_in n m p v :
  in_range m p n = true → ∃ m', store_int n m p v = Ok m'.
Proof.
  intros Hr. unfold store_int. eexists. apply store_in. by rewrite length_host_split.
Qed.

Lemma store_int_length n m p v m' : store_int n m p v = Ok m' → length m' = length m.
Proof. apply store_length. Qed.

(** A sub-range of a range. *)
Lemma in_range_sub m p n q k :
  in_range m p n = true → p ≤ q → q + Z.of_nat k ≤ p + Z.of_nat n →
  in_range m q k = true.
Proof. rewrite !in_range_true. lia. Qed.

(** The conversion of a single byte is the identity. *)
Lemma htobe_1 v : htobe 1 v = v mod 2 ^ 8.
Proof.
  apply Z.bits_inj'. intros i Hi.
  rewrite testbit_htobe, Z.testbit_mod_pow2 by lia. change (Z.of_nat 1 * 8) with 8.
  destruct (Z.ltb_spec i 8) as [H8|H8]; cbn [andb]; [|done]. f_equal.
  unfold bit_source. destruct little_endian; [|done].
  rewrite Z.div_small, Z.mod_small by lia. lia.
Qed.

(** *** Writing a value in network order *)

Lemma store_writes n m p v :
  in_range m p n = true →
  ∃ m', store_int n m p (htobe n v) = Ok m' ∧ writes m m' p n (v mod 2 ^ (Z.of_nat n * 8)).
Proof.
  intros Hr. destruct (store_int_in n m p (htobe n v) Hr) as [m' Hm']. exists m'.
  split; [done|]. constructor; [done|eapply be_at_store_same; apply Hm'|eapply store_int_length; apply Hm'|].
  intros k Hk. eapply lookup_store_other; [apply Hm'|]. by rewrite length_host_split.
Qed.

Lemma load8_in m p : in_range m p 1 = true → load8 m p = Ok (be_at m p 1).
Proof.
  intros Hr. unfold load8. rewrite load_int_in, htobe_1 by done.
  pose proof (be_at_range m p 1). by rewrite Z.mod_small.
Qed.

Lemma store8_writes m p v :
  in_range m p 1 = true → ∃ m', store8 m p v = Ok m' ∧ writes m m' p 1 (v mod 2 ^ 8).
Proof.
  intros Hr. destruct (store_writes 1 m p v Hr) as (m' & Hs & Hw). exists m'.
  split; [|done]. rewrite <- Hs. unfold store8, store_int.
  rewrite host_split_htobe. unfold host_split, be_split. f_equal.
  destruct little_endian; [|done]. cbn. done.
Qed.

Lemma writes_be_at_other m m' p n v q k :
  writes m m' p n v → 0 ≤ q → q + Z.of_nat k ≤ p ∨ p + Z.of_nat n ≤ q →
  be_at m' q k = be_at m q k.
Proof.
  intros [_ _ _ Hf] Hq Hd. unfold be_at. f_equal. apply list_eq. intros i.
  destruct (decide (i < k)%nat); [|by rewrite !lookup_take_ge by lia].
  rewrite !lookup_take_lt, !lookup_drop by done. apply Hf. lia.
Qed.

Lemma writes_in_range m m' p n v q k :
  writes m m' p n v → in_range m' q k = in_range m q k.
Proof. intros [_ _ Hl _]. unfold in_range. by rewrite Hl. Qed.

(** Changes confined to a region compose. *)
#[global] Instance same_outside_preorder lo hi : PreOrder (same_outside lo hi).
Proof.
  split; [by intros m; split|]. intros m1 m2 m3 [L12 F12] [L23 F23].
  split; [congruence|]. intros k Hk. by rewrite F23, F12.
Qed.

Lemma same_outside_weaken lo hi lo' hi' m m' :
  lo' ≤ lo → hi ≤ hi' → same_outside lo hi m m' → same_outside lo' hi' m m'.
Proof. intros ?? [HL HF]. split; [done|]. intros k Hk. apply HF. lia. Qed.

Lemma writes_same_outside m m' p n v lo hi :
  writes m m' p n v → lo ≤ p → p + Z.of_nat n ≤ hi → same_outside lo hi m m'.
Proof. intros [_ _ HL HF] ??. split; [done|]. intros k Hk. apply HF. lia. Qed.

Lemma same_outside_in_range lo hi m m' q k :
  same_outside lo hi m m' → in_range m' q k = in_range m q k.
Proof. intros [HL _]. unfold in_range. by rewrite HL. Qed.

Lemma same_outside_be_at lo hi m m' q k :
  same_outside lo hi m m' → 0 ≤ q → q + Z.of_nat k ≤ lo ∨ hi ≤ q →
  be_at m' q k = be_at m q k.
Proof.
  intros [_ HF] Hq Hd. unfold be_at. f_equal. apply list_eq. intros i.
  destruct (decide (i < k)%nat); [|by rewrite !lookup_take_ge by lia].
  rewrite !lookup_take_lt, !lookup_drop by done. apply HF. lia.
Qed.
End ByteOrder.
