(* ===== verification/Layout.v ===== *)
(** * Layout: where the compiler puts the fields of a struct

    The sources overlay C structs on packet bytes.  This file computes the
    offsets and sizes of their fields by the System V ABI's rules (each scalar
    aligned to its size, padding between fields and at the end, none under
    [__packed]), so that the accessors of the other files refer to fields by
    name, as the code does. *)

From Stdlib Require Import ZArith Lia String.
From stdpp Require Import base tactics numbers list strings.

Set Warnings "-register-all".
From S2P Require Import Prelude.

Open Scope Z_scope.

Inductive ctype :=
| Scalar (bytes : Z)
| Array (elem : ctype) (count : Z)
| Struct (packed : bool) (fields : list (string * ctype))
| Union (fields : list (string * ctype)).

(** The integer and pointer types of src/src/linux-compat.h on a 64-bit host. *)
Definition c_u8 := Scalar 1.
Definition c_u16 := Scalar 2.
Definition c_u32 := Scalar 4.
Definition c_u64 := Scalar 8.
Definition c_int := Scalar 4.
Definition c_ptr := Scalar 8.

(** [union ib_gid] is <infiniband/verbs.h>'s [union ibv_gid]: 16 raw bytes, or a
    subnet prefix and an interface id of 64 bits each. *)
Definition c_ib_gid :=
  Union [("raw"%string, Array c_u8 16);
         ("global"%string,
          Struct false [("subnet_prefix"%string, c_u64); ("interface_id"%string, c_u64)])].

Definition align_up (off a : Z) : Z := (off + a - 1) / a * a.

(** Size and alignment. *)
Fixpoint layout (t : ctype) : Z * Z :=
  match t with
  | Scalar n => (n, n)
  | Array t k => let '(s, a) := layout t in (k * s, a)
  | Struct packed fs =>
      (fix go (fs : list (string * ctype)) (off al : Z) : Z * Z :=
         match fs with
         | [] => (align_up off al, al)
         | (_, ft) :: fs' =>
             let '(s, a) := layout ft in
             let a := if packed then 1 else a in
             go fs' (align_up off a + s) (Z.max al a)
         end) fs 0 1
  | Union fs =>
      (fix go (fs : list (string * ctype)) (sz al : Z) : Z * Z :=
         match fs with
         | [] => (align_up sz al, al)
         | (_, ft) :: fs' => let '(s, a) := layout ft in go fs' (Z.max sz s) (Z.max al a)
         end) fs 0 1
  end.

Definition sizeof (t : ctype) : Z := (layout t).1.
Definition alignof (t : ctype) : Z := (layout t).2.

(** The offset and the type of each field. *)
Fixpoint field_offsets (packed : bool) (fs : list (string * ctype)) (off : Z)
  : list (string * (Z * ctype)) :=
  match fs with
  | [] => []
  | (f, ft) :: fs' =>
      let o := align_up off (if packed then 1 else alignof ft) in
      (f, (o, ft)) :: field_offsets packed fs' (o + sizeof ft)
  end.

Definition members (t : ctype) : list (string * (Z * ctype)) :=
  match t with
  | Struct packed fs => field_offsets packed fs 0
  | Union fs => (λ '(f, ft), (f, (0, ft))) <$> fs
  | _ => []
  end.

Fixpoint assoc {A} (f : string) (l : list (string * A)) : option A :=
  match l with
  | [] => None
  | (g, a) :: l' => if String.eqb f g then Some a else assoc f l'
  end.

(** [offsetof(t, f)]; a field that is not there gives an offset outside every
    buffer. *)
Definition offsetof (t : ctype) (f : string) : Z :=
  match assoc f (members t) with Some (o, _) => o | None => -1 end.

(** Replace the computed offsets and sizes by their values. *)
Ltac layout_norm :=
  repeat match goal with
  | |- context [offsetof ?t ?f] =>
      let v := eval vm_compute in (offsetof t f) in change (offsetof t f) with v
  | |- context [sizeof ?t] =>
      let v := eval vm_compute in (sizeof t) in change (sizeof t) with v
  | H : context [offsetof ?t ?f] |- _ =>
      let v := eval vm_compute in (offsetof t f) in change (offsetof t f) with v in H
  | H : context [sizeof ?t] |- _ =>
      let v := eval vm_compute in (sizeof t) in change (sizeof t) with v in H
  end.
