(* ===== verification/BuildBug.v ===== *)
(** * BuildBug: src/src/build_bug.h and the assertions of src/src/linux-compat.h

    Macros that break the build.  Their model is the outcome of compiling a use of
    the macro: the build passes, or it breaks with a message.  The condition of an
    assertion is an argument, as is whether the compiler optimises: without
    [__OPTIMIZE__] the assertions expand to nothing. *)

From Stdlib Require Import ZArith String.
From stdpp Require Import base tactics strings.
From S2P Require Import Prelude.

Local Open Scope string_scope.
Open Scope Z_scope.
Open Scope ctcm_scope.

(** How the program is compiled. *)
Class Compiler := { __OPTIMIZE__ : bool }.

Inductive build := Builds | Breaks (msg : string).

#[global] Instance build_eq_dec : EqDecision build.
Proof. solve_decision. Defined.

(** One check after the other; the first that breaks the build is reported. *)
Definition build_then (a b : build) : build :=
  match a with Builds => b | Breaks msg => Breaks msg end.
Infix ";;;" := build_then (at level 62, right associativity) : ctcm_scope.

Lemma build_then_Builds a b : (a ;;; b) = Builds ↔ a = Builds ∧ b = Builds.
Proof. destruct a; cbn; split; [done|by intros [_ ?]|done|by intros [? _]]. Qed.

Section Assertions.
Context `{Compiler}.

(** A call of a function with the attribute [error(msg)] that is not optimised
    away. *)
Definition __compiletime_error (msg : string) : build := Breaks msg.

Definition __compiletime_assert (condition : bool) (msg : string) : build :=
  if __OPTIMIZE__ then (if negb condition then __compiletime_error msg else Builds) else Builds.
Definition _compiletime_assert (condition : bool) (msg : string) : build :=
  __compiletime_assert condition msg.
Definition compiletime_assert (condition : bool) (msg : string) : build :=
  _compiletime_assert condition msg.

Definition BUILD_BUG_ON_MSG (cond : bool) (msg : string) : build := compiletime_assert (negb cond) msg.

(** [text] is the condition as it is written. *)
Definition BUILD_BUG_ON (condition : bool) (text : string) : build :=
  BUILD_BUG_ON_MSG condition ("BUILD_BUG_ON failed: " ++ text).

Definition BUILD_BUG : build := BUILD_BUG_ON_MSG true "BUILD_BUG failed".

(** For an unsigned 64-bit [n]. *)
Definition __BUILD_BUG_ON_NOT_POWER_OF_2 (n : Z) (text : string) : build :=
  BUILD_BUG_ON (negb (n &&& u64 (n - 1) =? 0)) text.
Definition BUILD_BUG_ON_NOT_POWER_OF_2 (n : Z) (text : string) : build :=
  BUILD_BUG_ON ((n =? 0) || negb (n &&& u64 (n - 1) =? 0)) text.

(** The assertion of the language does not depend on optimisation. *)
Definition __static_assert (expr : bool) (msg : string) : build :=
  if expr then Builds else Breaks msg.
Definition static_assert (expr : bool) (msg : string) : build := __static_assert expr msg.

Lemma BUILD_BUG_ON_MSG_Builds cond msg :
  BUILD_BUG_ON_MSG cond msg = Builds ↔ (__OPTIMIZE__ = true → cond = false).
Proof.
  unfold BUILD_BUG_ON_MSG, compiletime_assert, _compiletime_assert, __compiletime_assert,
    __compiletime_error.
  destruct __OPTIMIZE__, cond; cbn; split; naive_solver.
Qed.

Lemma NOT_POWER_OF_2_Builds n text :
  __BUILD_BUG_ON_NOT_POWER_OF_2 n text = Builds ↔ (__OPTIMIZE__ = true → n &&& u64 (n - 1) = 0).
Proof.
  unfold __BUILD_BUG_ON_NOT_POWER_OF_2, BUILD_BUG_ON. rewrite BUILD_BUG_ON_MSG_Builds.
  by rewrite negb_false_iff, Z.eqb_eq.
Qed.
End Assertions.

(** ** Expressions that break the build *)
Section Expressions.
(** Whether the sources are seen by the checker sparse, which defines [__CHECKER__],
    and what the compiler says about a bit field of negative width. *)
Context (__CHECKER__ : bool) (negative_width : string).

(** [sizeof(struct { int:width; })]: an unnamed bit field needs no storage. *)
Definition unnamed_bit_field (width : Z) : build * Z :=
  (if width <? 0 then Breaks negative_width else Builds, 0).

(** The outcome of the build and the value of the expression. *)
Definition BUILD_BUG_ON_ZERO (e : bool) : build * Z :=
  if __CHECKER__ then (Builds, 0) else unnamed_bit_field (- Z.b2z e).

(** The operand of [sizeof] is compiled and not evaluated. *)
Definition BUILD_BUG_ON_INVALID (e : build) : build := e.

Lemma BUILD_BUG_ON_ZERO_spec e :
  (BUILD_BUG_ON_ZERO e).2 = 0 ∧ ((BUILD_BUG_ON_ZERO e).1 = Builds ↔ __CHECKER__ = true ∨ e = false).
Proof. unfold BUILD_BUG_ON_ZERO. destruct __CHECKER__, e; cbn; (split; [done|]); split; try done; auto; by intros [|]. Qed.
End Expressions.
