(* ===== verification/Bitfield.v ===== *)
(** * Bitfield: src/src/linux-compat.h (masks) and src/src/bitfield.h

    [BIT], [GENMASK] and the bit-field macros [FIELD_PREP], [FIELD_GET],
    [FIELD_FIT], and the families [le16_encode_bits], [be32_replace_bits],
    [u64_get_bits], ... that [____MAKE_OP] generates for every width and byte
    order.  Masks are 64-bit ([unsigned long]). *)

From Stdlib Require Import ZArith Lia Btauto String.
From stdpp Require Import base tactics numbers list strings.
From coqutil Require Import Z.bitblast.
From S2P Require Import Prelude Memory BuildBug.

Open Scope Z_scope.
Open Scope ctcm_scope.

(** ** linux-compat.h *)

Definition BIT (i : Z) : Z := u64 (1 ≪ i).

Definition ULONG_MAX : Z := 2 ^ 64 - 1.
Definition BITS_PER_LONG : Z := 64.

Definition GENMASK (h l : Z) : Z :=
  u64 (u64 (ULONG_MAX - u64 (1 ≪ l)) + 1) &&& (ULONG_MAX ≫ (BITS_PER_LONG - 1 - h)).

Definition GENMASK_ULL (h l : Z) : Z :=
  u64 (u64 (ULONG_MAX - u64 (1 ≪ l)) + 1) &&& (ULONG_MAX ≫ (BITS_PER_LONG - 1 - h)).

(** ** bitfield.h *)

Fixpoint ctz_pos (p : positive) : Z :=
  match p with
  | xO p' => 1 + ctz_pos p'
  | _ => 0
  end.

(** [__builtin_ffsll]: one plus the index of the least significant set bit, zero
    for zero. *)
Definition ffsll (x : Z) : Z :=
  match x with
  | Zpos p => 1 + ctz_pos p
  | _ => 0
  end.

Definition __bf_shf (x : Z) : Z := ffsll x - 1.

(** The build of [__BF_FIELD_CHECK(_mask, _reg, _val, _pfx)]: [reg_max] is the
    largest value of the type of the register, and [val] is there if the value is a
    constant.  The mask is one, as the macro requires. *)
Definition __BF_FIELD_CHECK `{Compiler} (mask reg_max : Z) (val : option Z) (pfx : string) : build :=
  BUILD_BUG_ON_MSG (mask =? 0) (pfx ++ "mask is zero")%string ;;;
  BUILD_BUG_ON_MSG (match val with
                    | Some v => negb (u64 (~~ (mask ≫ __bf_shf mask)) &&& v =? 0)
                    | None => false
                    end) (pfx ++ "value too large for the field")%string ;;;
  BUILD_BUG_ON_MSG (reg_max <? mask) (pfx ++ "type of reg too small for mask")%string ;;;
  __BUILD_BUG_ON_NOT_POWER_OF_2 (u64 (mask + u64 (1 ≪ __bf_shf mask)))
    "(((_mask) + (1ULL << __bf_shf(_mask))) & (((_mask) + (1ULL << __bf_shf(_mask))) - 1)) != 0"%string.

(** The value and the build of each macro. *)
Definition FIELD_FIT (mask val : Z) : bool :=
  u64 (u64 val ≪ __bf_shf mask) &&& u64 (~~ mask) =? 0.

Definition FIELD_PREP (mask val : Z) : Z :=
  u64 (u64 val ≪ __bf_shf mask) &&& mask.

Definition FIELD_GET (mask reg : Z) : Z :=
  u64 ((reg &&& mask) ≫ __bf_shf mask).

Definition FIELD_FIT_build `{Compiler} (mask : Z) (val : option Z) : build :=
  __BF_FIELD_CHECK mask ULONG_MAX val "FIELD_FIT: "%string.
Definition FIELD_PREP_build `{Compiler} (mask : Z) (val : option Z) : build :=
  __BF_FIELD_CHECK mask ULONG_MAX val "FIELD_PREP: "%string.
Definition FIELD_GET_build `{Compiler} (mask reg_max : Z) : build :=
  __BF_FIELD_CHECK mask reg_max (Some 0) "FIELD_GET: "%string.

(** [field_multiplier]: the weight of the field's lowest bit; a mask with a hole
    does not compile ([__bad_mask]). *)
Definition field_multiplier (field : Z) : option Z :=
  let f := field ||| u64 (field - 1) in
  if f &&& u64 (f + 1) =? 0 then Some (field &&& u64 (- field)) else None.

Definition field_mask (field : Z) : option Z :=
  mult ← field_multiplier field; Some (field / mult).

(** The byte orders that [__MAKE_OP] instantiates: [le##size], [be##size] and
    [u##size]. *)
Inductive field_order := OrderLE | OrderBE | OrderNative.

Section MakeOp.
Context `{Endian}.

(** [to] and [from] of [____MAKE_OP] for an integer of [n] bytes. *)
Definition order_conv (o : field_order) (n : nat) (v : Z) : Z :=
  match o with
  | OrderLE => htole n v
  | OrderBE => htobe n v
  | OrderNative => v
  end.

Definition base_cast (n : nat) (v : Z) : Z := v mod 2 ^ (Z.of_nat n * 8).

Definition encode_bits (o : field_order) (n : nat) (v field : Z) : option Z :=
  fm ← field_mask field;
  mult ← field_multiplier field;
  Some (order_conv o n (base_cast n (u64 ((v &&& fm) * mult)))).

Definition replace_bits (o : field_order) (n : nat) (old val field : Z) : option Z :=
  e ← encode_bits o n val field;
  Some (base_cast n (old &&& ~~ (order_conv o n field)) ||| e).

(** [type##p_replace_bits]: the same update through a pointer. *)
Definition p_replace_bits (o : field_order) (n : nat) (m : list byte) (p val field : Z)
  : option (result (list byte)) :=
  match load_int n m p with
  | Ok old => v ← replace_bits o n old val field; Some (store_int n m p v)
  | Fault f => Some (Fault f)
  end.

Definition get_bits (o : field_order) (n : nat) (v field : Z) : option Z :=
  mult ← field_multiplier field;
  Some (base_cast n ((order_conv o n v &&& field) / mult)).
End MakeOp.

(** ** Masks *)

(** The mask of the [n] bits from bit [l] on. *)
Definition mask_at (l n : Z) : Z := Z.shiftl (Z.ones n) l.

Lemma mask_at_testbit l n i :
  0 ≤ l → 0 ≤ n → 0 ≤ i → Z.testbit (mask_at l n) i = (l <=? i) && (i <? l + n).
Proof.
  intros. unfold mask_at. rewrite Z.shiftl_spec by lia.
  destruct (Z.leb_spec l i).
  - rewrite ones_testbit by lia. destruct (Z.ltb_spec (i - l) n), (Z.ltb_spec i (l + n)); lia.
  - rewrite Z.testbit_neg_r by lia. done.
Qed.

#[export] Hint Rewrite mask_at_testbit using lia : bits.

Lemma mask_at_range l n w : 0 ≤ l → 0 ≤ n → l + n ≤ w → 0 ≤ mask_at l n < 2 ^ w.
Proof.
  intros. apply bound_of_bits; [lia|]. intros i Hi. rewrite mask_at_testbit by lia.
  destruct (Z.ltb_spec i (l + n)); [lia|]. btauto.
Qed.

Lemma mask_at_mul l n : 0 ≤ l → 0 ≤ n → mask_at l n = 2 ^ l * (2 ^ n - 1).
Proof.
  intros. unfold mask_at. rewrite Z.shiftl_mul_pow2, Z.ones_equiv by lia. lia.
Qed.

Lemma mask_at_pos l n : 0 ≤ l → 0 < n → 0 < mask_at l n.
Proof.
  intros. rewrite mask_at_mul by lia.
  assert (2 ^ 1 ≤ 2 ^ n) by (apply Z.pow_le_mono_r; lia).
  assert (0 < 2 ^ l) by (apply Z.pow_pos_nonneg; lia). nia.
Qed.

Lemma ULONG_MAX_ones : ULONG_MAX = Z.ones 64.
Proof. reflexivity. Qed.

Lemma GENMASK_mask_at h l : 0 ≤ l → l ≤ h < 64 → GENMASK h l = mask_at l (h - l + 1).
Proof.
  intros Hl Hh. unfold GENMASK, BITS_PER_LONG.
  assert (Hp : 2 ^ l < 2 ^ 64) by (apply Z.pow_lt_mono_r; lia).
  assert (Hp0 : 0 < 2 ^ l) by (apply Z.pow_pos_nonneg; lia).
  rewrite Z.shiftl_mul_pow2, Z.mul_1_l by lia. unfold u64 at 3.
  rewrite (Z.mod_small (2 ^ l)) by lia. unfold u64 at 2, ULONG_MAX at 1.
  rewrite (Z.mod_small (2 ^ 64 - 1 - 2 ^ l)) by lia.
  replace (u64 (2 ^ 64 - 1 - 2 ^ l + 1)) with (mask_at l (64 - l)).
  2:{ rewrite mask_at_mul, Z.mul_sub_distr_l, <- Z.pow_add_r by lia.
      replace (l + (64 - l)) with 64 by lia. unfold u64. rewrite Z.mod_small by lia. lia. }
  rewrite ULONG_MAX_ones. apply Z.bits_inj'. intros i Hi.
  rewrite Z.land_spec, Z.shiftr_spec, ones_testbit, !mask_at_testbit by lia.
  destruct (Z.leb_spec l i), (Z.ltb_spec i (l + (64 - l))), (Z.ltb_spec i (l + (h - l + 1))),
    (Z.ltb_spec (i + (64 - 1 - h)) 64); cbn; lia.
Qed.

(** The least significant bit. *)
Lemma ffsll_spec x : 0 < x → ∃ k, x = 2 ^ (ffsll x - 1) * (2 * k + 1) ∧ 0 ≤ k ∧ 0 ≤ ffsll x - 1.
Proof.
  destruct x as [|p|p]; [lia| |lia]. intros _. cbn [ffsll].
  replace (1 + ctz_pos p - 1) with (ctz_pos p) by lia.
  induction p as [p IH|p IH|]; cbn [ctz_pos].
  - exists (Zpos p). lia.
  - destruct IH as (k & Hk & Hk0 & Hc). exists k.
    rewrite Z.pow_add_r by lia. split; [|lia].
    change (Zpos p~0) with (2 * Zpos p). lia.
  - exists 0. lia.
Qed.

Lemma ffsll_unique x l k : 0 ≤ l → 0 ≤ k → x = 2 ^ l * (2 * k + 1) → ffsll x - 1 = l.
Proof.
  intros Hl Hk Hx.
  assert (0 < 2 ^ l) by (apply Z.pow_pos_nonneg; lia).
  destruct (ffsll_spec x) as (k' & Hx' & Hk' & Hc); [nia|].
  set (l' := ffsll x - 1) in *. rewrite Hx in Hx'.
  destruct (Z.lt_trichotomy l l') as [Hlt|[Heq|Hlt]]; [|done|].
  - replace l' with (l + (1 + (l' - l - 1))) in Hx' by lia.
    rewrite !Z.pow_add_r, <- !Z.mul_assoc in Hx' by lia.
    apply Z.mul_reg_l in Hx'; [|lia]. lia.
  - replace l with (l' + (1 + (l - l' - 1))) in Hx' by lia.
    assert (0 < 2 ^ l') by (apply Z.pow_pos_nonneg; lia).
    rewrite !Z.pow_add_r, <- !Z.mul_assoc in Hx' by lia.
    apply Z.mul_reg_l in Hx'; [|lia]. lia.
Qed.

Lemma __bf_shf_mask_at l n : 0 ≤ l → 0 < n → __bf_shf (mask_at l n) = l.
Proof.
  intros. unfold __bf_shf. apply (ffsll_unique _ l (2 ^ (n - 1) - 1)); [lia| |].
  - assert (0 < 2 ^ (n - 1)) by (apply Z.pow_pos_nonneg; lia). lia.
  - rewrite mask_at_mul by lia. replace n with (1 + (n - 1)) at 1 by lia.
    rewrite Z.pow_add_r by lia. f_equal. lia.
Qed.

Lemma mask_disjoint l n l' n' :
  0 ≤ l → 0 ≤ n → 0 ≤ l' → 0 ≤ n' → l + n ≤ l' ∨ l' + n' ≤ l →
  Z.land (mask_at l n) (mask_at l' n') = 0.
Proof.
  intros. apply Z.bits_inj'. intros i Hi.
  rewrite Z.land_spec, !mask_at_testbit, Z.bits_0 by lia. lia.
Qed.

(** ** The field macros *)

Lemma FIELD_GET_slice l n reg :
  0 ≤ l → 0 < n → l + n ≤ 64 → 0 ≤ reg →
  FIELD_GET (mask_at l n) reg = (reg / 2 ^ l) mod 2 ^ n.
Proof.
  intros. unfold FIELD_GET. rewrite __bf_shf_mask_at by lia.
  unfold mask_at. rewrite land_ones_slice by lia. unfold u64. apply Z.mod_small.
  assert (0 < 2 ^ n) by (apply Z.pow_pos_nonneg; lia).
  pose proof (Z.mod_pos_bound (reg / 2 ^ l) (2 ^ n)).
  assert (2 ^ n ≤ 2 ^ 64) by (apply Z.pow_le_mono_r; lia). lia.
Qed.

Lemma FIELD_PREP_bits l n v i :
  0 ≤ l → 0 < n → l + n ≤ 64 → 0 ≤ i →
  Z.testbit (FIELD_PREP (mask_at l n) v) i =
  (l <=? i) && (i <? l + n) && Z.testbit v (i - l).
Proof.
  intros. unfold FIELD_PREP. rewrite __bf_shf_mask_at by lia.
  rewrite Z.land_spec, mask_at_testbit by lia. unfold u64.
  rewrite Z.testbit_mod_pow2, Z.shiftl_spec by lia.
  destruct (Z.leb_spec l i), (Z.ltb_spec i (l + n)); cbn; rewrite ?andb_false_r; try done.
  rewrite Z.testbit_mod_pow2 by lia.
  destruct (Z.ltb_spec i 64), (Z.ltb_spec (i - l) 64); try lia. btauto.
Qed.

Lemma FIELD_PREP_range l n v w :
  0 ≤ l → 0 < n → l + n ≤ w → w ≤ 64 → 0 ≤ FIELD_PREP (mask_at l n) v < 2 ^ w.
Proof.
  intros. apply bound_of_bits; [lia|]. intros i Hi.
  rewrite FIELD_PREP_bits by lia. destruct (Z.ltb_spec i (l + n)); [lia|]. btauto.
Qed.

(** Whatever the field, [FIELD_GET] reads back what [FIELD_PREP] prepared,
    truncated to the width of the field. *)
Theorem field_get_prep h l v :
  0 ≤ l → l ≤ h < 64 →
  FIELD_GET (GENMASK h l) (FIELD_PREP (GENMASK h l) v) = v mod 2 ^ (h - l + 1).
Proof.
  intros Hl Hh. rewrite GENMASK_mask_at by lia.
  pose proof (FIELD_PREP_range l (h - l + 1) v 64).
  rewrite FIELD_GET_slice by lia. apply Z.bits_inj'. intros i Hi.
  rewrite !Z.testbit_mod_pow2, Z.div_pow2_bits, FIELD_PREP_bits by lia.
  replace (i + l - l) with i by lia.
  destruct (Z.ltb_spec i (h - l + 1)); cbn; [|done].
  destruct (Z.leb_spec l (i + l)), (Z.ltb_spec (i + l) (l + (h - l + 1))); try lia. done.
Qed.

(** ** The generated accessors *)

Lemma pred_mask_at l n :
  0 ≤ l → 0 < n → mask_at l n - 1 = Z.lor (mask_at (l + 1) (n - 1)) (Z.ones l).
Proof.
  intros. rewrite Z.or_to_plus.
  - rewrite !mask_at_mul, Z.ones_equiv, Z.pow_add_r by lia.
    replace n with (1 + (n - 1)) at 1 by lia. rewrite (Z.pow_add_r 2 1 (n - 1)) by lia.
    change (2 ^ 1) with 2. lia.
  - replace (Z.ones l) with (mask_at 0 l) by (unfold mask_at; apply Z.shiftl_0_r).
    apply mask_disjoint; lia.
Qed.

Lemma field_multiplier_mask_at l n :
  0 ≤ l → 0 < n → l + n ≤ 64 → field_multiplier (mask_at l n) = Some (2 ^ l).
Proof.
  intros Hl Hn Hw. unfold field_multiplier.
  pose proof (mask_at_pos l n Hl Hn) as Hpos.
  pose proof (mask_at_range l n 64) as Hr.
  assert (Hm1 : u64 (mask_at l n - 1) = mask_at l n - 1)
    by (unfold u64; apply Z.mod_small; lia).
  rewrite Hm1.
  assert (Hf : Z.lor (mask_at l n) (mask_at l n - 1) = Z.ones (l + n)).
  { rewrite pred_mask_at by lia. apply Z.bits_inj'. intros i Hi.
    rewrite !Z.lor_spec, !mask_at_testbit, !ones_testbit by lia. lia. }
  rewrite Hf.
  assert (Hz : Z.land (Z.ones (l + n)) (u64 (Z.ones (l + n) + 1)) = 0).
  { replace (Z.ones (l + n) + 1) with (2 ^ (l + n)) by (rewrite Z.ones_equiv; lia).
    apply Z.bits_inj'. intros i Hi. unfold u64.
    rewrite Z.land_spec, Z.testbit_mod_pow2, Z.pow2_bits_eqb, ones_testbit, Z.bits_0 by lia.
    lia. }
  rewrite Hz. cbn. f_equal. apply Z.bits_inj'. intros i Hi. unfold u64.
  rewrite Z.land_spec, Z.testbit_mod_pow2, Z.bits_opp, <- Z.sub_1_r by lia.
  rewrite pred_mask_at, Z.lor_spec, !mask_at_testbit, ones_testbit, Z.pow2_bits_eqb by lia.
  lia.
Qed.

Lemma field_mask_mask_at l n :
  0 ≤ l → 0 < n → l + n ≤ 64 → field_mask (mask_at l n) = Some (Z.ones n).
Proof.
  intros. unfold field_mask. rewrite field_multiplier_mask_at by lia. cbn. f_equal.
  rewrite mask_at_mul, Z.ones_equiv, Z.mul_comm, Z.div_mul by lia. lia.
Qed.

Section MakeOpFacts.
Context `{E : Endian}.

(** The order that is not the host's: [htole] is [htobe] of the other host. *)
Definition flip_endian : Endian := {| little_endian := negb (@little_endian E) |}.

Lemma htole_flip n v : htole n v = @htobe flip_endian n v.
Proof. unfold htole, htobe, flip_endian. cbn. by destruct little_endian. Qed.

Lemma order_conv_range o n v :
  0 ≤ v < 2 ^ (Z.of_nat n * 8) → 0 ≤ order_conv o n v < 2 ^ (Z.of_nat n * 8).
Proof. destruct o; cbn; rewrite ?htole_flip; intros; [apply htobe_range..|done]. Qed.

Lemma order_conv_inv o n v :
  0 ≤ v < 2 ^ (Z.of_nat n * 8) → order_conv o n (order_conv o n v) = v.
Proof. destruct o; cbn; rewrite ?htole_flip; intros; [by apply htobe_inv..|done]. Qed.

Lemma order_conv_land o n a b :
  Z.land (order_conv o n a) (order_conv o n b) = order_conv o n (Z.land a b).
Proof. destruct o; cbn; rewrite ?htole_flip; [apply htobe_land..|done]. Qed.

Lemma order_conv_lor o n a b :
  Z.lor (order_conv o n a) (order_conv o n b) = order_conv o n (Z.lor a b).
Proof. destruct o; cbn; rewrite ?htole_flip; [apply htobe_lor..|done]. Qed.

Lemma order_conv_land_lnot o n a b :
  Z.land (order_conv o n a) (Z.lnot (order_conv o n b)) = order_conv o n (Z.land a (Z.lnot b)).
Proof. destruct o; cbn; rewrite ?htole_flip; [apply htobe_land_lnot..|done]. Qed.

(** The three generated functions on a contiguous field, in terms of the value
    that the stored integer denotes in its byte order. *)
Lemma encode_bits_spec o n v l k :
  0 ≤ l → 0 < k → l + k ≤ Z.of_nat n * 8 → l + k ≤ 64 →
  encode_bits o n v (mask_at l k) = Some (order_conv o n (FIELD_PREP (mask_at l k) v)).
Proof.
  intros. unfold encode_bits. rewrite field_mask_mask_at, field_multiplier_mask_at by lia.
  cbn. do 2 f_equal. rewrite <- Z.shiftl_mul_pow2 by lia.
  apply Z.bits_inj'. intros i Hi. unfold base_cast, u64.
  rewrite FIELD_PREP_bits, !Z.testbit_mod_pow2, Z.shiftl_spec, Z.land_spec by lia.
  destruct (Z.leb_spec l i).
  - rewrite ones_testbit by lia. destruct (Z.testbit v (i - l)); lia.
  - rewrite (Z.testbit_neg_r v) by lia. lia.
Qed.

Lemma replace_bits_spec o n x v l k :
  0 ≤ l → 0 < k → l + k ≤ Z.of_nat n * 8 → l + k ≤ 64 → 0 ≤ x < 2 ^ (Z.of_nat n * 8) →
  replace_bits o n (order_conv o n x) v (mask_at l k) =
  Some (order_conv o n (Z.lor (Z.land x (Z.lnot (mask_at l k))) (FIELD_PREP (mask_at l k) v))).
Proof.
  intros. unfold replace_bits. rewrite encode_bits_spec by lia. cbn. f_equal.
  rewrite order_conv_land_lnot, <- order_conv_lor. f_equal. unfold base_cast.
  apply Z.mod_small, order_conv_range, land_bound_l; lia.
Qed.

Lemma get_bits_spec o n x l k :
  0 ≤ l → 0 < k → l + k ≤ Z.of_nat n * 8 → l + k ≤ 64 → 0 ≤ x < 2 ^ (Z.of_nat n * 8) →
  get_bits o n (order_conv o n x) (mask_at l k) = Some ((x / 2 ^ l) mod 2 ^ k).
Proof.
  intros. unfold get_bits. rewrite field_multiplier_mask_at by lia. cbn. f_equal.
  rewrite order_conv_inv by done. unfold mask_at.
  rewrite <- Z.shiftr_div_pow2, land_ones_slice by lia. unfold base_cast. apply Z.mod_small.
  assert (0 < 2 ^ k) by (apply Z.pow_pos_nonneg; lia).
  pose proof (Z.mod_pos_bound (x / 2 ^ l) (2 ^ k)).
  assert (2 ^ k ≤ 2 ^ (Z.of_nat n * 8)) by (apply Z.pow_le_mono_r; lia). lia.
Qed.

(** A field after the update of a field: itself, or one beside it. *)
Lemma slice_update_same x v l k :
  0 ≤ l → 0 < k → l + k ≤ 64 →
  (Z.lor (Z.land x (Z.lnot (mask_at l k))) (FIELD_PREP (mask_at l k) v) / 2 ^ l) mod 2 ^ k =
  v mod 2 ^ k.
Proof.
  intros. apply Z.bits_inj'. intros i Hi.
  rewrite !Z.testbit_mod_pow2, !Z.div_pow2_bits, Z.lor_spec, Z.land_spec, Z.lnot_spec,
    FIELD_PREP_bits, mask_at_testbit by lia.
  replace (i + l - l) with i by lia. destruct (Z.testbit v i), (Z.testbit x (i + l)); lia.
Qed.

Lemma slice_update_other x v l k l' k' :
  0 ≤ l → 0 < k → l + k ≤ 64 → 0 ≤ l' → 0 < k' → l + k ≤ l' ∨ l' + k' ≤ l →
  (Z.lor (Z.land x (Z.lnot (mask_at l k))) (FIELD_PREP (mask_at l k) v) / 2 ^ l') mod 2 ^ k' =
  (x / 2 ^ l') mod 2 ^ k'.
Proof.
  intros. apply Z.bits_inj'. intros i Hi.
  rewrite !Z.testbit_mod_pow2, !Z.div_pow2_bits, Z.lor_spec, Z.land_spec, Z.lnot_spec,
    FIELD_PREP_bits, mask_at_testbit by lia.
  destruct (Z.testbit v (i + l' - l)), (Z.testbit x (i + l')); lia.
Qed.

Lemma update_range x v l k w :
  0 ≤ l → 0 < k → l + k ≤ w → w ≤ 64 → 0 ≤ x < 2 ^ w →
  0 ≤ Z.lor (Z.land x (Z.lnot (mask_at l k))) (FIELD_PREP (mask_at l k) v) < 2 ^ w.
Proof.
  intros. apply lor_bound; [lia|apply land_bound_l; lia|]. apply FIELD_PREP_range; lia.
Qed.

(** For every width up to 64 bits, every byte order and every contiguous
    field, replacing a field succeeds, the new value is read back truncated to
    the field's width, and every field that does not overlap it is unchanged. *)
Theorem replace_bits_get_bits o n old v h l :
  0 ≤ l → l ≤ h → h < Z.of_nat n * 8 → (n ≤ 8)%nat → 0 ≤ old < 2 ^ (Z.of_nat n * 8) →
  ∃ new,
    replace_bits o n old v (GENMASK h l) = Some new ∧
    get_bits o n new (GENMASK h l) = Some (v mod 2 ^ (h - l + 1)) ∧
    ∀ h' l', 0 ≤ l' → l' ≤ h' → h' < Z.of_nat n * 8 → h < l' ∨ h' < l →
      get_bits o n new (GENMASK h' l') = get_bits o n old (GENMASK h' l').
Proof.
  intros Hl Hh Hn Hn8 Hold.
  rewrite <- (order_conv_inv o n old Hold).
  pose proof (order_conv_range o n old Hold) as Hx.
  set (x := order_conv o n old) in *. rewrite GENMASK_mask_at by lia.
  eexists. split; [apply replace_bits_spec; lia|].
  pose proof (update_range x v l (h - l + 1) (Z.of_nat n * 8)) as Hy.
  split.
  - rewrite get_bits_spec by lia. by rewrite slice_update_same by lia.
  - intros h' l' ???. intros. rewrite !GENMASK_mask_at by lia.
    rewrite !get_bits_spec by lia. by rewrite slice_update_other by lia.
Qed.
End MakeOpFacts.

(** ** Which masks compile *)

Lemma power_of_2_bits n : 0 < n → Z.land (n - 1) n = 0 → n = 2 ^ Z.log2 n.
Proof.
  intros Hn Hz. pose proof (Z.log2_spec n Hn) as [Hlo Hhi].
  destruct (decide (n = 2 ^ Z.log2 n)) as [|Hne]; [done|exfalso].
  apply (f_equal (λ z, Z.testbit z (Z.log2 n))) in Hz.
  rewrite Z.land_spec, Z.bits_0, Z.bit_log2, andb_true_r in Hz by lia.
  assert (Hl : Z.log2 (n - 1) = Z.log2 n) by (apply Z.log2_unique; [apply Z.log2_nonneg|lia]).
  rewrite <- Hl, Z.bit_log2 in Hz; [done|]. pose proof (Z.pow_pos_nonneg 2 (Z.log2 n)).
  pose proof (Z.log2_nonneg n). lia.
Qed.

(** A mask plus its lowest bit is a power of two exactly when it is contiguous. *)
Lemma contiguous_of_sum f j :
  0 < f < 2 ^ 64 → 0 ≤ j → f + 2 ^ __bf_shf f = 2 ^ j →
  ∃ h l, 0 ≤ l ∧ l ≤ h < 64 ∧ f = GENMASK h l.
Proof.
  intros Hf Hj Hs. destruct (ffsll_spec f) as (k & Hk & Hk0 & Hl); [lia|].
  fold (__bf_shf f) in *. set (l := __bf_shf f) in *.
  assert (Hp : 0 < 2 ^ l) by (apply Z.pow_pos_nonneg; lia).
  assert (Hlj : l < j) by (apply (Z.pow_lt_mono_r_iff 2); nia).
  assert (Hj64 : j ≤ 64).
  { apply (Z.pow_le_mono_r_iff 2); [lia..|]. rewrite <- Hs.
    assert (2 ^ l ≤ f) by nia. assert (Hl64 : l < 64) by (apply (Z.pow_lt_mono_r_iff 2); lia).
    assert (f + 2 ^ l ≤ 2 ^ 64 + 2 ^ l) by lia.
    destruct (Z.le_gt_cases j 64) as [Hle|Hgt]; [rewrite Hs; by apply Z.pow_le_mono_r|].
    assert (2 ^ 65 ≤ 2 ^ j) by (apply Z.pow_le_mono_r; lia).
    assert (2 ^ l ≤ 2 ^ 63) by (apply Z.pow_le_mono_r; lia). lia. }
  exists (j - 1), l. split; [done|]. split; [lia|].
  rewrite GENMASK_mask_at, mask_at_mul, Z.mul_sub_distr_l, <- Z.pow_add_r by lia.
  replace (l + (j - 1 - l + 1)) with j by lia. lia.
Qed.

Lemma lor_pred f : 0 < f → Z.lor f (f - 1) = f + 2 ^ __bf_shf f - 1.
Proof.
  intros Hf. destruct (ffsll_spec f) as (k & Hk & Hk0 & Hl); [lia|].
  fold (__bf_shf f) in *. set (l := __bf_shf f) in *.
  assert (Hp : 0 < 2 ^ l) by (apply Z.pow_pos_nonneg; lia).
  assert (Hd : Z.land f (Z.ones l) = 0).
  { rewrite Z.land_ones, Hk, Z.mul_comm, Z.mod_mul by lia. done. }
  transitivity (Z.lor f (Z.ones l)).
  - apply Z.bits_inj'. intros i Hi. rewrite !Z.lor_spec, ones_testbit by lia.
    destruct (Z.ltb_spec i l) as [Hil|Hil].
    + replace (f - 1) with (2 ^ l * (2 * k) + Z.ones l) by (rewrite Z.ones_equiv; lia).
      rewrite <- (Z.mod_pow2_bits_low (2 ^ l * (2 * k) + Z.ones l) l) by lia.
      rewrite Z.mul_comm, Z.add_comm, Z.mod_add, Z.mod_small by (rewrite ?Z.ones_equiv; lia).
      rewrite ones_testbit by lia. destruct (Z.ltb_spec i l); [btauto|lia].
    + rewrite orb_false_r. destruct (Z.testbit (f - 1) i) eqn:Hb; [|btauto].
      destruct (Z.eq_dec i l) as [->|Hne].
      * assert (Hbit : Z.testbit f l = true); [|by rewrite Hbit].
        rewrite Hk, Z.testbit_true, Z.mul_comm, Z.div_mul by lia.
        rewrite Z.add_comm, Z.mul_comm, Z.mod_add by lia. done.
      * assert (Hbit : Z.testbit f i = Z.testbit (f - 1) i); [|by rewrite Hbit, Hb].
        replace i with ((i - l - 1) + (l + 1)) by lia.
        rewrite <- !Z.div_pow2_bits by lia. f_equal.
        rewrite Z.pow_add_r by lia. change (2 ^ 1) with 2.
        replace f with (k * (2 ^ l * 2) + 2 ^ l) at 1 by lia.
        replace (f - 1) with (k * (2 ^ l * 2) + (2 ^ l - 1)) by lia.
        rewrite !Z.div_add_l, !Z.div_small by lia. done.
  - rewrite Z.or_to_plus, Z.ones_equiv by done. lia.
Qed.

(** Adding the lowest bit does not overflow by more than the carry out. *)
Lemma sum_low_bit f : 0 < f < 2 ^ 64 → f + 2 ^ __bf_shf f ≤ 2 ^ 64.
Proof.
  intros Hf. destruct (ffsll_spec f) as (k & Hk & Hk0 & Hl); [lia|]. fold (__bf_shf f) in *.
  set (l := __bf_shf f) in *.
  assert (Hp : 0 < 2 ^ l) by (apply Z.pow_pos_nonneg; lia).
  assert (Hl64 : l < 64) by (apply (Z.pow_lt_mono_r_iff 2); nia).
  assert (H64 : 2 ^ 64 = 2 ^ l * (2 * 2 ^ (63 - l))).
  { change 2 with (2 ^ 1) at 3. rewrite <- !Z.pow_add_r by lia. f_equal. lia. }
  rewrite Hk in Hf. rewrite Hk, H64. rewrite H64 in Hf. nia.
Qed.

Lemma field_multiplier_inv f mult :
  0 < f < 2 ^ 64 → field_multiplier f = Some mult →
  ∃ h l, 0 ≤ l ∧ l ≤ h < 64 ∧ f = GENMASK h l.
Proof.
  intros Hf Hm. unfold field_multiplier in Hm.
  replace (u64 (f - 1)) with (f - 1) in Hm by (unfold u64; rewrite Z.mod_small; lia).
  rewrite lor_pred in Hm by lia. pose proof (sum_low_bit f Hf) as Hb.
  assert (Hp : 0 < 2 ^ __bf_shf f).
  { destruct (ffsll_spec f) as (k & _ & _ & Hl); [lia|]. by apply Z.pow_pos_nonneg. }
  case_match eqn:Hz; [|done]. apply Z.eqb_eq in Hz. clear Hm.
  replace (f + 2 ^ __bf_shf f - 1 + 1) with (f + 2 ^ __bf_shf f) in Hz by lia.
  destruct (Z.eq_dec (f + 2 ^ __bf_shf f) (2 ^ 64)) as [He|He].
  - apply (contiguous_of_sum f 64); lia.
  - unfold u64 in Hz. rewrite Z.mod_small in Hz by lia.
    apply power_of_2_bits in Hz; [|lia].
    eapply contiguous_of_sum; [lia| |apply Hz]. apply Z.log2_nonneg.
Qed.

(** [field_multiplier] compiles ([__bad_mask] is not reached) for exactly the
    contiguous masks, and for them it is the weight of the lowest bit. *)
Theorem field_multiplier_contiguous f :
  0 < f < 2 ^ 64 →
  ((∃ mult, field_multiplier f = Some mult) ↔
   ∃ h l, 0 ≤ l ∧ l ≤ h < 64 ∧ f = GENMASK h l) ∧
  (∀ mult, field_multiplier f = Some mult → mult = 2 ^ __bf_shf f).
Proof.
  intros Hf. split; [split|].
  - intros [mult Hm]. by apply (field_multiplier_inv f mult).
  - intros (h & l & Hl & Hh & ->). rewrite GENMASK_mask_at by lia.
    exists (2 ^ l). apply field_multiplier_mask_at; lia.
  - intros mult Hm. destruct (field_multiplier_inv f mult Hf Hm) as (h & l & Hl & Hh & ->).
    rewrite GENMASK_mask_at in * by lia.
    rewrite field_multiplier_mask_at in Hm by lia. rewrite __bf_shf_mask_at by lia. congruence.
Qed.
