(* ===== verification/BitfieldSpec.v ===== *)
(** * BitfieldSpec: what the field macros check, and what they have in common

    The build-time check of the macros, the run-time check [FIELD_FIT], and the
    equivalence of the macros with the functions that [__MAKE_OP] generates. *)

From Stdlib Require Import ZArith Lia Btauto String.
From stdpp Require Import base tactics numbers list strings.
From S2P Require Import Prelude Memory BuildBug Bitfield.

Local Open Scope string_scope.
Open Scope Z_scope.
Open Scope ctcm_scope.

(** The masks of the documentation: the bits from [l] to [h]. *)
Definition contiguous (mask : Z) : Prop := ∃ h l, 0 ≤ l ∧ l ≤ h < 64 ∧ mask = GENMASK h l.

(** ** The check at build time *)

Lemma pow2_pred_disjoint j : 0 ≤ j → Z.land (2 ^ j) (2 ^ j - 1) = 0.
Proof.
  intros. apply Z.bits_inj'. intros i Hi.
  replace (2 ^ j - 1) with (Z.ones j) by (rewrite Z.ones_equiv; lia).
  rewrite Z.land_spec, Z.pow2_bits_eqb, ones_testbit, Z.bits_0 by lia. lia.
Qed.

Lemma shf_range f : 0 < f < 2 ^ 64 → 0 ≤ __bf_shf f < 64.
Proof.
  intros Hf. destruct (ffsll_spec f) as (k & Hk & Hk0 & Hl); [lia|]. fold (__bf_shf f) in *.
  split; [done|]. apply (Z.pow_lt_mono_r_iff 2); [lia..|].
  assert (0 < 2 ^ __bf_shf f) by (by apply Z.pow_pos_nonneg). nia.
Qed.

(** The sum of a mask and its lowest bit passes the test for powers of two exactly
    when the mask has no hole; the sum of a mask that reaches bit 63 wraps to 0. *)
Lemma sum_test f :
  0 < f < 2 ^ 64 →
  let n := u64 (f + u64 (1 ≪ __bf_shf f)) in n &&& u64 (n - 1) = 0 ↔ contiguous f.
Proof.
  intros Hf n. pose proof (shf_range f Hf) as Hs. pose proof (sum_low_bit f Hf) as Hb.
  assert (Hp : 0 < 2 ^ __bf_shf f) by (apply Z.pow_pos_nonneg; lia).
  assert (Hp' : 2 ^ __bf_shf f < 2 ^ 64) by (apply Z.pow_lt_mono_r; lia).
  assert (Hn : n = (f + 2 ^ __bf_shf f) mod 2 ^ 64).
  { unfold n, u64. by rewrite Z.shiftl_mul_pow2, Z.mul_1_l, (Z.mod_small (2 ^ _)) by lia. }
  split.
  - intros Hz. destruct (Z.eq_dec (f + 2 ^ __bf_shf f) (2 ^ 64)) as [He|He].
    + apply (contiguous_of_sum f 64); lia.
    + rewrite Z.mod_small in Hn by lia. unfold u64 in Hz. rewrite Z.mod_small in Hz by lia.
      rewrite Z.land_comm, Hn in Hz. apply power_of_2_bits in Hz; [|lia].
      eapply contiguous_of_sum; [lia| |exact Hz]. apply Z.log2_nonneg.
  - intros (h & l & Hl & Hh & ->). rewrite GENMASK_mask_at, __bf_shf_mask_at in * by lia.
    assert (Hsum : mask_at l (h - l + 1) + 2 ^ l = 2 ^ (h + 1)).
    { rewrite mask_at_mul, Z.mul_sub_distr_l, <- Z.pow_add_r by lia.
      replace (l + (h - l + 1)) with (h + 1) by lia. lia. }
    rewrite Hsum in Hn. destruct (Z.eq_dec h 63) as [->|Hne].
    + assert (n = 0) as -> by (rewrite Hn; by apply Z.mod_same). apply Z.land_0_l.
    + assert (0 < 2 ^ (h + 1)) by (apply Z.pow_pos_nonneg; lia).
      assert (2 ^ (h + 1) < 2 ^ 64) by (apply Z.pow_lt_mono_r; lia).
      rewrite Z.mod_small in Hn by lia. rewrite Hn. unfold u64. rewrite Z.mod_small by lia.
      apply pow2_pred_disjoint. lia.
Qed.

(** A constant fits the field. *)
Lemma value_test l k v :
  0 ≤ l → 0 < k → l + k ≤ 64 → 0 ≤ v < 2 ^ 64 →
  u64 (~~ (mask_at l k ≫ __bf_shf (mask_at l k))) &&& v = 0 ↔ v < 2 ^ k.
Proof.
  intros. rewrite __bf_shf_mask_at by lia.
  assert (Hbit : ∀ i, 0 ≤ i → Z.testbit (u64 (~~ (mask_at l k ≫ l)) &&& v) i
                              = (k <=? i) && Z.testbit v i).
  { intros i Hi. unfold u64.
    rewrite Z.land_spec, Z.testbit_mod_pow2, Z.lnot_spec, Z.shiftr_spec, mask_at_testbit by lia.
    destruct (Z.ltb_spec i 64); [cbn; destruct (Z.testbit v i); lia|].
    rewrite (testbit_high 64 v i) by lia. btauto. }
  split.
  - intros Hz. apply bound_of_bits; [lia|]. intros i Hi.
    specialize (Hbit i ltac:(lia)). rewrite Hz, Z.bits_0 in Hbit.
    destruct (Z.leb_spec k i); [done|lia].
  - intros Hv. apply Z.bits_inj'. intros i Hi. rewrite Hbit, Z.bits_0 by done.
    destruct (Z.leb_spec k i); [|done]. by rewrite (testbit_high k v i) by lia.
Qed.

Lemma check_builds `{Compiler} mask rm w pfx :
  0 ≤ mask < 2 ^ 64 → (∀ v, w = Some v → 0 ≤ v < 2 ^ 64) →
  __BF_FIELD_CHECK mask rm w pfx = Builds ↔
  (__OPTIMIZE__ = true → mask ≤ rm ∧ ∃ h l, 0 ≤ l ∧ l ≤ h < 64 ∧ mask = GENMASK h l ∧
                                            ∀ v, w = Some v → v < 2 ^ (h - l + 1)).
Proof.
  intros Hm Hw. unfold __BF_FIELD_CHECK.
  rewrite !build_then_Builds, !BUILD_BUG_ON_MSG_Builds, NOT_POWER_OF_2_Builds.
  rewrite Z.eqb_neq, Z.ltb_ge. destruct __OPTIMIZE__; [|by split; [|intros _; split_and!]]. split.
  - intros (Hz & Hval & Hle & Hp) _. specialize (Hz eq_refl). split; [by auto|].
    destruct (proj1 (sum_test mask ltac:(lia)) (Hp eq_refl)) as (h & l & Hl & Hh & ->).
    exists h, l. split_and!; try done; try lia. intros v ->. specialize (Hval eq_refl).
    rewrite negb_false_iff, Z.eqb_eq, GENMASK_mask_at in Hval by lia.
    by apply value_test in Hval; [|lia|lia|lia|apply Hw].
  - intros Hf. destruct (Hf eq_refl) as (Hle & h & l & Hl & Hh & He & Hfit).
    assert (Hpos : 0 < mask) by (rewrite He, GENMASK_mask_at by lia; apply mask_at_pos; lia).
    split_and!; intros _; [lia| |done|].
    + destruct w as [v|]; [|done]. rewrite negb_false_iff, Z.eqb_eq, He, GENMASK_mask_at by lia.
      apply value_test; [lia..|by apply Hw|by apply Hfit].
    + apply (sum_test mask); [lia|]. by exists h, l.
Qed.

(** A use of [FIELD_PREP] or [FIELD_FIT] in an optimised build compiles exactly if
    the mask is a contiguous range of bits and the value, when it is a constant,
    fits that range; for [FIELD_GET] the mask must also fit the type of the
    register.  A build without optimisation checks nothing. *)
Theorem field_check_builds `{Compiler} mask reg_max val :
  0 ≤ mask < 2 ^ 64 → (∀ v, val = Some v → 0 ≤ v < 2 ^ 64) →
  let fits := ∃ h l, 0 ≤ l ∧ l ≤ h < 64 ∧ mask = GENMASK h l ∧
                     ∀ v, val = Some v → v < 2 ^ (h - l + 1) in
  (FIELD_PREP_build mask val = Builds ↔ (__OPTIMIZE__ = true → fits)) ∧
  (FIELD_FIT_build mask val = Builds ↔ (__OPTIMIZE__ = true → fits)) ∧
  (FIELD_GET_build mask reg_max = Builds ↔ (__OPTIMIZE__ = true → contiguous mask ∧ mask ≤ reg_max)).
Proof.
  intros Hm Hv fits.
  unfold FIELD_PREP_build, FIELD_FIT_build, FIELD_GET_build, fits, contiguous.
  rewrite !check_builds by (by auto || (intros v [= <-]; lia)). unfold ULONG_MAX. split_and!.
  - split; intros Hf Ho; specialize (Hf Ho); [tauto|]. split; [lia|done].
  - split; intros Hf Ho; specialize (Hf Ho); [tauto|]. split; [lia|done].
  - split; intros Hf Ho; specialize (Hf Ho); destruct Hf as [Hf1 Hf2].
    + destruct Hf2 as (h & l & ? & ? & ? & _). eauto 7.
    + destruct Hf1 as (h & l & ? & ? & ?). split; [done|]. exists h, l. split_and!; try done; try lia.
      intros v [= <-]. apply Z.pow_pos_nonneg; lia.
Qed.

(** ** The check at run time *)

Lemma FIELD_FIT_slice h l v :
  0 ≤ l → l ≤ h < 64 → 0 ≤ v < 2 ^ 64 →
  FIELD_FIT (GENMASK h l) v = (v mod 2 ^ (64 - l) <? 2 ^ (h - l + 1)).
Proof.
  intros Hl Hh Hv. unfold FIELD_FIT. rewrite GENMASK_mask_at, __bf_shf_mask_at by lia.
  assert (Hbit : ∀ i, 0 ≤ i → Z.testbit (u64 (u64 v ≪ l) &&& u64 (~~ mask_at l (h - l + 1))) i =
            (h <? i) && (i <? 64) && Z.testbit v (i - l)).
  { intros i Hi. unfold u64. rewrite (Z.mod_small v) by lia.
    rewrite Z.land_spec, !Z.testbit_mod_pow2, Z.shiftl_spec, Z.lnot_spec, mask_at_testbit by lia.
    destruct (Z.leb_spec l i); [|rewrite (Z.testbit_neg_r v (i - l)) by lia; btauto].
    destruct (Z.testbit v (i - l)); lia. }
  apply eq_true_iff_eq. rewrite Z.eqb_eq, Z.ltb_lt. split.
  - intros Hz. apply bound_of_bits; [lia|]. intros i Hi. rewrite Z.testbit_mod_pow2 by lia.
    specialize (Hbit (i + l) ltac:(lia)). rewrite Hz, Z.bits_0 in Hbit.
    replace (i + l - l) with i in Hbit by lia. destruct (Z.testbit v i); lia.
  - intros Hlt. apply Z.bits_inj'. intros i Hi. rewrite Hbit, Z.bits_0 by done.
    destruct (Z.ltb_spec h i), (Z.ltb_spec i 64); try done. cbn.
    pose proof (Z.mod_pos_bound v (2 ^ (64 - l)) ltac:(apply Z.pow_pos_nonneg; lia)).
    pose proof (testbit_high (h - l + 1) (v mod 2 ^ (64 - l)) (i - l)) as Hb.
    rewrite Z.testbit_mod_pow2 in Hb by lia.
    destruct (Z.ltb_spec (i - l) (64 - l)); [by apply Hb; lia|lia].
Qed.

(** [FIELD_FIT] shifts before it compares, so it sees only the bits of the value
    that stay within 64 bits: it decides whether the value, modulo 2^(64-l), fits
    the field.  For a field that reaches bit 63 every value passes, also one that
    is too large. *)
Theorem field_fit_wraps h l v :
  0 ≤ l → l ≤ h < 64 → 0 ≤ v < 2 ^ 64 →
  FIELD_FIT (GENMASK h l) v = (v mod 2 ^ (64 - l) <? 2 ^ (h - l + 1)) ∧
  (h = 63 → FIELD_FIT (GENMASK h l) v = true) ∧
  (v < 2 ^ (64 - l) → FIELD_FIT (GENMASK h l) v = (v <? 2 ^ (h - l + 1))).
Proof.
  intros Hl Hh Hv.
  pose proof (FIELD_FIT_slice h l v Hl Hh Hv) as Hfit.
  split_and!; [done|..]; rewrite Hfit.
  - intros ->. apply Z.ltb_lt. replace (63 - l + 1) with (64 - l) by lia.
    apply Z.mod_pos_bound, Z.pow_pos_nonneg; lia.
  - intros ?. by rewrite Z.mod_small by lia.
Qed.

(** ** Macros and generated functions *)

(** C34: for every byte order, every width and every contiguous field of it, the
    functions that [__MAKE_OP] generates are the macros applied in the host's byte
    order: encoding is [FIELD_PREP], extracting is [FIELD_GET], and replacing is the
    sequence of the documentation, clear the field and or the prepared value in. *)
Theorem generated_ops_are_macros `{Endian} o n x v h l :
  0 ≤ l → l ≤ h → h < Z.of_nat n * 8 → (n ≤ 8)%nat → 0 ≤ x < 2 ^ (Z.of_nat n * 8) →
  let mask := GENMASK h l in
  encode_bits o n v mask = Some (order_conv o n (FIELD_PREP mask v)) ∧
  get_bits o n x mask = Some (FIELD_GET mask (order_conv o n x)) ∧
  replace_bits o n x v mask =
    Some (order_conv o n ((order_conv o n x &&& ~~ mask) ||| FIELD_PREP mask v)).
Proof.
  intros Hl Hh Hn Hn8 Hx mask. unfold mask. rewrite GENMASK_mask_at by lia.
  pose proof (order_conv_range o n x Hx) as Hr. split_and!.
  - apply encode_bits_spec; lia.
  - rewrite <- (order_conv_inv o n x Hx) at 1. rewrite get_bits_spec by lia.
    by rewrite FIELD_GET_slice by lia.
  - rewrite <- (order_conv_inv o n x Hx) at 1. rewrite replace_bits_spec by lia. done.
Qed.
