(* ===== verification/RxeOpcode.v ===== *)
(** * RxeOpcode: src/src/rxe_opcode.h

    Header types, the bit masks that describe which headers and which operation
    a packet has, and the entry of the opcode table.  The table [rxe_opcode]
    itself is only declared ([extern]) by the header: it is a parameter where it
    is used. *)

From Stdlib Require Import ZArith Lia String.
From stdpp Require Import base tactics numbers list.
From S2P Require Import Prelude Bitfield.

Open Scope Z_scope.
Open Scope ctcm_scope.

(** ** enum rxe_wr_mask *)
Definition WR_INLINE_MASK := BIT 0.
Definition WR_ATOMIC_MASK := BIT 1.
Definition WR_SEND_MASK := BIT 2.
Definition WR_READ_MASK := BIT 3.
Definition WR_WRITE_MASK := BIT 4.
Definition WR_LOCAL_MASK := BIT 5.
Definition WR_REG_MASK := BIT 6.
Definition WR_READ_OR_WRITE_MASK := WR_READ_MASK ||| WR_WRITE_MASK.
Definition WR_READ_WRITE_OR_SEND_MASK := WR_READ_OR_WRITE_MASK ||| WR_SEND_MASK.
Definition WR_WRITE_OR_SEND_MASK := WR_WRITE_MASK ||| WR_SEND_MASK.
Definition WR_ATOMIC_OR_READ_MASK := WR_ATOMIC_MASK ||| WR_READ_MASK.

Definition WR_MAX_QPT : Z := 8.

(** [struct rxe_wr_opcode_info]: a mask for each type of queue pair. *)
Record rxe_wr_opcode_info := {
  wi_name : string;
  wi_mask : list Z;
}.

(** ** enum rxe_hdr_type *)
Inductive rxe_hdr_type :=
| RXE_LRH | RXE_GRH | RXE_BTH | RXE_RETH | RXE_AETH | RXE_ATMETH | RXE_ATMACK
| RXE_IETH | RXE_RDETH | RXE_DETH | RXE_IMMDT | RXE_PAYLOAD.

#[global] Instance rxe_hdr_type_eq_dec : EqDecision rxe_hdr_type.
Proof. solve_decision. Defined.

Definition hdr_types : list rxe_hdr_type :=
  [RXE_LRH; RXE_GRH; RXE_BTH; RXE_RETH; RXE_AETH; RXE_ATMETH; RXE_ATMACK;
   RXE_IETH; RXE_RDETH; RXE_DETH; RXE_IMMDT; RXE_PAYLOAD].

Definition hdr_type_value (t : rxe_hdr_type) : Z :=
  match t with
  | RXE_LRH => 0 | RXE_GRH => 1 | RXE_BTH => 2 | RXE_RETH => 3 | RXE_AETH => 4
  | RXE_ATMETH => 5 | RXE_ATMACK => 6 | RXE_IETH => 7 | RXE_RDETH => 8
  | RXE_DETH => 9 | RXE_IMMDT => 10 | RXE_PAYLOAD => 11
  end.

Definition NUM_HDR_TYPES : Z := 12.

(** ** enum rxe_hdr_mask *)
Definition hdr_mask (t : rxe_hdr_type) : Z := BIT (hdr_type_value t).

Definition RXE_REQ_MASK := BIT (NUM_HDR_TYPES + 0).
Definition RXE_ACK_MASK := BIT (NUM_HDR_TYPES + 1).
Definition RXE_SEND_MASK := BIT (NUM_HDR_TYPES + 2).
Definition RXE_WRITE_MASK := BIT (NUM_HDR_TYPES + 3).
Definition RXE_READ_MASK := BIT (NUM_HDR_TYPES + 4).
Definition RXE_ATOMIC_MASK := BIT (NUM_HDR_TYPES + 5).
Definition RXE_RWR_MASK := BIT (NUM_HDR_TYPES + 6).
Definition RXE_COMP_MASK := BIT (NUM_HDR_TYPES + 7).
Definition RXE_START_MASK := BIT (NUM_HDR_TYPES + 8).
Definition RXE_MIDDLE_MASK := BIT (NUM_HDR_TYPES + 9).
Definition RXE_END_MASK := BIT (NUM_HDR_TYPES + 10).
Definition RXE_LOOPBACK_MASK := BIT (NUM_HDR_TYPES + 12).
Definition RXE_READ_OR_ATOMIC := RXE_READ_MASK ||| RXE_ATOMIC_MASK.
Definition RXE_WRITE_OR_SEND := RXE_WRITE_MASK ||| RXE_SEND_MASK.

(** The one-bit masks of the two enums. *)
Definition wr_flags : list Z :=
  [WR_INLINE_MASK; WR_ATOMIC_MASK; WR_SEND_MASK; WR_READ_MASK; WR_WRITE_MASK;
   WR_LOCAL_MASK; WR_REG_MASK].
Definition hdr_flags : list Z :=
  (hdr_mask <$> hdr_types) ++
  [RXE_REQ_MASK; RXE_ACK_MASK; RXE_SEND_MASK; RXE_WRITE_MASK; RXE_READ_MASK;
   RXE_ATOMIC_MASK; RXE_RWR_MASK; RXE_COMP_MASK; RXE_START_MASK; RXE_MIDDLE_MASK;
   RXE_END_MASK; RXE_LOOPBACK_MASK].

(** ** struct rxe_opcode_info (its name string is not used) *)
Definition OPCODE_NONE : Z := -1.
Definition RXE_NUM_OPCODE : Z := 256.

Record rxe_opcode_info := {
  oi_mask : Z;
  oi_length : Z;
  oi_offset : rxe_hdr_type → Z;
}.

(** A set of flags is read back from its union: flags of one enum do not share
    a bit, so a mask tests exactly the flags that were or-ed into it. *)
Definition flags_union (fs : list Z) : Z := foldr Z.lor 0 fs.

Fixpoint pairwise_disjoint (fs : list Z) : bool :=
  match fs with
  | [] => true
  | f :: fs' => forallb (λ g, f &&& g =? 0) fs' && pairwise_disjoint fs'
  end.

Lemma land_flags_union f fs : Forall (λ g, Z.land f g = 0) fs → Z.land f (flags_union fs) = 0.
Proof.
  induction 1 as [|g fs Hg Hfs IH]; [apply Z.land_0_r|].
  change (flags_union (g :: fs)) with (Z.lor g (flags_union fs)).
  by rewrite Z.land_lor_distr_r, Hg, IH.
Qed.

Lemma flags_union_hit f fs : f ≠ 0 → f ∈ fs → Z.land f (flags_union fs) ≠ 0.
Proof.
  intros Hf. induction 1 as [fs|g fs Hin IH];
    change (flags_union (?h :: ?t)) with (Z.lor h (flags_union t)); intros Hz;
    rewrite Z.land_lor_distr_r, Z.lor_eq_0_iff in Hz.
  - rewrite Z.land_diag in Hz. tauto.
  - tauto.
Qed.

Lemma pairwise_disjoint_spec fs f g :
  pairwise_disjoint fs = true → f ∈ fs → g ∈ fs → f ≠ g → Z.land f g = 0.
Proof.
  induction fs as [|h fs IH]; [by intros _ ?%not_elem_of_nil|]. cbn.
  rewrite andb_true_iff, forallb_forall. intros [Hh Hp] Hf Hg Hne.
  apply elem_of_cons in Hf as [->|Hf], Hg as [->|Hg].
  - done.
  - apply Z.eqb_eq, Hh. by apply list_elem_of_In.
  - rewrite Z.land_comm. apply Z.eqb_eq, Hh. by apply list_elem_of_In.
  - by apply IH.
Qed.

Lemma flag_test all fs f :
  pairwise_disjoint all = true → 0 ∉ all → f ∈ all → fs ⊆ all →
  Z.land f (flags_union fs) ≠ 0 ↔ f ∈ fs.
Proof.
  intros Hp H0 Hf Hfs. split.
  - intros Hz. destruct (decide (f ∈ fs)) as [|Hn]; [done|]. destruct Hz.
    apply land_flags_union, Forall_forall. intros g Hg.
    eapply pairwise_disjoint_spec; [done..| |]; [by apply Hfs|]. by intros ->.
  - intros Hin. apply flags_union_hit; [|done]. by intros ->.
Qed.

(** A packet-description mask built by or-ing header and operation flags
    answers the membership of every flag of [enum rxe_hdr_mask] exactly. *)
Theorem rxe_hdr_flag_test fs f :
  f ∈ hdr_flags → fs ⊆ hdr_flags → Z.land f (flags_union fs) ≠ 0 ↔ f ∈ fs.
Proof.
  apply flag_test; [vm_compute; reflexivity|].
  apply (bool_decide_unpack _). vm_compute. exact I.
Qed.
