(* ===== verification/RxeHdr.v ===== *)
(** * RxeHdr: src/src/rxe_hdr.h

    The RoCE transport headers and their accessors.  A routine [__hhh_fff] takes
    the buffer and the address of the header; a routine [hhh_fff] takes a packet
    description and finds the header through the opcode table. *)

From Stdlib Require Import ZArith Lia String.
From stdpp Require Import base tactics numbers list strings.
From coqutil Require Import Z.bitblast.
From S2P Require Import Prelude Memory Layout Bitfield RxeOpcode.

Local Open Scope string_scope.
Open Scope Z_scope.
Open Scope ctcm_scope.

Abbreviation mem := (list byte).

(** ** struct rxe_pkt_info

    The pointers to the device, the queue pair and the work request are left out: no
    function of the header uses them. *)
Record rxe_pkt_info := {
  pkt_hdr : Z;          (* points to bth *)
  pkt_mask : Z;
  pkt_psn : Z;
  pkt_pkey_index : Z;
  pkt_paylen : Z;       (* length of bth - icrc *)
  pkt_port_num : Z;
  pkt_opcode : Z;
  pkt_offset : Z;       (* bth offset from pkt->hdr *)
}.

Definition RXE_ICRC_SIZE : Z := 4.
Definition RXE_MAX_HDR_LENGTH : Z := 80.

(** ** The header structs *)
Definition rxe_bth : ctype :=
  Struct false [("opcode", c_u8); ("flags", c_u8); ("pkey", c_u16); ("qpn", c_u32);
                ("apsn", c_u32)].
Definition rxe_rdeth : ctype := Struct false [("een", c_u32)].
Definition rxe_deth : ctype := Struct false [("qkey", c_u32); ("sqp", c_u32)].
Definition rxe_reth : ctype :=
  Struct false [("va", c_u64); ("rkey", c_u32); ("len", c_u32)].
Definition rxe_atmeth : ctype :=
  Struct true [("va", c_u64); ("rkey", c_u32); ("swap_add", c_u64); ("comp", c_u64)].
Definition rxe_aeth : ctype := Struct false [("smsn", c_u32)].
Definition rxe_atmack : ctype := Struct false [("orig", c_u64)].
Definition rxe_immdt : ctype := Struct false [("imm", c_u32)].
Definition rxe_ieth : ctype := Struct false [("rkey", c_u32)].

(** ** Masks *)
Definition BTH_TVER : Z := 0.
Definition BTH_DEF_PKEY : Z := 0xffff.
Definition BTH_SE_MASK : Z := 0x80.
Definition BTH_MIG_MASK : Z := 0x40.
Definition BTH_PAD_MASK : Z := 0x30.
Definition BTH_TVER_MASK : Z := 0x0f.
Definition BTH_FECN_MASK : Z := 0x80000000.
Definition BTH_BECN_MASK : Z := 0x40000000.
Definition BTH_RESV6A_MASK : Z := 0x3f000000.
Definition BTH_QPN_MASK : Z := 0x00ffffff.
Definition BTH_ACK_MASK : Z := 0x80000000.
Definition BTH_RESV7_MASK : Z := 0x7f000000.
Definition BTH_PSN_MASK : Z := 0x00ffffff.
Definition RDETH_EEN_MASK : Z := 0x00ffffff.
Definition GSI_QKEY : Z := 0x80010000.
Definition DETH_SQP_MASK : Z := 0x00ffffff.
Definition AETH_SYN_MASK : Z := 0xff000000.
Definition AETH_MSN_MASK : Z := 0x00ffffff.

(** ** enum aeth_syndrome *)
Definition AETH_TYPE_MASK : Z := 0xe0.
Definition AETH_ACK : Z := 0x00.
Definition AETH_RNR_NAK : Z := 0x20.
Definition AETH_RSVD : Z := 0x40.
Definition AETH_NAK : Z := 0x60.
Definition AETH_ACK_UNLIMITED : Z := 0x1f.
Definition AETH_NAK_PSN_SEQ_ERROR : Z := 0x60.
Definition AETH_NAK_INVALID_REQ : Z := 0x61.
Definition AETH_NAK_REM_ACC_ERR : Z := 0x62.
Definition AETH_NAK_REM_OP_ERR : Z := 0x63.
Definition AETH_NAK_INV_RD_REQ : Z := 0x64.

(** [0 != e] as an integer. *)
Definition nonzero (e : Z) : Z := if e =? 0 then 0 else 1.

(** ** enum rxe_hdr_length *)
Definition RXE_BTH_BYTES := sizeof rxe_bth.
Definition RXE_DETH_BYTES := sizeof rxe_deth.
Definition RXE_IMMDT_BYTES := sizeof rxe_immdt.
Definition RXE_RETH_BYTES := sizeof rxe_reth.
Definition RXE_AETH_BYTES := sizeof rxe_aeth.
Definition RXE_ATMACK_BYTES := sizeof rxe_atmack.
Definition RXE_ATMETH_BYTES := sizeof rxe_atmeth.
Definition RXE_IETH_BYTES := sizeof rxe_ieth.
Definition RXE_RDETH_BYTES := sizeof rxe_rdeth.

Section Headers.
Context `{Endian}.

(** ** Base Transport Header *)

Definition __bth_opcode (m : mem) (arg : Z) : result Z :=
  load8 m (arg + offsetof rxe_bth "opcode").

Definition __bth_set_opcode (m : mem) (arg opcode : Z) : result mem :=
  store8 m (arg + offsetof rxe_bth "opcode") opcode.

Definition __bth_se (m : mem) (arg : Z) : result Z :=
  flags ← load8 m (arg + offsetof rxe_bth "flags");
  Ok (nonzero (BTH_SE_MASK &&& flags)).

Definition __bth_set_se (m : mem) (arg se : Z) : result mem :=
  flags ← load8 m (arg + offsetof rxe_bth "flags");
  store8 m (arg + offsetof rxe_bth "flags")
    (if negb (se =? 0) then flags ||| BTH_SE_MASK else u8 (flags &&& ~~ BTH_SE_MASK)).

Definition __bth_mig (m : mem) (arg : Z) : result Z :=
  flags ← load8 m (arg + offsetof rxe_bth "flags");
  Ok (nonzero (BTH_MIG_MASK &&& flags)).

Definition __bth_set_mig (m : mem) (arg mig : Z) : result mem :=
  flags ← load8 m (arg + offsetof rxe_bth "flags");
  store8 m (arg + offsetof rxe_bth "flags")
    (if negb (mig =? 0) then flags ||| BTH_MIG_MASK else u8 (flags &&& ~~ BTH_MIG_MASK)).

Definition __bth_pad (m : mem) (arg : Z) : result Z :=
  flags ← load8 m (arg + offsetof rxe_bth "flags");
  Ok (u8 ((BTH_PAD_MASK &&& flags) ≫ 4)).

Definition __bth_set_pad (m : mem) (arg pad : Z) : result mem :=
  flags ← load8 m (arg + offsetof rxe_bth "flags");
  store8 m (arg + offsetof rxe_bth "flags")
    (u8 ((BTH_PAD_MASK &&& (pad ≪ 4)) ||| (~~ BTH_PAD_MASK &&& flags))).

Definition __bth_tver (m : mem) (arg : Z) : result Z :=
  flags ← load8 m (arg + offsetof rxe_bth "flags");
  Ok (BTH_TVER_MASK &&& flags).

Definition __bth_set_tver (m : mem) (arg tver : Z) : result mem :=
  flags ← load8 m (arg + offsetof rxe_bth "flags");
  store8 m (arg + offsetof rxe_bth "flags")
    (u8 ((BTH_TVER_MASK &&& tver) ||| (~~ BTH_TVER_MASK &&& flags))).

Definition __bth_pkey (m : mem) (arg : Z) : result Z :=
  pkey ← load16 m (arg + offsetof rxe_bth "pkey");
  Ok (ntohs pkey).

Definition __bth_set_pkey (m : mem) (arg pkey : Z) : result mem :=
  store16 m (arg + offsetof rxe_bth "pkey") (htons pkey).

Definition __bth_qpn (m : mem) (arg : Z) : result Z :=
  qpn ← load32 m (arg + offsetof rxe_bth "qpn");
  Ok (BTH_QPN_MASK &&& ntohl qpn).

Definition __bth_set_qpn (m : mem) (arg qpn : Z) : result mem :=
  q ← load32 m (arg + offsetof rxe_bth "qpn");
  let resvqpn := ntohl q in
  store32 m (arg + offsetof rxe_bth "qpn")
    (htonl ((BTH_QPN_MASK &&& qpn) ||| (~~ BTH_QPN_MASK &&& resvqpn))).

Definition __bth_fecn (m : mem) (arg : Z) : result Z :=
  qpn ← load32 m (arg + offsetof rxe_bth "qpn");
  Ok (nonzero (htonl BTH_FECN_MASK &&& qpn)).

Definition __bth_set_fecn (m : mem) (arg fecn : Z) : result mem :=
  qpn ← load32 m (arg + offsetof rxe_bth "qpn");
  store32 m (arg + offsetof rxe_bth "qpn")
    (if negb (fecn =? 0) then qpn ||| htonl BTH_FECN_MASK
     else qpn &&& ~~ (htonl BTH_FECN_MASK)).

Definition __bth_becn (m : mem) (arg : Z) : result Z :=
  qpn ← load32 m (arg + offsetof rxe_bth "qpn");
  Ok (nonzero (htonl BTH_BECN_MASK &&& qpn)).

Definition __bth_set_becn (m : mem) (arg becn : Z) : result mem :=
  qpn ← load32 m (arg + offsetof rxe_bth "qpn");
  store32 m (arg + offsetof rxe_bth "qpn")
    (if negb (becn =? 0) then qpn ||| htonl BTH_BECN_MASK
     else qpn &&& ~~ (htonl BTH_BECN_MASK)).

Definition __bth_resv6a (m : mem) (arg : Z) : result Z :=
  qpn ← load32 m (arg + offsetof rxe_bth "qpn");
  Ok (u8 ((BTH_RESV6A_MASK &&& ntohl qpn) ≫ 24)).

Definition __bth_set_resv6a (m : mem) (arg : Z) : result mem :=
  store32 m (arg + offsetof rxe_bth "qpn") (htonl (~~ BTH_RESV6A_MASK)).

Definition __bth_ack (m : mem) (arg : Z) : result Z :=
  apsn ← load32 m (arg + offsetof rxe_bth "apsn");
  Ok (nonzero (htonl BTH_ACK_MASK &&& apsn)).

Definition __bth_set_ack (m : mem) (arg ack : Z) : result mem :=
  apsn ← load32 m (arg + offsetof rxe_bth "apsn");
  store32 m (arg + offsetof rxe_bth "apsn")
    (if negb (ack =? 0) then apsn ||| htonl BTH_ACK_MASK
     else apsn &&& ~~ (htonl BTH_ACK_MASK)).

Definition __bth_set_resv7 (m : mem) (arg : Z) : result mem :=
  apsn ← load32 m (arg + offsetof rxe_bth "apsn");
  store32 m (arg + offsetof rxe_bth "apsn") (apsn &&& ~~ (htonl BTH_RESV7_MASK)).

Definition __bth_psn (m : mem) (arg : Z) : result Z :=
  apsn ← load32 m (arg + offsetof rxe_bth "apsn");
  Ok (BTH_PSN_MASK &&& ntohl apsn).

Definition __bth_set_psn (m : mem) (arg psn : Z) : result mem :=
  a ← load32 m (arg + offsetof rxe_bth "apsn");
  let apsn := ntohl a in
  store32 m (arg + offsetof rxe_bth "apsn")
    (htonl ((BTH_PSN_MASK &&& psn) ||| (~~ BTH_PSN_MASK &&& apsn))).

Definition bth_opcode (m : mem) (pkt : rxe_pkt_info) := __bth_opcode m (pkt_hdr pkt + pkt_offset pkt).
Definition bth_set_opcode (m : mem) (pkt : rxe_pkt_info) := __bth_set_opcode m (pkt_hdr pkt + pkt_offset pkt).
Definition bth_se (m : mem) (pkt : rxe_pkt_info) := __bth_se m (pkt_hdr pkt + pkt_offset pkt).
Definition bth_set_se (m : mem) (pkt : rxe_pkt_info) := __bth_set_se m (pkt_hdr pkt + pkt_offset pkt).
Definition bth_mig (m : mem) (pkt : rxe_pkt_info) := __bth_mig m (pkt_hdr pkt + pkt_offset pkt).
Definition bth_set_mig (m : mem) (pkt : rxe_pkt_info) := __bth_set_mig m (pkt_hdr pkt + pkt_offset pkt).
Definition bth_pad (m : mem) (pkt : rxe_pkt_info) := __bth_pad m (pkt_hdr pkt + pkt_offset pkt).
Definition bth_set_pad (m : mem) (pkt : rxe_pkt_info) := __bth_set_pad m (pkt_hdr pkt + pkt_offset pkt).
Definition bth_tver (m : mem) (pkt : rxe_pkt_info) := __bth_tver m (pkt_hdr pkt + pkt_offset pkt).
Definition bth_set_tver (m : mem) (pkt : rxe_pkt_info) := __bth_set_tver m (pkt_hdr pkt + pkt_offset pkt).
Definition bth_pkey (m : mem) (pkt : rxe_pkt_info) := __bth_pkey m (pkt_hdr pkt + pkt_offset pkt).
Definition bth_set_pkey (m : mem) (pkt : rxe_pkt_info) := __bth_set_pkey m (pkt_hdr pkt + pkt_offset pkt).
Definition bth_qpn (m : mem) (pkt : rxe_pkt_info) := __bth_qpn m (pkt_hdr pkt + pkt_offset pkt).
Definition bth_set_qpn (m : mem) (pkt : rxe_pkt_info) := __bth_set_qpn m (pkt_hdr pkt + pkt_offset pkt).
Definition bth_fecn (m : mem) (pkt : rxe_pkt_info) := __bth_fecn m (pkt_hdr pkt + pkt_offset pkt).
Definition bth_set_fecn (m : mem) (pkt : rxe_pkt_info) := __bth_set_fecn m (pkt_hdr pkt + pkt_offset pkt).
Definition bth_becn (m : mem) (pkt : rxe_pkt_info) := __bth_becn m (pkt_hdr pkt + pkt_offset pkt).
Definition bth_set_becn (m : mem) (pkt : rxe_pkt_info) := __bth_set_becn m (pkt_hdr pkt + pkt_offset pkt).
Definition bth_resv6a (m : mem) (pkt : rxe_pkt_info) := __bth_resv6a m (pkt_hdr pkt + pkt_offset pkt).
Definition bth_set_resv6a (m : mem) (pkt : rxe_pkt_info) := __bth_set_resv6a m (pkt_hdr pkt + pkt_offset pkt).
Definition bth_ack (m : mem) (pkt : rxe_pkt_info) := __bth_ack m (pkt_hdr pkt + pkt_offset pkt).
Definition bth_set_ack (m : mem) (pkt : rxe_pkt_info) := __bth_set_ack m (pkt_hdr pkt + pkt_offset pkt).
Definition bth_set_resv7 (m : mem) (pkt : rxe_pkt_info) := __bth_set_resv7 m (pkt_hdr pkt + pkt_offset pkt).
Definition bth_psn (m : mem) (pkt : rxe_pkt_info) := __bth_psn m (pkt_hdr pkt + pkt_offset pkt).
Definition bth_set_psn (m : mem) (pkt : rxe_pkt_info) := __bth_set_psn m (pkt_hdr pkt + pkt_offset pkt).

Definition bth_init (m : mem) (pkt : rxe_pkt_info)
    (opcode se mig pad pkey qpn ack_req psn : Z) : result mem :=
  let bth := pkt_hdr pkt + pkt_offset pkt in
  m ← store8 m (bth + offsetof rxe_bth "opcode") opcode;
  m ← store8 m (bth + offsetof rxe_bth "flags") (u8 ((pad ≪ 4) &&& BTH_PAD_MASK));
  m ← (if negb (se =? 0) then
         flags ← load8 m (bth + offsetof rxe_bth "flags");
         store8 m (bth + offsetof rxe_bth "flags") (flags ||| BTH_SE_MASK)
       else Ok m);
  m ← (if negb (mig =? 0) then
         flags ← load8 m (bth + offsetof rxe_bth "flags");
         store8 m (bth + offsetof rxe_bth "flags") (flags ||| BTH_MIG_MASK)
       else Ok m);
  m ← store16 m (bth + offsetof rxe_bth "pkey") (htons pkey);
  m ← store32 m (bth + offsetof rxe_bth "qpn") (htonl (qpn &&& BTH_QPN_MASK));
  let psn := psn &&& BTH_PSN_MASK in
  let psn := if negb (ack_req =? 0) then psn ||| BTH_ACK_MASK else psn in
  store32 m (bth + offsetof rxe_bth "apsn") (htonl psn).

(** ** The extended transport headers *)

Definition __rdeth_een (m : mem) (arg : Z) : result Z :=
  een ← load32 m (arg + offsetof rxe_rdeth "een"); Ok (RDETH_EEN_MASK &&& ntohl een).
Definition __rdeth_set_een (m : mem) (arg een : Z) : result mem :=
  store32 m (arg + offsetof rxe_rdeth "een") (htonl (RDETH_EEN_MASK &&& een)).

Definition __deth_qkey (m : mem) (arg : Z) : result Z :=
  qkey ← load32 m (arg + offsetof rxe_deth "qkey"); Ok (ntohl qkey).
Definition __deth_set_qkey (m : mem) (arg qkey : Z) : result mem :=
  store32 m (arg + offsetof rxe_deth "qkey") (htonl qkey).
Definition __deth_sqp (m : mem) (arg : Z) : result Z :=
  sqp ← load32 m (arg + offsetof rxe_deth "sqp"); Ok (DETH_SQP_MASK &&& ntohl sqp).
Definition __deth_set_sqp (m : mem) (arg sqp : Z) : result mem :=
  store32 m (arg + offsetof rxe_deth "sqp") (htonl (DETH_SQP_MASK &&& sqp)).

Definition __reth_va (m : mem) (arg : Z) : result Z :=
  va ← load64 m (arg + offsetof rxe_reth "va"); Ok (be64toh va).
Definition __reth_set_va (m : mem) (arg va : Z) : result mem :=
  store64 m (arg + offsetof rxe_reth "va") (htobe64 va).
Definition __reth_rkey (m : mem) (arg : Z) : result Z :=
  rkey ← load32 m (arg + offsetof rxe_reth "rkey"); Ok (ntohl rkey).
Definition __reth_set_rkey (m : mem) (arg rkey : Z) : result mem :=
  store32 m (arg + offsetof rxe_reth "rkey") (htonl rkey).
Definition __reth_len (m : mem) (arg : Z) : result Z :=
  len ← load32 m (arg + offsetof rxe_reth "len"); Ok (ntohl len).
Definition __reth_set_len (m : mem) (arg len : Z) : result mem :=
  store32 m (arg + offsetof rxe_reth "len") (htonl len).

Definition __atmeth_va (m : mem) (arg : Z) : result Z :=
  va ← load64 m (arg + offsetof rxe_atmeth "va"); Ok (be64toh va).
Definition __atmeth_set_va (m : mem) (arg va : Z) : result mem :=
  store64 m (arg + offsetof rxe_atmeth "va") (htobe64 va).
Definition __atmeth_rkey (m : mem) (arg : Z) : result Z :=
  rkey ← load32 m (arg + offsetof rxe_atmeth "rkey"); Ok (ntohl rkey).
Definition __atmeth_set_rkey (m : mem) (arg rkey : Z) : result mem :=
  store32 m (arg + offsetof rxe_atmeth "rkey") (htonl rkey).
Definition __atmeth_swap_add (m : mem) (arg : Z) : result Z :=
  v ← load64 m (arg + offsetof rxe_atmeth "swap_add"); Ok (be64toh v).
Definition __atmeth_set_swap_add (m : mem) (arg swap_add : Z) : result mem :=
  store64 m (arg + offsetof rxe_atmeth "swap_add") (htobe64 swap_add).
Definition __atmeth_comp (m : mem) (arg : Z) : result Z :=
  v ← load64 m (arg + offsetof rxe_atmeth "comp"); Ok (be64toh v).
Definition __atmeth_set_comp (m : mem) (arg comp : Z) : result mem :=
  store64 m (arg + offsetof rxe_atmeth "comp") (htobe64 comp).

Definition __aeth_syn (m : mem) (arg : Z) : result Z :=
  smsn ← load32 m (arg + offsetof rxe_aeth "smsn");
  Ok (u8 ((AETH_SYN_MASK &&& ntohl smsn) ≫ 24)).
Definition __aeth_set_syn (m : mem) (arg syn : Z) : result mem :=
  s ← load32 m (arg + offsetof rxe_aeth "smsn");
  let smsn := ntohl s in
  store32 m (arg + offsetof rxe_aeth "smsn")
    (htonl ((AETH_SYN_MASK &&& u32 (syn ≪ 24)) ||| (~~ AETH_SYN_MASK &&& smsn))).
Definition __aeth_msn (m : mem) (arg : Z) : result Z :=
  smsn ← load32 m (arg + offsetof rxe_aeth "smsn"); Ok (AETH_MSN_MASK &&& ntohl smsn).
Definition __aeth_set_msn (m : mem) (arg msn : Z) : result mem :=
  s ← load32 m (arg + offsetof rxe_aeth "smsn");
  let smsn := ntohl s in
  store32 m (arg + offsetof rxe_aeth "smsn")
    (htonl ((AETH_MSN_MASK &&& msn) ||| (~~ AETH_MSN_MASK &&& smsn))).

Definition __atmack_orig (m : mem) (arg : Z) : result Z :=
  orig ← load64 m (arg + offsetof rxe_atmack "orig"); Ok (be64toh orig).
Definition __atmack_set_orig (m : mem) (arg orig : Z) : result mem :=
  store64 m (arg + offsetof rxe_atmack "orig") (htobe64 orig).

(** The immediate is kept in network order on both sides. *)
Definition __immdt_imm (m : mem) (arg : Z) : result Z :=
  load32 m (arg + offsetof rxe_immdt "imm").
Definition __immdt_set_imm (m : mem) (arg imm : Z) : result mem :=
  store32 m (arg + offsetof rxe_immdt "imm") imm.

Definition __ieth_rkey (m : mem) (arg : Z) : result Z :=
  rkey ← load32 m (arg + offsetof rxe_ieth "rkey"); Ok (ntohl rkey).
Definition __ieth_set_rkey (m : mem) (arg rkey : Z) : result mem :=
  store32 m (arg + offsetof rxe_ieth "rkey") (htonl rkey).

Section PacketInfo.
(** [extern struct rxe_opcode_info rxe_opcode[RXE_NUM_OPCODE]]: its definition is
    not part of the repository. *)
Variable rxe_opcode : Z → rxe_opcode_info.

(** [pkt->hdr + pkt->offset + rxe_opcode[pkt->opcode].offset[t]]. *)
Definition pkt_header (pkt : rxe_pkt_info) (t : rxe_hdr_type) : Z :=
  pkt_hdr pkt + pkt_offset pkt + oi_offset (rxe_opcode (pkt_opcode pkt)) t.

Definition rdeth_een (m : mem) (pkt : rxe_pkt_info) := __rdeth_een m (pkt_header pkt RXE_RDETH).
Definition rdeth_set_een (m : mem) (pkt : rxe_pkt_info) := __rdeth_set_een m (pkt_header pkt RXE_RDETH).
Definition deth_qkey (m : mem) (pkt : rxe_pkt_info) := __deth_qkey m (pkt_header pkt RXE_DETH).
Definition deth_set_qkey (m : mem) (pkt : rxe_pkt_info) := __deth_set_qkey m (pkt_header pkt RXE_DETH).
Definition deth_sqp (m : mem) (pkt : rxe_pkt_info) := __deth_sqp m (pkt_header pkt RXE_DETH).
Definition deth_set_sqp (m : mem) (pkt : rxe_pkt_info) := __deth_set_sqp m (pkt_header pkt RXE_DETH).
Definition reth_va (m : mem) (pkt : rxe_pkt_info) := __reth_va m (pkt_header pkt RXE_RETH).
Definition reth_set_va (m : mem) (pkt : rxe_pkt_info) := __reth_set_va m (pkt_header pkt RXE_RETH).
Definition reth_rkey (m : mem) (pkt : rxe_pkt_info) := __reth_rkey m (pkt_header pkt RXE_RETH).
Definition reth_set_rkey (m : mem) (pkt : rxe_pkt_info) := __reth_set_rkey m (pkt_header pkt RXE_RETH).
Definition reth_len (m : mem) (pkt : rxe_pkt_info) := __reth_len m (pkt_header pkt RXE_RETH).
Definition reth_set_len (m : mem) (pkt : rxe_pkt_info) := __reth_set_len m (pkt_header pkt RXE_RETH).
Definition atmeth_va (m : mem) (pkt : rxe_pkt_info) := __atmeth_va m (pkt_header pkt RXE_ATMETH).
Definition atmeth_set_va (m : mem) (pkt : rxe_pkt_info) := __atmeth_set_va m (pkt_header pkt RXE_ATMETH).
Definition atmeth_rkey (m : mem) (pkt : rxe_pkt_info) := __atmeth_rkey m (pkt_header pkt RXE_ATMETH).
Definition atmeth_set_rkey (m : mem) (pkt : rxe_pkt_info) := __atmeth_set_rkey m (pkt_header pkt RXE_ATMETH).
Definition atmeth_swap_add (m : mem) (pkt : rxe_pkt_info) := __atmeth_swap_add m (pkt_header pkt RXE_ATMETH).
Definition atmeth_set_swap_add (m : mem) (pkt : rxe_pkt_info) := __atmeth_set_swap_add m (pkt_header pkt RXE_ATMETH).
Definition atmeth_comp (m : mem) (pkt : rxe_pkt_info) := __atmeth_comp m (pkt_header pkt RXE_ATMETH).
Definition atmeth_set_comp (m : mem) (pkt : rxe_pkt_info) := __atmeth_set_comp m (pkt_header pkt RXE_ATMETH).
Definition aeth_syn (m : mem) (pkt : rxe_pkt_info) := __aeth_syn m (pkt_header pkt RXE_AETH).
Definition aeth_set_syn (m : mem) (pkt : rxe_pkt_info) := __aeth_set_syn m (pkt_header pkt RXE_AETH).
Definition aeth_msn (m : mem) (pkt : rxe_pkt_info) := __aeth_msn m (pkt_header pkt RXE_AETH).
Definition aeth_set_msn (m : mem) (pkt : rxe_pkt_info) := __aeth_set_msn m (pkt_header pkt RXE_AETH).
Definition atmack_orig (m : mem) (pkt : rxe_pkt_info) := __atmack_orig m (pkt_header pkt RXE_ATMACK).
Definition atmack_set_orig (m : mem) (pkt : rxe_pkt_info) := __atmack_set_orig m (pkt_header pkt RXE_ATMACK).
Definition immdt_imm (m : mem) (pkt : rxe_pkt_info) := __immdt_imm m (pkt_header pkt RXE_IMMDT).
Definition immdt_set_imm (m : mem) (pkt : rxe_pkt_info) := __immdt_set_imm m (pkt_header pkt RXE_IMMDT).
Definition ieth_rkey (m : mem) (pkt : rxe_pkt_info) := __ieth_rkey m (pkt_header pkt RXE_IETH).
Definition ieth_set_rkey (m : mem) (pkt : rxe_pkt_info) := __ieth_set_rkey m (pkt_header pkt RXE_IETH).

(** [size_t] results: an [int] sum or difference converted to 64 bits. *)
Definition header_size (pkt : rxe_pkt_info) : Z :=
  u64 (pkt_offset pkt + oi_length (rxe_opcode (pkt_opcode pkt))).

Definition payload_addr (pkt : rxe_pkt_info) : Z := pkt_header pkt RXE_PAYLOAD.

Definition payload_size (m : mem) (pkt : rxe_pkt_info) : result Z :=
  pad ← bth_pad m pkt;
  Ok (u64 (pkt_paylen pkt - oi_offset (rxe_opcode (pkt_opcode pkt)) RXE_PAYLOAD
           - pad - RXE_ICRC_SIZE)).
End PacketInfo.
End Headers.
