(* ===== verification/RxeHdrSpec.v ===== *)
(** * RxeHdrSpec: what the header accessors promise

    The Base Transport Header as the protocol lays it out (a record of fields,
    read off the big-endian words of the header), and the theorem that every
    accessor of src/src/rxe_hdr.h refines the projection or the update of that
    record, on both kinds of host. *)

From Stdlib Require Import ZArith Lia String.
From stdpp Require Import base tactics numbers list strings.
From S2P Require Import Prelude Memory Layout Bitfield RxeOpcode RxeHdr.

Local Open Scope string_scope.
Open Scope Z_scope.

(** ** The header as a record *)
Record bth := Bth {
  b_opcode : Z;
  b_se : bool;
  b_mig : bool;
  b_pad : Z;
  b_tver : Z;
  b_pkey : Z;
  b_fecn : bool;
  b_becn : bool;
  b_resv6a : Z;
  b_qpn : Z;
  b_ack : bool;
  b_resv7 : Z;
  b_psn : Z;
}.

(** Bits [l .. l+n) of a word. *)
Definition slice (x l n : Z) : Z := (x / 2 ^ l) mod 2 ^ n.

(** The header that starts at [p]: the flags byte, the word that holds the
    congestion bits and the destination QP, and the word that holds the
    acknowledge bit and the packet sequence number. *)
Definition bth_of_words (opcode flags pkey qpn apsn : Z) : bth :=
  {| b_opcode := opcode;
     b_se := Z.testbit flags 7; b_mig := Z.testbit flags 6;
     b_pad := slice flags 4 2; b_tver := slice flags 0 4;
     b_pkey := pkey;
     b_fecn := Z.testbit qpn 31; b_becn := Z.testbit qpn 30;
     b_resv6a := slice qpn 24 6; b_qpn := slice qpn 0 24;
     b_ack := Z.testbit apsn 31; b_resv7 := slice apsn 24 7; b_psn := slice apsn 0 24 |}.

Definition bth_at (m : mem) (p : Z) : bth :=
  bth_of_words (be_at m p 1) (be_at m (p + 1) 1) (be_at m (p + 2) 2)
               (be_at m (p + 4) 4) (be_at m (p + 8) 4).

(** ** The updates *)
Inductive bth_update :=
| SetOpcode (v : Z) | SetSe (v : Z) | SetMig (v : Z) | SetPad (v : Z) | SetTver (v : Z)
| SetPkey (v : Z) | SetQpn (v : Z) | SetFecn (v : Z) | SetBecn (v : Z) | SetAck (v : Z)
| SetResv7 | SetPsn (v : Z) | SetResv6a.

Definition truthy (v : Z) : bool := negb (v =? 0).

(** Each update changes one field, except the last: [__bth_set_resv6a] clears the
    reserved bits by overwriting their word, so that the congestion bits and the
    queue pair number become all ones. *)
Definition bth_apply (u : bth_update) (b : bth) : bth :=
  let '(Bth op se mig pad tver pkey fecn becn r6 qpn ack r7 psn) := b in
  match u with
  | SetOpcode v => Bth (v mod 2 ^ 8) se mig pad tver pkey fecn becn r6 qpn ack r7 psn
  | SetSe v => Bth op (truthy v) mig pad tver pkey fecn becn r6 qpn ack r7 psn
  | SetMig v => Bth op se (truthy v) pad tver pkey fecn becn r6 qpn ack r7 psn
  | SetPad v => Bth op se mig (v mod 2 ^ 2) tver pkey fecn becn r6 qpn ack r7 psn
  | SetTver v => Bth op se mig pad (v mod 2 ^ 4) pkey fecn becn r6 qpn ack r7 psn
  | SetPkey v => Bth op se mig pad tver (v mod 2 ^ 16) fecn becn r6 qpn ack r7 psn
  | SetQpn v => Bth op se mig pad tver pkey fecn becn r6 (v mod 2 ^ 24) ack r7 psn
  | SetFecn v => Bth op se mig pad tver pkey (truthy v) becn r6 qpn ack r7 psn
  | SetBecn v => Bth op se mig pad tver pkey fecn (truthy v) r6 qpn ack r7 psn
  | SetAck v => Bth op se mig pad tver pkey fecn becn r6 qpn (truthy v) r7 psn
  | SetResv7 => Bth op se mig pad tver pkey fecn becn r6 qpn ack 0 psn
  | SetPsn v => Bth op se mig pad tver pkey fecn becn r6 qpn ack r7 (v mod 2 ^ 24)
  | SetResv6a => Bth op se mig pad tver pkey true true 0 0xffffff ack r7 psn
  end.

(** ** The fields of the extended headers *)
Inductive eth_field :=
| RdethEen | DethQkey | DethSqp | RethVa | RethRkey | RethLen
| AtmethVa | AtmethRkey | AtmethSwapAdd | AtmethComp | AethSyn | AethMsn
| AtmackOrig | ImmdtImm | IethRkey.

#[global] Instance eth_field_eq_dec : EqDecision eth_field.
Proof. solve_decision. Defined.

Definition eth_header (f : eth_field) : rxe_hdr_type :=
  match f with
  | RdethEen => RXE_RDETH
  | DethQkey | DethSqp => RXE_DETH
  | RethVa | RethRkey | RethLen => RXE_RETH
  | AtmethVa | AtmethRkey | AtmethSwapAdd | AtmethComp => RXE_ATMETH
  | AethSyn | AethMsn => RXE_AETH
  | AtmackOrig => RXE_ATMACK
  | ImmdtImm => RXE_IMMDT
  | IethRkey => RXE_IETH
  end.

(** Where the protocol puts a field: byte offset and size of its word, lowest bit
    and width within the word. *)
Definition eth_place (f : eth_field) : Z * nat * Z * Z :=
  match f with
  | RdethEen => (0, 4%nat, 0, 24)
  | DethQkey => (0, 4%nat, 0, 32)
  | DethSqp => (4, 4%nat, 0, 24)
  | RethVa => (0, 8%nat, 0, 64)
  | RethRkey => (8, 4%nat, 0, 32)
  | RethLen => (12, 4%nat, 0, 32)
  | AtmethVa => (0, 8%nat, 0, 64)
  | AtmethRkey => (8, 4%nat, 0, 32)
  | AtmethSwapAdd => (12, 8%nat, 0, 64)
  | AtmethComp => (20, 8%nat, 0, 64)
  | AethSyn => (0, 4%nat, 24, 8)
  | AethMsn => (0, 4%nat, 0, 24)
  | AtmackOrig => (0, 8%nat, 0, 64)
  | ImmdtImm => (0, 4%nat, 0, 32)
  | IethRkey => (0, 4%nat, 0, 32)
  end.

Definition eth_size (f : eth_field) : nat :=
  match eth_header f with
  | RXE_RDETH => 4 | RXE_DETH => 8 | RXE_RETH => 16 | RXE_ATMETH => 28 | RXE_AETH => 4
  | RXE_ATMACK => 8 | RXE_IMMDT => 4 | RXE_IETH => 4 | _ => 0
  end.

Definition eth_width (f : eth_field) : Z := (eth_place f).2.

(** The value on the wire. *)
Definition eth_value (f : eth_field) (m : mem) (p : Z) : Z :=
  let '(o, n, l, w) := eth_place f in slice (be_at m (p + o) n) l w.

Section BthFacts.
Context `{Endian}.

(** The setter of the sources that performs an update. *)
Definition bth_run (u : bth_update) (m : mem) (arg : Z) : result mem :=
  match u with
  | SetOpcode v => __bth_set_opcode m arg v
  | SetSe v => __bth_set_se m arg v
  | SetMig v => __bth_set_mig m arg v
  | SetPad v => __bth_set_pad m arg v
  | SetTver v => __bth_set_tver m arg v
  | SetPkey v => __bth_set_pkey m arg v
  | SetQpn v => __bth_set_qpn m arg v
  | SetFecn v => __bth_set_fecn m arg v
  | SetBecn v => __bth_set_becn m arg v
  | SetAck v => __bth_set_ack m arg v
  | SetResv7 => __bth_set_resv7 m arg
  | SetPsn v => __bth_set_psn m arg v
  | SetResv6a => __bth_set_resv6a m arg
  end.

(** The accessors of the sources.  The immediate is not converted by them: it
    stays in network order, and is converted here. *)
Definition eth_get (f : eth_field) (m : mem) (arg : Z) : result Z :=
  match f with
  | RdethEen => __rdeth_een m arg
  | DethQkey => __deth_qkey m arg
  | DethSqp => __deth_sqp m arg
  | RethVa => __reth_va m arg
  | RethRkey => __reth_rkey m arg
  | RethLen => __reth_len m arg
  | AtmethVa => __atmeth_va m arg
  | AtmethRkey => __atmeth_rkey m arg
  | AtmethSwapAdd => __atmeth_swap_add m arg
  | AtmethComp => __atmeth_comp m arg
  | AethSyn => __aeth_syn m arg
  | AethMsn => __aeth_msn m arg
  | AtmackOrig => __atmack_orig m arg
  | ImmdtImm => imm ← __immdt_imm m arg; Ok (ntohl imm)
  | IethRkey => __ieth_rkey m arg
  end.

Definition eth_set (f : eth_field) (m : mem) (arg v : Z) : result mem :=
  match f with
  | RdethEen => __rdeth_set_een m arg v
  | DethQkey => __deth_set_qkey m arg v
  | DethSqp => __deth_set_sqp m arg v
  | RethVa => __reth_set_va m arg v
  | RethRkey => __reth_set_rkey m arg v
  | RethLen => __reth_set_len m arg v
  | AtmethVa => __atmeth_set_va m arg v
  | AtmethRkey => __atmeth_set_rkey m arg v
  | AtmethSwapAdd => __atmeth_set_swap_add m arg v
  | AtmethComp => __atmeth_set_comp m arg v
  | AethSyn => __aeth_set_syn m arg v
  | AethMsn => __aeth_set_msn m arg v
  | AtmackOrig => __atmack_set_orig m arg v
  | ImmdtImm => __immdt_set_imm m arg (htonl v)
  | IethRkey => __ieth_set_rkey m arg v
  end.

(** ** Masks as bit ranges *)
Lemma bth_masks :
  BTH_SE_MASK = mask_at 7 1 ∧ BTH_MIG_MASK = mask_at 6 1 ∧ BTH_PAD_MASK = mask_at 4 2 ∧
  BTH_TVER_MASK = mask_at 0 4 ∧ BTH_FECN_MASK = mask_at 31 1 ∧ BTH_BECN_MASK = mask_at 30 1 ∧
  BTH_RESV6A_MASK = mask_at 24 6 ∧ BTH_QPN_MASK = mask_at 0 24 ∧ BTH_ACK_MASK = mask_at 31 1 ∧
  BTH_RESV7_MASK = mask_at 24 7 ∧ BTH_PSN_MASK = mask_at 0 24.
Proof. by repeat split. Qed.

(** A single-bit test, as the getters do it. *)
Lemma nonzero_bit x i :
  0 ≤ i → nonzero (Z.land (mask_at i 1) x) = Z.b2z (Z.testbit x i).
Proof.
  intros Hi. unfold nonzero. destruct (Z.testbit x i) eqn:Hb.
  - destruct (Z.eqb_spec (Z.land (mask_at i 1) x) 0) as [Hz|]; [|done].
    apply (f_equal (λ z, Z.testbit z i)) in Hz. revert Hz. autorewrite with bits.
    rewrite Hb. lia.
  - replace (Z.land (mask_at i 1) x) with 0; [done|].
    apply Z.bits_inj'. intros j Hj. autorewrite with bits.
    destruct (Z.eq_dec j i) as [->|]; [rewrite Hb|]; bits_split; lia.
Qed.

(** The same test against a converted mask and the raw field. *)
Lemma nonzero_bit_raw n x i :
  0 ≤ i → 0 ≤ x < 2 ^ (Z.of_nat n * 8) →
  nonzero (Z.land (htobe n (mask_at i 1)) (htobe n x)) = Z.b2z (Z.testbit x i).
Proof.
  intros Hi Hx. rewrite htobe_land, <- nonzero_bit by done. unfold nonzero.
  rewrite htobe_eqb_0; [done|]. apply land_bound_r; lia.
Qed.

Ltac range_ok :=
  match goal with
  | Hr : in_range ?m _ _ = true |- in_range ?m _ _ = true =>
      eapply in_range_sub; [exact Hr | lia | cbn; lia]
  end.

(** C30: on a buffer that holds the header, every getter returns the field that
    the protocol defines, whatever the byte order of the host. *)
Theorem bth_getters m arg :
  in_range m arg 12 = true →
  let b := bth_at m arg in
  __bth_opcode m arg = Ok (b_opcode b) ∧
  __bth_se m arg = Ok (Z.b2z (b_se b)) ∧
  __bth_mig m arg = Ok (Z.b2z (b_mig b)) ∧
  __bth_pad m arg = Ok (b_pad b) ∧
  __bth_tver m arg = Ok (b_tver b) ∧
  __bth_pkey m arg = Ok (b_pkey b) ∧
  __bth_qpn m arg = Ok (b_qpn b) ∧
  __bth_fecn m arg = Ok (Z.b2z (b_fecn b)) ∧
  __bth_becn m arg = Ok (Z.b2z (b_becn b)) ∧
  __bth_resv6a m arg = Ok (b_resv6a b) ∧
  __bth_ack m arg = Ok (Z.b2z (b_ack b)) ∧
  __bth_psn m arg = Ok (b_psn b).
Proof.
  intros Hr b.
  unfold __bth_opcode, __bth_se, __bth_mig, __bth_pad, __bth_tver, __bth_pkey, __bth_qpn,
    __bth_fecn, __bth_becn, __bth_resv6a, __bth_ack, __bth_psn, load16, load32.
  destruct bth_masks as (-> & -> & -> & -> & -> & -> & -> & -> & -> & _ & ->).
  layout_norm. rewrite !load8_in, !load_int_in by range_ok.
  autorewrite with ctcm. unfold ntohl, ntohs, htonl.
  rewrite !htobe_be_at, !nonzero_bit, !nonzero_bit_raw by (apply be_at_range || lia).
  unfold b, bth_at, bth_of_words, slice, u8; cbn.
  rewrite Z.add_0_r. repeat split; f_equal; bits_eq.
Qed.

(** ** Setters *)

(** A read-modify-write of one word: the new word in terms of the old. *)
Lemma rmw_writes n m p (f g : Z → Z) :
  in_range m p n = true →
  (∀ x, 0 ≤ x < 2 ^ (Z.of_nat n * 8) → f (htobe n x) = htobe n (g x)) →
  ∃ m', (v ← load_int n m p; store_int n m p (f v)) = Ok m' ∧
        writes m m' p n (g (be_at m p n) mod 2 ^ (Z.of_nat n * 8)).
Proof.
  intros Hr Hfg. rewrite load_int_in by done. autorewrite with ctcm.
  rewrite Hfg by apply be_at_range. by apply store_writes.
Qed.

Lemma rmw8_writes m p (f : Z → Z) :
  in_range m p 1 = true →
  ∃ m', (v ← load8 m p; store8 m p (f v)) = Ok m' ∧
        writes m m' p 1 (f (be_at m p 1) mod 2 ^ 8).
Proof.
  intros Hr. rewrite load8_in by done. autorewrite with ctcm. by apply store8_writes.
Qed.

(** The header after one of its words was written. *)
Lemma bth_at_writes m m' arg p n w :
  0 ≤ arg → writes m m' p n w →
  (p = arg ∧ n = 1%nat →
     bth_at m' arg = bth_of_words w (be_at m (arg + 1) 1) (be_at m (arg + 2) 2)
                       (be_at m (arg + 4) 4) (be_at m (arg + 8) 4)) ∧
  (p = arg + 1 ∧ n = 1%nat →
     bth_at m' arg = bth_of_words (be_at m arg 1) w (be_at m (arg + 2) 2)
                       (be_at m (arg + 4) 4) (be_at m (arg + 8) 4)) ∧
  (p = arg + 2 ∧ n = 2%nat →
     bth_at m' arg = bth_of_words (be_at m arg 1) (be_at m (arg + 1) 1) w
                       (be_at m (arg + 4) 4) (be_at m (arg + 8) 4)) ∧
  (p = arg + 4 ∧ n = 4%nat →
     bth_at m' arg = bth_of_words (be_at m arg 1) (be_at m (arg + 1) 1) (be_at m (arg + 2) 2)
                       w (be_at m (arg + 8) 4)) ∧
  (p = arg + 8 ∧ n = 4%nat →
     bth_at m' arg = bth_of_words (be_at m arg 1) (be_at m (arg + 1) 1) (be_at m (arg + 2) 2)
                       (be_at m (arg + 4) 4) w).
Proof.
  intros Ha Hw. pose proof (writes_value _ _ _ _ _ Hw) as Hv. unfold bth_at.
  repeat split; intros [-> ->];
    repeat match goal with
    | |- context [be_at m' ?q ?k] =>
        first [ rewrite Hv | rewrite (writes_be_at_other _ _ _ _ _ q k Hw) by lia ]
    end; done.
Qed.

(** The flag setters in the raw words. *)
Lemma htobe_set_flag n v x k :
  (if truthy v then Z.lor (htobe n x) (htobe n k) else Z.land (htobe n x) (Z.lnot (htobe n k))) =
  htobe n (if truthy v then Z.lor x k else Z.land x (Z.lnot k)).
Proof. destruct (truthy v); [apply htobe_lor|apply htobe_land_lnot]. Qed.

(** What a setter guarantees. *)
Definition bth_set_post (u : bth_update) (m : mem) (arg : Z) (m' : mem) : Prop :=
  bth_at m' arg = bth_apply u (bth_at m arg) ∧ same_outside arg (arg + 12) m m'.

Lemma bth_set_post_intro u m arg m' p n w :
  writes m m' p n w → arg ≤ p → p + Z.of_nat n ≤ arg + 12 →
  bth_at m' arg = bth_apply u (bth_at m arg) → bth_set_post u m arg m'.
Proof.
  intros Hw Hlo Hhi Hb. split; [done|]. by eapply writes_same_outside.
Qed.

(** A setter that rewrites one word of the header refines its update if the
    words agree. *)
Lemma set_flags_refines u m arg f :
  in_range m arg 12 = true →
  bth_run u m arg = (v ← load8 m (arg + 1); store8 m (arg + 1) (f v)) →
  (∀ a x b c d, 0 ≤ x < 2 ^ 8 →
     bth_of_words a (f x mod 2 ^ 8) b c d = bth_apply u (bth_of_words a x b c d)) →
  ∃ m', bth_run u m arg = Ok m' ∧ bth_set_post u m arg m'.
Proof.
  intros Hr Hrun Hf. pose proof Hr as [Ha _]%in_range_true.
  destruct (rmw8_writes m (arg + 1) f) as (m' & Hm' & Hw); [range_ok|].
  exists m'. rewrite Hrun. split; [done|].
  eapply bth_set_post_intro; [exact Hw|lia|lia|].
  destruct (bth_at_writes m m' arg _ _ _ Ha Hw) as (_ & E & _). rewrite E by done.
  apply Hf, be_at_range.
Qed.

Lemma set_qpn_refines u m arg f g :
  in_range m arg 12 = true →
  bth_run u m arg = (v ← load_int 4 m (arg + 4); store_int 4 m (arg + 4) (f v)) →
  (∀ x, 0 ≤ x < 2 ^ 32 → f (htobe 4 x) = htobe 4 (g x)) →
  (∀ a x b c d, 0 ≤ x < 2 ^ 32 →
     bth_of_words a b c (g x mod 2 ^ 32) d = bth_apply u (bth_of_words a b c x d)) →
  ∃ m', bth_run u m arg = Ok m' ∧ bth_set_post u m arg m'.
Proof.
  intros Hr Hrun Hfg Hg. pose proof Hr as [Ha _]%in_range_true.
  destruct (rmw_writes 4 m (arg + 4) f g) as (m' & Hm' & Hw); [range_ok|done|].
  exists m'. rewrite Hrun. split; [done|].
  eapply bth_set_post_intro; [exact Hw|lia|lia|].
  destruct (bth_at_writes m m' arg _ _ _ Ha Hw) as (_ & _ & _ & E & _). rewrite E by done.
  apply Hg, be_at_range.
Qed.

Lemma set_apsn_refines u m arg f g :
  in_range m arg 12 = true →
  bth_run u m arg = (v ← load_int 4 m (arg + 8); store_int 4 m (arg + 8) (f v)) →
  (∀ x, 0 ≤ x < 2 ^ 32 → f (htobe 4 x) = htobe 4 (g x)) →
  (∀ a x b c d, 0 ≤ x < 2 ^ 32 →
     bth_of_words a b c d (g x mod 2 ^ 32) = bth_apply u (bth_of_words a b c d x)) →
  ∃ m', bth_run u m arg = Ok m' ∧ bth_set_post u m arg m'.
Proof.
  intros Hr Hrun Hfg Hg. pose proof Hr as [Ha _]%in_range_true.
  destruct (rmw_writes 4 m (arg + 8) f g) as (m' & Hm' & Hw); [range_ok|done|].
  exists m'. rewrite Hrun. split; [done|].
  eapply bth_set_post_intro; [exact Hw|lia|lia|].
  destruct (bth_at_writes m m' arg _ _ _ Ha Hw) as (_ & _ & _ & _ & E). rewrite E by done.
  apply Hg, be_at_range.
Qed.

(** Field by field, by the bits. *)
Ltac bth_fields :=
  let H1 := fresh in let H2 := fresh in let H3 := fresh in let H4 := fresh in
  let H5 := fresh in let H6 := fresh in let H7 := fresh in let H8 := fresh in
  let H9 := fresh in let H10 := fresh in let H11 := fresh in
  destruct bth_masks as (H1 & H2 & H3 & H4 & H5 & H6 & H7 & H8 & H9 & H10 & H11);
  rewrite ?H1, ?H2, ?H3, ?H4, ?H5, ?H6, ?H7, ?H8, ?H9, ?H10, ?H11;
  clear H1 H2 H3 H4 H5 H6 H7 H8 H9 H10 H11;
  unfold bth_of_words, bth_apply, slice, truthy, u8, u32;
  repeat case_match; f_equal; try reflexivity; first [solve [bits_solve] | bits_eq].

Lemma flags_setters_refine u m arg :
  in_range m arg 12 = true →
  match u with SetSe _ | SetMig _ | SetPad _ | SetTver _ => True | _ => False end →
  ∃ m', bth_run u m arg = Ok m' ∧ bth_set_post u m arg m'.
Proof.
  intros Hr Hu. destruct u; try done;
    (eapply set_flags_refines;
     [done
     |unfold bth_run, __bth_set_se, __bth_set_mig, __bth_set_pad, __bth_set_tver;
      layout_norm; reflexivity
     |intros; cbn beta; rewrite ?htobe_inv by done; bth_fields]).
Qed.

Lemma qpn_setters_refine u m arg :
  in_range m arg 12 = true →
  match u with SetQpn _ | SetFecn _ | SetBecn _ => True | _ => False end →
  ∃ m', bth_run u m arg = Ok m' ∧ bth_set_post u m arg m'.
Proof.
  intros Hr Hu. destruct u as [v|v|v|v|v|v|v|v|v|v| |v|]; try done;
    (eapply set_qpn_refines;
     [done
     |unfold bth_run, __bth_set_qpn, __bth_set_fecn, __bth_set_becn, load32, store32;
      layout_norm; reflexivity
     |intros x Hx; cbn beta zeta; unfold htonl, ntohl;
      first [ apply htobe_set_flag | f_equal; reflexivity ]
     |intros; cbn beta; rewrite ?htobe_inv by done; bth_fields]).
Qed.

Lemma apsn_setters_refine u m arg :
  in_range m arg 12 = true →
  match u with SetAck _ | SetResv7 | SetPsn _ => True | _ => False end →
  ∃ m', bth_run u m arg = Ok m' ∧ bth_set_post u m arg m'.
Proof.
  intros Hr Hu. destruct u as [v|v|v|v|v|v|v|v|v|v| |v|]; try done;
    (eapply set_apsn_refines;
     [done
     |unfold bth_run, __bth_set_ack, __bth_set_resv7, __bth_set_psn, load32, store32;
      layout_norm; reflexivity
     |intros x Hx; cbn beta zeta; unfold htonl, ntohl;
      first [ apply htobe_land_lnot | apply htobe_set_flag
            | f_equal; reflexivity ]
     |intros; cbn beta; rewrite ?htobe_inv by done; bth_fields]).
Qed.

Lemma store_setters_refine u m arg :
  in_range m arg 12 = true →
  match u with SetOpcode _ | SetPkey _ | SetResv6a => True | _ => False end →
  ∃ m', bth_run u m arg = Ok m' ∧ bth_set_post u m arg m'.
Proof.
  intros Hr Hu. pose proof Hr as [Ha _]%in_range_true.
  destruct u as [v| | | | |v| | | | | | |]; try done;
    unfold bth_run, __bth_set_opcode, __bth_set_pkey, __bth_set_resv6a, store16, store32, htons, htonl;
    layout_norm; rewrite ?Z.add_0_r.
  - destruct (store8_writes m arg v) as (m' & Hm' & Hw); [range_ok|].
    exists m'. split; [done|]. eapply bth_set_post_intro; [exact Hw|lia|lia|].
    destruct (bth_at_writes m m' arg _ _ _ Ha Hw) as (E & _). by rewrite E.
  - destruct (store_writes 2 m (arg + 2) v) as (m' & Hm' & Hw); [range_ok|].
    exists m'. split; [done|]. eapply bth_set_post_intro; [exact Hw|lia|lia|].
    destruct (bth_at_writes m m' arg _ _ _ Ha Hw) as (_ & _ & E & _). by rewrite E.
  - destruct (store_writes 4 m (arg + 4) (Z.lnot BTH_RESV6A_MASK)) as (m' & Hm' & Hw); [range_ok|].
    exists m'. split; [done|]. eapply bth_set_post_intro; [exact Hw|lia|lia|].
    destruct (bth_at_writes m m' arg _ _ _ Ha Hw) as (_ & _ & _ & E & _). by rewrite E.
Qed.

(** C31: the setters of the BTH, all thirteen of them.  On a buffer that holds the
    header each succeeds, no byte outside the header changes, and the header then
    reads as the record after the update: for twelve setters exactly the one field is
    updated (truncated to its width; all other fields, reserved ones included,
    unchanged), while [__bth_set_resv6a] clears its six reserved bits and overwrites
    the rest of the word: the queue pair number becomes 0xffffff and both congestion
    bits are set, whatever they were. *)
Theorem bth_setters u m arg :
  in_range m arg 12 = true →
  ∃ m', bth_run u m arg = Ok m' ∧ bth_set_post u m arg m'.
Proof.
  intros Hr. destruct u;
    first [ by apply flags_setters_refine | by apply qpn_setters_refine
          | by apply apsn_setters_refine | by apply store_setters_refine ].
Qed.

(** *** bth_init *)

Lemma cond_or_writes b m p k :
  in_range m p 1 = true →
  ∃ m', (if truthy b then v ← load8 m p; store8 m p (Z.lor v k) else Ok m) = Ok m' ∧
        writes m m' p 1 ((if truthy b then Z.lor (be_at m p 1) k else be_at m p 1) mod 2 ^ 8).
Proof.
  intros Hr. destruct (truthy b); [by apply (rmw8_writes m p (λ v, Z.lor v k))|].
  exists m. split; [done|]. constructor; [done| |done|done].
  pose proof (be_at_range m p 1). by rewrite Z.mod_small.
Qed.

(** The words that [bth_init] writes. *)
Lemma bth_init_words opcode (se mig ack : bool) pad pkey qpn psn :
  let f0 := u8 (Z.land (Z.shiftl pad 4) BTH_PAD_MASK) mod 2 ^ 8 in
  let f1 := (if se then Z.lor f0 BTH_SE_MASK else f0) mod 2 ^ 8 in
  let f2 := (if mig then Z.lor f1 BTH_MIG_MASK else f1) mod 2 ^ 8 in
  let p := Z.land psn BTH_PSN_MASK in
  bth_of_words (opcode mod 2 ^ 8) f2 (pkey mod 2 ^ 16) (Z.land qpn BTH_QPN_MASK mod 2 ^ 32)
    ((if ack then Z.lor p BTH_ACK_MASK else p) mod 2 ^ 32) =
  Bth (opcode mod 2 ^ 8) se mig (pad mod 2 ^ 2) 0 (pkey mod 2 ^ 16)
      false false 0 (qpn mod 2 ^ 24) ack 0 (psn mod 2 ^ 24).
Proof. cbn zeta. destruct se, mig, ack; bth_fields. Qed.

(** [bth_init] fills every field of the header from its arguments (each
    truncated to its width), clears the congestion bits, the transport version
    and the reserved bits, and touches nothing outside the header. *)
Theorem bth_init_fills m pkt opcode se mig pad pkey qpn ack_req psn :
  let arg := pkt_hdr pkt + pkt_offset pkt in
  in_range m arg 12 = true →
  ∃ m', bth_init m pkt opcode se mig pad pkey qpn ack_req psn = Ok m' ∧
    bth_at m' arg =
      Bth (opcode mod 2 ^ 8) (truthy se) (truthy mig) (pad mod 2 ^ 2) 0 (pkey mod 2 ^ 16)
          false false 0 (qpn mod 2 ^ 24) (truthy ack_req) 0 (psn mod 2 ^ 24) ∧
    same_outside arg (arg + 12) m m'.
Proof.
  intros arg Hr. pose proof Hr as [Ha _]%in_range_true.
  unfold bth_init, store16, store32, htons, htonl. fold arg. layout_norm. rewrite Z.add_0_r.
  fold (truthy se) (truthy mig) (truthy ack_req).
  destruct (store8_writes m arg opcode) as (m1 & -> & W1); [range_ok|]. autorewrite with ctcm.
  rewrite <- (writes_in_range _ _ _ _ _ _ _ W1) in Hr.
  destruct (store8_writes m1 (arg + 1) (u8 (Z.land (Z.shiftl pad 4) BTH_PAD_MASK)))
    as (m2 & -> & W2); [range_ok|]. autorewrite with ctcm.
  rewrite <- (writes_in_range _ _ _ _ _ _ _ W2) in Hr.
  destruct (cond_or_writes se m2 (arg + 1) BTH_SE_MASK) as (m3 & -> & W3); [range_ok|].
  autorewrite with ctcm. rewrite <- (writes_in_range _ _ _ _ _ _ _ W3) in Hr.
  destruct (cond_or_writes mig m3 (arg + 1) BTH_MIG_MASK) as (m4 & -> & W4); [range_ok|].
  autorewrite with ctcm. rewrite <- (writes_in_range _ _ _ _ _ _ _ W4) in Hr.
  destruct (store_writes 2 m4 (arg + 2) pkey) as (m5 & -> & W5); [range_ok|]. autorewrite with ctcm.
  rewrite <- (writes_in_range _ _ _ _ _ _ _ W5) in Hr.
  destruct (store_writes 4 m5 (arg + 4) (Z.land qpn BTH_QPN_MASK)) as (m6 & -> & W6); [range_ok|].
  autorewrite with ctcm. rewrite <- (writes_in_range _ _ _ _ _ _ _ W6) in Hr.
  match goal with |- context [store_int 4 m6 (arg + 8) (htobe 4 ?x)] =>
    destruct (store_writes 4 m6 (arg + 8) x) as (m7 & -> & W7); [range_ok|] end.
  exists m7. split; [done|]. split.
  - rewrite <- bth_init_words. unfold bth_at.
    rewrite (writes_value _ _ _ _ _ W7).
    rewrite !(writes_be_at_other _ _ _ _ _ _ _ W7), (writes_value _ _ _ _ _ W6) by lia.
    rewrite !(writes_be_at_other _ _ _ _ _ _ _ W6), (writes_value _ _ _ _ _ W5) by lia.
    rewrite !(writes_be_at_other _ _ _ _ _ _ _ W5), (writes_value _ _ _ _ _ W4) by lia.
    rewrite (writes_be_at_other _ _ _ _ _ _ _ W4), (writes_value _ _ _ _ _ W3) by lia.
    rewrite (writes_be_at_other _ _ _ _ _ _ _ W3), (writes_value _ _ _ _ _ W2) by lia.
    by rewrite (writes_be_at_other _ _ _ _ _ _ _ W2), (writes_value _ _ _ _ _ W1) by lia.
  - transitivity m6; [transitivity m5; [transitivity m4; [transitivity m3; [transitivity m2;
      [transitivity m1|]|]|]|]|]; (eapply writes_same_outside; [eassumption|lia|lia]).
Qed.

(** *** The extended headers *)

Lemma eth_getters f m arg :
  in_range m arg (eth_size f) = true → eth_get f m arg = Ok (eth_value f m arg).
Proof.
  intros Hr. unfold eth_value.
  destruct f; cbn in Hr; unfold eth_get, __rdeth_een, __deth_qkey, __deth_sqp, __reth_va,
    __reth_rkey, __reth_len, __atmeth_va, __atmeth_rkey, __atmeth_swap_add, __atmeth_comp,
    __aeth_syn, __aeth_msn, __atmack_orig, __immdt_imm, __ieth_rkey, load32, load64;
    layout_norm; rewrite load_int_in by range_ok; autorewrite with ctcm;
    unfold ntohl, be64toh; rewrite htobe_be_at; cbn [eth_place];
    match goal with |- context [be_at ?m ?p ?n] =>
      pose proof (be_at_range m p n); set (x := be_at m p n) in * end;
    f_equal; unfold slice;
    change RDETH_EEN_MASK with (mask_at 0 24); change DETH_SQP_MASK with (mask_at 0 24);
    change AETH_SYN_MASK with (mask_at 24 8); change AETH_MSN_MASK with (mask_at 0 24);
    unfold u8;
    first [ rewrite Z.div_1_r, Z.mod_small by (cbn in *; lia); reflexivity | bits_eq ].
Qed.

(** The word a setter writes. *)
Definition eth_word (f : eth_field) (v x : Z) : Z :=
  match f with
  | RdethEen | DethSqp => Z.land (mask_at 0 24) v
  | AethSyn => Z.lor (Z.land (mask_at 24 8) (u32 (Z.shiftl v 24))) (Z.land (Z.lnot (mask_at 24 8)) x)
  | AethMsn => Z.lor (Z.land (mask_at 0 24) v) (Z.land (Z.lnot (mask_at 0 24)) x)
  | _ => v
  end.

Lemma eth_set_writes f m arg v :
  in_range m arg (eth_size f) = true →
  let '(o, n, _, _) := eth_place f in
  ∃ m', eth_set f m arg v = Ok m' ∧
        writes m m' (arg + o) n (eth_word f v (be_at m (arg + o) n) mod 2 ^ (Z.of_nat n * 8)).
Proof.
  intros Hr. destruct f; cbn in Hr; cbn [eth_place eth_set eth_word];
    unfold __rdeth_set_een, __deth_set_qkey, __deth_set_sqp, __reth_set_va,
    __reth_set_rkey, __reth_set_len, __atmeth_set_va, __atmeth_set_rkey, __atmeth_set_swap_add,
    __atmeth_set_comp, __aeth_set_syn, __aeth_set_msn, __atmack_set_orig, __immdt_set_imm,
    __ieth_set_rkey, load32, store32, store64; layout_norm;
    try (rewrite load_int_in by range_ok); autorewrite with ctcm;
    unfold ntohl, htobe64; rewrite ?htobe_be_at; apply store_writes; range_ok.
Qed.

(** The accessors of the eight extended headers: every getter returns the
    field of the wire format; every setter succeeds, its value (truncated to the
    field) is the field's new value, the other fields of the header keep
    theirs, and nothing outside the header changes. *)
Theorem eth_accessors f m arg v :
  in_range m arg (eth_size f) = true →
  eth_get f m arg = Ok (eth_value f m arg) ∧
  ∃ m', eth_set f m arg v = Ok m' ∧
        eth_value f m' arg = v mod 2 ^ eth_width f ∧
        (∀ g, eth_header g = eth_header f → g ≠ f → eth_value g m' arg = eth_value g m arg) ∧
        same_outside arg (arg + Z.of_nat (eth_size f)) m m'.
Proof.
  intros Hr. split; [by apply eth_getters|]. pose proof Hr as [Ha _]%in_range_true.
  pose proof (eth_set_writes f m arg v Hr) as Hs.
  destruct (eth_place f) as [[[o n] l] w] eqn:Hp. destruct Hs as (m' & Hm' & Hw).
  exists m'. split; [done|]. unfold eth_width. rewrite Hp. split; [|split].
  - unfold eth_value. rewrite Hp, (writes_value _ _ _ _ _ Hw). unfold slice.
    destruct f; cbn in Hp; simplify_eq; cbn [eth_word snd]; unfold u32;
      generalize (be_at m (arg + 0) 4); intros; bits_eq.
  - intros g Hg Hne. unfold eth_value.
    destruct f; cbn in Hp; simplify_eq; destruct g; try done; cbn [eth_place];
      try (by rewrite (writes_be_at_other _ _ _ _ _ _ _ Hw) by lia);
      rewrite (writes_value _ _ _ _ _ Hw); unfold slice; cbn [eth_word]; unfold u32; bits_eq.
  - eapply writes_same_outside; [exact Hw|..]; destruct f; cbn in *; simplify_eq; lia.
Qed.
End BthFacts.
