(* ===== verification/RxePkt.v ===== *)
(** * RxePkt: the packet-level accessors of src/src/rxe_hdr.h

    The accessors that find a header through the opcode of the packet, and the
    extent of the payload.  The table [rxe_opcode] is a parameter; what is relied on
    is that it describes packets: the headers of an opcode lie between the BTH and
    the payload without overlap. *)

From Stdlib Require Import ZArith Lia.
From stdpp Require Import base tactics numbers list.
From S2P Require Import Prelude Memory Layout Bitfield RxeOpcode RxeHdr RxeHdrSpec.

Open Scope Z_scope.
Open Scope ctcm_scope.

(** The headers that the mask of an entry names. *)
Definition has_header (i : rxe_opcode_info) (t : rxe_hdr_type) : bool :=
  negb (oi_mask i &&& hdr_mask t =? 0).

Definition hdr_bytes (t : rxe_hdr_type) : Z :=
  match t with
  | RXE_BTH => RXE_BTH_BYTES | RXE_RETH => RXE_RETH_BYTES | RXE_AETH => RXE_AETH_BYTES
  | RXE_ATMETH => RXE_ATMETH_BYTES | RXE_ATMACK => RXE_ATMACK_BYTES | RXE_IETH => RXE_IETH_BYTES
  | RXE_RDETH => RXE_RDETH_BYTES | RXE_DETH => RXE_DETH_BYTES | RXE_IMMDT => RXE_IMMDT_BYTES
  | _ => 0
  end.

(** An entry of the table: [length] is the length of all headers, and the payload
    follows them. *)
Record entry_ok (i : rxe_opcode_info) : Prop := {
  eo_length : oi_length i = oi_offset i RXE_PAYLOAD;
  eo_payload : RXE_BTH_BYTES ≤ oi_offset i RXE_PAYLOAD ≤ RXE_MAX_HDR_LENGTH;
  eo_inside : ∀ t, has_header i t = true →
    RXE_BTH_BYTES ≤ oi_offset i t ∨ t = RXE_BTH;
  eo_before : ∀ t, has_header i t = true → t ≠ RXE_PAYLOAD →
    oi_offset i t + hdr_bytes t ≤ oi_offset i RXE_PAYLOAD;
  eo_apart : ∀ t u, has_header i t = true → has_header i u = true → t ≠ u →
    oi_offset i t + hdr_bytes t ≤ oi_offset i u ∨ oi_offset i u + hdr_bytes u ≤ oi_offset i t;
}.

Section Pkt.
Context `{Endian} (rxe_opcode : Z → rxe_opcode_info).

(** The accessors by field; the immediate is converted as in [eth_get]. *)
Definition hdr_get (f : eth_field) (m : mem) (pkt : rxe_pkt_info) : result Z :=
  match f with
  | RdethEen => rdeth_een rxe_opcode m pkt
  | DethQkey => deth_qkey rxe_opcode m pkt
  | DethSqp => deth_sqp rxe_opcode m pkt
  | RethVa => reth_va rxe_opcode m pkt
  | RethRkey => reth_rkey rxe_opcode m pkt
  | RethLen => reth_len rxe_opcode m pkt
  | AtmethVa => atmeth_va rxe_opcode m pkt
  | AtmethRkey => atmeth_rkey rxe_opcode m pkt
  | AtmethSwapAdd => atmeth_swap_add rxe_opcode m pkt
  | AtmethComp => atmeth_comp rxe_opcode m pkt
  | AethSyn => aeth_syn rxe_opcode m pkt
  | AethMsn => aeth_msn rxe_opcode m pkt
  | AtmackOrig => atmack_orig rxe_opcode m pkt
  | ImmdtImm => imm ← immdt_imm rxe_opcode m pkt; Ok (ntohl imm)
  | IethRkey => ieth_rkey rxe_opcode m pkt
  end.

Definition hdr_set (f : eth_field) (m : mem) (pkt : rxe_pkt_info) (v : Z) : result mem :=
  match f with
  | RdethEen => rdeth_set_een rxe_opcode m pkt v
  | DethQkey => deth_set_qkey rxe_opcode m pkt v
  | DethSqp => deth_set_sqp rxe_opcode m pkt v
  | RethVa => reth_set_va rxe_opcode m pkt v
  | RethRkey => reth_set_rkey rxe_opcode m pkt v
  | RethLen => reth_set_len rxe_opcode m pkt v
  | AtmethVa => atmeth_set_va rxe_opcode m pkt v
  | AtmethRkey => atmeth_set_rkey rxe_opcode m pkt v
  | AtmethSwapAdd => atmeth_set_swap_add rxe_opcode m pkt v
  | AtmethComp => atmeth_set_comp rxe_opcode m pkt v
  | AethSyn => aeth_set_syn rxe_opcode m pkt v
  | AethMsn => aeth_set_msn rxe_opcode m pkt v
  | AtmackOrig => atmack_set_orig rxe_opcode m pkt v
  | ImmdtImm => immdt_set_imm rxe_opcode m pkt (htonl v)
  | IethRkey => ieth_set_rkey rxe_opcode m pkt v
  end.

Lemma hdr_get_eth f m pkt : hdr_get f m pkt = eth_get f m (pkt_header rxe_opcode pkt (eth_header f)).
Proof. by destruct f. Qed.

Lemma hdr_set_eth f m pkt v :
  hdr_set f m pkt v = eth_set f m (pkt_header rxe_opcode pkt (eth_header f)) v.
Proof. by destruct f. Qed.

(** The size of a header is what the fields need. *)
Lemma eth_size_bytes f : Z.of_nat (eth_size f) = hdr_bytes (eth_header f).
Proof. by destruct f. Qed.

Lemma eth_not_bth f : eth_header f ≠ RXE_BTH ∧ eth_header f ≠ RXE_PAYLOAD.
Proof. by destruct f. Qed.

Lemma eth_value_same f lo hi m m' arg :
  same_outside lo hi m m' → 0 ≤ arg → arg + Z.of_nat (eth_size f) ≤ lo ∨ hi ≤ arg →
  eth_value f m' arg = eth_value f m arg.
Proof.
  intros Hs Ha Hd. unfold eth_value.
  destruct f; cbn in Hd |- *; by rewrite (same_outside_be_at _ _ _ _ _ _ Hs) by (cbn; lia).
Qed.

Lemma bth_at_same lo hi m m' arg :
  same_outside lo hi m m' → 0 ≤ arg → arg + 12 ≤ lo → bth_at m' arg = bth_at m arg.
Proof.
  intros Hs Ha Hd. unfold bth_at.
  by rewrite !(same_outside_be_at _ _ _ _ _ _ Hs) by (cbn; lia).
Qed.

(** A packet whose headers are in the buffer. *)
Record pkt_ok (m : mem) (pkt : rxe_pkt_info) : Prop := {
  po_entry : entry_ok (rxe_opcode (pkt_opcode pkt));
  po_start : 0 ≤ pkt_hdr pkt ∧ 0 ≤ pkt_offset pkt;
  po_room : pkt_hdr pkt + header_size rxe_opcode pkt ≤ Z.of_nat (length m);
  po_small : pkt_offset pkt < 2 ^ 8;
}.

Definition pkt_has (pkt : rxe_pkt_info) (f : eth_field) : Prop :=
  has_header (rxe_opcode (pkt_opcode pkt)) (eth_header f) = true.

Lemma header_size_val m pkt :
  pkt_ok m pkt →
  header_size rxe_opcode pkt = pkt_offset pkt + oi_offset (rxe_opcode (pkt_opcode pkt)) RXE_PAYLOAD.
Proof.
  intros [[Hl Hp _ _ _] [_ Ho] _ Hs]. unfold header_size, u64. rewrite Hl. apply Z.mod_small.
  change RXE_BTH_BYTES with 12 in Hp. change RXE_MAX_HDR_LENGTH with 80 in Hp. lia.
Qed.

Lemma header_in m pkt f :
  pkt_ok m pkt → pkt_has pkt f →
  let arg := pkt_header rxe_opcode pkt (eth_header f) in
  in_range m arg (eth_size f) = true ∧ pkt_hdr pkt + pkt_offset pkt + 12 ≤ arg ∧
  arg + Z.of_nat (eth_size f) ≤ payload_addr rxe_opcode pkt.
Proof.
  intros Hok Hf arg. pose proof (header_size_val m pkt Hok) as Hh.
  destruct Hok as [[Hl Hp Hi Hb _] [Hh0 Ho] Hr Hs]. destruct (eth_not_bth f) as [Hn1 Hn2].
  destruct (Hi _ Hf) as [Hi'|]; [|done]. specialize (Hb _ Hf Hn2). change RXE_BTH_BYTES with 12 in *.
  unfold arg, payload_addr, pkt_header in *. rewrite in_range_true, eth_size_bytes. lia.
Qed.

(** C32: the accessors that find their header through the opcode.  For a table that
    describes packets and a packet whose headers are in the buffer, a getter of a
    header that the opcode has returns the field of the wire format at the place of
    that header; a setter succeeds, its value is read back truncated to the field,
    and every other field of every header of the packet, the BTH, and everything
    outside the extended headers, the payload among it, stay as they are. *)
Theorem packet_accessors m pkt f v :
  pkt_ok m pkt → pkt_has pkt f →
  hdr_get f m pkt = Ok (eth_value f m (pkt_header rxe_opcode pkt (eth_header f))) ∧
  ∃ m', hdr_set f m pkt v = Ok m' ∧ pkt_ok m' pkt ∧
        hdr_get f m' pkt = Ok (v mod 2 ^ eth_width f) ∧
        (∀ g, pkt_has pkt g → g ≠ f → hdr_get g m' pkt = hdr_get g m pkt) ∧
        bth_at m' (pkt_hdr pkt + pkt_offset pkt) = bth_at m (pkt_hdr pkt + pkt_offset pkt) ∧
        same_outside (pkt_hdr pkt + pkt_offset pkt + 12) (payload_addr rxe_opcode pkt) m m'.
Proof.
  intros Hok Hf. destruct (header_in m pkt f Hok Hf) as (Hr & Hlo & Hhi).
  set (arg := pkt_header rxe_opcode pkt (eth_header f)) in *.
  destruct (eth_accessors f m arg v Hr) as (Hg & m' & Hm' & Hv & Hsame & Hout).
  rewrite hdr_get_eth. split; [done|]. exists m'. rewrite hdr_set_eth. split; [done|].
  assert (Hok' : pkt_ok m' pkt) by (destruct Hok; split; try done; by rewrite (proj1 Hout)).
  split; [done|]. pose proof (po_start _ _ Hok) as [H0 H0'].
  assert (Hrd : ∀ g, pkt_has pkt g → ∀ n, pkt_ok n pkt →
    hdr_get g n pkt = Ok (eth_value g n (pkt_header rxe_opcode pkt (eth_header g)))).
  { intros g Hg' n Hn. rewrite hdr_get_eth. apply eth_getters. by apply (header_in n pkt g). }
  split; [|split; [|split]].
  - rewrite Hrd by done. fold arg. by rewrite Hv.
  - intros g Hg' Hne. rewrite !Hrd by done. f_equal.
    destruct (decide (eth_header g = eth_header f)) as [He|He]; [rewrite He; by apply Hsame|].
    destruct (header_in m pkt g Hok Hg') as (_ & Hglo & _).
    eapply eth_value_same; [exact Hout|lia|].
    destruct (eo_apart _ (po_entry _ _ Hok) _ _ Hg' Hf He) as [Ha|Ha];
      rewrite !eth_size_bytes; unfold arg, pkt_header; lia.
  - eapply bth_at_same; [exact Hout|lia|lia].
  - eapply same_outside_weaken; [..|exact Hout]; lia.
Qed.

(** ** The payload *)

Lemma bth_pad_value m pkt :
  in_range m (pkt_hdr pkt + pkt_offset pkt) 12 = true →
  bth_pad m pkt = Ok (b_pad (bth_at m (pkt_hdr pkt + pkt_offset pkt))) ∧
  0 ≤ b_pad (bth_at m (pkt_hdr pkt + pkt_offset pkt)) < 4.
Proof.
  intros Hr. split; [|apply Z.mod_pos_bound; lia].
  unfold bth_pad, __bth_pad. layout_norm. rewrite load8_in.
  2:{ eapply in_range_sub; [exact Hr|lia|cbn; lia]. }
  autorewrite with ctcm. change BTH_PAD_MASK with (mask_at 4 2).
  unfold bth_at, bth_of_words, slice, u8. cbn [b_pad]. f_equal. bits_eq.
Qed.

(** Where the payload is.  It starts behind the last header.  If the packet is long
    enough for its headers, its padding and the ICRC, the payload, the padding and
    the ICRC fill it exactly; if it is shorter, the unsigned subtraction wraps and
    [payload_size] is larger than any buffer. *)
Theorem payload_extent m pkt :
  pkt_ok m pkt → 0 ≤ pkt_paylen pkt < 2 ^ 16 →
  let bth := pkt_hdr pkt + pkt_offset pkt in
  let pad := b_pad (bth_at m bth) in
  let need := header_size rxe_opcode pkt - pkt_offset pkt + pad + RXE_ICRC_SIZE in
  payload_addr rxe_opcode pkt = pkt_hdr pkt + header_size rxe_opcode pkt ∧
  ∃ n, payload_size rxe_opcode m pkt = Ok n ∧
    if need <=? pkt_paylen pkt
    then payload_addr rxe_opcode pkt + n + pad + RXE_ICRC_SIZE = bth + pkt_paylen pkt ∧ 0 ≤ n
    else n = 2 ^ 64 - (need - pkt_paylen pkt) ∧ 2 ^ 63 < n.
Proof.
  intros Hok Hlen bth pad need. pose proof (header_size_val m pkt Hok) as Hh.
  pose proof (po_start _ _ Hok) as [H0 H0']. pose proof (po_room _ _ Hok) as Hroom.
  pose proof (eo_payload _ (po_entry _ _ Hok)) as Hp.
  change RXE_BTH_BYTES with 12 in Hp. change RXE_MAX_HDR_LENGTH with 80 in Hp.
  destruct (bth_pad_value m pkt) as [Hpad Hpr]; [apply in_range_true; cbn; lia|].
  fold bth pad in Hpad, Hpr. split; [unfold payload_addr, pkt_header; lia|].
  unfold payload_size. rewrite Hpad. autorewrite with ctcm. eexists. split; [done|].
  unfold need, payload_addr, pkt_header, bth. rewrite Hh. change RXE_ICRC_SIZE with 4.
  set (o := oi_offset (rxe_opcode (pkt_opcode pkt)) RXE_PAYLOAD) in *. unfold u64.
  destruct (Z.leb_spec (pkt_offset pkt + o - pkt_offset pkt + pad + 4) (pkt_paylen pkt)).
  - rewrite Z.mod_small by lia. lia.
  - rewrite <- (Z.mod_add _ 1), Z.mod_small by lia. lia.
Qed.
End Pkt.
