(* ===== verification/IbMad.v ===== *)
(** * IbMad: src/src/ib_mad.h

    The management datagram structs with their layout, and the accessors of the
    class port info and of the RMPP header. *)

From Stdlib Require Import ZArith Lia String.
From stdpp Require Import base tactics numbers list strings.
From S2P Require Import Prelude Memory Layout Bitfield RxeOpcode.

Local Open Scope string_scope.
Open Scope Z_scope.
Open Scope ctcm_scope.

(** ** Management classes *)
Definition IB_MGMT_CLASS_SUBN_LID_ROUTED : Z := 0x01.
Definition IB_MGMT_CLASS_SUBN_DIRECTED_ROUTE : Z := 0x81.
Definition IB_MGMT_CLASS_SUBN_ADM : Z := 0x03.
Definition IB_MGMT_CLASS_PERF_MGMT : Z := 0x04.
Definition IB_MGMT_CLASS_BM : Z := 0x05.
Definition IB_MGMT_CLASS_DEVICE_MGMT : Z := 0x06.
Definition IB_MGMT_CLASS_CM : Z := 0x07.
Definition IB_MGMT_CLASS_SNMP : Z := 0x08.
Definition IB_MGMT_CLASS_DEVICE_ADM : Z := 0x10.
Definition IB_MGMT_CLASS_BOOT_MGMT : Z := 0x11.
Definition IB_MGMT_CLASS_BIS : Z := 0x12.
Definition IB_MGMT_CLASS_CONG_MGMT : Z := 0x21.
Definition IB_MGMT_CLASS_VENDOR_RANGE2_START : Z := 0x30.
Definition IB_MGMT_CLASS_VENDOR_RANGE2_END : Z := 0x4F.

(** ** Versions *)
Definition IB_MGMT_BASE_VERSION : Z := 1.
Definition OPA_MGMT_BASE_VERSION : Z := 0x80.
Definition OPA_SM_CLASS_VERSION : Z := 0x80.
Definition IB_OPENIB_OUI : Z := 0x001405.

(** ** Methods *)
Definition IB_MGMT_METHOD_GET : Z := 0x01.
Definition IB_MGMT_METHOD_SET : Z := 0x02.
Definition IB_MGMT_METHOD_GET_RESP : Z := 0x81.
Definition IB_MGMT_METHOD_SEND : Z := 0x03.
Definition IB_MGMT_METHOD_TRAP : Z := 0x05.
Definition IB_MGMT_METHOD_REPORT : Z := 0x06.
Definition IB_MGMT_METHOD_REPORT_RESP : Z := 0x86.
Definition IB_MGMT_METHOD_TRAP_REPRESS : Z := 0x07.
Definition IB_MGMT_METHOD_RESP : Z := 0x80.
Definition IB_MGMT_MAX_METHODS : Z := 128.

(** ** The status of a MAD *)
Definition IB_MGMT_MAD_STATUS_SUCCESS : Z := 0x0000.
Definition IB_MGMT_MAD_STATUS_BUSY : Z := 0x0001.
Definition IB_MGMT_MAD_STATUS_REDIRECT_REQD : Z := 0x0002.
Definition IB_MGMT_MAD_STATUS_BAD_VERSION : Z := 0x0004.
Definition IB_MGMT_MAD_STATUS_UNSUPPORTED_METHOD : Z := 0x0008.
Definition IB_MGMT_MAD_STATUS_UNSUPPORTED_METHOD_ATTRIB : Z := 0x000c.
Definition IB_MGMT_MAD_STATUS_INVALID_ATTRIB_VALUE : Z := 0x001c.

(** ** RMPP *)
Definition IB_MGMT_RMPP_VERSION : Z := 1.
Definition IB_MGMT_RMPP_TYPE_DATA : Z := 1.
Definition IB_MGMT_RMPP_TYPE_ACK : Z := 2.
Definition IB_MGMT_RMPP_TYPE_STOP : Z := 3.
Definition IB_MGMT_RMPP_TYPE_ABORT : Z := 4.
Definition IB_MGMT_RMPP_FLAG_ACTIVE : Z := 1.
Definition IB_MGMT_RMPP_FLAG_FIRST : Z := 1 ≪ 1.
Definition IB_MGMT_RMPP_FLAG_LAST : Z := 1 ≪ 2.
Definition IB_MGMT_RMPP_NO_RESPTIME : Z := 0x1F.
Definition IB_MGMT_RMPP_STATUS_SUCCESS : Z := 0.
Definition IB_MGMT_RMPP_STATUS_RESX : Z := 1.
Definition IB_MGMT_RMPP_STATUS_ABORT_MIN : Z := 118.
Definition IB_MGMT_RMPP_STATUS_T2L : Z := 118.
Definition IB_MGMT_RMPP_STATUS_BAD_LEN : Z := 119.
Definition IB_MGMT_RMPP_STATUS_BAD_SEG : Z := 120.
Definition IB_MGMT_RMPP_STATUS_BADT : Z := 121.
Definition IB_MGMT_RMPP_STATUS_W2S : Z := 122.
Definition IB_MGMT_RMPP_STATUS_S2B : Z := 123.
Definition IB_MGMT_RMPP_STATUS_BAD_STATUS : Z := 124.
Definition IB_MGMT_RMPP_STATUS_UNV : Z := 125.
Definition IB_MGMT_RMPP_STATUS_TMR : Z := 126.
Definition IB_MGMT_RMPP_STATUS_UNSPEC : Z := 127.
Definition IB_MGMT_RMPP_STATUS_ABORT_MAX : Z := 127.

(** ** Queue pairs and partition keys *)
Definition IB_QP0 : Z := 0.
Definition IB_QP1_QKEY : Z := 0x80010000.
Definition IB_QP_SET_QKEY : Z := 0x80000000.
Definition IB_DEFAULT_PKEY_PARTIAL : Z := 0x7FFF.
Definition IB_DEFAULT_PKEY_FULL : Z := 0xFFFF.

(** ** Traps and notices *)
Definition IB_NOTICE_TYPE_FATAL : Z := 0x80.
Definition IB_NOTICE_TYPE_URGENT : Z := 0x81.
Definition IB_NOTICE_TYPE_SECURITY : Z := 0x82.
Definition IB_NOTICE_TYPE_SM : Z := 0x83.
Definition IB_NOTICE_TYPE_INFO : Z := 0x84.

(** ** Port capabilities *)
Definition IB_PORT_SM : Z := 1 ≪ 1.
Definition IB_PORT_NOTICE_SUP : Z := 1 ≪ 2.
Definition IB_PORT_TRAP_SUP : Z := 1 ≪ 3.
Definition IB_PORT_OPT_IPD_SUP : Z := 1 ≪ 4.
Definition IB_PORT_AUTO_MIGR_SUP : Z := 1 ≪ 5.
Definition IB_PORT_SL_MAP_SUP : Z := 1 ≪ 6.
Definition IB_PORT_MKEY_NVRAM : Z := 1 ≪ 7.
Definition IB_PORT_PKEY_NVRAM : Z := 1 ≪ 8.
Definition IB_PORT_LED_INFO_SUP : Z := 1 ≪ 9.
Definition IB_PORT_SM_DISABLED : Z := 1 ≪ 10.
Definition IB_PORT_SYS_IMAGE_GUID_SUP : Z := 1 ≪ 11.
Definition IB_PORT_PKEY_SW_EXT_PORT_TRAP_SUP : Z := 1 ≪ 12.
Definition IB_PORT_EXTENDED_SPEEDS_SUP : Z := 1 ≪ 14.
Definition IB_PORT_CAP_MASK2_SUP : Z := 1 ≪ 15.
Definition IB_PORT_CM_SUP : Z := 1 ≪ 16.
Definition IB_PORT_SNMP_TUNNEL_SUP : Z := 1 ≪ 17.
Definition IB_PORT_REINIT_SUP : Z := 1 ≪ 18.
Definition IB_PORT_DEVICE_MGMT_SUP : Z := 1 ≪ 19.
Definition IB_PORT_VENDOR_CLASS_SUP : Z := 1 ≪ 20.
Definition IB_PORT_DR_NOTICE_SUP : Z := 1 ≪ 21.
Definition IB_PORT_CAP_MASK_NOTICE_SUP : Z := 1 ≪ 22.
Definition IB_PORT_BOOT_MGMT_SUP : Z := 1 ≪ 23.
Definition IB_PORT_LINK_LATENCY_SUP : Z := 1 ≪ 24.
Definition IB_PORT_CLIENT_REG_SUP : Z := 1 ≪ 25.
Definition IB_PORT_OTHER_LOCAL_CHANGES_SUP : Z := 1 ≪ 26.
Definition IB_PORT_LINK_SPEED_WIDTH_TABLE_SUP : Z := 1 ≪ 27.
Definition IB_PORT_VENDOR_SPECIFIC_MADS_TABLE_SUP : Z := 1 ≪ 28.
Definition IB_PORT_MCAST_PKEY_TRAP_SUPPRESSION_SUP : Z := 1 ≪ 29.
Definition IB_PORT_MCAST_FDB_TOP_SUP : Z := 1 ≪ 30.
Definition IB_PORT_HIERARCHY_INFO_SUP : Z := 1 ≪ 31.
Definition IB_PORT_SET_NODE_DESC_SUP : Z := 1 ≪ 0.
Definition IB_PORT_EX_PORT_INFO_EX_SUP : Z := 1 ≪ 1.
Definition IB_PORT_VIRT_SUP : Z := 1 ≪ 2.
Definition IB_PORT_SWITCH_PORT_STATE_TABLE_SUP : Z := 1 ≪ 3.
Definition IB_PORT_LINK_WIDTH_2X_SUP : Z := 1 ≪ 4.
Definition IB_PORT_LINK_SPEED_HDR_SUP : Z := 1 ≪ 5.

(** [enum ib_port_capability_mask_bits] *)
Definition ib_port_capability_mask_bits : list Z :=
  [IB_PORT_SM; IB_PORT_NOTICE_SUP; IB_PORT_TRAP_SUP; IB_PORT_OPT_IPD_SUP;
   IB_PORT_AUTO_MIGR_SUP; IB_PORT_SL_MAP_SUP; IB_PORT_MKEY_NVRAM; IB_PORT_PKEY_NVRAM;
   IB_PORT_LED_INFO_SUP; IB_PORT_SM_DISABLED; IB_PORT_SYS_IMAGE_GUID_SUP;
   IB_PORT_PKEY_SW_EXT_PORT_TRAP_SUP; IB_PORT_EXTENDED_SPEEDS_SUP; IB_PORT_CAP_MASK2_SUP;
   IB_PORT_CM_SUP; IB_PORT_SNMP_TUNNEL_SUP; IB_PORT_REINIT_SUP; IB_PORT_DEVICE_MGMT_SUP;
   IB_PORT_VENDOR_CLASS_SUP; IB_PORT_DR_NOTICE_SUP; IB_PORT_CAP_MASK_NOTICE_SUP;
   IB_PORT_BOOT_MGMT_SUP; IB_PORT_LINK_LATENCY_SUP; IB_PORT_CLIENT_REG_SUP;
   IB_PORT_OTHER_LOCAL_CHANGES_SUP; IB_PORT_LINK_SPEED_WIDTH_TABLE_SUP;
   IB_PORT_VENDOR_SPECIFIC_MADS_TABLE_SUP; IB_PORT_MCAST_PKEY_TRAP_SUPPRESSION_SUP;
   IB_PORT_MCAST_FDB_TOP_SUP; IB_PORT_HIERARCHY_INFO_SUP].

(** [enum ib_port_capability_mask2_bits] *)
Definition ib_port_capability_mask2_bits : list Z :=
  [IB_PORT_SET_NODE_DESC_SUP; IB_PORT_EX_PORT_INFO_EX_SUP; IB_PORT_VIRT_SUP;
   IB_PORT_SWITCH_PORT_STATE_TABLE_SUP; IB_PORT_LINK_WIDTH_2X_SUP;
   IB_PORT_LINK_SPEED_HDR_SUP].

(** Every capability has a bit of its own: the test of one bit of a union of
    capabilities succeeds exactly for its members. *)
Lemma port_capability_test fs f :
  f ∈ ib_port_capability_mask_bits → fs ⊆ ib_port_capability_mask_bits →
  f &&& flags_union fs ≠ 0 ↔ f ∈ fs.
Proof.
  intros Hf Hfs. apply (flag_test ib_port_capability_mask_bits); [by vm_compute| |done|done].
  by apply (bool_decide_eq_true_1 _); vm_compute.
Qed.

(** ** Sizes *)
Definition IB_MGMT_MAD_HDR : Z := 24.
Definition IB_MGMT_MAD_DATA : Z := 232.
Definition IB_MGMT_RMPP_HDR : Z := 36.
Definition IB_MGMT_RMPP_DATA : Z := 220.
Definition IB_MGMT_VENDOR_HDR : Z := 40.
Definition IB_MGMT_VENDOR_DATA : Z := 216.
Definition IB_MGMT_SA_HDR : Z := 56.
Definition IB_MGMT_SA_DATA : Z := 200.
Definition IB_MGMT_DEVICE_HDR : Z := 64.
Definition IB_MGMT_DEVICE_DATA : Z := 192.
Definition IB_MGMT_MAD_SIZE : Z := IB_MGMT_MAD_HDR + IB_MGMT_MAD_DATA.
Definition OPA_MGMT_MAD_DATA : Z := 2024.
Definition OPA_MGMT_RMPP_DATA : Z := 2012.
Definition OPA_MGMT_MAD_SIZE : Z := IB_MGMT_MAD_HDR + OPA_MGMT_MAD_DATA.

(** ** Structs *)
Definition ib_mad_hdr : ctype :=
  Struct false [("base_version", c_u8); ("mgmt_class", c_u8); ("class_version", c_u8);
                ("method", c_u8); ("status", c_u16); ("class_specific", c_u16);
                ("tid", c_u64); ("attr_id", c_u16); ("resv", c_u16); ("attr_mod", c_u32)].

Definition ib_rmpp_hdr : ctype :=
  Struct false [("rmpp_version", c_u8); ("rmpp_type", c_u8); ("rmpp_rtime_flags", c_u8);
                ("rmpp_status", c_u8); ("seg_num", c_u32); ("paylen_newwin", c_u32)].

Definition ib_sa_hdr : ctype :=
  Struct true [("sm_key", c_u64); ("attr_offset", c_u16); ("reserved", c_u16);
               ("comp_mask", c_u64)].

Definition ib_mad : ctype :=
  Struct false [("mad_hdr", ib_mad_hdr); ("data", Array c_u8 IB_MGMT_MAD_DATA)].

Definition opa_mad : ctype :=
  Struct false [("mad_hdr", ib_mad_hdr); ("data", Array c_u8 OPA_MGMT_MAD_DATA)].

Definition ib_rmpp_mad : ctype :=
  Struct false [("mad_hdr", ib_mad_hdr); ("rmpp_hdr", ib_rmpp_hdr);
                ("data", Array c_u8 IB_MGMT_RMPP_DATA)].

Definition opa_rmpp_mad : ctype :=
  Struct false [("mad_hdr", ib_mad_hdr); ("rmpp_hdr", ib_rmpp_hdr);
                ("data", Array c_u8 OPA_MGMT_RMPP_DATA)].

Definition ib_sa_mad : ctype :=
  Struct true [("mad_hdr", ib_mad_hdr); ("rmpp_hdr", ib_rmpp_hdr); ("sa_hdr", ib_sa_hdr);
               ("data", Array c_u8 IB_MGMT_SA_DATA)].

Definition ib_vendor_mad : ctype :=
  Struct false [("mad_hdr", ib_mad_hdr); ("rmpp_hdr", ib_rmpp_hdr); ("reserved", c_u8);
                ("oui", Array c_u8 3); ("data", Array c_u8 IB_MGMT_VENDOR_DATA)].

Definition ib_class_port_info : ctype :=
  Struct false [("base_version", c_u8); ("class_version", c_u8); ("capability_mask", c_u16);
                ("cap_mask2_resp_time", c_u32); ("redirect_gid", Array c_u8 16);
                ("redirect_tcslfl", c_u32); ("redirect_lid", c_u16); ("redirect_pkey", c_u16);
                ("redirect_qp", c_u32); ("redirect_qkey", c_u32); ("trap_gid", Array c_u8 16);
                ("trap_tcslfl", c_u32); ("trap_lid", c_u16); ("trap_pkey", c_u16);
                ("trap_hlqp", c_u32); ("trap_qkey", c_u32)].

Definition opa_class_port_info : ctype :=
  Struct true [("base_version", c_u8); ("class_version", c_u8); ("cap_mask", c_u16);
               ("cap_mask2_resp_time", c_u32); ("redirect_gid", Array c_u8 16);
               ("redirect_tc_fl", c_u32); ("redirect_lid", c_u32); ("redirect_sl_qp", c_u32);
               ("redirect_qkey", c_u32); ("trap_gid", Array c_u8 16); ("trap_tc_fl", c_u32);
               ("trap_lid", c_u32); ("trap_hl_qp", c_u32); ("trap_qkey", c_u32);
               ("trap_pkey", c_u16); ("redirect_pkey", c_u16); ("trap_sl_rsvd", c_u8);
               ("reserved", Array c_u8 3)].

Definition ib_mad_notice_attr : ctype :=
  Struct false
    [("generic_type", c_u8); ("prod_type_msb", c_u8); ("prod_type_lsb", c_u16);
     ("trap_num", c_u16); ("issuer_lid", c_u16); ("toggle_count", c_u16);
     ("details", Union
       [("raw_data", Struct false [("details", Array c_u8 54)]);
        ("ntc_129_131", Struct true [("reserved", c_u16); ("lid", c_u16); ("port_num", c_u8)]);
        ("ntc_144", Struct true [("reserved", c_u16); ("lid", c_u16); ("reserved2", c_u8);
                                 ("local_changes", c_u8); ("new_cap_mask", c_u32);
                                 ("reserved3", c_u8); ("change_flags", c_u8)]);
        ("ntc_145", Struct true [("reserved", c_u16); ("lid", c_u16); ("reserved2", c_u16);
                                 ("new_sys_guid", c_u64)]);
        ("ntc_256", Struct true [("reserved", c_u16); ("lid", c_u16); ("dr_slid", c_u16);
                                 ("method", c_u8); ("reserved2", c_u8); ("attr_id", c_u16);
                                 ("attr_mod", c_u32); ("mkey", c_u64); ("reserved3", c_u8);
                                 ("dr_trunc_hop", c_u8); ("dr_rtn_path", Array c_u8 30)]);
        ("ntc_257_258", Struct true [("reserved", c_u16); ("lid1", c_u16); ("lid2", c_u16);
                                     ("key", c_u32); ("sl_qp1", c_u32); ("qp2", c_u32);
                                     ("gid1", c_ib_gid); ("gid2", c_ib_gid)])])].

Definition ib_mad_send_buf : ctype :=
  Struct false [("next", c_ptr); ("mad", c_ptr); ("mad_agent", c_ptr); ("ah", c_ptr);
                ("context", Array c_ptr 2); ("hdr_len", c_int); ("data_len", c_int);
                ("seg_count", c_int); ("seg_size", c_int); ("seg_rmpp_size", c_int);
                ("timeout_ms", c_int); ("retries", c_int)].

(** ** Accessors *)
Definition OPA_CLASS_PORT_INFO_PR_SUPPORT : Z := BIT 26.
Definition IB_CLASS_PORT_INFO_RESP_TIME_MASK : Z := 0x1F.
Definition IB_CLASS_PORT_INFO_RESP_TIME_FIELD_SIZE : Z := 5.

Section MadAccessors.
Context `{Endian}.

(** Constants in network order. *)
Definition IB_BM_ATTR_MOD_RESP : Z := htobe32 1.
Definition IB_QP1 : Z := htobe32 1.
Definition IB_NOTICE_PROD_CA : Z := htobe16 1.
Definition IB_NOTICE_PROD_SWITCH : Z := htobe16 2.
Definition IB_NOTICE_PROD_ROUTER : Z := htobe16 3.
Definition IB_NOTICE_PROD_CLASS_MGR : Z := htobe16 4.
Definition IB_MGMT_CLASSPORTINFO_ATTR_ID : Z := htobe16 0x0001.
Definition IB_SA_COMP_MASK (n : Z) : Z := htobe64 (u64 (1 ≪ n)).

Definition ib_get_cpi_resp_time (m : list byte) (cpi : Z) : result Z :=
  v ← load32 m (cpi + offsetof ib_class_port_info "cap_mask2_resp_time");
  Ok (u8 (be32toh v &&& IB_CLASS_PORT_INFO_RESP_TIME_MASK)).

Definition ib_set_cpi_resp_time (m : list byte) (cpi rtime : Z) : result (list byte) :=
  v ← load32 m (cpi + offsetof ib_class_port_info "cap_mask2_resp_time");
  store32 m (cpi + offsetof ib_class_port_info "cap_mask2_resp_time")
    ((v &&& htobe32 (~~ IB_CLASS_PORT_INFO_RESP_TIME_MASK)) |||
     htobe32 (rtime &&& IB_CLASS_PORT_INFO_RESP_TIME_MASK)).

Definition ib_get_cpi_capmask2 (m : list byte) (cpi : Z) : result Z :=
  v ← load32 m (cpi + offsetof ib_class_port_info "cap_mask2_resp_time");
  Ok (be32toh v ≫ IB_CLASS_PORT_INFO_RESP_TIME_FIELD_SIZE).

Definition ib_set_cpi_capmask2 (m : list byte) (cpi capmask2 : Z) : result (list byte) :=
  v ← load32 m (cpi + offsetof ib_class_port_info "cap_mask2_resp_time");
  store32 m (cpi + offsetof ib_class_port_info "cap_mask2_resp_time")
    ((v &&& htobe32 IB_CLASS_PORT_INFO_RESP_TIME_MASK) |||
     htobe32 (u32 (capmask2 ≪ IB_CLASS_PORT_INFO_RESP_TIME_FIELD_SIZE))).

Definition opa_get_cpi_capmask2 (m : list byte) (cpi : Z) : result Z :=
  v ← load32 m (cpi + offsetof opa_class_port_info "cap_mask2_resp_time");
  Ok (be32toh v ≫ IB_CLASS_PORT_INFO_RESP_TIME_FIELD_SIZE).

Definition ib_get_rmpp_resptime (m : list byte) (rmpp_hdr : Z) : result Z :=
  v ← load8 m (rmpp_hdr + offsetof ib_rmpp_hdr "rmpp_rtime_flags");
  Ok (u8 (v ≫ 3)).

Definition ib_get_rmpp_flags (m : list byte) (rmpp_hdr : Z) : result Z :=
  v ← load8 m (rmpp_hdr + offsetof ib_rmpp_hdr "rmpp_rtime_flags");
  Ok (v &&& 0x7).

Definition ib_set_rmpp_resptime (m : list byte) (rmpp_hdr rtime : Z) : result (list byte) :=
  flags ← ib_get_rmpp_flags m rmpp_hdr;
  store8 m (rmpp_hdr + offsetof ib_rmpp_hdr "rmpp_rtime_flags") (u8 (flags ||| (rtime ≪ 3))).

Definition ib_set_rmpp_flags (m : list byte) (rmpp_hdr flags : Z) : result (list byte) :=
  v ← load8 m (rmpp_hdr + offsetof ib_rmpp_hdr "rmpp_rtime_flags");
  store8 m (rmpp_hdr + offsetof ib_rmpp_hdr "rmpp_rtime_flags")
    ((v &&& 0xF8) ||| (flags &&& 0x7)).

(** ** The layout is the wire format *)

(** The structs have the sizes and the places of the protocol: the common
    header is 24 bytes, every InfiniBand datagram 256 and every OPA datagram
    2048 bytes, the class-specific headers end where the enum says, and the
    class port info fills 72 (OPA: 80) bytes. *)
Theorem mad_layout :
  sizeof ib_mad_hdr = IB_MGMT_MAD_HDR ∧ offsetof ib_mad_hdr "attr_id" = 16 ∧
  sizeof ib_mad = IB_MGMT_MAD_SIZE ∧ sizeof opa_mad = OPA_MGMT_MAD_SIZE ∧
  sizeof ib_rmpp_mad = IB_MGMT_MAD_SIZE ∧ sizeof opa_rmpp_mad = OPA_MGMT_MAD_SIZE ∧
  sizeof ib_sa_mad = IB_MGMT_MAD_SIZE ∧ sizeof ib_vendor_mad = IB_MGMT_MAD_SIZE ∧
  offsetof ib_rmpp_mad "data" = IB_MGMT_RMPP_HDR ∧
  offsetof ib_sa_mad "data" = IB_MGMT_SA_HDR ∧
  offsetof ib_vendor_mad "data" = IB_MGMT_VENDOR_HDR ∧
  sizeof ib_class_port_info = 72 ∧ sizeof opa_class_port_info = 80 ∧
  sizeof ib_mad_notice_attr = 64.
Proof. by vm_compute. Qed.

(** ** The accessors *)

(** The packed word of the class port info, as the protocol splits it. *)
Definition cpi_word (m : list byte) (cpi : Z) : Z := be_at m (cpi + 4) 4.

(** The response time is the low five bits and the second capability mask the
    other 27 bits of one word; each setter changes its part only (truncating
    the value) and the getters read the parts back. *)
Theorem cpi_accessors m cpi v :
  in_range m cpi 72 = true →
  ib_get_cpi_resp_time m cpi = Ok (cpi_word m cpi mod 2 ^ 5) ∧
  ib_get_cpi_capmask2 m cpi = Ok (cpi_word m cpi / 2 ^ 5) ∧
  (∃ m', ib_set_cpi_resp_time m cpi v = Ok m' ∧
         cpi_word m' cpi mod 2 ^ 5 = v mod 2 ^ 5 ∧
         cpi_word m' cpi / 2 ^ 5 = cpi_word m cpi / 2 ^ 5 ∧
         same_outside (cpi + 4) (cpi + 8) m m') ∧
  (∃ m', ib_set_cpi_capmask2 m cpi v = Ok m' ∧
         cpi_word m' cpi mod 2 ^ 5 = cpi_word m cpi mod 2 ^ 5 ∧
         cpi_word m' cpi / 2 ^ 5 = v mod 2 ^ 27 ∧
         same_outside (cpi + 4) (cpi + 8) m m').
Proof.
  intros Hr. assert (Hr4 : in_range m (cpi + 4) 4 = true)
    by (eapply in_range_sub; [exact Hr|lia|cbn; lia]).
  unfold ib_get_cpi_resp_time, ib_get_cpi_capmask2, ib_set_cpi_resp_time,
    ib_set_cpi_capmask2, load32, store32, be32toh, htobe32, cpi_word. layout_norm.
  rewrite !load_int_in by done. autorewrite with ctcm. rewrite !htobe_be_at.
  pose proof (be_at_range m (cpi + 4) 4) as Hx. set (x := be_at m (cpi + 4) 4) in *.
  change IB_CLASS_PORT_INFO_RESP_TIME_MASK with (mask_at 0 5).
  change IB_CLASS_PORT_INFO_RESP_TIME_FIELD_SIZE with 5.
  rewrite !htobe_land, !htobe_lor.
  split; [unfold u8; f_equal; bits_eq|]. split; [by rewrite Z.shiftr_div_pow2 by lia|].
  split.
  - edestruct store_writes as (m' & -> & Hw); [exact Hr4|]. exists m'. split; [done|].
    rewrite (writes_value _ _ _ _ _ Hw). split; [bits_eq|]. split.
    + apply Z.bits_inj'. intros i Hi. norm_widths. autorewrite with bits.
      destruct (Z.leb_spec 27 i); [rewrite (testbit_high 32 x) by (cbn in *; lia)|]; bits_split; lia.
    + eapply writes_same_outside; [exact Hw|lia|cbn; lia].
  - edestruct store_writes as (m' & -> & Hw); [exact Hr4|]. exists m'. split; [done|].
    rewrite (writes_value _ _ _ _ _ Hw). unfold u32. split; [bits_eq|]. split; [bits_eq|].
    eapply writes_same_outside; [exact Hw|lia|cbn; lia].
Qed.

(** In the RMPP header the response time and the flags share one byte (5 and
    3 bits): each setter stores its value, truncated, and keeps the other. *)
Theorem rmpp_accessors m hdr v :
  in_range m hdr 12 = true →
  let byte m := be_at m (hdr + 2) 1 in
  ib_get_rmpp_resptime m hdr = Ok (byte m / 2 ^ 3) ∧
  ib_get_rmpp_flags m hdr = Ok (byte m mod 2 ^ 3) ∧
  (∃ m', ib_set_rmpp_resptime m hdr v = Ok m' ∧
         byte m' / 2 ^ 3 = v mod 2 ^ 5 ∧ byte m' mod 2 ^ 3 = byte m mod 2 ^ 3 ∧
         same_outside (hdr + 2) (hdr + 3) m m') ∧
  (∃ m', ib_set_rmpp_flags m hdr v = Ok m' ∧
         byte m' / 2 ^ 3 = byte m / 2 ^ 3 ∧ byte m' mod 2 ^ 3 = v mod 2 ^ 3 ∧
         same_outside (hdr + 2) (hdr + 3) m m').
Proof.
  intros Hr byte. assert (Hr1 : in_range m (hdr + 2) 1 = true)
    by (eapply in_range_sub; [exact Hr|lia|cbn; lia]).
  unfold ib_set_rmpp_resptime, ib_set_rmpp_flags, ib_get_rmpp_flags, ib_get_rmpp_resptime.
  layout_norm. rewrite !load8_in by done. autorewrite with ctcm. unfold byte.
  pose proof (be_at_range m (hdr + 2) 1) as Hx. set (x := be_at m (hdr + 2) 1) in *.
  change 0x7 with (mask_at 0 3). change 0xF8 with (mask_at 3 5). unfold u8.
  assert (Hhi : ∀ i, 8 ≤ i → Z.testbit x i = false) by (intros; by apply (testbit_high 8 x)).
  split; [f_equal; apply Z.bits_inj'; intros i Hi; autorewrite with bits;
          destruct (Z.leb_spec 8 (i + 3)); rewrite ?Hhi by lia; bits_split; lia|].
  split; [f_equal; bits_eq|]. split.
  - edestruct store8_writes as (m' & -> & Hw); [exact Hr1|]. exists m'. split; [done|].
    rewrite (writes_value _ _ _ _ _ Hw). split; [bits_eq|]. split; [bits_eq|].
    eapply writes_same_outside; [exact Hw|lia|cbn; lia].
  - edestruct store8_writes as (m' & -> & Hw); [exact Hr1|]. exists m'. split; [done|].
    rewrite (writes_value _ _ _ _ _ Hw). split; [|split; [bits_eq|]].
    + apply Z.bits_inj'. intros i Hi. autorewrite with bits.
      destruct (Z.leb_spec 8 (i + 3)); rewrite ?Hhi by lia; bits_split; lia.
    + eapply writes_same_outside; [exact Hw|lia|cbn; lia].
Qed.
End MadAccessors.
