(* ===== verification/Iba.v ===== *)
(** * Iba: src/src/iba.h

    The tabular description of message fields (offset, mask, container width)
    and the accessors [IBA_GET], [IBA_SET], [IBA_GET_MEM], [IBA_SET_MEM].  The
    reference is the notation of the InfiniBand specification: a field is the
    [w] bits of the message from bit [o] on, counted from the most significant
    bit of the first byte. *)

From Stdlib Require Import ZArith Lia Btauto.
From stdpp Require Import base tactics numbers list.
From coqutil Require Import Byte Word.LittleEndianList.
From S2P Require Import Prelude Memory Bitfield.

Open Scope Z_scope.
Open Scope ctcm_scope.

(** ** Field descriptions *)

(** What [_IBA_GET] and [_IBA_SET] receive: the offset of the container, the mask
    within it and its size in bytes ([num_bits] / 8). *)
Record iba_field := {
  fld_offset : Z;
  fld_mask : Z;
  fld_bytes : nat;
}.

(** What the [MEM] accessors receive. *)
Record iba_mem_field := {
  mf_offset : Z;
  mf_bits : Z;
}.

Definition IBA_FIELD_BLOC (byte_offset bit_offset num_bits : Z) : iba_field :=
  {| fld_offset := byte_offset;
     fld_mask := GENMASK (7 - bit_offset) (7 - bit_offset - (num_bits - 1));
     fld_bytes := 1 |}.

Definition IBA_FIELD8_LOC (byte_offset num_bits : Z) : iba_field :=
  IBA_FIELD_BLOC byte_offset 0 num_bits.

Definition IBA_FIELD16_LOC (byte_offset num_bits : Z) : iba_field :=
  {| fld_offset := byte_offset &&& 0xFFFE;
     fld_mask := GENMASK (15 - (byte_offset mod 2) * 8)
                         (15 - (byte_offset mod 2) * 8 - (num_bits - 1));
     fld_bytes := 2 |}.

Definition IBA_FIELD32_LOC (byte_offset num_bits : Z) : iba_field :=
  {| fld_offset := byte_offset &&& 0xFFFC;
     fld_mask := GENMASK (31 - (byte_offset mod 4) * 8)
                         (31 - (byte_offset mod 4) * 8 - (num_bits - 1));
     fld_bytes := 4 |}.

Definition IBA_FIELD64_LOC (byte_offset : Z) : iba_field :=
  {| fld_offset := byte_offset; fld_mask := GENMASK_ULL 63 0; fld_bytes := 8 |}.

Definition IBA_FIELD_MLOC (byte_offset num_bits : Z) : iba_mem_field :=
  {| mf_offset := byte_offset; mf_bits := num_bits |}.

Section Access.
Context `{Endian}.

(** [_iba_get8] .. [_iba_get64]. *)
Definition _iba_get (n : nat) (m : list byte) (ptr : Z) : result Z :=
  v ← load_int n m ptr; Ok (htobe n v).

(** [_iba_set8] .. [_iba_set64]; the mask and the prepared value are converted to
    the container's type by the call. *)
Definition _iba_set (n : nat) (m : list byte) (ptr mask prep_value : Z) : result (list byte) :=
  v ← load_int n m ptr;
  store_int n m ptr
    (htobe n ((htobe n v &&& ~~ (mask mod 2 ^ (Z.of_nat n * 8))) |||
              (prep_value mod 2 ^ (Z.of_nat n * 8)))).

Definition IBA_GET (f : iba_field) (m : list byte) (ptr : Z) : result Z :=
  v ← _iba_get (fld_bytes f) m (ptr + fld_offset f);
  Ok (FIELD_GET (fld_mask f) v mod 2 ^ (Z.of_nat (fld_bytes f) * 8)).

Definition IBA_SET (f : iba_field) (m : list byte) (ptr value : Z) : result (list byte) :=
  _iba_set (fld_bytes f) m (ptr + fld_offset f) (fld_mask f) (FIELD_PREP (fld_mask f) value).

Definition IBA_GET_MEM_PTR (f : iba_mem_field) (ptr : Z) : Z := ptr + mf_offset f.

(** [in] is a possibly null pointer to a source buffer; [WARN_ON] has no effect. *)
Definition IBA_SET_MEM (f : iba_mem_field) (m : list byte) (ptr : Z)
    (in_ptr : option (list byte)) (bytes : nat) : result (list byte) :=
  match in_ptr with
  | Some src =>
      if (bytes =? 0)%nat then Ok m
      else bs ← load src 0 bytes; store m (IBA_GET_MEM_PTR f ptr) bs
  | None => Ok m
  end.

(** [out] is a possibly null pointer to a destination buffer. *)
Definition IBA_GET_MEM (f : iba_mem_field) (m : list byte) (ptr : Z)
    (out : option (list byte)) (bytes : nat) : result (option (list byte)) :=
  match out with
  | Some dst =>
      if (bytes =? 0)%nat then Ok (Some dst)
      else bs ← load m (IBA_GET_MEM_PTR f ptr) bytes; dst' ← store dst 0 bs; Ok (Some dst')
  | None => Ok None
  end.

(** ** The specification's notation *)

(** Bit [i] of the message at [p]. *)
Definition msg_bit (m : list byte) (p i : Z) : bool :=
  Z.testbit (byte.unsigned (nth (Z.to_nat (p + i / 8)) m Byte.x00)) (7 - i mod 8).

(** The number whose bits, most significant first, are [f o], [f (o+1)], ... *)
Fixpoint bits_value (f : Z → bool) (o : Z) (w : nat) : Z :=
  match w with
  | O => 0
  | S w' => Z.b2z (f (o + Z.of_nat w')) + 2 * bits_value f o w'
  end.

(** The [w] bits of the message from bit [o] on. *)
Definition net_bits (m : list byte) (p o : Z) (w : nat) : Z := bits_value (msg_bit m p) o w.

(** A field description denotes bits [fld_pos .. fld_pos + fld_width). *)
Definition fld_low (f : iba_field) : Z := __bf_shf (fld_mask f).
Definition fld_width (f : iba_field) : Z := Z.log2 (fld_mask f) + 1 - fld_low f.
Definition fld_pos (f : iba_field) : Z :=
  8 * fld_offset f + 8 * Z.of_nat (fld_bytes f) - fld_low f - fld_width f.

(** A description that the build accepts: a contiguous mask within the container. *)
Definition fld_ok (f : iba_field) : bool :=
  (0 <=? fld_offset f) && (0 <=? fld_low f) && (1 <=? fld_width f) &&
  (fld_low f + fld_width f <=? 8 * Z.of_nat (fld_bytes f)) && (fld_bytes f <=? 8)%nat &&
  (fld_mask f =? Z.shiftl (Z.ones (fld_width f)) (fld_low f)).

(** ** Bits of the message *)

Lemma testbit_be_at m p n j :
  in_range m p n = true → 0 ≤ j < 8 * Z.of_nat n →
  Z.testbit (be_at m p n) j = msg_bit m p (8 * Z.of_nat n - 1 - j).
Proof.
  intros [Hp Hn]%in_range_true Hj. unfold be_at, be_combine, msg_bit.
  set (bs := take n (drop (Z.to_nat p) m)).
  assert (Hl : length bs = n) by (unfold bs; rewrite length_take, length_drop; lia).
  rewrite testbit_le_combine by lia.
  assert (Hd : (8 * Z.of_nat n - 1 - j) / 8 = Z.of_nat n - 1 - j / 8)
    by (Z.to_euclidean_division_equations; lia).
  assert (Hm : (8 * Z.of_nat n - 1 - j) mod 8 = 7 - j mod 8)
    by (Z.to_euclidean_division_equations; lia).
  assert (0 ≤ j / 8 < Z.of_nat n) by (Z.to_euclidean_division_equations; lia).
  rewrite Hd, Hm. rewrite rev_nth by lia. rewrite Hl. f_equal; [|lia]. f_equal.
  rewrite !nth_lookup. f_equal. unfold bs.
  rewrite lookup_take_lt, lookup_drop by lia. f_equal. lia.
Qed.

Lemma testbit_bits_value f o w j :
  0 ≤ j → Z.testbit (bits_value f o w) j =
          (j <? Z.of_nat w) && f (o + Z.of_nat w - 1 - j).
Proof.
  revert j. induction w as [|w IH]; intros j Hj; cbn [bits_value].
  - rewrite Z.bits_0. destruct (Z.ltb_spec j (Z.of_nat 0)); [lia|done].
  - destruct (Z.eq_dec j 0) as [->|Hne].
    + rewrite Z.add_b2z_double_bit0. destruct (Z.ltb_spec 0 (Z.of_nat (S w))); [|lia].
      cbn [andb]. f_equal. lia.
    + replace j with (Z.succ (j - 1)) by lia.
      rewrite <- Z.div2_bits by lia. rewrite Z.add_b2z_double_div2, IH by lia.
      destruct (Z.ltb_spec (j - 1) (Z.of_nat w)), (Z.ltb_spec (Z.succ (j - 1)) (Z.of_nat (S w)));
        cbn [andb]; (lia || f_equal; lia).
Qed.

Lemma msg_bit_shift m p a i : msg_bit m (p + a) i = msg_bit m p (8 * a + i).
Proof.
  unfold msg_bit. replace (8 * a + i) with (i + a * 8) by lia.
  rewrite Z.div_add, Z.mod_add by lia. do 3 f_equal. lia.
Qed.

(** A field within a container is a run of bits of the message. *)
Lemma container_net_bits m p a n l w :
  in_range m (p + a) n = true → 0 ≤ l → l + Z.of_nat w ≤ 8 * Z.of_nat n →
  (be_at m (p + a) n / 2 ^ l) mod 2 ^ Z.of_nat w =
  net_bits m p (8 * a + 8 * Z.of_nat n - l - Z.of_nat w) w.
Proof.
  intros Hr Hl Hw. apply Z.bits_inj'. intros j Hj. unfold net_bits.
  rewrite Z.testbit_mod_pow2, Z.div_pow2_bits, testbit_bits_value by lia.
  destruct (Z.ltb_spec j (Z.of_nat w)); cbn [andb]; [|done].
  rewrite testbit_be_at, msg_bit_shift by (done || lia). f_equal. lia.
Qed.

Lemma fld_ok_spec f :
  fld_ok f = true →
  fld_mask f = mask_at (fld_low f) (fld_width f) ∧ 0 ≤ fld_offset f ∧ 0 ≤ fld_low f ∧
  0 < fld_width f ∧ fld_low f + fld_width f ≤ 8 * Z.of_nat (fld_bytes f) ∧ (fld_bytes f ≤ 8)%nat.
Proof.
  unfold fld_ok. rewrite !andb_true_iff, !Z.leb_le, Nat.leb_le, Z.eqb_eq.
  intros (((((?&?)&?)&?)&?)&?). repeat split; (done || lia).
Qed.

(** ** Reading *)

Lemma IBA_GET_slice f m ptr :
  fld_ok f = true → in_range m (ptr + fld_offset f) (fld_bytes f) = true →
  IBA_GET f m ptr =
  Ok ((be_at m (ptr + fld_offset f) (fld_bytes f) / 2 ^ fld_low f) mod 2 ^ fld_width f).
Proof.
  intros (Hm & Ho & Hl & Hw & Hb & H8)%fld_ok_spec Hr.
  unfold IBA_GET, _iba_get. rewrite load_int_in by done. autorewrite with ctcm.
  rewrite htobe_be_at. pose proof (be_at_range m (ptr + fld_offset f) (fld_bytes f)).
  rewrite Hm at 1. rewrite FIELD_GET_slice by lia. f_equal. apply Z.mod_small.
  assert (0 < 2 ^ fld_width f) by (apply Z.pow_pos_nonneg; lia).
  pose proof (Z.mod_pos_bound (be_at m (ptr + fld_offset f) (fld_bytes f) / 2 ^ fld_low f)
                (2 ^ fld_width f)).
  assert (2 ^ fld_width f ≤ 2 ^ (Z.of_nat (fld_bytes f) * 8)) by (apply Z.pow_le_mono_r; lia).
  lia.
Qed.

(** [IBA_GET] reads the bits that the specification's table assigns to the field. *)
Lemma IBA_GET_net_bits f m ptr :
  fld_ok f = true → in_range m (ptr + fld_offset f) (fld_bytes f) = true →
  IBA_GET f m ptr = Ok (net_bits m ptr (fld_pos f) (Z.to_nat (fld_width f))).
Proof.
  intros Hok Hr. rewrite IBA_GET_slice by done. f_equal.
  apply fld_ok_spec in Hok as (_ & Ho & Hl & Hw & Hb & H8).
  rewrite <- (Z2Nat.id (fld_width f)) at 1 by lia.
  rewrite container_net_bits by (done || lia). rewrite Z2Nat.id by lia. done.
Qed.

(** ** Writing *)

Lemma IBA_SET_writes f m ptr v :
  fld_ok f = true → in_range m (ptr + fld_offset f) (fld_bytes f) = true →
  let x := be_at m (ptr + fld_offset f) (fld_bytes f) in
  let k := mask_at (fld_low f) (fld_width f) in
  ∃ m', IBA_SET f m ptr v = Ok m' ∧
        writes m m' (ptr + fld_offset f) (fld_bytes f)
          (Z.lor (Z.land x (Z.lnot k)) (FIELD_PREP k v)).
Proof.
  intros (Hm & Ho & Hl & Hw & Hb & H8)%fld_ok_spec Hr x k.
  unfold IBA_SET, _iba_set. rewrite load_int_in by done. autorewrite with ctcm.
  rewrite htobe_be_at, Hm. fold k x.
  pose proof (mask_at_range (fld_low f) (fld_width f) (Z.of_nat (fld_bytes f) * 8)) as Hk.
  pose proof (FIELD_PREP_range (fld_low f) (fld_width f) v (Z.of_nat (fld_bytes f) * 8)) as Hp.
  fold k in Hk, Hp. rewrite (Z.mod_small k), (Z.mod_small (FIELD_PREP k v)) by lia.
  destruct (store_writes (fld_bytes f) m (ptr + fld_offset f)
              (Z.lor (Z.land x (Z.lnot k)) (FIELD_PREP k v)) Hr) as (m' & Hm' & Hws).
  exists m'. split; [done|]. rewrite Z.mod_small in Hws; [done|].
  apply update_range; try lia. apply be_at_range.
Qed.

(** Reading a field after [IBA_SET] of a field: itself, or a disjoint one. *)
Lemma msg_bit_writes m m' p n v ptr i :
  writes m m' p n v → 0 ≤ ptr → 0 ≤ i →
  msg_bit m' ptr i =
  if (8 * p <=? 8 * ptr + i) && (8 * ptr + i <? 8 * (p + Z.of_nat n))
  then Z.testbit v (8 * (p + Z.of_nat n) - 1 - (8 * ptr + i)) else msg_bit m ptr i.
Proof.
  intros Hw Hptr Hi. pose proof (writes_range _ _ _ _ _ Hw) as Hr.
  pose proof Hr as [Hp _]%in_range_true.
  destruct (Z.leb_spec (8 * p) (8 * ptr + i)), (Z.ltb_spec (8 * ptr + i) (8 * (p + Z.of_nat n)));
    cbn [andb].
  - rewrite <- (writes_value _ _ _ _ _ Hw).
    rewrite testbit_be_at by (rewrite ?(writes_in_range _ _ _ _ _ _ _ Hw); done || lia).
    replace ptr with (p + (ptr - p)) at 1 by lia. rewrite msg_bit_shift. f_equal. lia.
  - unfold msg_bit. do 2 f_equal. rewrite !nth_lookup. f_equal. apply Hw.
    pose proof (Z.div_mod i 8 ltac:(lia)). pose proof (Z.mod_pos_bound i 8 ltac:(lia)).
    assert (0 ≤ i / 8) by (apply Z.div_pos; lia). lia.
  - unfold msg_bit. do 2 f_equal. rewrite !nth_lookup. f_equal. apply Hw.
    pose proof (Z.div_mod i 8 ltac:(lia)). pose proof (Z.mod_pos_bound i 8 ltac:(lia)).
    assert (0 ≤ i / 8) by (apply Z.div_pos; lia). lia.
  - lia.
Qed.

Lemma net_bits_ext m m' p o w :
  (∀ i, o ≤ i < o + Z.of_nat w → msg_bit m' p i = msg_bit m p i) →
  net_bits m' p o w = net_bits m p o w.
Proof.
  intros Hb. apply Z.bits_inj'. intros j Hj. unfold net_bits.
  rewrite !testbit_bits_value by done.
  destruct (Z.ltb_spec j (Z.of_nat w)); cbn [andb]; [apply Hb; lia|done].
Qed.

(** [IBA_SET] writes exactly those bits. *)
Lemma IBA_SET_net_bits f m ptr v :
  fld_ok f = true → 0 ≤ ptr → in_range m (ptr + fld_offset f) (fld_bytes f) = true →
  ∃ m', IBA_SET f m ptr v = Ok m' ∧ length m' = length m ∧
        IBA_GET f m' ptr = Ok (v mod 2 ^ fld_width f) ∧
        ∀ i, 0 ≤ i → i < fld_pos f ∨ fld_pos f + fld_width f ≤ i →
             msg_bit m' ptr i = msg_bit m ptr i.
Proof.
  intros Hok Hptr Hr. destruct (IBA_SET_writes f m ptr v Hok Hr) as (m' & Hs & Hw).
  exists m'. split; [done|]. split; [apply Hw|].
  pose proof Hok as (Hm & Ho & Hl & Hwd & Hb & H8)%fld_ok_spec. split.
  - rewrite IBA_GET_slice by (rewrite ?(writes_in_range _ _ _ _ _ _ _ Hw); done).
    rewrite (writes_value _ _ _ _ _ Hw), slice_update_same by lia. done.
  - intros i Hi Hout. rewrite (msg_bit_writes _ _ _ _ _ _ _ Hw) by lia.
    destruct (andb _ _) eqn:Hin; [|done]. unfold fld_pos in Hout.
    rewrite Z.lor_spec, Z.land_spec, Z.lnot_spec, mask_at_testbit, FIELD_PREP_bits by lia.
    rewrite testbit_be_at by (done || lia). rewrite msg_bit_shift.
    match goal with |- (_ && ?b) || (?c && _) = _ =>
      replace b with true by lia; replace c with false by lia end.
    cbn [andb]. rewrite orb_false_r, andb_true_r. f_equal. lia.
Qed.

(** For every field description that the build accepts and on hosts of either
    byte order, [IBA_GET] returns the bits that the specification's table assigns
    to the field, and [IBA_SET] succeeds, makes the field hold the low bits of the
    value and leaves every other bit of the message as it was: in particular every
    other field [g] that shares no bit with [f] reads as before. *)
Theorem IBA_accessors f g m ptr v :
  fld_ok f = true → fld_ok g = true → 0 ≤ ptr →
  in_range m (ptr + fld_offset f) (fld_bytes f) = true →
  in_range m (ptr + fld_offset g) (fld_bytes g) = true →
  fld_pos f + fld_width f ≤ fld_pos g ∨ fld_pos g + fld_width g ≤ fld_pos f →
  IBA_GET f m ptr = Ok (net_bits m ptr (fld_pos f) (Z.to_nat (fld_width f))) ∧
  ∃ m', IBA_SET f m ptr v = Ok m' ∧ length m' = length m ∧
        IBA_GET f m' ptr = Ok (v mod 2 ^ fld_width f) ∧
        IBA_GET g m' ptr = IBA_GET g m ptr ∧
        ∀ i, 0 ≤ i → i < fld_pos f ∨ fld_pos f + fld_width f ≤ i →
             msg_bit m' ptr i = msg_bit m ptr i.
Proof.
  intros Hf Hg Hptr Hrf Hrg Hd. split; [by apply IBA_GET_net_bits|].
  destruct (IBA_SET_net_bits f m ptr v Hf Hptr Hrf) as (m' & Hs & Hl & Hget & Hbits).
  exists m'. repeat split; try done.
  rewrite !IBA_GET_net_bits by (done || (unfold in_range; by rewrite Hl)).
  f_equal. apply net_bits_ext. intros i Hi.
  pose proof Hg as (_ & ? & ? & ? & ? & ?)%fld_ok_spec.
  assert (0 ≤ fld_pos g) by (unfold fld_pos; lia).
  apply Hbits; lia.
Qed.

(** ** The location macros *)

(** [f] compiles and denotes bits [o .. o + w) of the message. *)
Definition denotes (f : iba_field) (o w : Z) : Prop :=
  fld_ok f = true ∧ fld_pos f = o ∧ fld_width f = w.

Lemma log2_mask_at l n : 0 ≤ l → 0 < n → Z.log2 (mask_at l n) = l + n - 1.
Proof.
  intros. unfold mask_at. pose proof (Z.pow_gt_1 2 n).
  assert (Z.ones n = Z.pred (2 ^ n)) as -> by apply Z.ones_equiv.
  rewrite Z.log2_shiftl, Z.log2_pred_pow2 by lia. lia.
Qed.

Lemma denotes_genmask a n h l :
  0 ≤ a → 0 ≤ l → l ≤ h < 8 * Z.of_nat n → (n ≤ 8)%nat →
  denotes {| fld_offset := a; fld_mask := GENMASK h l; fld_bytes := n |}
    (8 * a + 8 * Z.of_nat n - 1 - h) (h - l + 1).
Proof.
  intros Ha Hl Hh Hn. unfold denotes, fld_ok, fld_pos, fld_width, fld_low.
  cbn [fld_offset fld_mask fld_bytes].
  rewrite GENMASK_mask_at by lia. rewrite __bf_shf_mask_at, log2_mask_at by lia.
  replace (l + (h - l + 1) - 1 + 1 - l) with (h - l + 1) by lia.
  unfold mask_at. rewrite Z.eqb_refl, (proj2 (Nat.leb_le n 8) Hn). split_and!; lia.
Qed.

Lemma land_align k b : 0 ≤ k < 16 → 0 ≤ b < 2 ^ 16 → b &&& (2 ^ 16 - 2 ^ k) = b - b mod 2 ^ k.
Proof.
  intros Hk Hb. assert (0 < 2 ^ k) by (apply Z.pow_pos_nonneg; lia).
  replace (b - b mod 2 ^ k) with (2 ^ k * (b / 2 ^ k)) by (pose proof (Z.div_mod b (2 ^ k)); lia).
  replace (2 ^ 16 - 2 ^ k) with (mask_at k (16 - k)).
  2:{ rewrite mask_at_mul, Z.mul_sub_distr_l, <- Z.pow_add_r by lia.
      replace (k + (16 - k)) with 16 by lia. lia. }
  rewrite Z.mul_comm, <- Z.shiftl_mul_pow2, <- Z.shiftr_div_pow2 by lia.
  apply Z.bits_inj'. intros i Hi.
  rewrite Z.land_spec, mask_at_testbit, testbit_shiftl by lia.
  destruct (Z.leb_spec k i); cbn [andb]; [|btauto].
  rewrite Z.shiftr_spec by lia. replace (i - k + k) with i by lia.
  destruct (Z.ltb_spec i (k + (16 - k))); [btauto|].
  rewrite (testbit_high 16 b) by lia. done.
Qed.

(** The location macros implement the specification's Byte[Bit] notation: a
    field of [w] bits that starts at bit [bit] of byte [byte] is, as a description
    of any container width it fits, the bits [8 * byte + bit ..] of the message. *)
Theorem location_macros b bit w :
  0 ≤ b < 2 ^ 16 → 0 ≤ bit → 0 < w →
  (bit + w ≤ 8 → denotes (IBA_FIELD_BLOC b bit w) (8 * b + bit) w) ∧
  (w ≤ 8 → denotes (IBA_FIELD8_LOC b w) (8 * b) w) ∧
  (8 * (b mod 2) + w ≤ 16 → denotes (IBA_FIELD16_LOC b w) (8 * b) w) ∧
  (8 * (b mod 4) + w ≤ 32 → denotes (IBA_FIELD32_LOC b w) (8 * b) w) ∧
  denotes (IBA_FIELD64_LOC b) (8 * b) 64.
Proof.
  intros Hb Hbit Hw.
  assert (Hx : ∀ a n h l o k, 0 ≤ a → 0 ≤ l → l ≤ h < 8 * Z.of_nat n → (n ≤ 8)%nat →
    8 * a + 8 * Z.of_nat n - 1 - h = o → h - l + 1 = k →
    denotes {| fld_offset := a; fld_mask := GENMASK h l; fld_bytes := n |} o k).
  { intros a n h l o k ???? <- <-. by apply denotes_genmask. }
  pose proof (Z.mod_pos_bound b 2 ltac:(lia)). pose proof (Z.mod_pos_bound b 4 ltac:(lia)).
  pose proof (Z.mod_le b 2 ltac:(lia) ltac:(lia)). pose proof (Z.mod_le b 4 ltac:(lia) ltac:(lia)).
  assert (Ha2 : b &&& 0xFFFE = b - b mod 2) by (apply (land_align 1); lia).
  assert (Ha4 : b &&& 0xFFFC = b - b mod 4) by (apply (land_align 2); lia).
  unfold IBA_FIELD8_LOC, IBA_FIELD_BLOC, IBA_FIELD16_LOC, IBA_FIELD32_LOC, IBA_FIELD64_LOC.
  rewrite Ha2, Ha4. change (GENMASK_ULL 63 0) with (GENMASK 63 0).
  split_and!; intros; apply Hx; lia.
Qed.

(** ** Byte-array fields *)

(** Copying [bytes] bytes into a byte-array field and back gives the same
    bytes, and the rest of the message, the trailing bytes of a field that is only
    partly set included, keeps its content; with a null pointer or a zero count
    both macros do nothing. *)
Theorem IBA_MEM_roundtrip f m ptr src dst bytes :
  in_range m (ptr + mf_offset f) bytes = true →
  (bytes ≤ length src)%nat → (bytes ≤ length dst)%nat →
  IBA_SET_MEM f m ptr None bytes = Ok m ∧
  IBA_GET_MEM f m ptr None bytes = Ok None ∧
  IBA_SET_MEM f m ptr (Some src) 0 = Ok m ∧
  ∃ m', IBA_SET_MEM f m ptr (Some src) bytes = Ok m' ∧
        IBA_GET_MEM f m' ptr (Some dst) bytes = Ok (Some (take bytes src ++ drop bytes dst)) ∧
        same_outside (ptr + mf_offset f) (ptr + mf_offset f + Z.of_nat bytes) m m'.
Proof.
  intros Hr Hsrc Hdst. split_and!; [done..|].
  unfold IBA_SET_MEM, IBA_GET_MEM, IBA_GET_MEM_PTR.
  destruct (Nat.eqb_spec bytes 0) as [->|Hb].
  { exists m. split_and!; [done|by rewrite take_0, drop_0|done]. }
  assert (Hl : load src 0 bytes = Ok (take bytes src)).
  { unfold load. rewrite (proj2 (in_range_true src 0 bytes)) by lia. done. }
  assert (Hlen : length (take bytes src) = bytes) by (rewrite length_take; lia).
  destruct (store m (ptr + mf_offset f) (take bytes src)) as [m'|e] eqn:Hs.
  2:{ unfold store in Hs. by rewrite Hlen, Hr in Hs. }
  exists m'. rewrite Hl. autorewrite with ctcm. split_and!; [done| |].
  - unfold load. rewrite (in_range_store _ _ _ _ _ _ Hs), Hr. cbn [mbind result_bind].
    pose proof (take_drop_store_same _ _ _ _ Hs) as Hts. rewrite Hlen in Hts.
    rewrite Hts, store_in by (rewrite Hlen; apply in_range_true; lia).
    cbn. by rewrite Hlen.
  - split; [by eapply store_length|]. intros k Hk. eapply lookup_store_other; [done|].
    rewrite Hlen. lia.
Qed.
End Access.
