(* ===== verification/IbtaC12.v ===== *)
(** * IbtaC12: src/src/ibta_vol1_c12.h

    The communication management messages of the InfiniBand specification, volume
    1 chapter 12: the table of each message's fields and its struct.  A field
    keeps the source's name; the macro parameter that names the struct, used only
    for type checking, is dropped, and so is the element type of a byte-array
    field. *)

From Stdlib Require Import ZArith Lia String.
From stdpp Require Import base tactics numbers list strings.
From S2P Require Import Prelude Memory Layout Bitfield IbMad Iba.

Local Open Scope string_scope.
Open Scope Z_scope.
Open Scope ctcm_scope.

(** ** The location macros of the chapter: offsets follow the MAD header. *)
Definition CM_FIELD_BLOC (byte_offset bits_offset width : Z) : iba_field :=
  IBA_FIELD_BLOC (byte_offset + sizeof ib_mad_hdr) bits_offset width.
Definition CM_FIELD8_LOC (byte_offset width : Z) : iba_field :=
  IBA_FIELD8_LOC (byte_offset + sizeof ib_mad_hdr) width.
Definition CM_FIELD16_LOC (byte_offset width : Z) : iba_field :=
  IBA_FIELD16_LOC (byte_offset + sizeof ib_mad_hdr) width.
Definition CM_FIELD32_LOC (byte_offset width : Z) : iba_field :=
  IBA_FIELD32_LOC (byte_offset + sizeof ib_mad_hdr) width.
Definition CM_FIELD64_LOC (byte_offset : Z) : iba_field :=
  IBA_FIELD64_LOC (byte_offset + sizeof ib_mad_hdr).
Definition CM_FIELD_MLOC (byte_offset width : Z) : iba_mem_field :=
  IBA_FIELD_MLOC (byte_offset + sizeof ib_mad_hdr) width.
Definition CM_STRUCT (total_len : Z) : ctype :=
  Struct false [("hdr", ib_mad_hdr); ("_data", Array c_u32 (total_len / 32))].

(** ** Table 106: REQ *)
Definition CM_REQ_LOCAL_COMM_ID : iba_field := CM_FIELD32_LOC 0 32.
Definition CM_REQ_SERVICE_ID : iba_field := CM_FIELD64_LOC 8.
Definition CM_REQ_LOCAL_CA_GUID : iba_field := CM_FIELD64_LOC 16.
Definition CM_REQ_LOCAL_Q_KEY : iba_field := CM_FIELD32_LOC 28 32.
Definition CM_REQ_LOCAL_QPN : iba_field := CM_FIELD32_LOC 32 24.
Definition CM_REQ_RESPONDER_RESOURCES : iba_field := CM_FIELD8_LOC 35 8.
Definition CM_REQ_LOCAL_EECN : iba_field := CM_FIELD32_LOC 36 24.
Definition CM_REQ_INITIATOR_DEPTH : iba_field := CM_FIELD8_LOC 39 8.
Definition CM_REQ_REMOTE_EECN : iba_field := CM_FIELD32_LOC 40 24.
Definition CM_REQ_REMOTE_CM_RESPONSE_TIMEOUT : iba_field := CM_FIELD8_LOC 43 5.
Definition CM_REQ_TRANSPORT_SERVICE_TYPE : iba_field := CM_FIELD_BLOC 43 5 2.
Definition CM_REQ_END_TO_END_FLOW_CONTROL : iba_field := CM_FIELD_BLOC 43 7 1.
Definition CM_REQ_STARTING_PSN : iba_field := CM_FIELD32_LOC 44 24.
Definition CM_REQ_LOCAL_CM_RESPONSE_TIMEOUT : iba_field := CM_FIELD8_LOC 47 5.
Definition CM_REQ_RETRY_COUNT : iba_field := CM_FIELD_BLOC 47 5 3.
Definition CM_REQ_PARTITION_KEY : iba_field := CM_FIELD16_LOC 48 16.
Definition CM_REQ_PATH_PACKET_PAYLOAD_MTU : iba_field := CM_FIELD8_LOC 50 4.
Definition CM_REQ_RDC_EXISTS : iba_field := CM_FIELD_BLOC 50 4 1.
Definition CM_REQ_RNR_RETRY_COUNT : iba_field := CM_FIELD_BLOC 50 5 3.
Definition CM_REQ_MAX_CM_RETRIES : iba_field := CM_FIELD8_LOC 51 4.
Definition CM_REQ_SRQ : iba_field := CM_FIELD_BLOC 51 4 1.
Definition CM_REQ_EXTENDED_TRANSPORT_TYPE : iba_field := CM_FIELD_BLOC 51 5 3.
Definition CM_REQ_PRIMARY_LOCAL_PORT_LID : iba_field := CM_FIELD16_LOC 52 16.
Definition CM_REQ_PRIMARY_REMOTE_PORT_LID : iba_field := CM_FIELD16_LOC 54 16.
Definition CM_REQ_PRIMARY_FLOW_LABEL : iba_field := CM_FIELD32_LOC 88 20.
Definition CM_REQ_PRIMARY_PACKET_RATE : iba_field := CM_FIELD_BLOC 91 2 6.
Definition CM_REQ_PRIMARY_TRAFFIC_CLASS : iba_field := CM_FIELD8_LOC 92 8.
Definition CM_REQ_PRIMARY_HOP_LIMIT : iba_field := CM_FIELD8_LOC 93 8.
Definition CM_REQ_PRIMARY_SL : iba_field := CM_FIELD8_LOC 94 4.
Definition CM_REQ_PRIMARY_SUBNET_LOCAL : iba_field := CM_FIELD_BLOC 94 4 1.
Definition CM_REQ_PRIMARY_LOCAL_ACK_TIMEOUT : iba_field := CM_FIELD8_LOC 95 5.
Definition CM_REQ_ALTERNATE_LOCAL_PORT_LID : iba_field := CM_FIELD16_LOC 96 16.
Definition CM_REQ_ALTERNATE_REMOTE_PORT_LID : iba_field := CM_FIELD16_LOC 98 16.
Definition CM_REQ_ALTERNATE_FLOW_LABEL : iba_field := CM_FIELD32_LOC 132 20.
Definition CM_REQ_ALTERNATE_PACKET_RATE : iba_field := CM_FIELD_BLOC 135 2 6.
Definition CM_REQ_ALTERNATE_TRAFFIC_CLASS : iba_field := CM_FIELD8_LOC 136 8.
Definition CM_REQ_ALTERNATE_HOP_LIMIT : iba_field := CM_FIELD8_LOC 137 8.
Definition CM_REQ_ALTERNATE_SL : iba_field := CM_FIELD8_LOC 138 4.
Definition CM_REQ_ALTERNATE_SUBNET_LOCAL : iba_field := CM_FIELD_BLOC 138 4 1.
Definition CM_REQ_ALTERNATE_LOCAL_ACK_TIMEOUT : iba_field := CM_FIELD8_LOC 139 5.
Definition CM_REQ_SAP_SUPPORTED : iba_field := CM_FIELD_BLOC 139 5 1.
Definition CM_REQ_PRIMARY_LOCAL_PORT_GID : iba_mem_field := CM_FIELD_MLOC 56 128.
Definition CM_REQ_PRIMARY_REMOTE_PORT_GID : iba_mem_field := CM_FIELD_MLOC 72 128.
Definition CM_REQ_ALTERNATE_LOCAL_PORT_GID : iba_mem_field := CM_FIELD_MLOC 100 128.
Definition CM_REQ_ALTERNATE_REMOTE_PORT_GID : iba_mem_field := CM_FIELD_MLOC 116 128.
Definition CM_REQ_PRIVATE_DATA : iba_mem_field := CM_FIELD_MLOC 140 736.
Definition cm_req_msg : ctype := CM_STRUCT (140 * 8 + 736).

(** ** Table 107: MRA *)
Definition CM_MRA_LOCAL_COMM_ID : iba_field := CM_FIELD32_LOC 0 32.
Definition CM_MRA_REMOTE_COMM_ID : iba_field := CM_FIELD32_LOC 4 32.
Definition CM_MRA_MESSAGE_MRAED : iba_field := CM_FIELD8_LOC 8 2.
Definition CM_MRA_SERVICE_TIMEOUT : iba_field := CM_FIELD8_LOC 9 5.
Definition CM_MRA_PRIVATE_DATA : iba_mem_field := CM_FIELD_MLOC 10 1776.
Definition cm_mra_msg : ctype := CM_STRUCT (10 * 8 + 1776).

(** ** Table 108: REJ *)
Definition CM_REJ_LOCAL_COMM_ID : iba_field := CM_FIELD32_LOC 0 32.
Definition CM_REJ_REMOTE_COMM_ID : iba_field := CM_FIELD32_LOC 4 32.
Definition CM_REJ_MESSAGE_REJECTED : iba_field := CM_FIELD8_LOC 8 2.
Definition CM_REJ_REJECTED_INFO_LENGTH : iba_field := CM_FIELD8_LOC 9 7.
Definition CM_REJ_REASON : iba_field := CM_FIELD16_LOC 10 16.
Definition CM_REJ_ARI : iba_mem_field := CM_FIELD_MLOC 12 576.
Definition CM_REJ_PRIVATE_DATA : iba_mem_field := CM_FIELD_MLOC 84 1184.
Definition cm_rej_msg : ctype := CM_STRUCT (84 * 8 + 1184).

(** ** Table 110: REP *)
Definition CM_REP_LOCAL_COMM_ID : iba_field := CM_FIELD32_LOC 0 32.
Definition CM_REP_REMOTE_COMM_ID : iba_field := CM_FIELD32_LOC 4 32.
Definition CM_REP_LOCAL_Q_KEY : iba_field := CM_FIELD32_LOC 8 32.
Definition CM_REP_LOCAL_QPN : iba_field := CM_FIELD32_LOC 12 24.
Definition CM_REP_LOCAL_EE_CONTEXT_NUMBER : iba_field := CM_FIELD32_LOC 16 24.
Definition CM_REP_STARTING_PSN : iba_field := CM_FIELD32_LOC 20 24.
Definition CM_REP_RESPONDER_RESOURCES : iba_field := CM_FIELD8_LOC 24 8.
Definition CM_REP_INITIATOR_DEPTH : iba_field := CM_FIELD8_LOC 25 8.
Definition CM_REP_TARGET_ACK_DELAY : iba_field := CM_FIELD8_LOC 26 5.
Definition CM_REP_FAILOVER_ACCEPTED : iba_field := CM_FIELD_BLOC 26 5 2.
Definition CM_REP_END_TO_END_FLOW_CONTROL : iba_field := CM_FIELD_BLOC 26 7 1.
Definition CM_REP_RNR_RETRY_COUNT : iba_field := CM_FIELD8_LOC 27 3.
Definition CM_REP_SRQ : iba_field := CM_FIELD_BLOC 27 3 1.
Definition CM_REP_LOCAL_CA_GUID : iba_field := CM_FIELD64_LOC 28.
Definition CM_REP_PRIVATE_DATA : iba_mem_field := CM_FIELD_MLOC 36 1568.
Definition cm_rep_msg : ctype := CM_STRUCT (36 * 8 + 1568).

(** ** Table 111: RTU *)
Definition CM_RTU_LOCAL_COMM_ID : iba_field := CM_FIELD32_LOC 0 32.
Definition CM_RTU_REMOTE_COMM_ID : iba_field := CM_FIELD32_LOC 4 32.
Definition CM_RTU_PRIVATE_DATA : iba_mem_field := CM_FIELD_MLOC 8 1792.
Definition cm_rtu_msg : ctype := CM_STRUCT (8 * 8 + 1792).

(** ** Table 112: DREQ *)
Definition CM_DREQ_LOCAL_COMM_ID : iba_field := CM_FIELD32_LOC 0 32.
Definition CM_DREQ_REMOTE_COMM_ID : iba_field := CM_FIELD32_LOC 4 32.
Definition CM_DREQ_REMOTE_QPN_EECN : iba_field := CM_FIELD32_LOC 8 24.
Definition CM_DREQ_PRIVATE_DATA : iba_mem_field := CM_FIELD_MLOC 12 1760.
Definition cm_dreq_msg : ctype := CM_STRUCT (12 * 8 + 1760).

(** ** Table 113: DREP *)
Definition CM_DREP_LOCAL_COMM_ID : iba_field := CM_FIELD32_LOC 0 32.
Definition CM_DREP_REMOTE_COMM_ID : iba_field := CM_FIELD32_LOC 4 32.
Definition CM_DREP_PRIVATE_DATA : iba_mem_field := CM_FIELD_MLOC 8 1792.
Definition cm_drep_msg : ctype := CM_STRUCT (8 * 8 + 1792).

(** ** Table 115: LAP *)
Definition CM_LAP_LOCAL_COMM_ID : iba_field := CM_FIELD32_LOC 0 32.
Definition CM_LAP_REMOTE_COMM_ID : iba_field := CM_FIELD32_LOC 4 32.
Definition CM_LAP_REMOTE_QPN_EECN : iba_field := CM_FIELD32_LOC 12 24.
Definition CM_LAP_REMOTE_CM_RESPONSE_TIMEOUT : iba_field := CM_FIELD8_LOC 15 5.
Definition CM_LAP_ALTERNATE_LOCAL_PORT_LID : iba_field := CM_FIELD16_LOC 20 16.
Definition CM_LAP_ALTERNATE_REMOTE_PORT_LID : iba_field := CM_FIELD16_LOC 22 16.
Definition CM_LAP_ALTERNATE_FLOW_LABEL : iba_field := CM_FIELD32_LOC 56 20.
Definition CM_LAP_ALTERNATE_TRAFFIC_CLASS : iba_field := CM_FIELD8_LOC 59 8.
Definition CM_LAP_ALTERNATE_HOP_LIMIT : iba_field := CM_FIELD8_LOC 60 8.
Definition CM_LAP_ALTERNATE_PACKET_RATE : iba_field := CM_FIELD_BLOC 61 2 6.
Definition CM_LAP_ALTERNATE_SL : iba_field := CM_FIELD8_LOC 62 4.
Definition CM_LAP_ALTERNATE_SUBNET_LOCAL : iba_field := CM_FIELD_BLOC 62 4 1.
Definition CM_LAP_ALTERNATE_LOCAL_ACK_TIMEOUT : iba_field := CM_FIELD8_LOC 63 5.
Definition CM_LAP_ALTERNATE_LOCAL_PORT_GID : iba_mem_field := CM_FIELD_MLOC 24 128.
Definition CM_LAP_ALTERNATE_REMOTE_PORT_GID : iba_mem_field := CM_FIELD_MLOC 40 128.
Definition CM_LAP_PRIVATE_DATA : iba_mem_field := CM_FIELD_MLOC 64 1344.
Definition cm_lap_msg : ctype := CM_STRUCT (64 * 8 + 1344).

(** ** Table 116: APR *)
Definition CM_APR_LOCAL_COMM_ID : iba_field := CM_FIELD32_LOC 0 32.
Definition CM_APR_REMOTE_COMM_ID : iba_field := CM_FIELD32_LOC 4 32.
Definition CM_APR_ADDITIONAL_INFORMATION_LENGTH : iba_field := CM_FIELD8_LOC 8 8.
Definition CM_APR_AR_STATUS : iba_field := CM_FIELD8_LOC 9 8.
Definition CM_APR_ADDITIONAL_INFORMATION : iba_mem_field := CM_FIELD_MLOC 12 576.
Definition CM_APR_PRIVATE_DATA : iba_mem_field := CM_FIELD_MLOC 84 1184.
Definition cm_apr_msg : ctype := CM_STRUCT (84 * 8 + 1184).

(** ** Table 119: SIDR_REQ *)
Definition CM_SIDR_REQ_REQUESTID : iba_field := CM_FIELD32_LOC 0 32.
Definition CM_SIDR_REQ_PARTITION_KEY : iba_field := CM_FIELD16_LOC 4 16.
Definition CM_SIDR_REQ_SERVICEID : iba_field := CM_FIELD64_LOC 8.
Definition CM_SIDR_REQ_PRIVATE_DATA : iba_mem_field := CM_FIELD_MLOC 16 1728.
Definition cm_sidr_req_msg : ctype := CM_STRUCT (16 * 8 + 1728).

(** ** Table 120: SIDR_REP *)
Definition CM_SIDR_REP_REQUESTID : iba_field := CM_FIELD32_LOC 0 32.
Definition CM_SIDR_REP_STATUS : iba_field := CM_FIELD8_LOC 4 8.
Definition CM_SIDR_REP_ADDITIONAL_INFORMATION_LENGTH : iba_field := CM_FIELD8_LOC 5 8.
Definition CM_SIDR_REP_QPN : iba_field := CM_FIELD32_LOC 8 24.
Definition CM_SIDR_REP_SERVICEID : iba_field := CM_FIELD64_LOC 12.
Definition CM_SIDR_REP_Q_KEY : iba_field := CM_FIELD32_LOC 20 32.
Definition CM_SIDR_REP_ADDITIONAL_INFORMATION : iba_mem_field := CM_FIELD_MLOC 24 576.
Definition CM_SIDR_REP_PRIVATE_DATA : iba_mem_field := CM_FIELD_MLOC 96 1088.
Definition cm_sidr_rep_msg : ctype := CM_STRUCT (96 * 8 + 1088).

(** ** The messages *)

(** A message of the chapter: its struct, its integer fields and its byte-array
    fields. *)
Record cm_message := {
  msg_struct : ctype;
  msg_fields : list iba_field;
  msg_mem_fields : list iba_mem_field;
}.

Definition req_message : cm_message := {|
  msg_struct := cm_req_msg;
  msg_fields :=
    [CM_REQ_LOCAL_COMM_ID; CM_REQ_SERVICE_ID; CM_REQ_LOCAL_CA_GUID; CM_REQ_LOCAL_Q_KEY;
     CM_REQ_LOCAL_QPN; CM_REQ_RESPONDER_RESOURCES; CM_REQ_LOCAL_EECN;
     CM_REQ_INITIATOR_DEPTH; CM_REQ_REMOTE_EECN; CM_REQ_REMOTE_CM_RESPONSE_TIMEOUT;
     CM_REQ_TRANSPORT_SERVICE_TYPE; CM_REQ_END_TO_END_FLOW_CONTROL; CM_REQ_STARTING_PSN;
     CM_REQ_LOCAL_CM_RESPONSE_TIMEOUT; CM_REQ_RETRY_COUNT; CM_REQ_PARTITION_KEY;
     CM_REQ_PATH_PACKET_PAYLOAD_MTU; CM_REQ_RDC_EXISTS; CM_REQ_RNR_RETRY_COUNT;
     CM_REQ_MAX_CM_RETRIES; CM_REQ_SRQ; CM_REQ_EXTENDED_TRANSPORT_TYPE;
     CM_REQ_PRIMARY_LOCAL_PORT_LID; CM_REQ_PRIMARY_REMOTE_PORT_LID;
     CM_REQ_PRIMARY_FLOW_LABEL; CM_REQ_PRIMARY_PACKET_RATE; CM_REQ_PRIMARY_TRAFFIC_CLASS;
     CM_REQ_PRIMARY_HOP_LIMIT; CM_REQ_PRIMARY_SL; CM_REQ_PRIMARY_SUBNET_LOCAL;
     CM_REQ_PRIMARY_LOCAL_ACK_TIMEOUT; CM_REQ_ALTERNATE_LOCAL_PORT_LID;
     CM_REQ_ALTERNATE_REMOTE_PORT_LID; CM_REQ_ALTERNATE_FLOW_LABEL;
     CM_REQ_ALTERNATE_PACKET_RATE; CM_REQ_ALTERNATE_TRAFFIC_CLASS;
     CM_REQ_ALTERNATE_HOP_LIMIT; CM_REQ_ALTERNATE_SL; CM_REQ_ALTERNATE_SUBNET_LOCAL;
     CM_REQ_ALTERNATE_LOCAL_ACK_TIMEOUT; CM_REQ_SAP_SUPPORTED];
  msg_mem_fields :=
    [CM_REQ_PRIMARY_LOCAL_PORT_GID; CM_REQ_PRIMARY_REMOTE_PORT_GID;
     CM_REQ_ALTERNATE_LOCAL_PORT_GID; CM_REQ_ALTERNATE_REMOTE_PORT_GID; CM_REQ_PRIVATE_DATA] |}.

Definition mra_message : cm_message := {|
  msg_struct := cm_mra_msg;
  msg_fields :=
    [CM_MRA_LOCAL_COMM_ID; CM_MRA_REMOTE_COMM_ID; CM_MRA_MESSAGE_MRAED;
     CM_MRA_SERVICE_TIMEOUT];
  msg_mem_fields :=
    [CM_MRA_PRIVATE_DATA] |}.

Definition rej_message : cm_message := {|
  msg_struct := cm_rej_msg;
  msg_fields :=
    [CM_REJ_LOCAL_COMM_ID; CM_REJ_REMOTE_COMM_ID; CM_REJ_MESSAGE_REJECTED;
     CM_REJ_REJECTED_INFO_LENGTH; CM_REJ_REASON];
  msg_mem_fields :=
    [CM_REJ_ARI; CM_REJ_PRIVATE_DATA] |}.

Definition rep_message : cm_message := {|
  msg_struct := cm_rep_msg;
  msg_fields :=
    [CM_REP_LOCAL_COMM_ID; CM_REP_REMOTE_COMM_ID; CM_REP_LOCAL_Q_KEY; CM_REP_LOCAL_QPN;
     CM_REP_LOCAL_EE_CONTEXT_NUMBER; CM_REP_STARTING_PSN; CM_REP_RESPONDER_RESOURCES;
     CM_REP_INITIATOR_DEPTH; CM_REP_TARGET_ACK_DELAY; CM_REP_FAILOVER_ACCEPTED;
     CM_REP_END_TO_END_FLOW_CONTROL; CM_REP_RNR_RETRY_COUNT; CM_REP_SRQ;
     CM_REP_LOCAL_CA_GUID];
  msg_mem_fields :=
    [CM_REP_PRIVATE_DATA] |}.

Definition rtu_message : cm_message := {|
  msg_struct := cm_rtu_msg;
  msg_fields :=
    [CM_RTU_LOCAL_COMM_ID; CM_RTU_REMOTE_COMM_ID];
  msg_mem_fields :=
    [CM_RTU_PRIVATE_DATA] |}.

Definition dreq_message : cm_message := {|
  msg_struct := cm_dreq_msg;
  msg_fields :=
    [CM_DREQ_LOCAL_COMM_ID; CM_DREQ_REMOTE_COMM_ID; CM_DREQ_REMOTE_QPN_EECN];
  msg_mem_fields :=
    [CM_DREQ_PRIVATE_DATA] |}.

Definition drep_message : cm_message := {|
  msg_struct := cm_drep_msg;
  msg_fields :=
    [CM_DREP_LOCAL_COMM_ID; CM_DREP_REMOTE_COMM_ID];
  msg_mem_fields :=
    [CM_DREP_PRIVATE_DATA] |}.

Definition lap_message : cm_message := {|
  msg_struct := cm_lap_msg;
  msg_fields :=
    [CM_LAP_LOCAL_COMM_ID; CM_LAP_REMOTE_COMM_ID; CM_LAP_REMOTE_QPN_EECN;
     CM_LAP_REMOTE_CM_RESPONSE_TIMEOUT; CM_LAP_ALTERNATE_LOCAL_PORT_LID;
     CM_LAP_ALTERNATE_REMOTE_PORT_LID; CM_LAP_ALTERNATE_FLOW_LABEL;
     CM_LAP_ALTERNATE_TRAFFIC_CLASS; CM_LAP_ALTERNATE_HOP_LIMIT;
     CM_LAP_ALTERNATE_PACKET_RATE; CM_LAP_ALTERNATE_SL; CM_LAP_ALTERNATE_SUBNET_LOCAL;
     CM_LAP_ALTERNATE_LOCAL_ACK_TIMEOUT];
  msg_mem_fields :=
    [CM_LAP_ALTERNATE_LOCAL_PORT_GID; CM_LAP_ALTERNATE_REMOTE_PORT_GID; CM_LAP_PRIVATE_DATA] |}.

Definition apr_message : cm_message := {|
  msg_struct := cm_apr_msg;
  msg_fields :=
    [CM_APR_LOCAL_COMM_ID; CM_APR_REMOTE_COMM_ID; CM_APR_ADDITIONAL_INFORMATION_LENGTH;
     CM_APR_AR_STATUS];
  msg_mem_fields :=
    [CM_APR_ADDITIONAL_INFORMATION; CM_APR_PRIVATE_DATA] |}.

Definition sidr_req_message : cm_message := {|
  msg_struct := cm_sidr_req_msg;
  msg_fields :=
    [CM_SIDR_REQ_REQUESTID; CM_SIDR_REQ_PARTITION_KEY; CM_SIDR_REQ_SERVICEID];
  msg_mem_fields :=
    [CM_SIDR_REQ_PRIVATE_DATA] |}.

Definition sidr_rep_message : cm_message := {|
  msg_struct := cm_sidr_rep_msg;
  msg_fields :=
    [CM_SIDR_REP_REQUESTID; CM_SIDR_REP_STATUS; CM_SIDR_REP_ADDITIONAL_INFORMATION_LENGTH;
     CM_SIDR_REP_QPN; CM_SIDR_REP_SERVICEID; CM_SIDR_REP_Q_KEY];
  msg_mem_fields :=
    [CM_SIDR_REP_ADDITIONAL_INFORMATION; CM_SIDR_REP_PRIVATE_DATA] |}.

Definition cm_messages : list cm_message :=
    [req_message; mra_message; rej_message; rep_message; rtu_message; dreq_message;
     drep_message; lap_message; apr_message; sidr_req_message; sidr_rep_message].

(** The bits of the message that a field occupies. *)
Definition field_span (f : iba_field) : Z * Z := (fld_pos f, fld_pos f + fld_width f).
Definition mem_span (f : iba_mem_field) : Z * Z :=
  (8 * mf_offset f, 8 * mf_offset f + mf_bits f).
Definition msg_spans (msg : cm_message) : list (Z * Z) :=
  (field_span <$> msg_fields msg) ++ (mem_span <$> msg_mem_fields msg).

Definition disjoint_spans (a b : Z * Z) : bool := (a.2 <=? b.1) || (b.2 <=? a.1).

Fixpoint pairwise_disjoint (l : list (Z * Z)) : bool :=
  match l with
  | [] => true
  | a :: l' => forallb (disjoint_spans a) l' && pairwise_disjoint l'
  end.

(** A message is laid out as the specification's tables require: it fills a MAD,
    and its fields lie behind the MAD header, within the struct, without overlap;
    the container through which an integer field is accessed lies in the struct. *)
Definition laid_out (msg : cm_message) : bool :=
  (sizeof (msg_struct msg) =? IB_MGMT_MAD_SIZE) &&
  forallb fld_ok (msg_fields msg) &&
  forallb (λ f, fld_offset f + Z.of_nat (fld_bytes f) <=? IB_MGMT_MAD_SIZE) (msg_fields msg) &&
  forallb (λ s, (8 * IB_MGMT_MAD_HDR <=? s.1) && (s.2 <=? 8 * IB_MGMT_MAD_SIZE)) (msg_spans msg) &&
  pairwise_disjoint (msg_spans msg).

Lemma cm_messages_laid_out : forallb laid_out cm_messages = true.
Proof. vm_compute. reflexivity. Qed.

Lemma pairwise_disjoint_lookup l i j a b :
  pairwise_disjoint l = true → l !! i = Some a → l !! j = Some b → i ≠ j →
  disjoint_spans a b = true.
Proof.
  revert i j. induction l as [|c l IH]; intros i j; [done|].
  cbn [pairwise_disjoint]. intros [Hc Hl]%andb_true_iff. rewrite forallb_forall in Hc.
  assert (Hsym : disjoint_spans a b = disjoint_spans b a)
    by (unfold disjoint_spans; apply orb_comm).
  destruct i as [|i], j as [|j]; cbn; intros Hi Hj Hne; simplify_eq.
  - apply Hc, list_elem_of_In. by eapply list_elem_of_lookup_2.
  - rewrite Hsym. apply Hc, list_elem_of_In. by eapply list_elem_of_lookup_2.
  - eapply IH; [done..|]. congruence.
Qed.

Section Access.
Context `{Endian}.

Lemma laid_out_spec msg :
  In msg cm_messages →
  sizeof (msg_struct msg) = 256 ∧ pairwise_disjoint (msg_spans msg) = true ∧
  ∀ f, In f (msg_fields msg) →
    fld_ok f = true ∧ fld_offset f + Z.of_nat (fld_bytes f) ≤ 256 ∧
    192 ≤ fld_pos f ∧ fld_pos f + fld_width f ≤ 2048.
Proof.
  intros Hin. pose proof cm_messages_laid_out as Hl. rewrite forallb_forall in Hl.
  specialize (Hl _ Hin). unfold laid_out in Hl. rewrite !andb_true_iff, !forallb_forall in Hl.
  destruct Hl as ((((Hsz & Hok) & Hc) & Hs) & Hp). apply Z.eqb_eq in Hsz.
  split; [done|]. split; [done|]. intros f Hf.
  specialize (Hok _ Hf). specialize (Hc _ Hf). apply Z.leb_le in Hc.
  specialize (Hs (field_span f)). rewrite andb_true_iff, !Z.leb_le in Hs.
  unfold IB_MGMT_MAD_SIZE, IB_MGMT_MAD_HDR, IB_MGMT_MAD_DATA in *. cbn in Hs.
  destruct Hs as [Hs1 Hs2].
  { apply in_app_iff. left. rewrite <- list_elem_of_In. apply list_elem_of_fmap_2.
    by apply list_elem_of_In. }
  split_and!; [done|lia..].
Qed.

Lemma field_spans_disjoint msg i j f g :
  In msg cm_messages → msg_fields msg !! i = Some f → msg_spans msg !! j = Some g → i ≠ j →
  disjoint_spans (field_span f) g = true.
Proof.
  intros Hin Hf Hg Hne. apply laid_out_spec in Hin as (_ & Hp & _).
  eapply (pairwise_disjoint_lookup _ i j); [done| |done..].
  unfold msg_spans. rewrite lookup_app_l.
  - rewrite list_lookup_fmap, Hf. done.
  - rewrite length_fmap. by eapply lookup_lt_Some.
Qed.

(** C29: the eleven messages of the chapter as the header declares them: each
    struct is exactly one MAD; within a MAD in the buffer every integer field
    reads the bits the table assigns to it, and assigning it succeeds, makes it
    hold the low bits of the value and changes no bit of the MAD header, of any
    other integer field or of any byte-array field of the message. *)
Theorem cm_field_access msg i f m ptr v :
  In msg cm_messages → msg_fields msg !! i = Some f →
  0 ≤ ptr → in_range m ptr (Z.to_nat (sizeof (msg_struct msg))) = true →
  sizeof (msg_struct msg) = IB_MGMT_MAD_SIZE ∧
  IBA_GET f m ptr = Ok (net_bits m ptr (fld_pos f) (Z.to_nat (fld_width f))) ∧
  ∃ m', IBA_SET f m ptr v = Ok m' ∧ length m' = length m ∧
        IBA_GET f m' ptr = Ok (v mod 2 ^ fld_width f) ∧
        (∀ b, 0 ≤ b < 8 * IB_MGMT_MAD_HDR → msg_bit m' ptr b = msg_bit m ptr b) ∧
        (∀ j s b, msg_spans msg !! j = Some s → j ≠ i → 0 ≤ b → s.1 ≤ b < s.2 →
                  msg_bit m' ptr b = msg_bit m ptr b).
Proof.
  intros Hin Hf Hptr Hr.
  pose proof (field_spans_disjoint msg i) as Hd.
  destruct (laid_out_spec msg Hin) as (Hsz & _ & Hfs).
  destruct (Hfs f) as (Hok & Hc & Hlo & Hhi).
  { apply list_elem_of_In. by eapply list_elem_of_lookup_2. }
  rewrite Hsz in Hr. pose proof Hok as (_ & Ho & _)%fld_ok_spec.
  assert (Hrf : in_range m (ptr + fld_offset f) (fld_bytes f) = true)
    by (eapply in_range_sub; [done|lia..]).
  split; [done|]. split; [by apply IBA_GET_net_bits|].
  destruct (IBA_SET_net_bits f m ptr v Hok Hptr Hrf) as (m' & Hs & Hl & Hg & Hb).
  exists m'. split_and!; [done..| |].
  - intros b Hbr. apply Hb; unfold IB_MGMT_MAD_HDR in Hbr; lia.
  - intros j s b Hj Hne Hb0 Hbr. apply Hb; [done|].
    specialize (Hd j f s Hin Hf Hj ltac:(congruence)).
    unfold disjoint_spans, field_span in Hd. cbn in Hd. lia.
Qed.

End Access.
