(* ===== verification/IbPack.v ===== *)
(** * IbPack: src/src/ib_pack.h

    Header sizes, the BTH opcodes and the unpacked header structs. *)

From Stdlib Require Import ZArith Lia String.
From stdpp Require Import base tactics numbers list strings.
From S2P Require Import Prelude Layout Memory RxeOpcode RxeHdr.

Local Open Scope string_scope.
Open Scope Z_scope.
Open Scope ctcm_scope.

(** ** Header sizes *)
Definition IB_LRH_BYTES : Z := 8.
Definition IB_ETH_BYTES : Z := 14.
Definition IB_VLAN_BYTES : Z := 4.
Definition IB_GRH_BYTES : Z := 40.
Definition IB_IP4_BYTES : Z := 20.
Definition IB_UDP_BYTES : Z := 8.
Definition IB_BTH_BYTES : Z := 12.
Definition IB_DETH_BYTES : Z := 8.
Definition IB_EXT_ATOMICETH_BYTES : Z := 28.
Definition IB_EXT_XRC_BYTES : Z := 4.
Definition IB_ICRC_BYTES : Z := 4.

(** ** Opcodes *)

(** The macro [IB_OPCODE(transport, op)] sums the two parts. *)
Definition IB_OPCODE (transport op : Z) : Z := transport + op.

(** Transports. *)
Definition IB_OPCODE_RC : Z := 0x00.
Definition IB_OPCODE_UC : Z := 0x20.
Definition IB_OPCODE_RD : Z := 0x40.
Definition IB_OPCODE_UD : Z := 0x60.
Definition IB_OPCODE_CNP : Z := 0x80.
Definition IB_OPCODE_MSP : Z := 0xe0.

(** Operations. *)
Definition IB_OPCODE_SEND_FIRST : Z := 0x00.
Definition IB_OPCODE_SEND_MIDDLE : Z := 0x01.
Definition IB_OPCODE_SEND_LAST : Z := 0x02.
Definition IB_OPCODE_SEND_LAST_WITH_IMMEDIATE : Z := 0x03.
Definition IB_OPCODE_SEND_ONLY : Z := 0x04.
Definition IB_OPCODE_SEND_ONLY_WITH_IMMEDIATE : Z := 0x05.
Definition IB_OPCODE_RDMA_WRITE_FIRST : Z := 0x06.
Definition IB_OPCODE_RDMA_WRITE_MIDDLE : Z := 0x07.
Definition IB_OPCODE_RDMA_WRITE_LAST : Z := 0x08.
Definition IB_OPCODE_RDMA_WRITE_LAST_WITH_IMMEDIATE : Z := 0x09.
Definition IB_OPCODE_RDMA_WRITE_ONLY : Z := 0x0a.
Definition IB_OPCODE_RDMA_WRITE_ONLY_WITH_IMMEDIATE : Z := 0x0b.
Definition IB_OPCODE_RDMA_READ_REQUEST : Z := 0x0c.
Definition IB_OPCODE_RDMA_READ_RESPONSE_FIRST : Z := 0x0d.
Definition IB_OPCODE_RDMA_READ_RESPONSE_MIDDLE : Z := 0x0e.
Definition IB_OPCODE_RDMA_READ_RESPONSE_LAST : Z := 0x0f.
Definition IB_OPCODE_RDMA_READ_RESPONSE_ONLY : Z := 0x10.
Definition IB_OPCODE_ACKNOWLEDGE : Z := 0x11.
Definition IB_OPCODE_ATOMIC_ACKNOWLEDGE : Z := 0x12.
Definition IB_OPCODE_COMPARE_SWAP : Z := 0x13.
Definition IB_OPCODE_FETCH_ADD : Z := 0x14.
Definition IB_OPCODE_SEND_LAST_WITH_INVALIDATE : Z := 0x16.
Definition IB_OPCODE_SEND_ONLY_WITH_INVALIDATE : Z := 0x17.

(** The real constants. *)
Definition IB_OPCODE_RC_SEND_FIRST : Z := IB_OPCODE IB_OPCODE_RC IB_OPCODE_SEND_FIRST.
Definition IB_OPCODE_RC_SEND_MIDDLE : Z := IB_OPCODE IB_OPCODE_RC IB_OPCODE_SEND_MIDDLE.
Definition IB_OPCODE_RC_SEND_LAST : Z := IB_OPCODE IB_OPCODE_RC IB_OPCODE_SEND_LAST.
Definition IB_OPCODE_RC_SEND_LAST_WITH_IMMEDIATE : Z := IB_OPCODE IB_OPCODE_RC IB_OPCODE_SEND_LAST_WITH_IMMEDIATE.
Definition IB_OPCODE_RC_SEND_ONLY : Z := IB_OPCODE IB_OPCODE_RC IB_OPCODE_SEND_ONLY.
Definition IB_OPCODE_RC_SEND_ONLY_WITH_IMMEDIATE : Z := IB_OPCODE IB_OPCODE_RC IB_OPCODE_SEND_ONLY_WITH_IMMEDIATE.
Definition IB_OPCODE_RC_RDMA_WRITE_FIRST : Z := IB_OPCODE IB_OPCODE_RC IB_OPCODE_RDMA_WRITE_FIRST.
Definition IB_OPCODE_RC_RDMA_WRITE_MIDDLE : Z := IB_OPCODE IB_OPCODE_RC IB_OPCODE_RDMA_WRITE_MIDDLE.
Definition IB_OPCODE_RC_RDMA_WRITE_LAST : Z := IB_OPCODE IB_OPCODE_RC IB_OPCODE_RDMA_WRITE_LAST.
Definition IB_OPCODE_RC_RDMA_WRITE_LAST_WITH_IMMEDIATE : Z := IB_OPCODE IB_OPCODE_RC IB_OPCODE_RDMA_WRITE_LAST_WITH_IMMEDIATE.
Definition IB_OPCODE_RC_RDMA_WRITE_ONLY : Z := IB_OPCODE IB_OPCODE_RC IB_OPCODE_RDMA_WRITE_ONLY.
Definition IB_OPCODE_RC_RDMA_WRITE_ONLY_WITH_IMMEDIATE : Z := IB_OPCODE IB_OPCODE_RC IB_OPCODE_RDMA_WRITE_ONLY_WITH_IMMEDIATE.
Definition IB_OPCODE_RC_RDMA_READ_REQUEST : Z := IB_OPCODE IB_OPCODE_RC IB_OPCODE_RDMA_READ_REQUEST.
Definition IB_OPCODE_RC_RDMA_READ_RESPONSE_FIRST : Z := IB_OPCODE IB_OPCODE_RC IB_OPCODE_RDMA_READ_RESPONSE_FIRST.
Definition IB_OPCODE_RC_RDMA_READ_RESPONSE_MIDDLE : Z := IB_OPCODE IB_OPCODE_RC IB_OPCODE_RDMA_READ_RESPONSE_MIDDLE.
Definition IB_OPCODE_RC_RDMA_READ_RESPONSE_LAST : Z := IB_OPCODE IB_OPCODE_RC IB_OPCODE_RDMA_READ_RESPONSE_LAST.
Definition IB_OPCODE_RC_RDMA_READ_RESPONSE_ONLY : Z := IB_OPCODE IB_OPCODE_RC IB_OPCODE_RDMA_READ_RESPONSE_ONLY.
Definition IB_OPCODE_RC_ACKNOWLEDGE : Z := IB_OPCODE IB_OPCODE_RC IB_OPCODE_ACKNOWLEDGE.
Definition IB_OPCODE_RC_ATOMIC_ACKNOWLEDGE : Z := IB_OPCODE IB_OPCODE_RC IB_OPCODE_ATOMIC_ACKNOWLEDGE.
Definition IB_OPCODE_RC_COMPARE_SWAP : Z := IB_OPCODE IB_OPCODE_RC IB_OPCODE_COMPARE_SWAP.
Definition IB_OPCODE_RC_FETCH_ADD : Z := IB_OPCODE IB_OPCODE_RC IB_OPCODE_FETCH_ADD.
Definition IB_OPCODE_RC_SEND_LAST_WITH_INVALIDATE : Z := IB_OPCODE IB_OPCODE_RC IB_OPCODE_SEND_LAST_WITH_INVALIDATE.
Definition IB_OPCODE_RC_SEND_ONLY_WITH_INVALIDATE : Z := IB_OPCODE IB_OPCODE_RC IB_OPCODE_SEND_ONLY_WITH_INVALIDATE.
Definition IB_OPCODE_UC_SEND_FIRST : Z := IB_OPCODE IB_OPCODE_UC IB_OPCODE_SEND_FIRST.
Definition IB_OPCODE_UC_SEND_MIDDLE : Z := IB_OPCODE IB_OPCODE_UC IB_OPCODE_SEND_MIDDLE.
Definition IB_OPCODE_UC_SEND_LAST : Z := IB_OPCODE IB_OPCODE_UC IB_OPCODE_SEND_LAST.
Definition IB_OPCODE_UC_SEND_LAST_WITH_IMMEDIATE : Z := IB_OPCODE IB_OPCODE_UC IB_OPCODE_SEND_LAST_WITH_IMMEDIATE.
Definition IB_OPCODE_UC_SEND_ONLY : Z := IB_OPCODE IB_OPCODE_UC IB_OPCODE_SEND_ONLY.
Definition IB_OPCODE_UC_SEND_ONLY_WITH_IMMEDIATE : Z := IB_OPCODE IB_OPCODE_UC IB_OPCODE_SEND_ONLY_WITH_IMMEDIATE.
Definition IB_OPCODE_UC_RDMA_WRITE_FIRST : Z := IB_OPCODE IB_OPCODE_UC IB_OPCODE_RDMA_WRITE_FIRST.
Definition IB_OPCODE_UC_RDMA_WRITE_MIDDLE : Z := IB_OPCODE IB_OPCODE_UC IB_OPCODE_RDMA_WRITE_MIDDLE.
Definition IB_OPCODE_UC_RDMA_WRITE_LAST : Z := IB_OPCODE IB_OPCODE_UC IB_OPCODE_RDMA_WRITE_LAST.
Definition IB_OPCODE_UC_RDMA_WRITE_LAST_WITH_IMMEDIATE : Z := IB_OPCODE IB_OPCODE_UC IB_OPCODE_RDMA_WRITE_LAST_WITH_IMMEDIATE.
Definition IB_OPCODE_UC_RDMA_WRITE_ONLY : Z := IB_OPCODE IB_OPCODE_UC IB_OPCODE_RDMA_WRITE_ONLY.
Definition IB_OPCODE_UC_RDMA_WRITE_ONLY_WITH_IMMEDIATE : Z := IB_OPCODE IB_OPCODE_UC IB_OPCODE_RDMA_WRITE_ONLY_WITH_IMMEDIATE.
Definition IB_OPCODE_RD_SEND_FIRST : Z := IB_OPCODE IB_OPCODE_RD IB_OPCODE_SEND_FIRST.
Definition IB_OPCODE_RD_SEND_MIDDLE : Z := IB_OPCODE IB_OPCODE_RD IB_OPCODE_SEND_MIDDLE.
Definition IB_OPCODE_RD_SEND_LAST : Z := IB_OPCODE IB_OPCODE_RD IB_OPCODE_SEND_LAST.
Definition IB_OPCODE_RD_SEND_LAST_WITH_IMMEDIATE : Z := IB_OPCODE IB_OPCODE_RD IB_OPCODE_SEND_LAST_WITH_IMMEDIATE.
Definition IB_OPCODE_RD_SEND_ONLY : Z := IB_OPCODE IB_OPCODE_RD IB_OPCODE_SEND_ONLY.
Definition IB_OPCODE_RD_SEND_ONLY_WITH_IMMEDIATE : Z := IB_OPCODE IB_OPCODE_RD IB_OPCODE_SEND_ONLY_WITH_IMMEDIATE.
Definition IB_OPCODE_RD_RDMA_WRITE_FIRST : Z := IB_OPCODE IB_OPCODE_RD IB_OPCODE_RDMA_WRITE_FIRST.
Definition IB_OPCODE_RD_RDMA_WRITE_MIDDLE : Z := IB_OPCODE IB_OPCODE_RD IB_OPCODE_RDMA_WRITE_MIDDLE.
Definition IB_OPCODE_RD_RDMA_WRITE_LAST : Z := IB_OPCODE IB_OPCODE_RD IB_OPCODE_RDMA_WRITE_LAST.
Definition IB_OPCODE_RD_RDMA_WRITE_LAST_WITH_IMMEDIATE : Z := IB_OPCODE IB_OPCODE_RD IB_OPCODE_RDMA_WRITE_LAST_WITH_IMMEDIATE.
Definition IB_OPCODE_RD_RDMA_WRITE_ONLY : Z := IB_OPCODE IB_OPCODE_RD IB_OPCODE_RDMA_WRITE_ONLY.
Definition IB_OPCODE_RD_RDMA_WRITE_ONLY_WITH_IMMEDIATE : Z := IB_OPCODE IB_OPCODE_RD IB_OPCODE_RDMA_WRITE_ONLY_WITH_IMMEDIATE.
Definition IB_OPCODE_RD_RDMA_READ_REQUEST : Z := IB_OPCODE IB_OPCODE_RD IB_OPCODE_RDMA_READ_REQUEST.
Definition IB_OPCODE_RD_RDMA_READ_RESPONSE_FIRST : Z := IB_OPCODE IB_OPCODE_RD IB_OPCODE_RDMA_READ_RESPONSE_FIRST.
Definition IB_OPCODE_RD_RDMA_READ_RESPONSE_MIDDLE : Z := IB_OPCODE IB_OPCODE_RD IB_OPCODE_RDMA_READ_RESPONSE_MIDDLE.
Definition IB_OPCODE_RD_RDMA_READ_RESPONSE_LAST : Z := IB_OPCODE IB_OPCODE_RD IB_OPCODE_RDMA_READ_RESPONSE_LAST.
Definition IB_OPCODE_RD_RDMA_READ_RESPONSE_ONLY : Z := IB_OPCODE IB_OPCODE_RD IB_OPCODE_RDMA_READ_RESPONSE_ONLY.
Definition IB_OPCODE_RD_ACKNOWLEDGE : Z := IB_OPCODE IB_OPCODE_RD IB_OPCODE_ACKNOWLEDGE.
Definition IB_OPCODE_RD_ATOMIC_ACKNOWLEDGE : Z := IB_OPCODE IB_OPCODE_RD IB_OPCODE_ATOMIC_ACKNOWLEDGE.
Definition IB_OPCODE_RD_COMPARE_SWAP : Z := IB_OPCODE IB_OPCODE_RD IB_OPCODE_COMPARE_SWAP.
Definition IB_OPCODE_RD_FETCH_ADD : Z := IB_OPCODE IB_OPCODE_RD IB_OPCODE_FETCH_ADD.
Definition IB_OPCODE_UD_SEND_ONLY : Z := IB_OPCODE IB_OPCODE_UD IB_OPCODE_SEND_ONLY.
Definition IB_OPCODE_UD_SEND_ONLY_WITH_IMMEDIATE : Z := IB_OPCODE IB_OPCODE_UD IB_OPCODE_SEND_ONLY_WITH_IMMEDIATE.

(** Every opcode with the two constants that the macro combines. *)
Definition ib_opcodes : list (Z * (Z * Z)) :=
  [(IB_OPCODE_RC_SEND_FIRST, (IB_OPCODE_RC, IB_OPCODE_SEND_FIRST));
   (IB_OPCODE_RC_SEND_MIDDLE, (IB_OPCODE_RC, IB_OPCODE_SEND_MIDDLE));
   (IB_OPCODE_RC_SEND_LAST, (IB_OPCODE_RC, IB_OPCODE_SEND_LAST));
   (IB_OPCODE_RC_SEND_LAST_WITH_IMMEDIATE, (IB_OPCODE_RC, IB_OPCODE_SEND_LAST_WITH_IMMEDIATE));
   (IB_OPCODE_RC_SEND_ONLY, (IB_OPCODE_RC, IB_OPCODE_SEND_ONLY));
   (IB_OPCODE_RC_SEND_ONLY_WITH_IMMEDIATE, (IB_OPCODE_RC, IB_OPCODE_SEND_ONLY_WITH_IMMEDIATE));
   (IB_OPCODE_RC_RDMA_WRITE_FIRST, (IB_OPCODE_RC, IB_OPCODE_RDMA_WRITE_FIRST));
   (IB_OPCODE_RC_RDMA_WRITE_MIDDLE, (IB_OPCODE_RC, IB_OPCODE_RDMA_WRITE_MIDDLE));
   (IB_OPCODE_RC_RDMA_WRITE_LAST, (IB_OPCODE_RC, IB_OPCODE_RDMA_WRITE_LAST));
   (IB_OPCODE_RC_RDMA_WRITE_LAST_WITH_IMMEDIATE, (IB_OPCODE_RC, IB_OPCODE_RDMA_WRITE_LAST_WITH_IMMEDIATE));
   (IB_OPCODE_RC_RDMA_WRITE_ONLY, (IB_OPCODE_RC, IB_OPCODE_RDMA_WRITE_ONLY));
   (IB_OPCODE_RC_RDMA_WRITE_ONLY_WITH_IMMEDIATE, (IB_OPCODE_RC, IB_OPCODE_RDMA_WRITE_ONLY_WITH_IMMEDIATE));
   (IB_OPCODE_RC_RDMA_READ_REQUEST, (IB_OPCODE_RC, IB_OPCODE_RDMA_READ_REQUEST));
   (IB_OPCODE_RC_RDMA_READ_RESPONSE_FIRST, (IB_OPCODE_RC, IB_OPCODE_RDMA_READ_RESPONSE_FIRST));
   (IB_OPCODE_RC_RDMA_READ_RESPONSE_MIDDLE, (IB_OPCODE_RC, IB_OPCODE_RDMA_READ_RESPONSE_MIDDLE));
   (IB_OPCODE_RC_RDMA_READ_RESPONSE_LAST, (IB_OPCODE_RC, IB_OPCODE_RDMA_READ_RESPONSE_LAST));
   (IB_OPCODE_RC_RDMA_READ_RESPONSE_ONLY, (IB_OPCODE_RC, IB_OPCODE_RDMA_READ_RESPONSE_ONLY));
   (IB_OPCODE_RC_ACKNOWLEDGE, (IB_OPCODE_RC, IB_OPCODE_ACKNOWLEDGE));
   (IB_OPCODE_RC_ATOMIC_ACKNOWLEDGE, (IB_OPCODE_RC, IB_OPCODE_ATOMIC_ACKNOWLEDGE));
   (IB_OPCODE_RC_COMPARE_SWAP, (IB_OPCODE_RC, IB_OPCODE_COMPARE_SWAP));
   (IB_OPCODE_RC_FETCH_ADD, (IB_OPCODE_RC, IB_OPCODE_FETCH_ADD));
   (IB_OPCODE_RC_SEND_LAST_WITH_INVALIDATE, (IB_OPCODE_RC, IB_OPCODE_SEND_LAST_WITH_INVALIDATE));
   (IB_OPCODE_RC_SEND_ONLY_WITH_INVALIDATE, (IB_OPCODE_RC, IB_OPCODE_SEND_ONLY_WITH_INVALIDATE));
   (IB_OPCODE_UC_SEND_FIRST, (IB_OPCODE_UC, IB_OPCODE_SEND_FIRST));
   (IB_OPCODE_UC_SEND_MIDDLE, (IB_OPCODE_UC, IB_OPCODE_SEND_MIDDLE));
   (IB_OPCODE_UC_SEND_LAST, (IB_OPCODE_UC, IB_OPCODE_SEND_LAST));
   (IB_OPCODE_UC_SEND_LAST_WITH_IMMEDIATE, (IB_OPCODE_UC, IB_OPCODE_SEND_LAST_WITH_IMMEDIATE));
   (IB_OPCODE_UC_SEND_ONLY, (IB_OPCODE_UC, IB_OPCODE_SEND_ONLY));
   (IB_OPCODE_UC_SEND_ONLY_WITH_IMMEDIATE, (IB_OPCODE_UC, IB_OPCODE_SEND_ONLY_WITH_IMMEDIATE));
   (IB_OPCODE_UC_RDMA_WRITE_FIRST, (IB_OPCODE_UC, IB_OPCODE_RDMA_WRITE_FIRST));
   (IB_OPCODE_UC_RDMA_WRITE_MIDDLE, (IB_OPCODE_UC, IB_OPCODE_RDMA_WRITE_MIDDLE));
   (IB_OPCODE_UC_RDMA_WRITE_LAST, (IB_OPCODE_UC, IB_OPCODE_RDMA_WRITE_LAST));
   (IB_OPCODE_UC_RDMA_WRITE_LAST_WITH_IMMEDIATE, (IB_OPCODE_UC, IB_OPCODE_RDMA_WRITE_LAST_WITH_IMMEDIATE));
   (IB_OPCODE_UC_RDMA_WRITE_ONLY, (IB_OPCODE_UC, IB_OPCODE_RDMA_WRITE_ONLY));
   (IB_OPCODE_UC_RDMA_WRITE_ONLY_WITH_IMMEDIATE, (IB_OPCODE_UC, IB_OPCODE_RDMA_WRITE_ONLY_WITH_IMMEDIATE));
   (IB_OPCODE_RD_SEND_FIRST, (IB_OPCODE_RD, IB_OPCODE_SEND_FIRST));
   (IB_OPCODE_RD_SEND_MIDDLE, (IB_OPCODE_RD, IB_OPCODE_SEND_MIDDLE));
   (IB_OPCODE_RD_SEND_LAST, (IB_OPCODE_RD, IB_OPCODE_SEND_LAST));
   (IB_OPCODE_RD_SEND_LAST_WITH_IMMEDIATE, (IB_OPCODE_RD, IB_OPCODE_SEND_LAST_WITH_IMMEDIATE));
   (IB_OPCODE_RD_SEND_ONLY, (IB_OPCODE_RD, IB_OPCODE_SEND_ONLY));
   (IB_OPCODE_RD_SEND_ONLY_WITH_IMMEDIATE, (IB_OPCODE_RD, IB_OPCODE_SEND_ONLY_WITH_IMMEDIATE));
   (IB_OPCODE_RD_RDMA_WRITE_FIRST, (IB_OPCODE_RD, IB_OPCODE_RDMA_WRITE_FIRST));
   (IB_OPCODE_RD_RDMA_WRITE_MIDDLE, (IB_OPCODE_RD, IB_OPCODE_RDMA_WRITE_MIDDLE));
   (IB_OPCODE_RD_RDMA_WRITE_LAST, (IB_OPCODE_RD, IB_OPCODE_RDMA_WRITE_LAST));
   (IB_OPCODE_RD_RDMA_WRITE_LAST_WITH_IMMEDIATE, (IB_OPCODE_RD, IB_OPCODE_RDMA_WRITE_LAST_WITH_IMMEDIATE));
   (IB_OPCODE_RD_RDMA_WRITE_ONLY, (IB_OPCODE_RD, IB_OPCODE_RDMA_WRITE_ONLY));
   (IB_OPCODE_RD_RDMA_WRITE_ONLY_WITH_IMMEDIATE, (IB_OPCODE_RD, IB_OPCODE_RDMA_WRITE_ONLY_WITH_IMMEDIATE));
   (IB_OPCODE_RD_RDMA_READ_REQUEST, (IB_OPCODE_RD, IB_OPCODE_RDMA_READ_REQUEST));
   (IB_OPCODE_RD_RDMA_READ_RESPONSE_FIRST, (IB_OPCODE_RD, IB_OPCODE_RDMA_READ_RESPONSE_FIRST));
   (IB_OPCODE_RD_RDMA_READ_RESPONSE_MIDDLE, (IB_OPCODE_RD, IB_OPCODE_RDMA_READ_RESPONSE_MIDDLE));
   (IB_OPCODE_RD_RDMA_READ_RESPONSE_LAST, (IB_OPCODE_RD, IB_OPCODE_RDMA_READ_RESPONSE_LAST));
   (IB_OPCODE_RD_RDMA_READ_RESPONSE_ONLY, (IB_OPCODE_RD, IB_OPCODE_RDMA_READ_RESPONSE_ONLY));
   (IB_OPCODE_RD_ACKNOWLEDGE, (IB_OPCODE_RD, IB_OPCODE_ACKNOWLEDGE));
   (IB_OPCODE_RD_ATOMIC_ACKNOWLEDGE, (IB_OPCODE_RD, IB_OPCODE_ATOMIC_ACKNOWLEDGE));
   (IB_OPCODE_RD_COMPARE_SWAP, (IB_OPCODE_RD, IB_OPCODE_COMPARE_SWAP));
   (IB_OPCODE_RD_FETCH_ADD, (IB_OPCODE_RD, IB_OPCODE_FETCH_ADD));
   (IB_OPCODE_UD_SEND_ONLY, (IB_OPCODE_UD, IB_OPCODE_SEND_ONLY));
   (IB_OPCODE_UD_SEND_ONLY_WITH_IMMEDIATE, (IB_OPCODE_UD, IB_OPCODE_SEND_ONLY_WITH_IMMEDIATE))].

(** ** Link next header *)
Definition IB_LNH_RAW : Z := 0.
Definition IB_LNH_IP : Z := 1.
Definition IB_LNH_IBA_LOCAL : Z := 2.
Definition IB_LNH_IBA_GLOBAL : Z := 3.

(** ** Structs *)
Definition ib_field : ctype :=
  Struct false [("struct_offset_bytes", c_u64); ("struct_size_bytes", c_u64);
                ("offset_words", c_int); ("offset_bits", c_int); ("size_bits", c_int);
                ("field_name", c_ptr)].
Definition ib_unpacked_lrh : ctype :=
  Struct false [("virtual_lane", c_u8); ("link_version", c_u8); ("service_level", c_u8);
                ("link_next_header", c_u8); ("destination_lid", c_u16);
                ("packet_length", c_u16); ("source_lid", c_u16)].
Definition ib_unpacked_grh : ctype :=
  Struct false [("ip_version", c_u8); ("traffic_class", c_u8); ("flow_label", c_u32);
                ("payload_length", c_u16); ("next_header", c_u8); ("hop_limit", c_u8);
                ("source_gid", c_ib_gid); ("destination_gid", c_ib_gid)].
Definition ib_unpacked_bth : ctype :=
  Struct false [("opcode", c_u8); ("solicited_event", c_u8); ("mig_req", c_u8);
                ("pad_count", c_u8); ("transport_header_version", c_u8); ("pkey", c_u16);
                ("destination_qpn", c_u32); ("ack_req", c_u8); ("psn", c_u32)].
Definition ib_unpacked_deth : ctype :=
  Struct false [("qkey", c_u32); ("source_qpn", c_u32)].
Definition ib_unpacked_eth : ctype :=
  Struct false [("dmac_h", Array c_u8 4); ("dmac_l", Array c_u8 2);
                ("smac_h", Array c_u8 2); ("smac_l", Array c_u8 4); ("type", c_u16)].
Definition ib_unpacked_ip4 : ctype :=
  Struct false [("ver", c_u8); ("hdr_len", c_u8); ("tos", c_u8); ("tot_len", c_u16);
                ("id", c_u16); ("frag_off", c_u16); ("ttl", c_u8); ("protocol", c_u8);
                ("check", c_u16); ("saddr", c_u32); ("daddr", c_u32)].
Definition ib_unpacked_udp : ctype :=
  Struct false [("sport", c_u16); ("dport", c_u16); ("length", c_u16); ("csum", c_u16)].
Definition ib_unpacked_vlan : ctype :=
  Struct false [("tag", c_u16); ("type", c_u16)].
Definition ib_ud_header : ctype :=
  Struct false [("lrh_present", c_int); ("lrh", ib_unpacked_lrh); ("eth_present", c_int);
                ("eth", ib_unpacked_eth); ("vlan_present", c_int);
                ("vlan", ib_unpacked_vlan); ("grh_present", c_int);
                ("grh", ib_unpacked_grh); ("ipv4_present", c_int);
                ("ip4", ib_unpacked_ip4); ("udp_present", c_int); ("udp", ib_unpacked_udp);
                ("bth", ib_unpacked_bth); ("deth", ib_unpacked_deth);
                ("immediate_present", c_int); ("immediate_data", c_u32)].

(** ** Properties *)

(** Decoding an opcode: the three high bits name the transport, the five low ones
    the operation. *)
Definition decodes (e : Z * (Z * Z)) : bool :=
  let '(op, (t, o)) := e in
  (op <? 2 ^ 8) && (op &&& 0xe0 =? t) && (op &&& 0x1f =? o).

(** The opcode constants are pairwise distinct bytes in which the transport
    and the operation can be told apart again, so that adding them, as the macro
    does, loses nothing; none of them is the congestion notification opcode, and
    the header sizes are those of the structs that overlay the packet. *)
Theorem ib_opcodes_decode :
  NoDup (fst <$> ib_opcodes) ∧
  (∀ op t o, In (op, (t, o)) ib_opcodes →
     0 ≤ op < 2 ^ 8 ∧ op &&& 0xe0 = t ∧ op &&& 0x1f = o ∧ op &&& 0xe0 ≠ IB_OPCODE_CNP) ∧
  IB_BTH_BYTES = sizeof rxe_bth ∧ IB_DETH_BYTES = sizeof rxe_deth ∧
  IB_EXT_ATOMICETH_BYTES = sizeof rxe_atmeth.
Proof.
  split; [apply (bool_decide_unpack _); vm_compute; exact I|].
  split; [|split_and!; reflexivity].
  assert (Hall : forallb (λ e, decodes e && (0 <=? e.1) && negb (e.2.1 =? IB_OPCODE_CNP))
                   ib_opcodes = true) by (vm_compute; reflexivity).
  rewrite forallb_forall in Hall. intros op t o Hin. specialize (Hall _ Hin).
  unfold decodes in Hall. cbn [fst snd] in Hall. lia.
Qed.
