(* ===== verification/Mbuf.v ===== *)
(** * Mbuf: the packet buffer and its header offsets

    DPDK's [struct rte_mbuf] as the library uses it, the inline functions of
    src/include/libconntrack-cm.h that keep the BTH and MAD offsets in two dynamic
    fields of the buffer, and the header accessors of src/src/parser.h.

    A pointer into the packet is its distance from the start of the packet data
    ([rte_pktmbuf_mtod]); a pointer that may be null is an [option]. *)

From Stdlib Require Import ZArith Lia String.
From stdpp Require Import base tactics numbers list strings.
From coqutil Require Import Byte.
From S2P Require Import Prelude Memory Layout.

Local Open Scope string_scope.
Open Scope Z_scope.
Open Scope ctcm_scope.

(** ** The buffer *)

(** The fields of [struct rte_mbuf] that the library reads or writes.  [buf] holds
    the bytes from the start of the packet data to the end of the buffer, of which
    the first [data_len] are the packet's; [dyn] is the dynamic-field area,
    addressed by the offsets that the registration returns. *)
Record rte_mbuf := {
  packet_type : Z;
  l2_len : Z;
  l3_len : Z;
  l4_len : Z;
  pkt_len : Z;
  data_len : Z;
  buf : list byte;
  dyn : list byte;
}.

Definition set_dyn (p : rte_mbuf) (d : list byte) : rte_mbuf :=
  {| packet_type := packet_type p; l2_len := l2_len p; l3_len := l3_len p;
     l4_len := l4_len p; pkt_len := pkt_len p; data_len := data_len p;
     buf := buf p; dyn := d |}.

Definition set_buf (p : rte_mbuf) (b : list byte) : rte_mbuf :=
  {| packet_type := packet_type p; l2_len := l2_len p; l3_len := l3_len p;
     l4_len := l4_len p; pkt_len := pkt_len p; data_len := data_len p;
     buf := b; dyn := dyn p |}.

(** The widths of the bit fields and of the length. *)
Record mbuf_ok (p : rte_mbuf) : Prop := {
  ok_l2 : 0 ≤ l2_len p < 2 ^ 7;
  ok_l3 : 0 ≤ l3_len p < 2 ^ 9;
  ok_l4 : 0 ≤ l4_len p < 2 ^ 8;
  ok_pkt_len : 0 ≤ pkt_len p < 2 ^ 32;
}.

(** ** What the library uses of DPDK

    The packet-type constants and test, the extension of a packet at its tail and
    the checksum are DPDK's: parameters of the model. *)
Class Dpdk := {
  RTE_PTYPE_L3_IPV4 : Z;
  RTE_PTYPE_L4_UDP : Z;
  RTE_PTYPE_L4_MASK : Z;
  RTE_ETH_IS_IPV4_HDR : Z → bool;
  rte_pktmbuf_append : rte_mbuf → Z → rte_mbuf * option Z;
  RTE_NET_CRC32_ETH : Z;
  rte_net_crc_calc : list byte → Z → Z;
}.

(** The documented behaviour that the theorems rely on. *)
Class DpdkLaws (D : Dpdk) : Prop := {
  (** rte_mbuf_ptype.h: a packet type is the disjunction of one value per layer. *)
  ptype_ipv4_udp : RTE_ETH_IS_IPV4_HDR (Z.lor RTE_PTYPE_L4_UDP RTE_PTYPE_L3_IPV4) = true;
  ptype_l4_udp :
    Z.land (Z.lor RTE_PTYPE_L4_UDP RTE_PTYPE_L3_IPV4) RTE_PTYPE_L4_MASK = RTE_PTYPE_L4_UDP;
  (** rte_mbuf.h: "Append len bytes to an mbuf and return a pointer to the start
      address of the added data. If there is not enough tailroom in the last
      segment, the function will return NULL, without modifying the mbuf." *)
  append_ok : ∀ p len,
    0 ≤ len → 0 ≤ data_len p → data_len p + len ≤ Z.of_nat (length (buf p)) →
    rte_pktmbuf_append p len =
    ({| packet_type := packet_type p; l2_len := l2_len p; l3_len := l3_len p;
        l4_len := l4_len p; pkt_len := pkt_len p + len; data_len := data_len p + len;
        buf := buf p; dyn := dyn p |}, Some (data_len p));
  append_full : ∀ p len,
    Z.of_nat (length (buf p)) < data_len p + len → rte_pktmbuf_append p len = (p, None);
  (** rte_net_crc.h: the CRC is a 32-bit value. *)
  crc_range : ∀ bs t, 0 ≤ rte_net_crc_calc bs t < 2 ^ 32;
}.

(** ** <netinet/ip.h> and <netinet/udp.h> *)

(** The first byte of [struct iphdr] holds the bit fields [version] and [ihl]. *)
Definition iphdr : ctype :=
  Struct false [("version_ihl", c_u8); ("tos", c_u8); ("tot_len", c_u16); ("id", c_u16);
                ("frag_off", c_u16); ("ttl", c_u8); ("protocol", c_u8); ("check", c_u16);
                ("saddr", c_u32); ("daddr", c_u32)].

Definition udphdr : ctype :=
  Struct false [("uh_sport", c_u16); ("uh_dport", c_u16); ("uh_ulen", c_u16); ("uh_sum", c_u16)].

(** ** src/include/libconntrack-cm.h *)

Inductive ctcm_direction := CTCM_FROM_HOST | CTCM_FROM_NET.

#[global] Instance ctcm_direction_eq_dec : EqDecision ctcm_direction.
Proof. solve_decision. Defined.

Record dynfield_offsets := {
  dyn_size : Z;
  dyn_bth : Z;
  dyn_mad : Z;
}.

(** Its layout: [uint32_t size; int bth; int mad]. *)
Definition c_dynfield_offsets : ctype :=
  Struct false [("size", c_u32); ("bth", c_int); ("mad", c_int)].

Definition CTCM_UDP_LENGTH : Z := 8.
Definition CTCM_BTH_LENGTH : Z := 12.
Definition CTCM_ICRC_LENGTH : Z := 4.
Definition CTCM_CNP_LENGTH : Z := 16.
Definition CTCM_CNP_TOTAL_LENGTH : Z := CTCM_BTH_LENGTH + CTCM_CNP_LENGTH + CTCM_ICRC_LENGTH.

Section Offsets.
Context `{Build} `{Endian}.

(** The addresses of the two dynamic fields. *)
Definition ctcm_mbuf_bth_offset (d : dynfield_offsets) (packet : rte_mbuf) : Z := dyn_bth d.
Definition ctcm_mbuf_mad_offset (d : dynfield_offsets) (packet : rte_mbuf) : Z := dyn_mad d.

Definition ctcm_mbuf_get_bth (d : dynfield_offsets) (packet : rte_mbuf) : result (option Z) :=
  offset ← load16 (dyn packet) (ctcm_mbuf_bth_offset d packet);
  if negb (offset =? 0) then
    _ ← assert_that (offset <? pkt_len packet);
    Ok (Some offset)
  else Ok None.

Definition ctcm_mbuf_set_bth (d : dynfield_offsets) (packet : rte_mbuf) (bth : option Z)
  : result rte_mbuf :=
  let offset := match bth with Some q => u64 q | None => 0 end in
  _ ← assert_that (offset <? pkt_len packet);
  dyn' ← store16 (dyn packet) (ctcm_mbuf_bth_offset d packet) (u16 offset);
  Ok (set_dyn packet dyn').

Definition ctcm_mbuf_get_mad (d : dynfield_offsets) (packet : rte_mbuf) : result (option Z) :=
  offset ← load16 (dyn packet) (ctcm_mbuf_mad_offset d packet);
  if negb (offset =? 0) then
    _ ← assert_that (offset <? pkt_len packet);
    Ok (Some offset)
  else Ok None.

Definition ctcm_mbuf_set_mad (d : dynfield_offsets) (packet : rte_mbuf) (mad : option Z)
  : result rte_mbuf :=
  let offset := match mad with Some q => u64 q | None => 0 end in
  _ ← assert_that (offset <? pkt_len packet);
  dyn' ← store16 (dyn packet) (ctcm_mbuf_mad_offset d packet) (u16 offset);
  Ok (set_dyn packet dyn').

(** ** src/src/parser.h: the headers of a packet *)
Context `{Dpdk}.

Definition mbuf_ip (packet : rte_mbuf) : result Z :=
  _ ← assert_that (RTE_ETH_IS_IPV4_HDR (packet_type packet));
  Ok (l2_len packet).

Definition mbuf_udp (packet : rte_mbuf) : result Z :=
  _ ← assert_that (negb (l3_len packet =? 0) &&
                   (packet_type packet &&& RTE_PTYPE_L4_MASK =? RTE_PTYPE_L4_UDP));
  Ok (l2_len packet + l3_len packet).

Definition mbuf_bth (packet : rte_mbuf) : result Z :=
  _ ← assert_that (negb (l3_len packet =? 0) && negb (l4_len packet =? 0));
  Ok (l2_len packet + l3_len packet + l4_len packet).

(** The overloads for a packet that is not [const], which cast the result of the
    others. *)
Definition mutable_mbuf_ip (packet : rte_mbuf) : result Z := mbuf_ip packet.
Definition mutable_mbuf_udp (packet : rte_mbuf) : result Z := mbuf_udp packet.
Definition mutable_mbuf_bth (packet : rte_mbuf) : result Z := mbuf_bth packet.
End Offsets.

(** ** The two dynamic fields *)

(** The registered fields lie in the dynamic area, apart from each other. *)
Record dynfields_ok (d : dynfield_offsets) (p : rte_mbuf) : Prop := {
  dyn_bth_in : in_range (dyn p) (dyn_bth d) 2 = true;
  dyn_mad_in : in_range (dyn p) (dyn_mad d) 2 = true;
  dyn_apart : dyn_bth d + 2 ≤ dyn_mad d ∨ dyn_mad d + 2 ≤ dyn_bth d;
}.

Section OffsetLemmas.
Context `{Endian}.

(** A 16-bit field in host order: what is stored is loaded again, and another
    field beside it is not disturbed. *)
Lemma store16_load16 m p v :
  in_range m p 2 = true → 0 ≤ v < 2 ^ 16 →
  ∃ m', store16 m p v = Ok m' ∧ length m' = length m ∧ load16 m' p = Ok v ∧
        ∀ q, 0 ≤ q → q + 2 ≤ p ∨ p + 2 ≤ q → load16 m' q = load16 m q.
Proof.
  intros Hr Hv. destruct (store_writes 2 m p (htobe 2 v) Hr) as (m' & Hs & Hw).
  rewrite htobe_inv in Hs by done. exists m'. split; [done|].
  split; [apply Hw|]. split.
  - unfold load16. rewrite load_int_in by (by rewrite (writes_in_range _ _ _ _ _ _ _ Hw)).
    rewrite (writes_value _ _ _ _ _ Hw), Z.mod_small by apply htobe_range.
    by rewrite htobe_inv.
  - intros q Hq Hd. unfold load16, load_int, load.
    rewrite (writes_in_range _ _ _ _ _ _ _ Hw). destruct (in_range m q 2); [|done]. cbn.
    do 2 f_equal. apply list_eq. intros i.
    destruct (decide (i < 2)%nat); [|by rewrite !lookup_take_ge by lia].
    rewrite !lookup_take_lt, !lookup_drop by done. apply Hw. lia.
Qed.

(** What a field says about a pointer. *)
Definition field_ptr (p : rte_mbuf) (off : Z) (q : option Z) : Prop :=
  load16 (dyn p) off = Ok (match q with Some a => a | None => 0 end) ∧
  match q with Some a => 0 < a < pkt_len p | None => True end.

Lemma get_bth_field d p q : field_ptr p (dyn_bth d) q → ctcm_mbuf_get_bth d p = Ok q.
Proof.
  intros [Hl Hq]. unfold ctcm_mbuf_get_bth, ctcm_mbuf_bth_offset. rewrite Hl. cbn.
  destruct q as [a|]; [|done]. destruct (Z.eqb_spec a 0); [lia|]. cbn.
  by rewrite (proj2 (Z.ltb_lt _ _)) by lia.
Qed.

Lemma get_mad_field d p q : field_ptr p (dyn_mad d) q → ctcm_mbuf_get_mad d p = Ok q.
Proof.
  intros [Hl Hq]. unfold ctcm_mbuf_get_mad, ctcm_mbuf_mad_offset. rewrite Hl. cbn.
  destruct q as [a|]; [|done]. destruct (Z.eqb_spec a 0); [lia|]. cbn.
  by rewrite (proj2 (Z.ltb_lt _ _)) by lia.
Qed.

(** A pointer that a setter accepts and a getter returns: null, or inside the
    packet, not at its start, and within reach of 16 bits. *)
Definition storable (p : rte_mbuf) (q : option Z) : Prop :=
  match q with Some a => 0 < a < 2 ^ 16 ∧ a < pkt_len p | None => 0 < pkt_len p end.

Lemma set_field p off q :
  in_range (dyn p) off 2 = true → storable p q →
  let offset := match q with Some a => u64 a | None => 0 end in
  (offset <? pkt_len p) = true ∧
  ∃ dyn', store16 (dyn p) off (u16 offset) = Ok dyn' ∧ length dyn' = length (dyn p) ∧
          field_ptr (set_dyn p dyn') off q ∧
          ∀ o', 0 ≤ o' → o' + 2 ≤ off ∨ off + 2 ≤ o' → load16 dyn' o' = load16 (dyn p) o'.
Proof.
  intros Hr Hq offset.
  assert (Ho : offset = match q with Some a => a | None => 0 end).
  { unfold offset, u64. destruct q as [a|]; [|done]. cbn in Hq. apply Z.mod_small. lia. }
  assert (H16 : 0 ≤ offset < 2 ^ 16) by (rewrite Ho; destruct q; cbn in Hq; lia).
  split; [rewrite Ho; destruct q; cbn in Hq; lia|].
  destruct (store16_load16 (dyn p) off offset Hr H16) as (m' & Hs & Hl & Hg & Hd).
  exists m'. unfold u16. rewrite Z.mod_small by lia. split_and!; [done..| |done].
  split; cbn; [by rewrite Hg, Ho|]. destruct q as [a|]; [|done]. cbn in Hq. lia.
Qed.

Lemma set_bth_ok d p q :
  dynfields_ok d p → storable p q →
  ∃ p', ctcm_mbuf_set_bth d p q = Ok p' ∧ p' = set_dyn p (dyn p') ∧ dynfields_ok d p' ∧
        field_ptr p' (dyn_bth d) q ∧
        load16 (dyn p') (dyn_mad d) = load16 (dyn p) (dyn_mad d).
Proof.
  intros [Hb Hm Ha] Hq. destruct (set_field p (dyn_bth d) q Hb Hq) as (Hlt & m' & Hs & Hl & Hf & Hd).
  exists (set_dyn p m'). unfold ctcm_mbuf_set_bth, ctcm_mbuf_bth_offset. rewrite Hlt. cbn.
  rewrite Hs. cbn. split_and!; [done..| |done|].
  - split; cbn; unfold in_range in *; by rewrite ?Hl.
  - apply Hd; [|lia]. apply in_range_true in Hm. lia.
Qed.

Lemma set_mad_ok d p q :
  dynfields_ok d p → storable p q →
  ∃ p', ctcm_mbuf_set_mad d p q = Ok p' ∧ p' = set_dyn p (dyn p') ∧ dynfields_ok d p' ∧
        field_ptr p' (dyn_mad d) q ∧
        load16 (dyn p') (dyn_bth d) = load16 (dyn p) (dyn_bth d).
Proof.
  intros [Hb Hm Ha] Hq. destruct (set_field p (dyn_mad d) q Hm Hq) as (Hlt & m' & Hs & Hl & Hf & Hd).
  exists (set_dyn p m'). unfold ctcm_mbuf_set_mad, ctcm_mbuf_mad_offset. rewrite Hlt. cbn.
  rewrite Hs. cbn. split_and!; [done..| |done|].
  - split; cbn; unfold in_range in *; by rewrite ?Hl.
  - apply Hd; [|lia]. apply in_range_true in Hb. lia.
Qed.

(** The header offsets kept in a buffer behave like two independent pointer
    variables: setting one to null or to a header inside the packet (not at its
    first byte, below 64 KiB) succeeds, changes nothing of the packet itself, is
    read back by its getter and leaves the other as it was. *)
Theorem header_offsets_roundtrip d p qb qm :
  dynfields_ok d p → storable p qb → storable p qm →
  ∃ p1 p2,
    ctcm_mbuf_set_bth d p qb = Ok p1 ∧ ctcm_mbuf_set_mad d p1 qm = Ok p2 ∧
    ctcm_mbuf_get_bth d p2 = Ok qb ∧ ctcm_mbuf_get_mad d p2 = Ok qm ∧
    ctcm_mbuf_get_mad d p1 = ctcm_mbuf_get_mad d p ∧ p2 = set_dyn p (dyn p2).
Proof.
  intros Hd Hb Hm.
  destruct (set_bth_ok d p qb Hd Hb) as (p1 & Hs1 & He1 & Hd1 & Hf1 & Ho1).
  destruct (set_mad_ok d p1 qm Hd1) as (p2 & Hs2 & He2 & Hd2 & Hf2 & Ho2).
  { rewrite He1. by destruct qm. }
  exists p1, p2. split_and!; [done..| | | |].
  - apply get_bth_field. split; [rewrite Ho2; apply Hf1|].
    rewrite He2. cbn. apply Hf1.
  - by apply get_mad_field.
  - unfold ctcm_mbuf_get_mad, ctcm_mbuf_mad_offset. rewrite Ho1. by rewrite He1.
  - rewrite He2, He1. done.
Qed.
End OffsetLemmas.
