(* ===== verification/Parser.v ===== *)
(** * Parser: src/src/parser.cpp and [class parser_context] of parser.h

    Recognition of RoCE v2 packets and of communication management MADs, and the
    registration of the two dynamic fields. *)

From Stdlib Require Import ZArith Lia String.
From stdpp Require Import base tactics numbers list strings.
From coqutil Require Import Byte.
From S2P Require Import Prelude Memory Layout Bitfield RxeOpcode RxeHdr RxeHdrSpec IbPack IbMad Mbuf.

Local Open Scope string_scope.
Open Scope Z_scope.
Open Scope ctcm_scope.

Definition UDP_PORT_ROCE_V2 : Z := 4791.

(** ** Parsing *)

Section Parse.
Context `{Build} `{Endian} `{Dpdk}.

(** Each step returns the header, if it is there, and the length that is left
    ([size_t& len]). *)
Definition extract_bth (m : list byte) (udp len : Z) : result (option Z * Z) :=
  if len <? sizeof rxe_bth + sizeof udphdr + 4 then Ok (None, len) else
  dport ← load16 m (udp + offsetof udphdr "uh_dport");
  if negb (dport =? htons UDP_PORT_ROCE_V2) then Ok (None, len) else
  let len := u64 (len - (sizeof rxe_bth + 4)) in
  Ok (Some (udp + sizeof udphdr), len).

Definition extract_deth (m : list byte) (bth len : Z) : result (option Z * Z) :=
  opcode ← __bth_opcode m bth;
  if negb (opcode =? IB_OPCODE_UD_SEND_ONLY) || (len <? sizeof rxe_deth) then Ok (None, len) else
  let len := u64 (len - sizeof rxe_deth) in
  Ok (Some (bth + sizeof rxe_bth), len).

Definition extract_mad (deth len : Z) : option Z :=
  if len <? sizeof ib_mad_hdr then None else Some (deth + sizeof rxe_deth).

(** The methods [mbuf_bth] and [mbuf_mad] of the class, to read and to write. *)
Definition parser_get_bth (d : dynfield_offsets) (packet : rte_mbuf) : result (option Z) :=
  ctcm_mbuf_get_bth d packet.
Definition parser_set_bth (d : dynfield_offsets) (packet : rte_mbuf) (bth : option Z) : result rte_mbuf :=
  ctcm_mbuf_set_bth d packet bth.
Definition parser_get_mad (d : dynfield_offsets) (packet : rte_mbuf) : result (option Z) :=
  ctcm_mbuf_get_mad d packet.
Definition parser_set_mad (d : dynfield_offsets) (packet : rte_mbuf) (mad : option Z) : result rte_mbuf :=
  ctcm_mbuf_set_mad d packet mad.

Definition dynfield_bth_offset (d : dynfield_offsets) : Z := dyn_bth d.
Definition dynfield_mad_offset (d : dynfield_offsets) : Z := dyn_mad d.

Definition parse_packet (d : dynfield_offsets) (packet : rte_mbuf)
  : result (option Z * rte_mbuf) :=
  udp ← mutable_mbuf_udp packet;
  ulen ← load16 (buf packet) (udp + offsetof udphdr "uh_ulen");
  let len := ntohs ulen in
  '(bth, len) ← extract_bth (buf packet) udp len;
  packet ← parser_set_bth d packet bth;
  packet ← parser_set_mad d packet None;
  match bth with
  | None => Ok (None, packet)
  | Some bth =>
      '(deth, len) ← extract_deth (buf packet) bth len;
      match deth with
      | None => Ok (None, packet)
      | Some deth =>
          qpn ← __bth_qpn (buf packet) bth;
          if negb (qpn =? 1) then Ok (None, packet) else
          match extract_mad deth len with
          | None => Ok (None, packet)
          | Some mad =>
              mgmt_class ← load8 (buf packet) (mad + offsetof ib_mad_hdr "mgmt_class");
              if negb (mgmt_class =? IB_MGMT_CLASS_CM) then Ok (None, packet) else
              packet ← parser_set_mad d packet (Some mad);
              Ok (Some mad, packet)
          end
      end
  end.

End Parse.

(** ** What the packet holds *)
Section ParseFacts.
Context `{Endian} `{Dpdk}.

(** The position of the UDP header and the fields the parser decides on, as the
    protocol defines them. *)
Definition udp_at (p : rte_mbuf) : Z := l2_len p + l3_len p.
Definition udp_length (p : rte_mbuf) : Z := be_at (buf p) (udp_at p + 4) 2.
Definition udp_dport (p : rte_mbuf) : Z := be_at (buf p) (udp_at p + 2) 2.
Definition bth_of (p : rte_mbuf) : bth := bth_at (buf p) (udp_at p + 8).
Definition mad_class (p : rte_mbuf) : Z := be_at (buf p) (udp_at p + 29) 1.

(** A RoCE v2 packet: destination port 4791 and room for UDP header, BTH and
    ICRC. *)
Definition is_roce (p : rte_mbuf) : bool :=
  (24 <=? udp_length p) && (udp_dport p =? UDP_PORT_ROCE_V2).

(** A communication management packet: an unreliable datagram to QP 1 whose MAD is
    of class 7 and whose UDP length is at least 48. *)
Definition is_cm (p : rte_mbuf) : bool :=
  is_roce p && (b_opcode (bth_of p) =? IB_OPCODE_UD_SEND_ONLY) && (48 <=? udp_length p) &&
  (b_qpn (bth_of p) =? 1) && (mad_class p =? IB_MGMT_CLASS_CM).

Definition bth_ptr (p : rte_mbuf) : option Z :=
  if is_roce p then Some (udp_at p + 8) else None.
Definition mad_ptr (p : rte_mbuf) : option Z :=
  if is_cm p then Some (udp_at p + 28) else None.

(** The preconditions of the API: a UDP packet with valid header lengths... *)
Record udp_packet (p : rte_mbuf) : Prop := {
  up_ok : mbuf_ok p;
  up_l3 : l3_len p ≠ 0;
  up_type : Z.land (packet_type p) RTE_PTYPE_L4_MASK = RTE_PTYPE_L4_UDP;
}.

(** ... whose datagram lies within the packet and within the buffer. *)
Record complete (p : rte_mbuf) : Prop := {
  co_hdr : udp_at p + 8 ≤ Z.of_nat (length (buf p));
  co_buf : udp_at p + udp_length p ≤ Z.of_nat (length (buf p));
  co_pkt : udp_at p + 8 ≤ pkt_len p;
  co_len : udp_at p + udp_length p ≤ pkt_len p;
}.

(** ** Lemmas *)

Lemma load_eq_htons m p v :
  in_range m p 2 = true → 0 ≤ v < 2 ^ 16 →
  load16 m p = Ok (htobe 2 (be_at m p 2)) ∧ (htobe 2 (be_at m p 2) =? htons v) = (be_at m p 2 =? v).
Proof.
  intros Hr Hv. split; [by apply load_int_in|]. unfold htons.
  pose proof (be_at_range m p 2) as Hb. apply eq_true_iff_eq. rewrite !Z.eqb_eq.
  split; [|by intros ->]. intros He%(f_equal (htobe 2)).
  rewrite !htobe_inv in He by (cbn in *; lia). done.
Qed.

Lemma opcode_at m arg : in_range m arg 1 = true → __bth_opcode m arg = Ok (b_opcode (bth_at m arg)).
Proof. intros Hr. unfold __bth_opcode. layout_norm. rewrite Z.add_0_r. by apply load8_in. Qed.

Lemma qpn_at m arg : in_range m (arg + 4) 4 = true → __bth_qpn m arg = Ok (b_qpn (bth_at m arg)).
Proof.
  intros Hr. unfold __bth_qpn, load32, ntohl. layout_norm. rewrite load_int_in by done.
  autorewrite with ctcm. rewrite htobe_be_at. f_equal. cbn. unfold slice.
  change BTH_QPN_MASK with (mask_at 0 24). bits_eq.
Qed.

Lemma extract_bth_spec p :
  0 ≤ udp_at p → udp_at p + 8 ≤ Z.of_nat (length (buf p)) →
  extract_bth (buf p) (udp_at p) (udp_length p) =
  Ok (bth_ptr p, if is_roce p then udp_length p - 16 else udp_length p).
Proof.
  intros Hu0 Hb. unfold extract_bth, bth_ptr, is_roce, udp_dport. layout_norm.
  pose proof (be_at_range (buf p) (udp_at p + 4) 2) as Hl. fold (udp_length p) in Hl.
  destruct (Z.ltb_spec (udp_length p) (12 + 8 + 4)), (Z.leb_spec 24 (udp_length p));
    try lia; cbn [andb]; [done|].
  destruct (load_eq_htons (buf p) (udp_at p + 2) UDP_PORT_ROCE_V2) as [-> Hd];
    [apply in_range_true; lia|unfold UDP_PORT_ROCE_V2; lia|].
  autorewrite with ctcm. rewrite Hd.
  destruct (be_at (buf p) (udp_at p + 2) 2 =? UDP_PORT_ROCE_V2); cbn [negb andb]; [|done].
  unfold u64. rewrite Z.mod_small by (cbn in Hl; lia). done.
Qed.

Lemma extract_deth_spec m arg len :
  in_range m arg 1 = true → 0 ≤ len < 2 ^ 16 →
  extract_deth m arg len =
  Ok (if (b_opcode (bth_at m arg) =? IB_OPCODE_UD_SEND_ONLY) && (8 <=? len)
      then (Some (arg + 12), len - 8) else (None, len)).
Proof.
  intros Hr Hl. unfold extract_deth. rewrite opcode_at by done. autorewrite with ctcm. layout_norm.
  destruct (b_opcode _ =? _); cbn [negb orb andb]; [|done].
  destruct (Z.ltb_spec len 8), (Z.leb_spec 8 len); try lia; [done|].
  unfold u64. rewrite Z.mod_small by lia. done.
Qed.

(** [parse_packet] from the point where the BTH is known. *)
Definition behind_bth (d : dynfield_offsets) (p : rte_mbuf) (arg len : Z)
  : result (option Z * rte_mbuf) :=
  '(deth, len) ← extract_deth (buf p) arg len;
  match deth with
  | None => Ok (None, p)
  | Some deth =>
      qpn ← __bth_qpn (buf p) arg;
      if negb (qpn =? 1) then Ok (None, p) else
      match extract_mad deth len with
      | None => Ok (None, p)
      | Some mad =>
          mgmt_class ← load8 (buf p) (mad + offsetof ib_mad_hdr "mgmt_class");
          if negb (mgmt_class =? IB_MGMT_CLASS_CM) then Ok (None, p) else
          packet ← ctcm_mbuf_set_mad d p (Some mad);
          Ok (Some mad, packet)
      end
  end.

(** The two offsets after the first part of [parse_packet]. *)
Lemma parse_head d p :
  udp_packet p → complete p → dynfields_ok d p →
  ∃ x, let p2 := set_dyn p x in
       parse_packet d p = (if is_roce p then behind_bth d p2 (udp_at p + 8) (udp_length p - 16)
                           else Ok (None, p2)) ∧
       dynfields_ok d p2 ∧ field_ptr p2 (dyn_bth d) (bth_ptr p) ∧ field_ptr p2 (dyn_mad d) None.
Proof.
  intros [[Hl2 Hl3 _ _] Hn Ht] [Hh Hb Hp Hpl] Hd.
  assert (Hu0 : 0 ≤ udp_at p < 640) by (unfold udp_at; lia).
  unfold parse_packet, parser_set_bth, parser_set_mad, mutable_mbuf_udp, mbuf_udp. rewrite Ht, Z.eqb_refl.
  destruct (Z.eqb_spec (l3_len p) 0) as [|_]; [done|]. cbn [negb andb assert_that NDEBUG debug_build].
  autorewrite with ctcm. fold (udp_at p). unfold load16, ntohs.
  change (offsetof udphdr "uh_ulen") with 4.
  rewrite load_int_in by (apply in_range_true; lia). autorewrite with ctcm.
  rewrite htobe_be_at. fold (udp_length p). rewrite extract_bth_spec by lia. autorewrite with ctcm.
  destruct (set_bth_ok d p (bth_ptr p) Hd) as (p1 & Hs1 & He1 & Hd1 & Hf1 & Ho1).
  { unfold bth_ptr, is_roce. destruct (andb _ _) eqn:Hr; cbn; lia. }
  destruct (set_mad_ok d p1 None Hd1) as (p2 & Hs2 & He2 & Hd2 & Hf2 & Ho2).
  { rewrite He1. cbn. lia. }
  assert (He : p2 = set_dyn p (dyn p2)) by (by rewrite He2, He1).
  exists (dyn p2). cbn zeta. rewrite <- He, Hs1. autorewrite with ctcm. rewrite Hs2.
  autorewrite with ctcm. split_and!; [|done| |done].
  - unfold bth_ptr. destruct (is_roce p); done.
  - split; [rewrite Ho2; apply Hf1|]. rewrite He2. apply Hf1.
Qed.

(** The part of [parse_packet] behind the BTH. *)
Lemma parse_tail d p :
  udp_packet p → complete p → dynfields_ok d p → is_roce p = true →
  behind_bth d p (udp_at p + 8) (udp_length p - 16) =
  if is_cm p then p' ← ctcm_mbuf_set_mad d p (Some (udp_at p + 28)); Ok (Some (udp_at p + 28), p')
  else Ok (None, p).
Proof.
  intros [[Hl2 Hl3 _ _] _ _] [Hh Hb Hp Hpl] Hd Hr. unfold behind_bth.
  pose proof (be_at_range (buf p) (udp_at p + 4) 2) as Hl. fold (udp_length p) in Hl.
  change (2 ^ (Z.of_nat 2 * 8)) with 65536 in Hl.
  assert (H24 : 24 ≤ udp_length p) by (unfold is_roce in Hr; lia).
  assert (Hu0 : 0 ≤ udp_at p < 640) by (unfold udp_at; lia).
  rewrite extract_deth_spec by (try (apply in_range_true); lia).
  unfold is_cm, mad_class, bth_of. rewrite Hr. autorewrite with ctcm.
  destruct (b_opcode _ =? _); cbn [andb]; [|done].
  destruct (Z.leb_spec 8 (udp_length p - 16)) as [H8|H8].
  2:{ destruct (Z.leb_spec 48 (udp_length p)); [lia|done]. }
  rewrite qpn_at by (apply in_range_true; lia). autorewrite with ctcm.
  destruct (b_qpn _ =? 1); cbn [negb andb]; rewrite ?andb_false_r; [|done].
  unfold extract_mad. layout_norm.
  destruct (Z.ltb_spec (udp_length p - 16 - 8) 24), (Z.leb_spec 48 (udp_length p));
    try lia; cbn [andb]; [done|].
  rewrite load8_in by (apply in_range_true; lia). autorewrite with ctcm.
  replace (udp_at p + 8 + 12 + 8 + 1) with (udp_at p + 29) by lia.
  replace (udp_at p + 8 + 12 + 8) with (udp_at p + 28) by lia.
  destruct (be_at (buf p) (udp_at p + 29) 1 =? IB_MGMT_CLASS_CM); done.
Qed.

(** The outcome of [parse_packet] in terms of what the two fields then hold. *)
Lemma parse_packet_ok d p :
  udp_packet p → complete p → dynfields_ok d p →
  ∃ p', parse_packet d p = Ok (mad_ptr p, p') ∧
        field_ptr p' (dyn_bth d) (bth_ptr p) ∧ field_ptr p' (dyn_mad d) (mad_ptr p) ∧
        p' = set_dyn p (dyn p') ∧ dynfields_ok d p'.
Proof.
  intros Hu Hc Hd. destruct (parse_head d p Hu Hc Hd) as (x & Hh & Hd2 & Hb2 & Hm2).
  set (p2 := set_dyn p x) in *. rewrite Hh. unfold mad_ptr.
  assert (Hic : is_cm p = is_cm p2) by done.
  destruct (is_roce p) eqn:Hr.
  2:{ assert (is_cm p = false) as -> by (unfold is_cm; by rewrite Hr). exists p2.
      by split_and!. }
  pose proof (parse_tail d p2) as Ht. change (udp_at p2) with (udp_at p) in Ht.
  change (udp_length p2) with (udp_length p) in Ht.
  rewrite Ht, <- Hic by (by destruct Hu as [[]], Hc).
  destruct (is_cm p) eqn:Hcm; [|exists p2; by split_and!].
  destruct (set_mad_ok d p2 (Some (udp_at p + 28)) Hd2) as (p3 & Hs3 & He3 & Hd3 & Hf3 & Ho3).
  { destruct Hu as [[]], Hc. cbn. unfold is_cm, is_roce, udp_at in *. lia. }
  exists p3. rewrite Hs3. split_and!; [done| |done|by rewrite He3|done].
  split; [rewrite Ho3; apply Hb2|]. rewrite He3. apply Hb2.
Qed.

(** C23: on every UDP packet whose datagram lies within the packet, [parse_packet]
    returns, without leaving the buffer or failing an assertion: the result is the
    MAD header exactly when the packet is a communication management packet, the
    recorded BTH offset is the header exactly when the packet is RoCE v2, the
    recorded MAD offset is the result, and nothing else of the packet changes. *)
Theorem parse_packet_classifies d p :
  udp_packet p → complete p → dynfields_ok d p →
  ∃ p', parse_packet d p = Ok (mad_ptr p, p') ∧
        ctcm_mbuf_get_bth d p' = Ok (bth_ptr p) ∧
        ctcm_mbuf_get_mad d p' = Ok (mad_ptr p) ∧
        p' = set_dyn p (dyn p') ∧ dynfields_ok d p'.
Proof.
  intros Hu Hc Hd. destruct (parse_packet_ok d p Hu Hc Hd) as (p' & Hp & Hb & Hm & He & Hd').
  exists p'. split_and!; [done|by apply get_bth_field|by apply get_mad_field|done|done].
Qed.

(** The length in the UDP header is not compared with the length of the packet:
    a packet addressed to the RoCE port that announces a datagram but ends with its
    UDP header stops the program in an assertion of [ctcm_mbuf_set_bth]. *)
Theorem truncated_roce_aborts d p :
  udp_packet p → udp_at p + 8 ≤ Z.of_nat (length (buf p)) →
  is_roce p = true → pkt_len p ≤ udp_at p + 8 →
  parse_packet d p = Fault AssertFailure.
Proof.
  intros [[Hl2 Hl3 _ _] Hn Ht] Hh Hr Hp.
  assert (Hu0 : 0 ≤ udp_at p < 640) by (unfold udp_at; lia).
  unfold parse_packet, parser_set_bth, parser_set_mad, mutable_mbuf_udp, mbuf_udp. rewrite Ht, Z.eqb_refl.
  destruct (Z.eqb_spec (l3_len p) 0) as [|_]; [done|]. cbn [negb andb assert_that NDEBUG debug_build].
  autorewrite with ctcm. fold (udp_at p). unfold load16, ntohs.
  change (offsetof udphdr "uh_ulen") with 4.
  rewrite load_int_in by (apply in_range_true; lia). autorewrite with ctcm.
  rewrite htobe_be_at. fold (udp_length p). rewrite extract_bth_spec by lia. autorewrite with ctcm.
  unfold bth_ptr. rewrite Hr. unfold ctcm_mbuf_set_bth, u64.
  rewrite Z.mod_small by lia. by rewrite (proj2 (Z.ltb_ge _ _)) by lia.
Qed.
End ParseFacts.

(** ** Registration of the dynamic fields *)

(** [struct rte_mbuf_dynfield] as the constructor fills it. *)
Record rte_mbuf_dynfield := {
  df_name : string;
  df_size : Z;
  df_align : Z;
}.

(** DPDK's registry of dynamic fields: a parameter. *)
Class DynfieldRegistry := {
  registry : Type;
  rte_mbuf_dynfield_register : registry → rte_mbuf_dynfield → registry * Z;
}.

(** rte_mbuf_dyn.h: the call returns the offset of the field in the mbuf structure,
    or a negative number on error; a registered field keeps its place, the fields
    lie in the dynamic area without overlap, and a request for a field that was
    registered with the same name and parameters returns its offset. *)
Class DynfieldLaws (R : DynfieldRegistry) := {
  dyn_area : Z;
  registered : registry → list (rte_mbuf_dynfield * Z);
  registry_ok : registry → Prop;
  register_preserves : ∀ r f r' o,
    registry_ok r → rte_mbuf_dynfield_register r f = (r', o) →
    registry_ok r' ∧ (∀ x, In x (registered r) → In x (registered r')) ∧
    (0 ≤ o → In (f, o) (registered r'));
  registry_ok_inside : ∀ r f o,
    registry_ok r → In (f, o) (registered r) → 0 ≤ o ∧ o + df_size f ≤ dyn_area;
  registry_ok_disjoint : ∀ r f o g o',
    registry_ok r → In (f, o) (registered r) → In (g, o') (registered r) →
    df_name f ≠ df_name g → o + df_size f ≤ o' ∨ o' + df_size g ≤ o;
  register_again : ∀ r f o,
    registry_ok r → In (f, o) (registered r) → rte_mbuf_dynfield_register r f = (r, o);
}.

Section Construct.
Context `{Build} `{DynfieldRegistry}.

(** The outcome of the constructor: an exception, or the object. *)
Inductive constructed :=
| Thrown (what : string)
| Constructed (d : dynfield_offsets).

Definition bth_dynfield : rte_mbuf_dynfield :=
  {| df_name := "BTH"; df_size := 2; df_align := 2 |}.
Definition mad_dynfield : rte_mbuf_dynfield :=
  {| df_name := "IB_MAD_HDR"; df_size := 2; df_align := 2 |}.
Definition dynfields : list rte_mbuf_dynfield := [bth_dynfield; mad_dynfield].

(** The loop of [parser_context::parser_context]; the initial offsets are
    whatever the storage held. *)
Fixpoint register_loop (r : registry) (d : dynfield_offsets) (i : nat)
    (fs : list rte_mbuf_dynfield) : result (registry * constructed) :=
  match fs with
  | [] => Ok (r, Constructed {| dyn_size := sizeof c_dynfield_offsets;
                                dyn_bth := dyn_bth d; dyn_mad := dyn_mad d |})
  | f :: fs' =>
      let '(r, ret) := rte_mbuf_dynfield_register r f in
      if ret <? 0 then Ok (r, Thrown "error registering dpdk dynamic rte_mbuf field") else
      match i with
      | 0%nat => register_loop r {| dyn_size := dyn_size d; dyn_bth := ret; dyn_mad := dyn_mad d |}
                   (S i) fs'
      | 1%nat => register_loop r {| dyn_size := dyn_size d; dyn_bth := dyn_bth d; dyn_mad := ret |}
                   (S i) fs'
      | _ => _ ← assert_that false; register_loop r d (S i) fs'
      end
  end.

Definition parser_context (r : registry) (storage : dynfield_offsets)
  : result (registry * constructed) := register_loop r storage 0 dynfields.

End Construct.

Section ConstructFacts.
Context `{DynfieldRegistry}.

(** The offsets of a parser that was constructed. *)
Definition offsets_of (o1 o2 : Z) : dynfield_offsets :=
  {| dyn_size := sizeof c_dynfield_offsets; dyn_bth := o1; dyn_mad := o2 |}.

Lemma parser_context_ok `{!DynfieldLaws _} r storage :
  registry_ok r →
  ∃ r' c, parser_context r storage = Ok (r', c) ∧ registry_ok r' ∧
    let '(r1, o1) := rte_mbuf_dynfield_register r bth_dynfield in
    let '(_, o2) := rte_mbuf_dynfield_register r1 mad_dynfield in
    if (o1 <? 0) || (o2 <? 0) then c = Thrown "error registering dpdk dynamic rte_mbuf field"
    else c = Constructed (offsets_of o1 o2) ∧
         ∀ p, Z.of_nat (length (dyn p)) = dyn_area →
              dynfields_ok (offsets_of o1 o2) p.
Proof.
  intros Hr. unfold parser_context, dynfields. cbn [register_loop].
  destruct (rte_mbuf_dynfield_register r _) as [r1 o1] eqn:H1.
  destruct (register_preserves _ _ _ _ Hr H1) as (Hr1 & Hk1 & Hi1).
  destruct (rte_mbuf_dynfield_register r1 _) as [r2 o2] eqn:H2.
  destruct (register_preserves _ _ _ _ Hr1 H2) as (Hr2 & Hk2 & Hi2).
  destruct (Z.ltb_spec o1 0) as [|Ho1]; cbn [orb]; [by eexists _, _|].
  destruct (Z.ltb_spec o2 0) as [|Ho2]; cbn [orb]; [by eexists _, _|].
  eexists _, _. split_and!; [reflexivity|done|reflexivity|]. intros p Hp.
  specialize (Hk2 _ (Hi1 Ho1)). specialize (Hi2 Ho2).
  pose proof (registry_ok_inside _ _ _ Hr2 Hk2). pose proof (registry_ok_inside _ _ _ Hr2 Hi2).
  pose proof (registry_ok_disjoint _ _ _ _ _ Hr2 Hk2 Hi2 ltac:(done)).
  cbn in *. constructor; cbn; rewrite ?in_range_true; lia.
Qed.
End ConstructFacts.
