(* ===== verification/CmPacket.v ===== *)
(** * CmPacket: what the connection tracker reads from a packet

    The tracker reaches the packet through the parser ([parser.mbuf_mad]), the
    table of message fields ([IBA_GET]) and the IP header ([mbuf_ip]).  [CmPacket]
    is that interface; the packet buffer implements it (src/src/iba.h,
    src/src/parser.h), and so does a decoded message, in which every read succeeds.
    src/src/ib_cm.h's attribute identifiers are here too. *)

From Stdlib Require Import ZArith Lia String.
From stdpp Require Import base tactics numbers list strings.
From S2P Require Import Prelude Memory Layout Bitfield IbMad Iba IbtaC12 Mbuf.

Local Open Scope string_scope.
Open Scope Z_scope.
Open Scope ctcm_scope.

(** ** src/src/ib_cm.h *)
Definition CM_REQ_ATTR_ID : Z := 0x0010.
Definition CM_MRA_ATTR_ID : Z := 0x0011.
Definition CM_REJ_ATTR_ID : Z := 0x0012.
Definition CM_REP_ATTR_ID : Z := 0x0013.
Definition CM_RTU_ATTR_ID : Z := 0x0014.
Definition CM_DREQ_ATTR_ID : Z := 0x0015.
Definition CM_DREP_ATTR_ID : Z := 0x0016.
Definition CM_SIDR_REQ_ATTR_ID : Z := 0x0017.
Definition CM_SIDR_REP_ATTR_ID : Z := 0x0018.
Definition CM_LAP_ATTR_ID : Z := 0x0019.
Definition CM_APR_ATTR_ID : Z := 0x001A.
Definition CM_MAX_ATTR_ID : Z := 0x20.

(** ** The interface *)
Class CmPacket (P : Type) := {
  (** [parser.mbuf_mad(p)] *)
  pkt_mad : P → result (option Z);
  (** [IBA_GET(field, msg)] with [msg] of the type given by a possibly null
      pointer to the MAD *)
  pkt_get : iba_field → P → option Z → result Z;
  (** [be16toh(mad->attr_id)] *)
  pkt_attr_id : P → option Z → result Z;
  (** [hdr->field] of the byte-sized fields of the MAD header *)
  pkt_hdr8 : string → P → option Z → result Z;
  (** [mbuf_ip(p)->saddr] and [mbuf_ip(p)->daddr], in network order *)
  pkt_saddr : P → result Z;
  pkt_daddr : P → result Z;
}.

(** The widths that the tracker relies on. *)
Class CmPacketLaws (P : Type) `{CmPacket P} : Prop := {
  pkt_get_range : ∀ f p msg v, fld_ok f = true → pkt_get f p msg = Ok v → 0 ≤ v < 2 ^ fld_width f;
  pkt_attr_range : ∀ p msg v, pkt_attr_id p msg = Ok v → 0 ≤ v < 2 ^ 16;
  pkt_saddr_range : ∀ p v, pkt_saddr p = Ok v → 0 ≤ v < 2 ^ 32;
  pkt_daddr_range : ∀ p v, pkt_daddr p = Ok v → 0 ≤ v < 2 ^ 32;
}.

(** ** The packet buffer *)
Section Buffer.
Context `{Build} `{Endian} `{Dpdk} (d : dynfield_offsets).

Definition mbuf_packet : CmPacket rte_mbuf := {|
  pkt_mad := ctcm_mbuf_get_mad d;
  pkt_get f p msg := ptr ← deref msg; IBA_GET f (buf p) ptr;
  pkt_attr_id p msg :=
    ptr ← deref msg;
    v ← load16 (buf p) (ptr + offsetof ib_mad_hdr "attr_id");
    Ok (be16toh v);
  pkt_hdr8 field p msg := ptr ← deref msg; load8 (buf p) (ptr + offsetof ib_mad_hdr field);
  pkt_saddr p := ip ← mbuf_ip p; load32 (buf p) (ip + offsetof iphdr "saddr");
  pkt_daddr p := ip ← mbuf_ip p; load32 (buf p) (ip + offsetof iphdr "daddr");
|}.
End Buffer.

Section BufferLaws.
Context `{Endian} `{Dpdk} (d : dynfield_offsets).


#[global] Instance mbuf_packet_laws : @CmPacketLaws rte_mbuf (mbuf_packet d).
Proof.
  constructor; cbn.
  - intros f p msg v Hok Hv. inv_ok. pose proof Hok as (_ & _ & _ & Hw & _)%fld_ok_spec.
    destruct (in_range (buf p) (a + fld_offset f) (fld_bytes f)) eqn:Hr.
    + rewrite IBA_GET_slice in Hv by done. injection Hv as <-. apply Z.mod_pos_bound.
      apply Z.pow_pos_nonneg; lia.
    + unfold IBA_GET, _iba_get, load_int, load in Hv. by rewrite Hr in Hv.
  - intros p msg v Hv. inv_ok. apply htobe_range.
  - intros p v Hv. inv_ok. apply load_int_Ok in Hv as [_ ->]. apply htobe_range.
  - intros p v Hv. inv_ok. apply load_int_Ok in Hv as [_ ->]. apply htobe_range.
Qed.
End BufferLaws.

(** ** A decoded message *)

(** What a message says to the tracker: its kind and communication ids as the
    sender means them (local: the sender's), the queue pair number of a REQ or a
    REP, and the addresses of the packet. *)
Record cm_msg := {
  m_attr : Z;
  m_local_comm_id : Z;
  m_remote_comm_id : Z;
  m_qpn : Z;
  m_saddr : Z;
  m_daddr : Z;
}.

#[global] Instance iba_field_eq_dec : EqDecision iba_field.
Proof. solve_decision. Defined.

(** The communication ids have the same place in all messages. *)
#[global] Instance msg_packet : CmPacket cm_msg := {|
  pkt_mad m := Ok (Some 0);
  pkt_get f m _ :=
    Ok (if decide (f = CM_REP_LOCAL_COMM_ID) then m_local_comm_id m
        else if decide (f = CM_REP_REMOTE_COMM_ID) then m_remote_comm_id m
        else if decide (f = CM_REQ_LOCAL_QPN ∨ f = CM_REP_LOCAL_QPN) then m_qpn m
        else 0);
  pkt_attr_id m _ := Ok (m_attr m);
  pkt_hdr8 _ m _ := Ok 0;
  pkt_saddr m := Ok (m_saddr m);
  pkt_daddr m := Ok (m_daddr m);
|}.

(** The fields that the tracker reads of a message of each kind. *)
Definition read_fields (attr : Z) : list iba_field :=
  if attr =? CM_REQ_ATTR_ID then [CM_REQ_LOCAL_COMM_ID; CM_REQ_LOCAL_QPN]
  else if attr =? CM_REP_ATTR_ID
       then [CM_REP_LOCAL_COMM_ID; CM_REP_REMOTE_COMM_ID; CM_REP_LOCAL_QPN]
  else [CM_REJ_LOCAL_COMM_ID; CM_REJ_REMOTE_COMM_ID; CM_RTU_LOCAL_COMM_ID;
        CM_RTU_REMOTE_COMM_ID; CM_DREQ_LOCAL_COMM_ID; CM_DREQ_REMOTE_COMM_ID;
        CM_DREP_LOCAL_COMM_ID; CM_DREP_REMOTE_COMM_ID].

(** The packet [p] carries the message [m]: every read of the tracker succeeds on
    [p], with what [m] says. *)
Record carries `{CmPacket P} (p : P) (m : cm_msg) : Prop := {
  ca_mad : ∃ a, pkt_mad p = Ok (Some a) ∧ pkt_attr_id p (Some a) = Ok (m_attr m) ∧
    (∀ f, In f (read_fields (m_attr m)) → pkt_get f p (Some a) = pkt_get f m (Some 0)) ∧
    (∀ field, In field ["base_version"; "mgmt_class"; "class_version"; "method"] →
       ∃ v, pkt_hdr8 field p (Some a) = Ok v);
  ca_saddr : pkt_saddr p = Ok (m_saddr m);
  ca_daddr : pkt_daddr p = Ok (m_daddr m);
}.

Lemma carries_refl (m : cm_msg) : carries m m.
Proof. split; [|done..]. exists 0. split_and!; [done..|]. intros field _. by exists 0. Qed.
