(* ===== verification/Tracker.v ===== *)
(** * Tracker: src/src/cm_connection_tracker.h and .cpp

    The connection tracker: a table of flows reachable by local communication id
    and by remote address and id, a handler per message kind and direction, and
    the table of established queue pairs that answers queries.

    [std::shared_ptr<flow_state>] is a location in a heap, so that the two maps and
    a handler's local variable share one object as in the code; [Lifetime] has the
    reference counts and the freeing of objects.  The reads that
    the arguments of log calls perform are part of the operations; the lines
    themselves are in [TrackerLog]. *)

From Stdlib Require Import ZArith Lia String.
From stdpp Require Import base tactics numbers list strings gmap.
From S2P Require Import Prelude Memory Layout IbMad Iba IbtaC12 Mbuf CmPacket.

Local Open Scope string_scope.
Open Scope Z_scope.
Open Scope ctcm_scope.

(** ** Data *)

(** [FLOW_STATES]. *)
Inductive fstate :=
| IDLE | REQ_SENT | REQ_RCVD | MRA_REQ_RCVD | MRA_REQ_SENT | MRA_REP_SENT | MRA_REP_RCVD
| REP_SENT | REP_RCVD | ESTABLISHED | DREQ_SENT | DREQ_RCVD | TIMEWAIT.

#[global] Instance fstate_eq_dec : EqDecision fstate.
Proof. solve_decision. Defined.

(** [cm_flow_key]: remote address (network order) and communication id; its
    default value and its conversion to [bool]. *)
Abbreviation cm_flow_key := (Z * Z)%type.
Definition no_key : cm_flow_key := (0, 0).
Definition key_bool (k : cm_flow_key) : bool := negb (k.1 =? 0) && negb (k.2 =? 0).

(** [flow_key]: destination address and queue pair number. *)
Abbreviation flow_key := (Z * Z)%type.

Record flow_state := Flow {
  state : fstate;
  local_id : Z;
  remote_id : cm_flow_key;
  local_qpn : Z;
  remote_qpn : Z;
  in_qpn_map : bool;
}.

Definition new_flow_state : flow_state := Flow IDLE 0 no_key 0 0 false.

Definition set_state (x : fstate) (f : flow_state) : flow_state :=
  Flow x (local_id f) (remote_id f) (local_qpn f) (remote_qpn f) (in_qpn_map f).
Definition set_local_id (x : Z) (f : flow_state) : flow_state :=
  Flow (state f) x (remote_id f) (local_qpn f) (remote_qpn f) (in_qpn_map f).
Definition set_remote_id (x : cm_flow_key) (f : flow_state) : flow_state :=
  Flow (state f) (local_id f) x (local_qpn f) (remote_qpn f) (in_qpn_map f).
Definition set_local_qpn (x : Z) (f : flow_state) : flow_state :=
  Flow (state f) (local_id f) (remote_id f) x (remote_qpn f) (in_qpn_map f).
Definition set_remote_qpn (x : Z) (f : flow_state) : flow_state :=
  Flow (state f) (local_id f) (remote_id f) (local_qpn f) x (in_qpn_map f).
Definition set_in_qpn_map (x : bool) (f : flow_state) : flow_state :=
  Flow (state f) (local_id f) (remote_id f) (local_qpn f) (remote_qpn f) x.

Definition get_flow_key (f : flow_state) : flow_key := ((remote_id f).1, remote_qpn f).

(** The tracker: the heap of flow objects with the next free location, and the
    three maps of the class. *)
Abbreviation loc := nat.

Record tracker := Tracker {
  heap : gmap loc flow_state;
  next : loc;
  local_map : gmap Z loc;
  remote_map : gmap cm_flow_key loc;
  qpn_map : gmap flow_key Z;
}.

Definition empty_tracker : tracker := Tracker ∅ 0 ∅ ∅ ∅.

(** ** Stateful code *)

Definition M (A : Type) : Type := tracker → result (A * tracker).

#[global] Instance M_ret : MRet M := λ A a s, Ok (a, s).
#[global] Instance M_bind : MBind M := λ A B k e s,
  match e s with Ok (a, s') => k a s' | Fault f => Fault f end.

Definition lift {A} (e : result A) : M A := λ s, match e with Ok a => Ok (a, s) | Fault f => Fault f end.
Definition get_state : M tracker := λ s, Ok (s, s).
Definition assertM `{Build} (b : bool) : M unit := lift (assert_that b).

Definition set_heap (h : gmap loc flow_state) (s : tracker) : tracker :=
  Tracker h (next s) (local_map s) (remote_map s) (qpn_map s).
Definition set_local_map (x : gmap Z loc) (s : tracker) : tracker :=
  Tracker (heap s) (next s) x (remote_map s) (qpn_map s).
Definition set_remote_map (x : gmap cm_flow_key loc) (s : tracker) : tracker :=
  Tracker (heap s) (next s) (local_map s) x (qpn_map s).
Definition set_qpn_map (x : gmap flow_key Z) (s : tracker) : tracker :=
  Tracker (heap s) (next s) (local_map s) (remote_map s) x.

Definition update (g : tracker → tracker) : M unit := λ s, Ok (tt, g s).

(** [state->...]: reading and assigning an object through its pointer. *)
Definition obj (l : loc) : M flow_state := λ s, match heap s !! l with
  | Some f => Ok (f, s) | None => Fault NullPointer end.
Definition assign (l : loc) (g : flow_state → flow_state) : M unit :=
  f ← obj l; update (λ s, set_heap (<[l := g f]> (heap s)) s).

(** [std::make_shared<flow_state>()]. *)
Definition make_shared : M loc := λ s,
  Ok (next s, Tracker (<[next s := new_flow_state]> (heap s)) (S (next s))
                      (local_map s) (remote_map s) (qpn_map s)).

(** ** The tables *)
Section Tracker.
Context `{B : Build}.

Definition on_established (st : loc) : M unit :=
  f ← obj st;
  if (local_qpn f =? 0) || (remote_qpn f =? 0) then mret tt else
  s ← get_state;
  match qpn_map s !! get_flow_key f with
  | Some _ => mret tt
  | None =>
      _ ← update (λ s, set_qpn_map (<[get_flow_key f := local_qpn f]> (qpn_map s)) s);
      assign st (set_in_qpn_map true)
  end.

Definition on_disconnected (st : loc) : M unit :=
  f ← obj st;
  if (local_qpn f =? 0) || (remote_qpn f =? 0) then mret tt else
  s ← get_state;
  match qpn_map s !! get_flow_key f with
  | None => mret tt
  | Some _ =>
      _ ← update (λ s, set_qpn_map (delete (get_flow_key f) (qpn_map s)) s);
      assign st (set_in_qpn_map false)
  end.

Definition add_new_flow (lid : Z) (rid : cm_flow_key) : M loc :=
  s ← get_state;
  let local_it := local_map s !! lid in
  let remote_it := remote_map s !! rid in
  match local_it, remote_it with
  | Some a, Some b =>
      _ ← assertM (bool_decide (a = b));
      f ← obj a;
      _ ← assertM (bool_decide (local_id f = lid) && bool_decide (remote_id f = rid));
      mret a
  | _, _ =>
      st ← match local_it, remote_it with
           | Some a, _ => mret a
           | None, Some b => mret b
           | None, None =>
               _ ← assertM (negb (lid =? 0) || key_bool rid);
               make_shared
           end;
      _ ← (if bool_decide (local_it = None) && negb (lid =? 0) then
             f ← obj st;
             _ ← assertM (local_id f =? 0);
             _ ← assign st (set_local_id lid);
             update (λ s, set_local_map (<[lid := st]> (local_map s)) s)
           else mret tt);
      _ ← (if bool_decide (remote_it = None) && key_bool rid then
             f ← obj st;
             _ ← assertM (negb (key_bool (remote_id f)));
             _ ← assign st (set_remote_id rid);
             update (λ s, set_remote_map (<[rid := st]> (remote_map s)) s)
           else mret tt);
      mret st
  end.

Definition get_flow (lid : Z) (rid : cm_flow_key) : M loc :=
  _ ← assertM (negb (lid =? 0) || key_bool rid);
  s ← get_state;
  let st := if negb (lid =? 0) then local_map s !! lid else remote_map s !! rid in
  match st with
  | None => add_new_flow lid rid
  | Some l => mret l
  end.

(** The generic lambda of [erase_flow] at its two instances. *)
Definition erase_flow (lid : Z) (rid : cm_flow_key) : M unit :=
  _ ← assertM (negb (lid =? 0) || key_bool rid);
  s ← get_state;
  if negb (lid =? 0) then
    match local_map s !! lid with
    | None => mret tt
    | Some st =>
        f ← obj st;
        _ ← (if in_qpn_map f then on_disconnected st else mret tt);
        _ ← update (λ s, set_local_map (delete lid (local_map s)) s);
        update (λ s, set_remote_map (delete rid (remote_map s)) s)
    end
  else
    match remote_map s !! rid with
    | None => mret tt
    | Some st =>
        f ← obj st;
        _ ← (if in_qpn_map f then on_disconnected st else mret tt);
        _ ← update (λ s, set_remote_map (delete rid (remote_map s)) s);
        update (λ s, set_local_map (delete lid (local_map s)) s)
    end.

(** ** The handlers *)
Section Handlers.
Context {P : Type} `{CmPacket P}.

Definition from_dest (p : P) (id : Z) : result cm_flow_key :=
  daddr ← pkt_daddr p; Ok (daddr, id).
Definition from_src (p : P) (id : Z) : result cm_flow_key :=
  saddr ← pkt_saddr p; Ok (saddr, id).

Definition get_attr_id (p : P) : result Z := msg ← pkt_mad p; pkt_attr_id p msg.

Definition req_sent (p : P) : M unit :=
  msg ← lift (pkt_mad p);
  lid ← lift (pkt_get CM_REQ_LOCAL_COMM_ID p msg);
  st ← get_flow lid no_key;
  f ← obj st;
  match state f with
  | IDLE | REQ_SENT =>
      _ ← assign st (set_state REQ_SENT);
      qpn ← lift (pkt_get CM_REQ_LOCAL_QPN p msg);
      assign st (set_local_qpn qpn)
  | _ => mret tt
  end.

(** The assertion, and the read in it, are there only without [NDEBUG]. *)
Definition req_received (p : P) : M unit :=
  msg ← lift (pkt_mad p);
  rid ← lift (pkt_get CM_REQ_LOCAL_COMM_ID p msg);
  remote_flow ← lift (from_src p rid);
  st ← get_flow 0 remote_flow;
  f ← obj st;
  match state f with
  | REQ_RCVD | IDLE =>
      _ ← (if decide (state f = REQ_RCVD ∧ NDEBUG = false) then
             qpn ← lift (pkt_get CM_REQ_LOCAL_QPN p msg);
             assertM (remote_qpn f =? qpn)
           else mret tt);
      _ ← assign st (set_state REQ_RCVD);
      qpn ← lift (pkt_get CM_REQ_LOCAL_QPN p msg);
      assign st (set_remote_qpn qpn)
  | _ => mret tt
  end.

Definition rej_sent (p : P) : M unit :=
  msg ← lift (pkt_mad p);
  lid ← lift (pkt_get CM_REJ_LOCAL_COMM_ID p msg);
  rid ← lift (pkt_get CM_REJ_REMOTE_COMM_ID p msg);
  remote_flow ← lift (from_dest p rid);
  st ← get_flow lid remote_flow;
  f ← obj st;
  match state f with
  | IDLE | REQ_RCVD | REQ_SENT | MRA_REQ_RCVD | MRA_REQ_SENT | REP_RCVD | MRA_REP_SENT =>
      erase_flow lid remote_flow
  | REP_SENT | MRA_REP_RCVD => erase_flow lid remote_flow
  | _ => mret tt
  end.

Definition rej_received (p : P) : M unit :=
  msg ← lift (pkt_mad p);
  lid ← lift (pkt_get CM_REJ_REMOTE_COMM_ID p msg);
  rid ← lift (pkt_get CM_REJ_LOCAL_COMM_ID p msg);
  remote_flow ← lift (from_src p rid);
  st ← get_flow lid remote_flow;
  f ← obj st;
  match state f with
  | IDLE | REQ_SENT | MRA_REQ_RCVD | REP_SENT | MRA_REP_RCVD | MRA_REQ_SENT =>
      erase_flow lid remote_flow
  | DREQ_SENT | REP_RCVD | MRA_REP_SENT | ESTABLISHED => erase_flow lid remote_flow
  | _ => mret tt
  end.

Definition rep_sent (p : P) : M unit :=
  msg ← lift (pkt_mad p);
  lid ← lift (pkt_get CM_REP_LOCAL_COMM_ID p msg);
  rid ← lift (pkt_get CM_REP_REMOTE_COMM_ID p msg);
  remote_flow ← lift (from_dest p rid);
  st ← get_flow lid remote_flow;
  f ← obj st;
  match state f with
  | REQ_RCVD | MRA_REQ_SENT =>
      _ ← assign st (set_state REP_SENT);
      _ ← add_new_flow lid remote_flow;
      qpn ← lift (pkt_get CM_REP_LOCAL_QPN p msg);
      assign st (set_local_qpn qpn)
  | REP_SENT => mret tt
  | _ => mret tt
  end.

Definition rep_received (p : P) : M unit :=
  msg ← lift (pkt_mad p);
  lid ← lift (pkt_get CM_REP_REMOTE_COMM_ID p msg);
  rid ← lift (pkt_get CM_REP_LOCAL_COMM_ID p msg);
  remote_flow ← lift (from_src p rid);
  st ← get_flow lid no_key;
  f ← obj st;
  match state f with
  | REQ_SENT | MRA_REQ_RCVD =>
      _ ← assign st (set_state REP_RCVD);
      qpn ← lift (pkt_get CM_REP_LOCAL_QPN p msg);
      _ ← assign st (set_remote_qpn qpn);
      _ ← add_new_flow lid remote_flow;
      mret tt
  | _ => mret tt
  end.

Definition rtu_sent (p : P) : M unit :=
  msg ← lift (pkt_mad p);
  lid ← lift (pkt_get CM_RTU_LOCAL_COMM_ID p msg);
  st ← get_flow lid no_key;
  f ← obj st;
  match state f with
  | REP_RCVD | MRA_REP_SENT =>
      _ ← assign st (set_state ESTABLISHED);
      on_established st
  | _ => mret tt
  end.

Definition rtu_received (p : P) : M unit :=
  msg ← lift (pkt_mad p);
  lid ← lift (pkt_get CM_RTU_REMOTE_COMM_ID p msg);
  st ← get_flow lid no_key;
  f ← obj st;
  match state f with
  | REP_SENT | MRA_REP_RCVD =>
      _ ← assign st (set_state ESTABLISHED);
      on_established st
  | _ => mret tt
  end.

Definition dreq_sent (p : P) : M unit :=
  msg ← lift (pkt_mad p);
  lid ← lift (pkt_get CM_DREQ_LOCAL_COMM_ID p msg);
  st ← get_flow lid no_key;
  f ← obj st;
  match state f with
  | IDLE | ESTABLISHED | DREQ_SENT | DREQ_RCVD => assign st (set_state DREQ_SENT)
  | _ => mret tt
  end.

Definition dreq_received (p : P) : M unit :=
  msg ← lift (pkt_mad p);
  lid ← lift (pkt_get CM_DREQ_REMOTE_COMM_ID p msg);
  st ← get_flow lid no_key;
  f ← obj st;
  match state f with
  | REP_SENT | DREQ_SENT | ESTABLISHED | MRA_REP_RCVD | TIMEWAIT | DREQ_RCVD =>
      assign st (set_state DREQ_RCVD)
  | _ => mret tt
  end.

Definition drep_sent (p : P) : M unit :=
  msg ← lift (pkt_mad p);
  lid ← lift (pkt_get CM_DREP_LOCAL_COMM_ID p msg);
  rid ← lift (pkt_get CM_DREP_REMOTE_COMM_ID p msg);
  remote_flow ← lift (from_dest p rid);
  st ← get_flow lid no_key;
  f ← obj st;
  match state f with
  | DREQ_SENT | DREQ_RCVD => erase_flow lid remote_flow
  | _ => mret tt
  end.

Definition drep_received (p : P) : M unit :=
  msg ← lift (pkt_mad p);
  lid ← lift (pkt_get CM_DREP_REMOTE_COMM_ID p msg);
  rid ← lift (pkt_get CM_DREP_LOCAL_COMM_ID p msg);
  remote_flow ← lift (from_src p rid);
  st ← get_flow lid no_key;
  f ← obj st;
  match state f with
  | DREQ_SENT | DREQ_RCVD => erase_flow lid remote_flow
  | _ => mret tt
  end.

(** ** Dispatch *)

(** [std::vector<handler>] with empty [std::function]s where no handler was set. *)
Definition no_handlers : list (option (P → M unit)) :=
  replicate (Z.to_nat CM_MAX_ATTR_ID) None.
Definition set_handler (attr : Z) (h : P → M unit) (v : list (option (P → M unit))) :=
  <[Z.to_nat attr := Some h]> v.

Definition host_handlers : list (option (P → M unit)) :=
  set_handler CM_DREP_ATTR_ID drep_sent (
  set_handler CM_DREQ_ATTR_ID dreq_sent (
  set_handler CM_RTU_ATTR_ID rtu_sent (
  set_handler CM_REP_ATTR_ID rep_sent (
  set_handler CM_REJ_ATTR_ID rej_sent (
  set_handler CM_REQ_ATTR_ID req_sent no_handlers))))).

Definition net_handlers : list (option (P → M unit)) :=
  set_handler CM_DREP_ATTR_ID drep_received (
  set_handler CM_DREQ_ATTR_ID dreq_received (
  set_handler CM_RTU_ATTR_ID rtu_received (
  set_handler CM_REP_ATTR_ID rep_received (
  set_handler CM_REJ_ATTR_ID rej_received (
  set_handler CM_REQ_ATTR_ID req_received no_handlers))))).

Definition process_packet (handlers : list (option (P → M unit))) (p : P) : M unit :=
  attr_id ← lift (get_attr_id p);
  let h := if attr_id <? CM_MAX_ATTR_ID then mjoin (handlers !! Z.to_nat attr_id) else None in
  match h with
  | Some h => h p
  | None =>
      hdr ← lift (pkt_mad p);
      _ ← lift (pkt_hdr8 "base_version" p hdr);
      _ ← lift (pkt_hdr8 "mgmt_class" p hdr);
      _ ← lift (pkt_hdr8 "class_version" p hdr);
      _ ← lift (pkt_hdr8 "method" p hdr);
      mret tt
  end.

Definition process (p : P) (dir : ctcm_direction) : M unit :=
  match dir with
  | CTCM_FROM_HOST => process_packet host_handlers p
  | CTCM_FROM_NET => process_packet net_handlers p
  end.

(** A sequence of packets. *)
Fixpoint run (s : tracker) (tr : list (ctcm_direction * P)) : result tracker :=
  match tr with
  | [] => Ok s
  | (dir, p) :: tr' =>
      match process p dir s with Ok (_, s') => run s' tr' | Fault e => Fault e end
  end.
End Handlers.

End Tracker.

Definition get_source_qpn (s : tracker) (flow : flow_key) : Z :=
  match qpn_map s !! flow with Some q => q | None => 0 end.
