(* ===== verification/Log.v ===== *)
(** * Log: src/src/logging.h and [flow_state::log]

    The text of a line of the log about a flow.  Where the line goes is DPDK's
    business ([rte_log]).  The lines that the tracker writes are in [TrackerLog]. *)

From Stdlib Require Import ZArith Lia String Ascii.
From stdpp Require Import base tactics numbers list strings gmap.
From S2P Require Import Prelude Memory Layout IbMad Iba IbtaC12 Mbuf CmPacket Tracker.

Local Open Scope string_scope.
Open Scope Z_scope.

(** [enum { FLOW_STATES }]: the states in their order. *)
Definition flow_states : list fstate :=
  [IDLE; REQ_SENT; REQ_RCVD; MRA_REQ_RCVD; MRA_REQ_SENT; MRA_REP_SENT; MRA_REP_RCVD;
   REP_SENT; REP_RCVD; ESTABLISHED; DREQ_SENT; DREQ_RCVD; TIMEWAIT].

Definition state_index (x : fstate) : nat :=
  match x with
  | IDLE => 0 | REQ_SENT => 1 | REQ_RCVD => 2 | MRA_REQ_RCVD => 3 | MRA_REQ_SENT => 4
  | MRA_REP_SENT => 5 | MRA_REP_RCVD => 6 | REP_SENT => 7 | REP_RCVD => 8 | ESTABLISHED => 9
  | DREQ_SENT => 10 | DREQ_RCVD => 11 | TIMEWAIT => 12
  end%nat.

(** [BOOST_PP_STRINGIZE] of each state. *)
Definition state_names : list string :=
  ["IDLE"; "REQ_SENT"; "REQ_RCVD"; "MRA_REQ_RCVD"; "MRA_REQ_SENT"; "MRA_REP_SENT"; "MRA_REP_RCVD";
   "REP_SENT"; "REP_RCVD"; "ESTABLISHED"; "DREQ_SENT"; "DREQ_RCVD"; "TIMEWAIT"].

(** [%x] of an unsigned 32-bit number. *)
Definition hex_digit (d : Z) : ascii :=
  ascii_of_nat (Z.to_nat (if d <? 10 then 48 + d else 87 + d)).

Fixpoint hex_digits (n : nat) (z : Z) (acc : string) : string :=
  match n with
  | O => acc
  | S n => let acc := String (hex_digit (z mod 16)) acc in
           if z / 16 =? 0 then acc else hex_digits n (z / 16) acc
  end.
Definition hex (z : Z) : string := hex_digits 8 (u32 z) "".

Definition CTCM_PREFIX : string := "conntrack-cm: ".
Definition log_debug (text : string) : string := CTCM_PREFIX ++ text.

(** [flow_state::log]: an index outside [state_names] is an access out of bounds. *)
Definition log (func msg : string) (f : flow_state) : result string :=
  match state_names !! state_index (state f) with
  | Some name =>
      Ok (log_debug (func ++ ":" ++ msg ++ " state: " ++ name ++ ", IDs: (0x" ++ hex (local_id f)
            ++ ", 0x" ++ hex ((remote_id f).2) ++ "), QPNs: (0x" ++ hex (local_qpn f) ++ ", 0x"
            ++ hex (remote_qpn f) ++ ")" ++ String "010" ""))
  | None => Fault OutOfBounds
  end.

(** ** Reading a number back *)

Definition digit_value (c : ascii) : Z :=
  let d := Z.of_nat (nat_of_ascii c) in if d <? 58 then d - 48 else d - 87.

Fixpoint hex_value (acc : Z) (s : string) : Z :=
  match s with
  | EmptyString => acc
  | String c s => hex_value (16 * acc + digit_value c) s
  end.

Lemma hex_digit_value d : 0 ≤ d < 16 → digit_value (hex_digit d) = d.
Proof.
  intros Hd. unfold digit_value, hex_digit. rewrite nat_ascii_embedding.
  - destruct (Z.ltb_spec d 10); rewrite Z2Nat.id by lia;
      [destruct (Z.ltb_spec (48 + d) 58)|destruct (Z.ltb_spec (87 + d) 58)]; lia.
  - destruct (Z.ltb_spec d 10); lia.
Qed.

Lemma hex_digits_value n z acc :
  0 ≤ z < 16 ^ Z.of_nat n → (0 < n)%nat → hex_value 0 (hex_digits n z acc) = hex_value z acc.
Proof.
  revert z acc. induction n as [|n IH]; intros z acc Hz Hn; [lia|].
  assert (Hd : hex_value (z / 16) (String (hex_digit (z mod 16)) acc) = hex_value z acc).
  { cbn. rewrite hex_digit_value by (apply Z.mod_pos_bound; lia). f_equal.
    pose proof (Z.div_mod z 16). lia. }
  cbn [hex_digits]. destruct (Z.eqb_spec (z / 16) 0) as [He|He].
  - by rewrite He in Hd.
  - rewrite Nat2Z.inj_succ, Z.pow_succ_r in Hz by lia.
    assert (0 ≤ z / 16 < 16 ^ Z.of_nat n)
      by (split; [apply Z.div_pos|apply Z.div_lt_upper_bound]; lia).
    destruct n as [|n]; [cbn in *; lia|]. rewrite IH by lia. done.
Qed.

Lemma hex_roundtrip z : 0 ≤ z < 2 ^ 32 → hex_value 0 (hex z) = z.
Proof.
  intros Hz. unfold hex, u32. rewrite Z.mod_small by lia. rewrite hex_digits_value by lia. done.
Qed.

(** The log can be written for every flow, and the name in it is that of the state:
    the table has an entry for each state, and no two alike. *)
Lemma log_total func msg f : ∃ text, log func msg f = Ok text.
Proof. unfold log. destruct (state f); cbn; eauto. Qed.

Lemma state_names_unique x y :
  state_names !! state_index x = state_names !! state_index y → x = y.
Proof. destruct x, y; cbn; congruence. Qed.

Lemma state_index_order : state_index <$> flow_states = seq 0 13.
Proof. reflexivity. Qed.
