(* ===== verification/TrackerInv.v ===== *)
(** * TrackerInv: the invariant of the connection tracker

    The maps and the heap of flows stay consistent under every packet: each map
    entry leads to the flow with that id, the table of queue pairs lists exactly
    the flows marked as listed, with their current numbers, and flow states follow
    the protocol's order. *)

From Stdlib Require Import ZArith Lia String.
From stdpp Require Import base tactics numbers list strings gmap.
From S2P Require Import Prelude Memory Layout IbMad Iba IbtaC12 Mbuf CmPacket Tracker.

Local Open Scope string_scope.
Open Scope Z_scope.
Open Scope ctcm_scope.

(** ** Inverting stateful code *)

Lemma M_bind_Ok {A B} (e : M A) (k : A → M B) s b s' :
  (e ≫= k) s = Ok (b, s') ↔ ∃ a s1, e s = Ok (a, s1) ∧ k a s1 = Ok (b, s').
Proof.
  unfold mbind, M_bind. destruct (e s) as [[a s1]|f]; split.
  - eauto.
  - by intros (? & ? & [= -> ->] & ?).
  - done.
  - by intros (? & ? & ? & ?).
Qed.

Lemma M_bind_l {A B} (e : M A) (k : A → M B) s a s1 :
  e s = Ok (a, s1) → (e ≫= k) s = k a s1.
Proof. intros He. unfold mbind, M_bind. by rewrite He. Qed.

Lemma lift_Ok {A} (e : result A) s a s' : lift e s = Ok (a, s') ↔ e = Ok a ∧ s' = s.
Proof. unfold lift. destruct e; (split; [intros [=]; by subst|by intros [[= ->] ->] || by intros [? ?]]). Qed.

Lemma assertM_Ok b s u s' : assertM b s = Ok (u, s') ↔ b = true ∧ s' = s.
Proof. unfold assertM. rewrite lift_Ok, assert_that_Ok. done. Qed.

Lemma obj_Ok l s f s' : obj l s = Ok (f, s') ↔ heap s !! l = Some f ∧ s' = s.
Proof. unfold obj. destruct (heap s !! l); (split; [intros [=]; by subst|by intros [[= ->] ->] || by intros [? ?]]). Qed.

Lemma mret_M_Ok {A} (a : A) s b s' : (mret a : M A) s = Ok (b, s') ↔ b = a ∧ s' = s.
Proof. unfold mret, M_ret. split; [intros [=]; by subst|by intros [-> ->]]. Qed.

Lemma update_Ok g s u s' : update g s = Ok (u, s') ↔ s' = g s.
Proof. unfold update. destruct u. split; [intros [=]; by subst|by intros ->]. Qed.

Lemma get_state_Ok s a s' : get_state s = Ok (a, s') ↔ a = s ∧ s' = s.
Proof. unfold get_state. split; [intros [=]; by subst|by intros [-> ->]]. Qed.

Lemma assign_Ok l g s u s' :
  assign l g s = Ok (u, s') ↔
  ∃ f, heap s !! l = Some f ∧ s' = set_heap (<[l := g f]> (heap s)) s.
Proof.
  unfold assign. rewrite M_bind_Ok. split.
  - intros (f & s1 & [Hf ->]%obj_Ok & ->%update_Ok). eauto.
  - intros (f & Hf & ->). exists f, s. rewrite obj_Ok, update_Ok. done.
Qed.

(** Decompose a run of stateful code into its steps. *)
Ltac inv_M :=
  repeat match goal with
  | H : (_ ≫= _) _ = Ok (_, _) |- _ =>
      let a := fresh "a" in let s1 := fresh "s" in let E := fresh "E" in
      apply M_bind_Ok in H as (a & s1 & E & H)
  | H : lift _ _ = Ok _ |- _ => apply lift_Ok in H as [H ->]
  | H : assertM _ _ = Ok _ |- _ => apply assertM_Ok in H as [H ->]
  | H : obj _ _ = Ok _ |- _ => apply obj_Ok in H as [H ->]
  | H : mret _ _ = Ok (?b, ?s) |- _ => apply mret_M_Ok in H as [-> ->]
  | H : update _ _ = Ok _ |- _ => apply update_Ok in H as ->
  | H : get_state _ = Ok _ |- _ => apply get_state_Ok in H as [-> ->]
  | H : assign _ _ _ = Ok _ |- _ =>
      let f := fresh "f" in let Hf := fresh "Hf" in
      apply assign_Ok in H as (f & Hf & ->)
  end.

(** ** The invariant *)

(** Flows whose queue pair may be listed. *)
Definition live_state (x : fstate) : bool :=
  match x with ESTABLISHED | DREQ_SENT | DREQ_RCVD => true | _ => false end.

(** The states a flow can have: MRA messages are not handled and there is no
    timer. *)
Definition used_state (x : fstate) : bool :=
  match x with
  | MRA_REQ_RCVD | MRA_REQ_SENT | MRA_REP_SENT | MRA_REP_RCVD | TIMEWAIT => false
  | _ => true
  end.

Record flow_ok (f : flow_state) : Prop := {
  fo_state : used_state (state f) = true;
  fo_remote : remote_id f = no_key ∨ key_bool (remote_id f) = true;
  fo_live : in_qpn_map f = true →
    live_state (state f) = true ∧ local_id f ≠ 0 ∧ local_qpn f ≠ 0 ∧ remote_qpn f ≠ 0;
}.

Record wf (s : tracker) : Prop := {
  wf_local : ∀ k l, local_map s !! k = Some l →
    k ≠ 0 ∧ ∃ f, heap s !! l = Some f ∧ local_id f = k;
  wf_remote : ∀ k l, remote_map s !! k = Some l →
    key_bool k = true ∧ ∃ f, heap s !! l = Some f ∧ remote_id f = k;
  wf_next : ∀ l f, heap s !! l = Some f → (l < next s)%nat;
  wf_flow : ∀ l f, heap s !! l = Some f → flow_ok f;
  wf_listed : ∀ l f, heap s !! l = Some f → in_qpn_map f = true →
    local_map s !! local_id f = Some l ∧ qpn_map s !! get_flow_key f = Some (local_qpn f);
  wf_unique : ∀ l f l' f', heap s !! l = Some f → heap s !! l' = Some f' →
    in_qpn_map f = true → in_qpn_map f' = true → get_flow_key f = get_flow_key f' → l = l';
  wf_qpn : ∀ k q, qpn_map s !! k = Some q →
    ∃ l f, heap s !! l = Some f ∧ in_qpn_map f = true ∧ get_flow_key f = k ∧ local_qpn f = q;
}.

Lemma wf_empty : wf empty_tracker.
Proof. by split. Qed.

(** ** Assignments to a flow *)

(** An assignment that leaves the identity of the flow and, while it is listed,
    its queue pairs. *)
Record gentle (f f' : flow_state) : Prop := {
  ge_local : local_id f' = local_id f;
  ge_remote : remote_id f' = remote_id f;
  ge_listed : in_qpn_map f' = in_qpn_map f;
  ge_qpns : in_qpn_map f = true → local_qpn f' = local_qpn f ∧ remote_qpn f' = remote_qpn f;
}.

Lemma wf_assign s l f f' :
  wf s → heap s !! l = Some f → gentle f f' → flow_ok f' → wf (set_heap (<[l := f']> (heap s)) s).
Proof.
  intros W Hf [Hl Hr Hi Hq] Hok.
  assert (Hlook : ∀ l' g', <[l := f']> (heap s) !! l' = Some g' →
    ∃ g, heap s !! l' = Some g ∧ local_id g' = local_id g ∧ remote_id g' = remote_id g ∧
         in_qpn_map g' = in_qpn_map g ∧
         (in_qpn_map g = true → get_flow_key g' = get_flow_key g ∧ local_qpn g' = local_qpn g)).
  { intros l' g'. destruct (decide (l' = l)) as [->|Hne].
    - rewrite lookup_insert_eq. intros [= <-]. exists f. split_and!; [done..|].
      intros Hin. unfold get_flow_key. destruct (Hq Hin) as [-> ->]. by rewrite Hr.
    - rewrite lookup_insert_ne by done. intros Hg. by exists g'. }
  assert (Hback : ∀ l' g, heap s !! l' = Some g → ∃ g', <[l := f']> (heap s) !! l' = Some g').
  { intros l' g Hg. destruct (decide (l' = l)) as [->|Hne].
    - rewrite lookup_insert_eq. eauto.
    - rewrite lookup_insert_ne by done. eauto. }
  split; cbn.
  - intros k l' [Hk (g & Hg & <-)]%(wf_local _ W). split; [done|].
    destruct (Hback _ _ Hg) as [g' Hg']. exists g'. split; [done|].
    destruct (Hlook _ _ Hg') as (g0 & Hg0 & -> & _). by simplify_eq.
  - intros k l' [Hk (g & Hg & <-)]%(wf_remote _ W). split; [done|].
    destruct (Hback _ _ Hg) as [g' Hg']. exists g'. split; [done|].
    destruct (Hlook _ _ Hg') as (g0 & Hg0 & _ & -> & _). by simplify_eq.
  - intros l' g' (g & Hg & _)%Hlook. by eapply wf_next.
  - intros l' g' Hg'. destruct (decide (l' = l)) as [->|Hne].
    + rewrite lookup_insert_eq in Hg'. by simplify_eq.
    + rewrite lookup_insert_ne in Hg' by done. by eapply wf_flow.
  - intros l' g' (g & Hg & -> & _ & Hi' & Hk)%Hlook Hin. rewrite Hi' in Hin.
    destruct (Hk Hin) as [-> ->]. by eapply wf_listed.
  - intros l1 g1' l2 g2' (g1 & Hg1 & _ & _ & Hi1 & Hk1)%Hlook (g2 & Hg2 & _ & _ & Hi2 & Hk2)%Hlook.
    rewrite Hi1, Hi2. intros Hin1 Hin2. destruct (Hk1 Hin1) as [-> _], (Hk2 Hin2) as [-> _].
    by eapply wf_unique.
  - intros k q (l' & g & Hg & Hin & <- & <-)%(wf_qpn _ W).
    destruct (Hback _ _ Hg) as [g' Hg']. exists l', g'.
    destruct (Hlook _ _ Hg') as (g0 & Hg0 & _ & _ & Hi' & Hk). simplify_eq.
    destruct (Hk Hin) as [-> ->]. by rewrite Hi'.
Qed.

(** A change that concerns only one flow, which is not listed before or after. *)
Lemma wf_unlisted s l f' nx lm rm :
  wf s → (∀ f, heap s !! l = Some f → in_qpn_map f = false) →
  in_qpn_map f' = false → flow_ok f' → (next s ≤ nx)%nat → (l < nx)%nat →
  (∀ k l', lm !! k = Some l' → k ≠ 0 ∧ ∃ f, <[l := f']> (heap s) !! l' = Some f ∧ local_id f = k) →
  (∀ k l', rm !! k = Some l' →
     key_bool k = true ∧ ∃ f, <[l := f']> (heap s) !! l' = Some f ∧ remote_id f = k) →
  (∀ k l', local_map s !! k = Some l' → l' ≠ l → lm !! k = Some l') →
  wf (Tracker (<[l := f']> (heap s)) nx lm rm (qpn_map s)).
Proof.
  intros W Hf Hf' Hok Hnx Hl Hlm Hrm Hkeep.
  assert (Hother : ∀ l' g, <[l := f']> (heap s) !! l' = Some g → in_qpn_map g = true →
    l' ≠ l ∧ heap s !! l' = Some g).
  { intros l' g. rewrite lookup_insert_Some. intros [[<- <-]|[Hne Hg]] Hin; [congruence|done]. }
  split; cbn.
  - done.
  - done.
  - intros l' g. rewrite lookup_insert_Some. intros [[<- _]|[_ Hg%(wf_next _ W)]]; [done|lia].
  - intros l' g. rewrite lookup_insert_Some. intros [[_ <-]|[_ Hg]]; [done|by eapply wf_flow].
  - intros l' g Hg Hin. destruct (Hother _ _ Hg Hin) as [Hne Hg0].
    destruct (wf_listed _ W _ _ Hg0 Hin) as [Hlm0 Hq]. split; [by apply Hkeep|done].
  - intros l1 g1 l2 g2 Hg1 Hg2 Hin1 Hin2.
    destruct (Hother _ _ Hg1 Hin1), (Hother _ _ Hg2 Hin2). by eapply wf_unique.
  - intros k q (l' & g & Hg & Hin & Hk & Hq)%(wf_qpn _ W). exists l', g.
    split_and!; [|done..]. rewrite lookup_insert_ne; [done|]. intros ->.
    specialize (Hf _ Hg). congruence.
Qed.

(** Map entries survive an assignment that keeps the ids of the flow. *)
Lemma entries_insert {K} `{Countable K} (m : gmap K loc) (P : K → Prop) (h : gmap loc flow_state)
    (id : flow_state → K) l f f' :
  (∀ k l', m !! k = Some l' → P k ∧ ∃ g, h !! l' = Some g ∧ id g = k) →
  h !! l = Some f → id f' = id f →
  ∀ k l', m !! k = Some l' → P k ∧ ∃ g, <[l := f']> h !! l' = Some g ∧ id g = k.
Proof.
  intros Hm Hf Hid k l' (HP & g & Hg & <-)%Hm. split; [done|].
  destruct (decide (l' = l)) as [->|Hne].
  - exists f'. rewrite lookup_insert_eq. simplify_eq. done.
  - exists g. by rewrite lookup_insert_ne.
Qed.

Lemma entries_fresh {K} `{Countable K} (m : gmap K loc) (P : K → Prop) (h : gmap loc flow_state)
    (id : flow_state → K) l f' :
  (∀ k l', m !! k = Some l' → P k ∧ ∃ g, h !! l' = Some g ∧ id g = k) →
  h !! l = None →
  ∀ k l', m !! k = Some l' → P k ∧ ∃ g, <[l := f']> h !! l' = Some g ∧ id g = k.
Proof.
  intros Hm Hf k l' (HP & g & Hg & <-)%Hm. split; [done|].
  exists g. rewrite lookup_insert_ne; [done|]. intros ->. congruence.
Qed.

Lemma wf_fresh s : wf s → heap s !! next s = None.
Proof.
  intros W. destruct (heap s !! next s) eqn:Hn; [|done]. apply (wf_next _ W) in Hn. lia.
Qed.

Lemma wf_make_shared s l s' : wf s → make_shared s = Ok (l, s') → wf s'.
Proof.
  intros W [= <- <-]. pose proof (wf_fresh _ W) as Hn.
  apply wf_unlisted; try done; try lia.
  - congruence.
  - split; cbn; auto.
  - eapply entries_fresh; [apply W|done].
  - eapply entries_fresh; [apply W|done].
Qed.

(** Only a flow with a local id is listed. *)
Lemma unnamed_unlisted s l f :
  wf s → heap s !! l = Some f → local_id f = 0 → in_qpn_map f = false.
Proof.
  intros W Hf Hid. pose proof (fo_live _ (wf_flow _ W _ _ Hf)) as Hl.
  destruct (in_qpn_map f); [|done]. by destruct Hl as (_ & ? & _).
Qed.

(** Giving a flow its local id, or its remote key. *)
Lemma wf_set_local s l f k :
  wf s → heap s !! l = Some f → local_id f = 0 → k ≠ 0 → local_map s !! k = None →
  wf (set_local_map (<[k := l]> (local_map s))
        (set_heap (<[l := set_local_id k f]> (heap s)) s)).
Proof.
  intros W Hf Hid Hk Hn. pose proof (wf_flow _ W _ _ Hf) as [Hs Hr Hl].
  pose proof (unnamed_unlisted _ _ _ W Hf Hid) as Hin.
  assert (Hno : ∀ k', local_map s !! k' ≠ Some l).
  { intros k' (? & g & Hg & <-)%(wf_local _ W). congruence. }
  unfold set_local_map, set_heap. cbn. apply wf_unlisted; try done.
  - congruence.
  - split; cbn; [done..|congruence].
  - by eapply wf_next.
  - intros k' l'. rewrite lookup_insert_Some. intros [[<- <-]|[Hne Hk']].
    + split; [done|]. eexists. by rewrite lookup_insert_eq.
    + pose proof (wf_local _ W _ _ Hk') as (? & g & Hg & <-). split; [done|]. exists g.
      rewrite lookup_insert_ne; [done|]. intros ->. by eapply Hno.
  - by eapply entries_insert; [apply W|..].
  - intros k' l' Hk' Hne. rewrite lookup_insert_ne; [done|]. congruence.
Qed.

Lemma wf_set_remote s l f k :
  wf s → heap s !! l = Some f → in_qpn_map f = false → key_bool (remote_id f) = false →
  key_bool k = true → remote_map s !! k = None →
  wf (set_remote_map (<[k := l]> (remote_map s))
        (set_heap (<[l := set_remote_id k f]> (heap s)) s)).
Proof.
  intros W Hf Hin Hid Hk Hn. pose proof (wf_flow _ W _ _ Hf) as [Hs Hr Hl].
  assert (Hno : ∀ k', remote_map s !! k' ≠ Some l).
  { intros k' (? & g & Hg & <-)%(wf_remote _ W). congruence. }
  unfold set_remote_map, set_heap. cbn. apply wf_unlisted; try done.
  - congruence.
  - split; cbn; [done|by right|congruence].
  - by eapply wf_next.
  - by eapply entries_insert; [apply W|..].
  - intros k' l'. rewrite lookup_insert_Some. intros [[<- <-]|[Hne Hk']].
    + split; [done|]. eexists. by rewrite lookup_insert_eq.
    + pose proof (wf_remote _ W _ _ Hk') as (? & g & Hg & <-). split; [done|]. exists g.
      rewrite lookup_insert_ne; [done|]. intros ->. by eapply Hno.
Qed.

(** Dropping map entries. *)
Lemma wf_delete_remote s k : wf s → wf (set_remote_map (delete k (remote_map s)) s).
Proof.
  intros W. split; cbn; try apply W. intros k' l [_ Hl]%lookup_delete_Some. by apply (wf_remote _ W).
Qed.

Lemma wf_delete_local s k :
  wf s → (∀ l f, local_map s !! k = Some l → heap s !! l = Some f → in_qpn_map f = false) →
  wf (set_local_map (delete k (local_map s)) s).
Proof.
  intros W Hk. split; cbn; try apply W.
  - intros k' l [_ Hl]%lookup_delete_Some. by apply (wf_local _ W).
  - intros l f Hf Hin. destruct (wf_listed _ W _ _ Hf Hin) as [Hl Hq]. split; [|done].
    rewrite lookup_delete_ne; [done|]. intros ->. specialize (Hk _ _ Hl Hf). congruence.
Qed.

(** ** Connections

    What the table of queue pairs lists: one connection per listed flow. *)
Record conn := Conn {
  c_lid : Z;
  c_remote : cm_flow_key;
  c_lqpn : Z;
  c_rqpn : Z;
}.

#[global] Instance conn_eq_dec : EqDecision conn.
Proof. solve_decision. Defined.

Definition conn_of (f : flow_state) : conn :=
  Conn (local_id f) (remote_id f) (local_qpn f) (remote_qpn f).
Definition conn_key (c : conn) : flow_key := ((c_remote c).1, c_rqpn c).

Definition listed (s : tracker) (c : conn) : Prop :=
  ∃ l f, heap s !! l = Some f ∧ in_qpn_map f = true ∧ conn_of f = c.

Definition quiet (s s' : tracker) : Prop := ∀ c, listed s' c ↔ listed s c.

#[global] Instance quiet_preorder : PreOrder quiet.
Proof. split; [by intros s c|]. intros s1 s2 s3 H12 H23 c. by rewrite (H23 c), (H12 c). Qed.

Lemma quiet_heap s s' : heap s' = heap s → quiet s s'.
Proof. intros Hh c. unfold listed. by rewrite Hh. Qed.

Lemma quiet_update s s' l f' :
  heap s' = <[l := f']> (heap s) → in_qpn_map f' = false →
  (∀ f, heap s !! l = Some f → in_qpn_map f = false) → quiet s s'.
Proof.
  intros Hh Hf' Hf c. unfold listed. rewrite Hh. split; intros (l' & g & Hg & Hin & Hc).
  - exists l', g. split; [|done]. apply lookup_insert_Some in Hg as [[_ <-]|[_ Hg]]; [congruence|done].
  - exists l', g. split; [|done]. rewrite lookup_insert_ne; [done|]. intros ->.
    specialize (Hf _ Hg). congruence.
Qed.

Lemma quiet_assign s l f f' :
  heap s !! l = Some f → gentle f f' → quiet s (set_heap (<[l := f']> (heap s)) s).
Proof.
  intros Hf [Hl Hr Hi Hq]. destruct (in_qpn_map f) eqn:Hin.
  2:{ eapply (quiet_update _ _ l); [done|congruence|congruence]. }
  destruct (Hq eq_refl) as [Hlq Hrq].
  assert (Hc : conn_of f' = conn_of f) by (unfold conn_of; congruence).
  intros c. unfold listed. cbn. split; intros (l' & g & Hg & Hg1 & Hg2).
  - apply lookup_insert_Some in Hg as [[<- <-]|[_ Hg]]; [exists l, f|exists l', g];
      (split_and!; [done|congruence..]).
  - destruct (decide (l' = l)) as [->|Hne].
    + assert (g = f) as -> by congruence. exists l, f'. rewrite lookup_insert_eq. split_and!; [done|congruence|congruence].
    + exists l', g. by rewrite lookup_insert_ne.
Qed.

(** ** What a packet about [lid] and [rid] may touch *)

(** The flows with one of the ids, and flows that have no id yet. *)
Definition mentions (lid : Z) (rid : cm_flow_key) (f : flow_state) : Prop :=
  (lid ≠ 0 ∧ local_id f = lid) ∨ (key_bool rid = true ∧ remote_id f = rid) ∨
  (local_id f = 0 ∧ remote_id f = no_key).

Record frame (lid : Z) (rid : cm_flow_key) (s s' : tracker) : Prop := {
  fr_local : ∀ k, k ≠ lid → local_map s' !! k = local_map s !! k;
  fr_remote : ∀ k, k ≠ rid → remote_map s' !! k = remote_map s !! k;
  fr_heap : ∀ l f, heap s !! l = Some f → ¬ mentions lid rid f → heap s' !! l = Some f;
}.

#[global] Instance frame_preorder lid rid : PreOrder (frame lid rid).
Proof.
  split; [by intros s; split|]. intros s1 s2 s3 [L12 R12 H12] [L23 R23 H23]. split.
  - intros k Hk. by rewrite L23, L12.
  - intros k Hk. by rewrite R23, R12.
  - intros l f Hf Hm. apply H23; [|done]. by apply H12.
Qed.

Lemma frame_update lid rid s s' l f' :
  heap s' = <[l := f']> (heap s) → (∀ f, heap s !! l = Some f → mentions lid rid f) →
  (∀ k, k ≠ lid → local_map s' !! k = local_map s !! k) →
  (∀ k, k ≠ rid → remote_map s' !! k = remote_map s !! k) → frame lid rid s s'.
Proof.
  intros Hh Hm HL HR. split; [done..|]. intros l' f Hf Hn. rewrite Hh.
  rewrite lookup_insert_ne; [done|]. intros <-. by apply Hn, Hm.
Qed.

(** All that is known after a step about [lid] and [rid] that lists or drops no
    connection. *)
Record calm (lid : Z) (rid : cm_flow_key) (s s' : tracker) : Prop := {
  ca_wf : wf s → wf s';
  ca_frame : frame lid rid s s';
  ca_quiet : quiet s s';
}.

#[global] Instance calm_preorder lid rid : PreOrder (calm lid rid).
Proof.
  split; [by intros s; split|]. intros s1 s2 s3 [W12 F12 Q12] [W23 F23 Q23].
  split; [auto|by etrans|by etrans].
Qed.

(** ** The table operations *)

Lemma calm_make_shared lid rid s l s' :
  wf s → make_shared s = Ok (l, s') →
  calm lid rid s s' ∧ local_map s' = local_map s ∧ remote_map s' = remote_map s ∧
  heap s' !! l = Some new_flow_state.
Proof.
  intros W Hs. pose proof (wf_fresh _ W) as Hn. pose proof (wf_make_shared _ _ _ W Hs) as W'.
  injection Hs as <- <-. split_and!; [|done|done|apply lookup_insert_eq]. split.
  - done.
  - by eapply frame_update; [done|congruence|..].
  - by eapply quiet_update; [done|done|congruence].
Qed.

Lemma calm_set_local lid rid s l f :
  wf s → heap s !! l = Some f → local_id f = 0 → lid ≠ 0 → local_map s !! lid = None →
  mentions lid rid f →
  calm lid rid s (set_local_map (<[lid := l]> (local_map s))
                    (set_heap (<[l := set_local_id lid f]> (heap s)) s)).
Proof.
  intros W Hf Hid Hlid Hn Hm.
  pose proof (unnamed_unlisted _ _ _ W Hf Hid) as Hin.
  split.
  - intros _. by apply wf_set_local.
  - eapply frame_update; [done|congruence| |done]. intros k Hk. by apply lookup_insert_ne.
  - eapply quiet_update; [done|done|congruence].
Qed.

Lemma calm_set_remote lid rid s l f :
  wf s → heap s !! l = Some f → in_qpn_map f = false → key_bool (remote_id f) = false →
  key_bool rid = true → remote_map s !! rid = None → mentions lid rid f →
  calm lid rid s (set_remote_map (<[rid := l]> (remote_map s))
                    (set_heap (<[l := set_remote_id rid f]> (heap s)) s)).
Proof.
  intros W Hf Hin Hid Hrid Hn Hm. split.
  - intros _. by apply wf_set_remote.
  - eapply frame_update; [done|congruence|done|]. intros k Hk. by apply lookup_insert_ne.
  - eapply quiet_update; [done|done|congruence].
Qed.

Lemma calm_assign lid rid s l f f' :
  heap s !! l = Some f → gentle f f' → flow_ok f' → mentions lid rid f →
  calm lid rid s (set_heap (<[l := f']> (heap s)) s).
Proof.
  intros Hf Hg Hok Hm. split.
  - intros W. by eapply wf_assign.
  - eapply frame_update; [done|congruence|done|done].
  - by eapply quiet_assign.
Qed.

(** The flow that [add_new_flow] returns: known by both ids, otherwise as before
    or new. *)
Record added (lid : Z) (rid : cm_flow_key) (s : tracker) (l : loc) (s' : tracker) : Prop := {
  ad_calm : calm lid rid s s';
  ad_local : lid ≠ 0 → local_map s' !! lid = Some l;
  ad_remote : key_bool rid = true → remote_map s' !! rid = Some l;
  ad_same_local : ∀ a, local_map s !! lid = Some a → l = a;
  ad_same_remote : ∀ a, local_map s !! lid = None → remote_map s !! rid = Some a → l = a;
  ad_flow : ∃ f', heap s' !! l = Some f' ∧ mentions lid rid f' ∧
    match heap s !! l with
    | Some f => state f' = state f ∧ local_qpn f' = local_qpn f ∧
                remote_qpn f' = remote_qpn f ∧ in_qpn_map f' = in_qpn_map f
    | None => state f' = IDLE ∧ local_qpn f' = 0 ∧ remote_qpn f' = 0 ∧ in_qpn_map f' = false
    end;
}.

(** The two assignments at the end of [add_new_flow]. *)
Definition name_local (lid : Z) (st : loc) : M unit :=
  f ← obj st;
  _ ← assertM (local_id f =? 0);
  _ ← assign st (set_local_id lid);
  update (λ s, set_local_map (<[lid := st]> (local_map s)) s).

Definition name_remote (rid : cm_flow_key) (st : loc) : M unit :=
  f ← obj st;
  _ ← assertM (negb (key_bool (remote_id f)));
  _ ← assign st (set_remote_id rid);
  update (λ s, set_remote_map (<[rid := st]> (remote_map s)) s).

Lemma name_local_spec lid rid s l f u s' :
  wf s → lid ≠ 0 → local_map s !! lid = None → heap s !! l = Some f → mentions lid rid f →
  name_local lid l s = Ok (u, s') →
  calm lid rid s s' ∧ local_map s' !! lid = Some l ∧ remote_map s' = remote_map s ∧
  heap s' !! l = Some (set_local_id lid f).
Proof.
  intros W Hlid Hn Hf Hm Hs. unfold name_local in Hs. inv_M. simplify_eq.
  apply Z.eqb_eq in E0. split_and!; [exact (calm_set_local lid rid s l f W Hf E0 Hlid Hn Hm)|apply lookup_insert_eq|done|].
  apply lookup_insert_eq.
Qed.

Lemma name_remote_spec lid rid s l f u s' :
  wf s → key_bool rid = true → remote_map s !! rid = None → heap s !! l = Some f →
  in_qpn_map f = false → mentions lid rid f → name_remote rid l s = Ok (u, s') →
  calm lid rid s s' ∧ remote_map s' !! rid = Some l ∧ local_map s' = local_map s ∧
  heap s' !! l = Some (set_remote_id rid f).
Proof.
  intros W Hlid Hn Hf Hin Hm Hs. unfold name_remote in Hs. inv_M. simplify_eq.
  apply negb_true_iff in E0.
  split_and!; [exact (calm_set_remote lid rid s l f W Hf Hin E0 Hlid Hn Hm)|apply lookup_insert_eq|done|apply lookup_insert_eq].
Qed.

(** Everything of a flow but its ids. *)
Definition same_progress (f f' : flow_state) : Prop :=
  state f' = state f ∧ local_qpn f' = local_qpn f ∧ remote_qpn f' = remote_qpn f ∧
  in_qpn_map f' = in_qpn_map f.

Lemma add_tail lid rid s l f u1 u2 s1 s2 :
  wf s → heap s !! l = Some f → mentions lid rid f →
  in_qpn_map f = false ∨ remote_map s !! rid ≠ None →
  local_map s !! lid = None ∨ local_map s !! lid = Some l →
  remote_map s !! rid = None ∨ remote_map s !! rid = Some l →
  (if bool_decide (local_map s !! lid = None) && negb (lid =? 0)
   then name_local lid l else mret tt) s = Ok (u1, s1) →
  (if bool_decide (remote_map s !! rid = None) && key_bool rid
   then name_remote rid l else mret tt) s1 = Ok (u2, s2) →
  calm lid rid s s2 ∧ (lid ≠ 0 → local_map s2 !! lid = Some l) ∧
  (key_bool rid = true → remote_map s2 !! rid = Some l) ∧
  ∃ f', heap s2 !! l = Some f' ∧ mentions lid rid f' ∧ same_progress f f'.
Proof.
  intros W Hf Hm Hq HL HR H1 H2.
  assert (Hs1 : calm lid rid s s1 ∧ (lid ≠ 0 → local_map s1 !! lid = Some l) ∧
    remote_map s1 = remote_map s ∧
    ∃ f1, heap s1 !! l = Some f1 ∧ mentions lid rid f1 ∧ same_progress f f1).
  { clear H2. case_bool_decide as Hn; [destruct (Z.eqb_spec lid 0) as [->|Hlid]|];
      cbn [negb andb] in H1.
    - inv_M. split_and!; [reflexivity|done|done|]. exists f. done.
    - destruct (name_local_spec lid rid s l f u1 s1) as (C & ? & ? & ?); [done..|].
      split_and!; [done..|]. exists (set_local_id lid f).
      split_and!; [done|by left|done..].
    - inv_M. split_and!; [reflexivity|by destruct HL|done|]. by exists f. }
  clear H1. destruct Hs1 as (C1 & L1 & R1 & f1 & Hf1 & Hm1 & P1).
  case_bool_decide as Hn; [destruct (key_bool rid) eqn:Hk|]; cbn [andb] in H2.
  - destruct Hq as [Hq|]; [|done].
    destruct (name_remote_spec lid rid s1 l f1 u2 s2) as (C & ? & Hl2 & ?);
      [by apply C1|done|by rewrite R1|done|destruct P1 as (_ & _ & _ & ?); congruence|done|done|].
    split_and!; [by etrans|by rewrite Hl2|done|]. exists (set_remote_id rid f1).
    split_and!; [done|by right; left|done].
  - inv_M. split_and!; [done..|]. by exists f1.
  - inv_M. split_and!; [done..|rewrite R1; by destruct HR|]. by exists f1.
Qed.

Lemma mentions_local s lid rid l f :
  wf s → local_map s !! lid = Some l → heap s !! l = Some f → mentions lid rid f.
Proof. intros W (Hk & g & Hg & Hid)%(wf_local _ W) Hf. simplify_eq. by left. Qed.

Lemma mentions_remote s lid rid l f :
  wf s → remote_map s !! rid = Some l → heap s !! l = Some f → mentions lid rid f.
Proof. intros W (Hk & g & Hg & Hid)%(wf_remote _ W) Hf. simplify_eq. by right; left. Qed.

Lemma add_new_flow_spec lid rid s l s' :
  wf s →
  (∀ a f, local_map s !! lid = Some a → heap s !! a = Some f → in_qpn_map f = false) →
  add_new_flow lid rid s = Ok (l, s') → added lid rid s l s'.
Proof.
  intros W Hq Hs. unfold add_new_flow in Hs. apply M_bind_Ok in Hs as (? & ? & [-> ->]%get_state_Ok & Hs).
  cbn zeta in Hs. fold (name_local lid) (name_remote rid) in Hs.
  destruct (local_map s !! lid) as [a|] eqn:HL, (remote_map s !! rid) as [b|] eqn:HR.
  - apply M_bind_Ok in Hs as (? & ? & [<-%bool_decide_eq_true ->]%assertM_Ok & Hs).
    apply M_bind_Ok in Hs as (f & ? & [Hf ->]%obj_Ok & Hs). inv_M.
    split; [reflexivity|done|done|congruence|congruence|]. exists f. rewrite Hf.
    split_and!; [done|by eapply mentions_local|done..].
  - apply M_bind_Ok in Hs as (? & ? & [-> ->]%mret_M_Ok & Hs).
    apply M_bind_Ok in Hs as (u1 & s1 & H1 & Hs). apply M_bind_Ok in Hs as (u2 & s2 & H2 & Hs).
    inv_M. destruct (wf_local _ W _ _ HL) as (Hk & f & Hf & Hid).
    destruct (add_tail lid rid s a f u1 u2 s1 s2) as (C & L & R & f' & Hf' & Hm' & Hp);
      rewrite ?HL, ?HR; eauto using mentions_local.
    split; [done..|congruence|congruence|]. exists f'. by rewrite Hf.
  - apply M_bind_Ok in Hs as (? & ? & [-> ->]%mret_M_Ok & Hs).
    apply M_bind_Ok in Hs as (u1 & s1 & H1 & Hs). apply M_bind_Ok in Hs as (u2 & s2 & H2 & Hs).
    inv_M. destruct (wf_remote _ W _ _ HR) as (Hk & f & Hf & Hid).
    destruct (add_tail lid rid s b f u1 u2 s1 s2) as (C & L & R & f' & Hf' & Hm' & Hp);
      rewrite ?HL, ?HR; eauto using mentions_remote.
    split; [done..|congruence|congruence|]. exists f'. by rewrite Hf.
  - apply M_bind_Ok in Hs as (st & s0 & H0 & Hs).
    apply M_bind_Ok in H0 as (? & ? & [Ha ->]%assertM_Ok & H0).
    destruct (calm_make_shared lid rid s st s0 W H0) as (C0 & HL0 & HR0 & Hf0).
    apply M_bind_Ok in Hs as (u1 & s1 & H1 & Hs). apply M_bind_Ok in Hs as (u2 & s2 & H2 & Hs).
    inv_M.
    destruct (add_tail lid rid s0 st new_flow_state u1 u2 s1 s2) as (C & L & R & f' & Hf' & Hm' & Hp);
      rewrite ?HL0, ?HR0, ?HL, ?HR; eauto; [by apply C0|by right; right|].
    split; [by etrans|done..|congruence|congruence|]. exists f'. injection H0 as <- _. by rewrite (wf_fresh _ W).
Qed.

(** [get_flow]: the flow is known by the id it was looked up with. *)
Lemma get_flow_spec lid rid s l s' :
  wf s → get_flow lid rid s = Ok (l, s') →
  calm lid rid s s' ∧ (lid ≠ 0 → local_map s' !! lid = Some l) ∧
  (lid = 0 → remote_map s' !! rid = Some l) ∧
  ∃ f, heap s' !! l = Some f ∧ mentions lid rid f.
Proof.
  intros W Hs. unfold get_flow in Hs.
  apply M_bind_Ok in Hs as (? & ? & [Ha ->]%assertM_Ok & Hs).
  apply M_bind_Ok in Hs as (? & ? & [-> ->]%get_state_Ok & Hs). cbn zeta in Hs.
  destruct (Z.eqb_spec lid 0) as [->|Hlid]; cbn [negb orb] in *.
  - destruct (remote_map s !! rid) as [b|] eqn:HR.
    + inv_M. split_and!; [reflexivity|done|done|].
      destruct (wf_remote _ W _ _ HR) as (_ & f & Hf & _). eauto using mentions_remote.
    + apply add_new_flow_spec in Hs as [C L R _ _ (f & Hf & Hm & _)]; [|done|].
      * split_and!; eauto.
      * by intros a f (? & _)%(wf_local _ W).
  - destruct (local_map s !! lid) as [a|] eqn:HL.
    + inv_M. split_and!; [reflexivity|done|done|].
      destruct (wf_local _ W _ _ HL) as (_ & f & Hf & _). eauto using mentions_local.
    + apply add_new_flow_spec in Hs as [C L R _ _ (f & Hf & Hm & _)]; [|done|congruence].
      split_and!; eauto.
Qed.

Lemma frame_weaken lid rid s s' :
  wf s → wf s' → frame lid no_key s s' → frame lid rid s s'.
Proof.
  intros W W' [L R Hh]. split; [done| |].
  - intros k Hk. destruct (decide (k = no_key)) as [->|]; [|by apply R].
    destruct (remote_map s !! no_key) eqn:E1; [by apply (wf_remote _ W) in E1 as []|].
    destruct (remote_map s' !! no_key) eqn:E2; [by apply (wf_remote _ W') in E2 as []|done].
  - intros l f Hf Hm. apply Hh; [done|]. intros [Hx|[[Hx _]|Hx]];
      [apply Hm; by left|discriminate Hx|apply Hm; by right; right].
Qed.

Lemma calm_weaken lid rid s s' : wf s → calm lid no_key s s' → calm lid rid s s'.
Proof. intros W [W' F Q]. split; [done| |done]. apply frame_weaken; auto. Qed.

(** *** Listing and dropping a connection *)

Definition establishes (c : conn) (s s' : tracker) : Prop :=
  qpn_map s !! conn_key c = None ∧ c_lqpn c ≠ 0 ∧ c_rqpn c ≠ 0 ∧
  (∀ c', listed s c' → c_lid c' ≠ c_lid c) ∧
  ∀ c', listed s' c' ↔ listed s c' ∨ c' = c.

Definition drops (c : conn) (s s' : tracker) : Prop :=
  listed s c ∧ ∀ c', listed s' c' ↔ listed s c' ∧ c' ≠ c.

Lemma get_flow_key_conn f : get_flow_key f = conn_key (conn_of f).
Proof. done. Qed.

Lemma listed_insert s s' l f f' :
  heap s' = <[l := f']> (heap s) → heap s !! l = Some f → in_qpn_map f = false →
  in_qpn_map f' = true → ∀ c, listed s' c ↔ listed s c ∨ c = conn_of f'.
Proof.
  intros Hh Hf Hin Hin' c. unfold listed. rewrite Hh. split.
  - intros (l' & g & Hg & Hg1 & Hg2).
    apply lookup_insert_Some in Hg as [[_ <-]|[_ Hg]]; [by right|left; eauto].
  - intros [(l' & g & Hg & Hg1 & Hg2)| ->].
    + exists l', g. rewrite lookup_insert_ne; [done|]. intros ->. congruence.
    + exists l, f'. by rewrite lookup_insert_eq.
Qed.

Lemma listed_remove s s' l f f' :
  wf s → heap s' = <[l := f']> (heap s) → heap s !! l = Some f → in_qpn_map f = true →
  in_qpn_map f' = false → ∀ c, listed s' c ↔ listed s c ∧ c ≠ conn_of f.
Proof.
  intros W Hh Hf Hin Hin' c. unfold listed. rewrite Hh. split.
  - intros (l' & g & Hg & Hg1 & Hg2).
    apply lookup_insert_Some in Hg as [[_ <-]|[Hne Hg]]; [congruence|]. split; [eauto|].
    intros ->. apply Hne. eapply (wf_unique _ W); [done..|].
    by rewrite !get_flow_key_conn, Hg2.
  - intros [(l' & g & Hg & Hg1 & Hg2) Hne]. exists l', g.
    rewrite lookup_insert_ne; [done|]. intros <-. simplify_eq.
Qed.

Lemma wf_list s l f :
  wf s → heap s !! l = Some f → in_qpn_map f = false → live_state (state f) = true →
  local_id f ≠ 0 → local_qpn f ≠ 0 → remote_qpn f ≠ 0 →
  local_map s !! local_id f = Some l → qpn_map s !! get_flow_key f = None →
  wf (set_heap (<[l := set_in_qpn_map true f]> (heap s))
        (set_qpn_map (<[get_flow_key f := local_qpn f]> (qpn_map s)) s)).
Proof.
  intros W Hf Hin Hlive Hid Hlq Hrq HL Hq.
  assert (Hfree : ∀ l' g, heap s !! l' = Some g → in_qpn_map g = true → get_flow_key g ≠ get_flow_key f).
  { intros l' g Hg Hg1 He. destruct (wf_listed _ W _ _ Hg Hg1) as [_ Hg2]. congruence. }
  split; cbn.
  - eapply entries_insert; [apply W|done|done].
  - eapply entries_insert; [apply W|done|done].
  - intros l' g [[<- _]|[_ Hg]]%lookup_insert_Some; by eapply wf_next.
  - intros l' g [[_ <-]|[_ Hg]]%lookup_insert_Some; [|by eapply wf_flow].
    destruct (wf_flow _ W _ _ Hf). by split.
  - intros l' g [[<- <-]|[_ Hg]]%lookup_insert_Some Hg1; cbn.
    + split; [done|]. apply lookup_insert_eq.
    + destruct (wf_listed _ W _ _ Hg Hg1) as [? ?]. split; [done|].
      rewrite lookup_insert_ne; [done|]. by apply not_eq_sym, (Hfree l' g).
  - intros l1 g1 l2 g2 [[<- <-]|[Hne1 Hg1]]%lookup_insert_Some [[<- <-]|[Hne2 Hg2]]%lookup_insert_Some
      Hi1 Hi2 He; [done| | |by eapply wf_unique].
    + destruct (Hfree _ _ Hg2 Hi2). by rewrite <- He.
    + destruct (Hfree _ _ Hg1 Hi1). by rewrite He.
  - intros k q [[<- <-]|[_ Hk]]%lookup_insert_Some.
    + exists l, (set_in_qpn_map true f). by rewrite lookup_insert_eq.
    + destruct (wf_qpn _ W _ _ Hk) as (l' & g & Hg & Hg1 & Hg2). exists l', g.
      rewrite lookup_insert_ne; [done|]. intros <-. congruence.
Qed.

Lemma wf_unlist s l f :
  wf s → heap s !! l = Some f → in_qpn_map f = true →
  wf (set_heap (<[l := set_in_qpn_map false f]> (heap s))
        (set_qpn_map (delete (get_flow_key f) (qpn_map s)) s)).
Proof.
  intros W Hf Hin. split; cbn.
  - eapply entries_insert; [apply W|done|done].
  - eapply entries_insert; [apply W|done|done].
  - intros l' g [[<- _]|[_ Hg]]%lookup_insert_Some; by eapply wf_next.
  - intros l' g [[_ <-]|[_ Hg]]%lookup_insert_Some; [|by eapply wf_flow].
    destruct (wf_flow _ W _ _ Hf). by split.
  - intros l' g [[_ <-]|[Hne Hg]]%lookup_insert_Some Hg1; [done|].
    destruct (wf_listed _ W _ _ Hg Hg1) as [? ?]. split; [done|].
    rewrite lookup_delete_ne; [done|]. intros He. apply Hne. by eapply wf_unique.
  - intros l1 g1 l2 g2 [[_ <-]|[Hne1 Hg1]]%lookup_insert_Some [[_ <-]|[Hne2 Hg2]]%lookup_insert_Some
      Hi1 Hi2 He; try done. by eapply wf_unique.
  - intros k q [Hne Hk]%lookup_delete_Some.
    destruct (wf_qpn _ W _ _ Hk) as (l' & g & Hg & Hg1 & Hg2 & Hg3). exists l', g.
    rewrite lookup_insert_ne; [done|]. intros <-. simplify_eq.
Qed.

Lemma on_established_spec rid s l f u s' :
  wf s → heap s !! l = Some f → in_qpn_map f = false → live_state (state f) = true →
  local_id f ≠ 0 → local_map s !! local_id f = Some l → on_established l s = Ok (u, s') →
  wf s' ∧ frame (local_id f) rid s s' ∧ (quiet s s' ∨ establishes (conn_of f) s s').
Proof.
  intros W Hf Hin Hlive Hid HL Hs. unfold on_established in Hs.
  apply M_bind_Ok in Hs as (? & ? & [Hf' ->]%obj_Ok & Hs). simplify_eq.
  destruct (Z.eqb_spec (local_qpn f) 0) as [|Hlq]; cbn [orb] in Hs;
    [inv_M; split_and!; [done|reflexivity|by left]|].
  destruct (Z.eqb_spec (remote_qpn f) 0) as [|Hrq]; cbn [orb] in Hs;
    [inv_M; split_and!; [done|reflexivity|by left]|].
  apply M_bind_Ok in Hs as (? & ? & [-> ->]%get_state_Ok & Hs).
  destruct (qpn_map s !! get_flow_key f) eqn:Hq;
    [inv_M; split_and!; [done|reflexivity|by left]|].
  inv_M. cbn in Hf0. simplify_eq. split_and!.
  - exact (wf_list s l f W Hf Hin Hlive Hid Hlq Hrq HL Hq).
  - eapply frame_update; [done|intros g Hg; simplify_eq; by left|done|done].
  - right. split_and!; [done..| |].
    { intros c' (l' & g & Hg & Hg1 & <-) He. cbn in He.
      destruct (wf_listed _ W _ _ Hg Hg1) as [HL' _]. congruence. }
    by apply (listed_insert s _ l f (set_in_qpn_map true f)).
Qed.

(** On a listed flow [on_disconnected] always finds its entry. *)
Lemma on_disconnected_spec lid rid s l f u s' :
  wf s → heap s !! l = Some f → in_qpn_map f = true → mentions lid rid f →
  on_disconnected l s = Ok (u, s') →
  wf s' ∧ frame lid rid s s' ∧ drops (conn_of f) s s' ∧
  heap s' !! l = Some (set_in_qpn_map false f) ∧
  local_map s' = local_map s ∧ remote_map s' = remote_map s.
Proof.
  intros W Hf Hin Hm Hs. unfold on_disconnected in Hs.
  apply M_bind_Ok in Hs as (? & ? & [Hf' ->]%obj_Ok & Hs). simplify_eq.
  destruct (fo_live _ (wf_flow _ W _ _ Hf) Hin) as (_ & Hid & Hlq & Hrq).
  destruct (Z.eqb_spec (local_qpn f) 0) as [|_]; [done|].
  destruct (Z.eqb_spec (remote_qpn f) 0) as [|_]; [done|]. cbn [orb] in Hs.
  apply M_bind_Ok in Hs as (? & ? & [-> ->]%get_state_Ok & Hs).
  destruct (wf_listed _ W _ _ Hf Hin) as [HL Hq]. rewrite Hq in Hs.
  inv_M. cbn in Hf0. simplify_eq. split_and!; [| | |apply lookup_insert_eq|done|done].
  - exact (wf_unlist s l f W Hf Hin).
  - eapply frame_update; [done|intros g Hg; by simplify_eq|done|done].
  - split; [by exists l, f|]. by apply (listed_remove s _ l f (set_in_qpn_map false f)).
Qed.

(** [erase_flow] drops the flow's connection, if it has one, and its entry under
    the id it was looked up with. *)
Lemma disconnect_spec lid rid s l f u s1 :
  wf s → heap s !! l = Some f → mentions lid rid f →
  (if in_qpn_map f then on_disconnected l else mret tt) s = Ok (u, s1) →
  wf s1 ∧ frame lid rid s s1 ∧ (quiet s s1 ∨ drops (conn_of f) s s1) ∧
  (∃ f1, heap s1 !! l = Some f1 ∧ in_qpn_map f1 = false) ∧
  local_map s1 = local_map s ∧ remote_map s1 = remote_map s.
Proof.
  intros W Hf Hm Hs. destruct (in_qpn_map f) eqn:Hin.
  - destruct (on_disconnected_spec lid rid s l f u s1) as (? & ? & ? & ? & ? & ?); [done..|].
    split_and!; eauto.
  - inv_M. split_and!; eauto; [reflexivity|by left].
Qed.

Lemma erase_flow_spec lid rid s u s' :
  wf s → erase_flow lid rid s = Ok (u, s') →
  wf s' ∧ frame lid rid s s' ∧
  (if lid =? 0 then remote_map s' !! rid = None else local_map s' !! lid = None) ∧
  (quiet s s' ∨ ∃ c, drops c s s' ∧ if lid =? 0 then c_remote c = rid else c_lid c = lid).
Proof.
  intros W Hs. unfold erase_flow in Hs.
  apply M_bind_Ok in Hs as (? & ? & [Ha ->]%assertM_Ok & Hs).
  apply M_bind_Ok in Hs as (? & ? & [-> ->]%get_state_Ok & Hs).
  destruct (Z.eqb_spec lid 0) as [->|Hlid]; cbn [negb] in Hs.
  - destruct (remote_map s !! rid) as [l|] eqn:HR; [|inv_M; split_and!; [done|reflexivity|done|by left]].
    apply M_bind_Ok in Hs as (f & ? & [Hf ->]%obj_Ok & Hs).
    apply M_bind_Ok in Hs as (u1 & s1 & H1 & Hs).
    destruct (disconnect_spec 0 rid s l f u1 s1) as (W1 & F1 & Q1 & _ & L1 & R1);
      eauto using mentions_remote.
    inv_M. cbn [local_map set_remote_map].
    assert (W2 : wf (set_remote_map (delete rid (remote_map s1)) s1)) by by apply wf_delete_remote.
    split_and!.
    + apply (wf_delete_local _ 0 W2). intros l' g Hl' _. by apply (wf_local _ W2) in Hl' as [].
    + etrans; [exact F1|]. split; cbn; [..|done]; intros k Hk; by rewrite lookup_delete_ne.
    + apply lookup_delete_eq.
    + destruct Q1 as [Q1|Q1]; [by left|right]. exists (conn_of f). split; [done|].
      by destruct (wf_remote _ W _ _ HR) as (_ & g & Hg & <-); simplify_eq.
  - destruct (local_map s !! lid) as [l|] eqn:HL; [|inv_M; split_and!; [done|reflexivity|done|by left]].
    apply M_bind_Ok in Hs as (f & ? & [Hf ->]%obj_Ok & Hs).
    apply M_bind_Ok in Hs as (u1 & s1 & H1 & Hs).
    destruct (disconnect_spec lid rid s l f u1 s1) as (W1 & F1 & Q1 & (f1 & Hf1 & Hin1) & L1 & R1);
      eauto using mentions_local.
    inv_M. split_and!.
    + apply (wf_delete_remote (set_local_map _ _)), wf_delete_local; [done|].
      intros l' g. rewrite L1. congruence.
    + etrans; [exact F1|]. split; cbn; [..|done]; intros k Hk; by rewrite lookup_delete_ne.
    + apply lookup_delete_eq.
    + destruct Q1 as [Q1|Q1]; [by left|right]. exists (conn_of f). split; [done|].
      by destruct (wf_local _ W _ _ HL) as (_ & g & Hg & <-); simplify_eq.
Qed.
