(* ===== verification/TrackerStep.v ===== *)
(** * TrackerStep: one packet

    What the processing of one packet does to the tracker: a packet acts as the
    message it carries; it touches only the flows it names; and it lists at most
    one connection (an RTU) or drops at most one (a REJ or a DREP). *)

From Stdlib Require Import ZArith Lia String.
From stdpp Require Import base tactics numbers list strings gmap.
From S2P Require Import Prelude Memory Layout IbMad Iba IbtaC12 Mbuf CmPacket Tracker TrackerInv.

Local Open Scope string_scope.
Open Scope Z_scope.
Open Scope ctcm_scope.

(** ** Dispatch *)
Section Dispatch.
Context `{B : Build} {P : Type} `{CmPacket P}.

(** The handler of a message, by direction and attribute id. *)
Definition handler_of (dir : ctcm_direction) (attr : Z) : option (P → M unit) :=
  match dir with
  | CTCM_FROM_HOST =>
      if attr =? CM_REQ_ATTR_ID then Some req_sent else
      if attr =? CM_REJ_ATTR_ID then Some rej_sent else
      if attr =? CM_REP_ATTR_ID then Some rep_sent else
      if attr =? CM_RTU_ATTR_ID then Some rtu_sent else
      if attr =? CM_DREQ_ATTR_ID then Some dreq_sent else
      if attr =? CM_DREP_ATTR_ID then Some drep_sent else None
  | CTCM_FROM_NET =>
      if attr =? CM_REQ_ATTR_ID then Some req_received else
      if attr =? CM_REJ_ATTR_ID then Some rej_received else
      if attr =? CM_REP_ATTR_ID then Some rep_received else
      if attr =? CM_RTU_ATTR_ID then Some rtu_received else
      if attr =? CM_DREQ_ATTR_ID then Some dreq_received else
      if attr =? CM_DREP_ATTR_ID then Some drep_received else None
  end.

Lemma handlers_lookup dir attr :
  (if attr <? CM_MAX_ATTR_ID
   then mjoin ((match dir with
                | CTCM_FROM_HOST => host_handlers | CTCM_FROM_NET => net_handlers
                end) !! Z.to_nat attr)
   else None) = handler_of dir attr.
Proof.
  destruct (Z.leb_spec 0 attr) as [H0|H0].
  - unfold CM_MAX_ATTR_ID. destruct (Z.ltb_spec attr 32) as [Hlt|Hge].
    + rewrite <- (Z2Nat.id attr H0) at 2. assert (Hn : (Z.to_nat attr < 32)%nat) by lia.
      generalize dependent (Z.to_nat attr). intros n Hn.
      do 32 (destruct n as [|n]; [by destruct dir|]). lia.
    + unfold handler_of, CM_REQ_ATTR_ID, CM_REJ_ATTR_ID, CM_REP_ATTR_ID, CM_RTU_ATTR_ID,
        CM_DREQ_ATTR_ID, CM_DREP_ATTR_ID. destruct dir;
      repeat match goal with |- context [?a =? ?b] => destruct (Z.eqb_spec a b); [lia|] end; done.
  - destruct attr as [|a|a]; try lia. by destruct dir.
Qed.

(** [process] with the handler made explicit. *)
Lemma process_eq p dir s :
  process p dir s =
  (attr ← lift (get_attr_id p);
   match handler_of dir attr with
   | Some h => h p
   | None =>
       hdr ← lift (pkt_mad p);
       _ ← lift (pkt_hdr8 "base_version" p hdr);
       _ ← lift (pkt_hdr8 "mgmt_class" p hdr);
       _ ← lift (pkt_hdr8 "class_version" p hdr);
       _ ← lift (pkt_hdr8 "method" p hdr);
       mret tt
   end) s.
Proof.
  unfold process, process_packet, mbind, M_bind.
  destruct dir; cbn beta; destruct (lift (get_attr_id p) s) as [[attr s1]|]; try done;
    cbn zeta; rewrite <- handlers_lookup; done.
Qed.
End Dispatch.

(** ** A packet acts as the message it carries *)

(** [e'] does what [e] does whenever [e] does not stop the program. *)
Definition leM {A} (e e' : M A) : Prop := ∀ s r, e s = Ok r → e' s = Ok r.

#[global] Instance leM_preorder {A} : PreOrder (@leM A).
Proof. split; [by intros e s r|]. intros e1 e2 e3 H12 H23 s r He. by apply H23, H12. Qed.

Lemma leM_bind {A B} (e e' : M A) (k k' : A → M B) :
  leM e e' → (∀ a, leM (k a) (k' a)) → leM (e ≫= k) (e' ≫= k').
Proof.
  intros He Hk s [b s'] (a & s1 & H1 & H2)%M_bind_Ok. apply M_bind_Ok. exists a, s1.
  split; [by apply He|by apply Hk].
Qed.

Lemma leM_lift {A} (e e' : result A) : (∀ b, e = Ok b → e' = Ok b) → leM (lift e) (lift e').
Proof. intros He s [b s'] [Hb ->]%lift_Ok. by rewrite (He b Hb). Qed.

Lemma leM_lift_l {A B} (e e' : result A) a a' (k k' : A → M B) :
  e = Ok a → e' = Ok a' → leM (k a) (k' a') → leM (lift e ≫= k) (lift e' ≫= k').
Proof. by intros -> ->. Qed.

(** Code that behaves alike in every state. *)
Lemma M_bind_ext {A B} (e e' : M A) (k k' : A → M B) s :
  (∀ s, e s = e' s) → (∀ a s, k a s = k' a s) → (e ≫= k) s = (e' ≫= k') s.
Proof.
  intros He Hk. unfold mbind, M_bind. rewrite He. by destruct (e' s) as [[a s1]|].
Qed.

Definition result_or {A} (d : A) (r : result A) : A := match r with Ok a => a | Fault _ => d end.

Lemma result_or_Ok {A} (d : A) r b : r = Ok b → Ok (result_or d r) = Ok b.
Proof. by intros ->. Qed.

(** What a message says in each field. *)
Lemma msg_get_local m x : pkt_get CM_REP_LOCAL_COMM_ID m x = Ok (m_local_comm_id m).
Proof. reflexivity. Qed.
Lemma msg_get_remote m x : pkt_get CM_REP_REMOTE_COMM_ID m x = Ok (m_remote_comm_id m).
Proof. reflexivity. Qed.
Lemma msg_get_req_qpn m x : pkt_get CM_REQ_LOCAL_QPN m x = Ok (m_qpn m).
Proof. reflexivity. Qed.
Lemma msg_get_rep_qpn m x : pkt_get CM_REP_LOCAL_QPN m x = Ok (m_qpn m).
Proof. reflexivity. Qed.

Section Decode.
Context `{B : Build} {P : Type} `{CmPacket P}.

(** The message in a packet, with zeros for what cannot be read. *)
Definition decode (p : P) : cm_msg :=
  let msg := result_or None (pkt_mad p) in
  let attr := result_or 0 (pkt_attr_id p msg) in
  {| m_attr := attr;
     m_local_comm_id := result_or 0 (pkt_get CM_REP_LOCAL_COMM_ID p msg);
     m_remote_comm_id := result_or 0 (pkt_get CM_REP_REMOTE_COMM_ID p msg);
     m_qpn := result_or 0 (pkt_get (if attr =? CM_REQ_ATTR_ID then CM_REQ_LOCAL_QPN
                                    else CM_REP_LOCAL_QPN) p msg);
     m_saddr := result_or 0 (pkt_saddr p);
     m_daddr := result_or 0 (pkt_daddr p) |}.

Lemma decode_attr p msg attr :
  pkt_mad p = Ok msg → pkt_attr_id p msg = Ok attr → m_attr (decode p) = attr.
Proof. intros Hm Ha. unfold decode. rewrite Hm. cbn. by rewrite Ha. Qed.

Lemma decode_get p msg attr f b :
  pkt_mad p = Ok msg → pkt_attr_id p msg = Ok attr → In f (read_fields attr) →
  pkt_get f p msg = Ok b → pkt_get f (decode p) (Some 0) = Ok b.
Proof.
  intros Hm Ha Hf Hb.
  assert (Hl : m_local_comm_id (decode p) = result_or 0 (pkt_get CM_REP_LOCAL_COMM_ID p msg))
    by (unfold decode; by rewrite Hm).
  assert (Hr : m_remote_comm_id (decode p) = result_or 0 (pkt_get CM_REP_REMOTE_COMM_ID p msg))
    by (unfold decode; by rewrite Hm).
  assert (Hq : m_qpn (decode p) = result_or 0 (pkt_get (if attr =? CM_REQ_ATTR_ID
                 then CM_REQ_LOCAL_QPN else CM_REP_LOCAL_QPN) p msg))
    by (unfold decode; rewrite Hm; cbn; by rewrite Ha).
  unfold read_fields in Hf.
  destruct (attr =? CM_REQ_ATTR_ID); [|destruct (attr =? CM_REP_ATTR_ID)];
    repeat destruct Hf as [<-|Hf]; try done;
    first [ refine (eq_trans (msg_get_local _ _) _); rewrite Hl
          | refine (eq_trans (msg_get_remote _ _) _); rewrite Hr
          | refine (eq_trans (msg_get_req_qpn _ _) _); rewrite Hq
          | refine (eq_trans (msg_get_rep_qpn _ _) _); rewrite Hq ];
    exact (result_or_Ok _ _ _ Hb).
Qed.

Lemma decode_src p id b : from_src p id = Ok b → from_src (decode p) id = Ok b.
Proof. unfold from_src. cbn. destruct (pkt_saddr p); cbn; [done|done]. Qed.
Lemma decode_dest p id b : from_dest p id = Ok b → from_dest (decode p) id = Ok b.
Proof. unfold from_dest. cbn. destruct (pkt_daddr p); cbn; [done|done]. Qed.

(** Handlers of packets and of messages, step by step. *)
Ltac le_step Hm Ha :=
  first
    [ reflexivity
    | apply leM_bind; [first [ reflexivity
                             | apply leM_lift; first
                                 [ intros ? ?; eapply (decode_get _ _ _ _ _ Hm Ha); [cbn; tauto|eassumption]
                                 | intros ?; by apply decode_src | intros ?; by apply decode_dest ]
                             | idtac ]
                      |intros ?]
    | case_match ].

Lemma handler_decode dir p msg attr :
  pkt_mad p = Ok msg → pkt_attr_id p msg = Ok attr →
  match handler_of dir attr, handler_of dir attr with
  | Some h, Some h' => leM (h p) (h' (decode p))
  | None, None => True
  | _, _ => False
  end.
Proof.
  intros Hm Ha. unfold handler_of.
  destruct dir;
    (destruct (Z.eqb_spec attr CM_REQ_ATTR_ID) as [->|_];
     [|destruct (Z.eqb_spec attr CM_REJ_ATTR_ID) as [->|_];
     [|destruct (Z.eqb_spec attr CM_REP_ATTR_ID) as [->|_];
     [|destruct (Z.eqb_spec attr CM_RTU_ATTR_ID) as [->|_];
     [|destruct (Z.eqb_spec attr CM_DREQ_ATTR_ID) as [->|_];
     [|destruct (Z.eqb_spec attr CM_DREP_ATTR_ID) as [->|_]; [|done]]]]]]);
    unfold req_sent, rej_sent, rep_sent, rtu_sent, dreq_sent, drep_sent, req_received,
      rej_received, rep_received, rtu_received, dreq_received, drep_received;
    (eapply leM_lift_l; [exact Hm|reflexivity|]); repeat le_step Hm Ha.
Qed.

(** Whatever a packet does without stopping the program, its message does. *)
Lemma process_decode p dir : leM (process p dir) (process (decode p) dir).
Proof.
  intros s [u s'] Hs. rewrite process_eq in Hs. rewrite process_eq.
  apply M_bind_Ok in Hs as (attr & ? & [Ha ->]%lift_Ok & Hs).
  unfold get_attr_id in Ha. apply bind_Ok in Ha as (msg & Hm & Ha).
  pose proof (handler_decode dir p msg attr Hm Ha) as Hh.
  rewrite (M_bind_l _ _ s attr s) by (apply lift_Ok; split; [|done]; cbn; by rewrite Hm; cbn; rewrite Ha).
  destruct (handler_of dir attr) as [h|], (handler_of dir attr) as [h'|]; try done.
  - by apply Hh.
  - inv_M. done.
Qed.

(** The other way round, when everything can be read: the packet does exactly what
    its message does, faults included. *)
Lemma carries_process p m dir s : carries p m → process p dir s = process m dir s.
Proof.
  intros [(a & Hm & Ha & Hget & Hlog) Hs Hd]. rewrite !process_eq.
  rewrite (M_bind_l (lift (get_attr_id p)) _ s (m_attr m) s)
    by (apply lift_Ok; split; [|done]; unfold get_attr_id; by rewrite Hm).
  rewrite (M_bind_l (lift (get_attr_id m)) _ s (m_attr m) s) by done.
  assert (Hsrc : ∀ id, from_src p id = Ok (m_saddr m, id)) by (intros; unfold from_src; by rewrite Hs).
  assert (Hdst : ∀ id, from_dest p id = Ok (m_daddr m, id)) by (intros; unfold from_dest; by rewrite Hd).
  unfold handler_of. revert Hget.
  destruct dir;
    (destruct (Z.eqb_spec (m_attr m) CM_REQ_ATTR_ID) as [->|_];
     [|destruct (Z.eqb_spec (m_attr m) CM_REJ_ATTR_ID) as [->|_];
     [|destruct (Z.eqb_spec (m_attr m) CM_REP_ATTR_ID) as [->|_];
     [|destruct (Z.eqb_spec (m_attr m) CM_RTU_ATTR_ID) as [->|_];
     [|destruct (Z.eqb_spec (m_attr m) CM_DREQ_ATTR_ID) as [->|_];
     [|destruct (Z.eqb_spec (m_attr m) CM_DREP_ATTR_ID) as [->|_]]]]]]); intros Hget;
    unfold req_sent, rej_sent, rep_sent, rtu_sent, dreq_sent, drep_sent, req_received,
      rej_received, rep_received, rtu_received, dreq_received, drep_received;
    rewrite (M_bind_l (lift (pkt_mad p)) _ s (Some a) s) by (by apply lift_Ok);
    rewrite (M_bind_l (lift (pkt_mad m)) _ s (Some 0) s) by done;
    try (destruct (Hlog "base_version") as [v1 E1], (Hlog "mgmt_class") as [v2 E2],
           (Hlog "class_version") as [v3 E3], (Hlog "method") as [v4 E4]; [cbn; tauto..|];
         rewrite E1, E2, E3, E4; reflexivity);
    repeat first
      [ reflexivity
      | apply M_bind_ext; [intros ?; first [reflexivity | by rewrite Hget by (cbn; tauto)
                                           | by rewrite Hsrc | by rewrite Hdst | idtac]|intros ? ?]
      | case_match ].
Qed.
End Decode.
(** ** The effect of one message *)

(** The local id and the remote key that a message names. *)
Definition own_id (dir : ctcm_direction) (m : cm_msg) : Z :=
  match dir with
  | CTCM_FROM_HOST => m_local_comm_id m
  | CTCM_FROM_NET => if m_attr m =? CM_REQ_ATTR_ID then 0 else m_remote_comm_id m
  end.

Definition peer_key (dir : ctcm_direction) (m : cm_msg) : cm_flow_key :=
  match dir with
  | CTCM_FROM_HOST => (m_daddr m, m_remote_comm_id m)
  | CTCM_FROM_NET => (m_saddr m, m_local_comm_id m)
  end.

(** At most one connection appears or disappears, and only for these messages. *)
Inductive outcome (dir : ctcm_direction) (m : cm_msg) (s s' : tracker) : Prop :=
| out_quiet : quiet s s' → outcome dir m s s'
| out_established c :
    m_attr m = CM_RTU_ATTR_ID → c_lid c = own_id dir m → establishes c s s' →
    outcome dir m s s'
| out_dropped c :
    m_attr m = CM_REJ_ATTR_ID ∨ m_attr m = CM_DREP_ATTR_ID →
    (if own_id dir m =? 0 then c_remote c = peer_key dir m else c_lid c = own_id dir m) →
    drops c s s' → outcome dir m s s'.

Record step_ok (dir : ctcm_direction) (m : cm_msg) (s s' : tracker) : Prop := {
  st_wf : wf s';
  st_frame : frame (own_id dir m) (peer_key dir m) s s';
  st_outcome : outcome dir m s s';
}.

Lemma step_calm dir m s s' :
  wf s → calm (own_id dir m) (peer_key dir m) s s' → step_ok dir m s s'.
Proof. intros W [W' F Q]. split; [auto|done|by apply out_quiet]. Qed.

Lemma step_refl dir m s : wf s → step_ok dir m s s.
Proof. intros W. apply step_calm; [done|reflexivity]. Qed.

(** A quiet first part does not change the outcome. *)
Lemma outcome_after dir m s s1 s' :
  calm (own_id dir m) (peer_key dir m) s s1 → qpn_map s1 = qpn_map s →
  step_ok dir m s1 s' → step_ok dir m s s'.
Proof.
  intros [_ F Q] Hq [W' F' O]. split; [done|by etrans|]. destruct O as [Q'|c Ha Hl E|c Ha Hl D].
  - apply out_quiet. by etrans.
  - eapply out_established; [done..|]. destruct E as (E1 & E2 & E3 & E4 & E5).
    split_and!; [by rewrite <- Hq|done..| |]; intros c'.
    + rewrite <- (Q c'). apply E4.
    + by rewrite E5, (Q c').
  - eapply out_dropped; [done..|]. destruct D as (D1 & D2). split; [by apply Q|].
    intros c'. by rewrite D2, (Q c').
Qed.

(** The table of queue pairs is untouched by the bookkeeping of flows. *)
Lemma add_new_flow_qpn_map lid rid s l s' :
  add_new_flow lid rid s = Ok (l, s') → qpn_map s' = qpn_map s.
Proof.
  intros Hs. unfold add_new_flow in Hs. inv_M. cbn zeta in Hs.
  destruct (local_map s !! lid), (remote_map s !! rid); inv_M;
    repeat match goal with
    | E : make_shared _ = Ok _ |- _ => injection E as <- <-
    | E : (if ?b then _ else _) _ = Ok _ |- _ => destruct b; inv_M
    end; done.
Qed.

Lemma get_flow_qpn_map lid rid s l s' :
  get_flow lid rid s = Ok (l, s') → qpn_map s' = qpn_map s.
Proof.
  intros Hs. unfold get_flow in Hs. inv_M. cbn zeta in Hs.
  destruct (if negb (lid =? 0) then local_map s !! lid else remote_map s !! rid); inv_M; [done|].
  by eapply add_new_flow_qpn_map.
Qed.

(** Assignments that handlers make. *)
Lemma set_state_ok x f :
  flow_ok f → used_state x = true → (live_state (state f) = true → live_state x = true) →
  flow_ok (set_state x f).
Proof.
  intros [H1 H2 H3] Hx Hl. split; cbn; [done..|]. intros Hin. destruct (H3 Hin) as (? & ? & ? & ?).
  auto.
Qed.

Lemma calm_set_state lid rid s l f x :
  wf s → heap s !! l = Some f → mentions lid rid f → used_state x = true →
  (live_state (state f) = true → live_state x = true) →
  calm lid rid s (set_heap (<[l := set_state x f]> (heap s)) s).
Proof.
  intros W Hf Hm Hx Hl. eapply calm_assign; [done| |by apply set_state_ok; [eapply wf_flow|..]|done].
  by split.
Qed.

Lemma not_live_unlisted s l f :
  wf s → heap s !! l = Some f → live_state (state f) = false → in_qpn_map f = false.
Proof.
  intros W Hf Hl. destruct (in_qpn_map f) eqn:Hin; [|done].
  destruct (fo_live _ (wf_flow _ W _ _ Hf) Hin). congruence.
Qed.

Lemma calm_set_qpn lid rid s l f f' :
  wf s → heap s !! l = Some f → mentions lid rid f → live_state (state f) = false →
  (∃ q, f' = set_local_qpn q f ∨ f' = set_remote_qpn q f) →
  calm lid rid s (set_heap (<[l := f']> (heap s)) s).
Proof.
  intros W Hf Hm Hl [q Hq]. pose proof (not_live_unlisted _ _ _ W Hf Hl) as Hin.
  pose proof (wf_flow _ W _ _ Hf) as [H1 H2 H3].
  eapply calm_assign; [done| | |done]; destruct Hq as [-> | ->]; split; cbn; try done; congruence.
Qed.

(** Every handler looks up the flow of its message and acts on it. *)
Lemma flow_handler dir m rid (k : loc → flow_state → M unit) s u s' :
  wf s → rid = peer_key dir m ∨ rid = no_key →
  (st ← get_flow (own_id dir m) rid; f ← obj st; k st f) s = Ok (u, s') →
  (∀ l f s1, wf s1 → heap s1 !! l = Some f → mentions (own_id dir m) (peer_key dir m) f →
     (own_id dir m ≠ 0 → local_map s1 !! own_id dir m = Some l) →
     (own_id dir m = 0 → remote_map s1 !! peer_key dir m = Some l) →
     (rid = no_key → own_id dir m ≠ 0) →
     k l f s1 = Ok (u, s') → step_ok dir m s1 s') →
  step_ok dir m s s'.
Proof.
  intros W Hrid Hs Hk. apply M_bind_Ok in Hs as (l & s1 & Hg & Hs).
  apply M_bind_Ok in Hs as (f & ? & [Hf ->]%obj_Ok & Hs).
  pose proof (get_flow_qpn_map _ _ _ _ _ Hg) as Hq.
  assert (Hnz : rid = no_key → own_id dir m ≠ 0).
  { intros -> Hz. unfold get_flow in Hg. rewrite Hz in Hg. by apply M_bind_Ok in Hg as (? & ? & [? _]%assertM_Ok & _). }
  destruct (get_flow_spec _ _ _ _ _ W Hg) as (C & HL & HR & g & Hg' & Hm). simplify_eq.
  assert (C' : calm (own_id dir m) (peer_key dir m) s s1).
  { destruct Hrid as [-> | ->]; [done|by apply calm_weaken]. }
  eapply outcome_after; [exact C'|done|]. eapply Hk; try done.
  - by apply C.
  - destruct Hrid as [-> | ->]; [done|]. destruct Hm as [?|[[? _]|?]]; [by left|done|by right; right].
  - intros Hz. destruct Hrid as [<- | Hn]; [by apply HR|]. by specialize (Hnz Hn).
Qed.

(** Running assignments forward. *)
Definition upd (l : loc) (f : flow_state) (s : tracker) : tracker :=
  set_heap (<[l := f]> (heap s)) s.

Lemma heap_upd l f s : heap (upd l f s) !! l = Some f.
Proof. apply lookup_insert_eq. Qed.

Lemma assign_run l g s f : heap s !! l = Some f → assign l g s = Ok (tt, upd l (g f) s).
Proof. intros Hf. apply assign_Ok. by exists f. Qed.

Lemma assign_bind {A} l g (k : unit → M A) s f :
  heap s !! l = Some f → (assign l g ≫= k) s = k tt (upd l (g f) s).
Proof. intros Hf. by apply M_bind_l, assign_run. Qed.

(** A change of state followed by a change of a queue pair number, before the
    connection is established. *)
Lemma calm_state_qpn lid rid s l f x f' :
  wf s → heap s !! l = Some f → mentions lid rid f → used_state x = true →
  live_state (state f) = false → live_state x = false →
  (∃ q, f' = set_local_qpn q (set_state x f) ∨ f' = set_remote_qpn q (set_state x f)) →
  calm lid rid s (upd l f' (upd l (set_state x f) s)).
Proof.
  intros W Hf Hm Hx Hl Hlx Hq.
  assert (C : calm lid rid s (upd l (set_state x f) s)) by (apply calm_set_state; congruence).
  etrans; [exact C|]. eapply calm_set_qpn; [by apply C|apply heap_upd|done|done|done].
Qed.

(** Reading a message always succeeds. *)
Section Read.
Context {A : Type} (m : cm_msg) (x : option Z).

Lemma read_mad (k : option Z → M A) s : (lift (pkt_mad m) ≫= k) s = k (Some 0) s.
Proof. reflexivity. Qed.
Lemma read_local (k : Z → M A) s :
  (lift (pkt_get CM_REP_LOCAL_COMM_ID m x) ≫= k) s = k (m_local_comm_id m) s.
Proof. reflexivity. Qed.
Lemma read_remote (k : Z → M A) s :
  (lift (pkt_get CM_REP_REMOTE_COMM_ID m x) ≫= k) s = k (m_remote_comm_id m) s.
Proof. reflexivity. Qed.
Lemma read_req_qpn (k : Z → M A) s :
  (lift (pkt_get CM_REQ_LOCAL_QPN m x) ≫= k) s = k (m_qpn m) s.
Proof. reflexivity. Qed.
Lemma read_rep_qpn (k : Z → M A) s :
  (lift (pkt_get CM_REP_LOCAL_QPN m x) ≫= k) s = k (m_qpn m) s.
Proof. reflexivity. Qed.
Lemma read_src id (k : cm_flow_key → M A) s :
  (lift (from_src m id) ≫= k) s = k (m_saddr m, id) s.
Proof. reflexivity. Qed.
Lemma read_dest id (k : cm_flow_key → M A) s :
  (lift (from_dest m id) ≫= k) s = k (m_daddr m, id) s.
Proof. reflexivity. Qed.
End Read.

Lemma read_attr (m : cm_msg) : get_attr_id m = Ok (m_attr m).
Proof. reflexivity. Qed.

Lemma read_log (m : cm_msg) s :
  (hdr ← lift (pkt_mad m);
   _ ← lift (pkt_hdr8 "base_version" m hdr);
   _ ← lift (pkt_hdr8 "mgmt_class" m hdr);
   _ ← lift (pkt_hdr8 "class_version" m hdr);
   _ ← lift (pkt_hdr8 "method" m hdr);
   mret tt) s = Ok (tt, s).
Proof. reflexivity. Qed.

#[global] Opaque msg_packet.

Ltac read_msg H :=
  change CM_REQ_LOCAL_COMM_ID with CM_REP_LOCAL_COMM_ID in H;
  change CM_REJ_LOCAL_COMM_ID with CM_REP_LOCAL_COMM_ID in H;
  change CM_RTU_LOCAL_COMM_ID with CM_REP_LOCAL_COMM_ID in H;
  change CM_DREQ_LOCAL_COMM_ID with CM_REP_LOCAL_COMM_ID in H;
  change CM_DREP_LOCAL_COMM_ID with CM_REP_LOCAL_COMM_ID in H;
  change CM_REJ_REMOTE_COMM_ID with CM_REP_REMOTE_COMM_ID in H;
  change CM_RTU_REMOTE_COMM_ID with CM_REP_REMOTE_COMM_ID in H;
  change CM_DREQ_REMOTE_COMM_ID with CM_REP_REMOTE_COMM_ID in H;
  change CM_DREP_REMOTE_COMM_ID with CM_REP_REMOTE_COMM_ID in H;
  repeat first [ rewrite read_mad in H | rewrite read_local in H | rewrite read_remote in H
               | rewrite read_req_qpn in H | rewrite read_rep_qpn in H
               | rewrite read_src in H | rewrite read_dest in H ];
  cbn beta in H.

(** The branches in which a handler does nothing. *)
Ltac idle_branch H :=
  lazymatch type of H with
  | mret _ _ = _ => apply mret_M_Ok in H as [_ ->]; by apply step_refl
  end.

Lemma req_sent_step m s u s' :
  wf s → req_sent m s = Ok (u, s') → step_ok CTCM_FROM_HOST m s s'.
Proof.
  intros W Hs. unfold req_sent in Hs. read_msg Hs.
  eapply (flow_handler CTCM_FROM_HOST m no_key); [done|by right|exact Hs|].
  clear. intros l f s1 W Hf Hm HL HR Hnz Hs. cbn beta in Hs.
  destruct (state f) eqn:Hst; try idle_branch Hs.
  all: rewrite (assign_bind _ _ _ _ f Hf) in Hs; read_msg Hs.
  all: rewrite (assign_run _ _ _ _ (heap_upd _ _ _)) in Hs; injection Hs as _ <-.
  all: apply step_calm; [done|apply calm_state_qpn; rewrite ?Hst; eauto].
Qed.
Lemma req_received_step m s u s' :
  wf s → m_attr m = CM_REQ_ATTR_ID → req_received m s = Ok (u, s') →
  step_ok CTCM_FROM_NET m s s'.
Proof.
  intros W Ha Hs. unfold req_received in Hs. read_msg Hs.
  eapply (flow_handler CTCM_FROM_NET m (peer_key CTCM_FROM_NET m)); [done|by left| |].
  { unfold own_id. rewrite Ha. exact Hs. }
  clear. intros l f s1 W Hf Hm HL HR Hnz Hs. cbn beta in Hs.
  destruct (state f) eqn:Hst; try idle_branch Hs.
  all: apply M_bind_Ok in Hs as (? & s2 & Hc & Hs).
  all: assert (s2 = s1) as -> by (case_decide; [read_msg Hc|]; inv_M; done).
  all: rewrite (assign_bind _ _ _ _ f Hf) in Hs; read_msg Hs.
  all: rewrite (assign_run _ _ _ _ (heap_upd _ _ _)) in Hs; injection Hs as _ <-.
  all: apply step_calm; [done|apply calm_state_qpn; rewrite ?Hst; eauto].
Qed.

(** A handler that erases the flow. *)
Lemma erase_step dir m s u s' :
  wf s → m_attr m = CM_REJ_ATTR_ID ∨ m_attr m = CM_DREP_ATTR_ID →
  erase_flow (own_id dir m) (peer_key dir m) s = Ok (u, s') → step_ok dir m s s'.
Proof.
  intros W Ha Hs. destruct (erase_flow_spec _ _ _ _ _ W Hs) as (W' & F & _ & [Q|(c & D & Hc)]).
  - split; [done..|by apply out_quiet].
  - split; [done..|by eapply out_dropped].
Qed.

Lemma own_id_net m : m_attr m ≠ CM_REQ_ATTR_ID → own_id CTCM_FROM_NET m = m_remote_comm_id m.
Proof. intros Hn. unfold own_id. by destruct (Z.eqb_spec (m_attr m) CM_REQ_ATTR_ID). Qed.

Lemma rej_sent_step m s u s' :
  wf s → m_attr m = CM_REJ_ATTR_ID → rej_sent m s = Ok (u, s') → step_ok CTCM_FROM_HOST m s s'.
Proof.
  intros W Ha Hs. unfold rej_sent in Hs. read_msg Hs.
  eapply (flow_handler CTCM_FROM_HOST m (peer_key CTCM_FROM_HOST m)); [done|by left|exact Hs|].
  clear s W Hs. intros l f s1 W Hf Hm HL HR Hnz Hs. cbn beta in Hs.
  destruct (state f); first [idle_branch Hs | eapply erase_step; [done|by left|exact Hs]].
Qed.

Lemma rej_received_step m s u s' :
  wf s → m_attr m = CM_REJ_ATTR_ID → rej_received m s = Ok (u, s') → step_ok CTCM_FROM_NET m s s'.
Proof.
  intros W Ha Hs. unfold rej_received in Hs. read_msg Hs.
  rewrite <- (own_id_net m) in Hs by (by rewrite Ha).
  eapply (flow_handler CTCM_FROM_NET m (peer_key CTCM_FROM_NET m)); [done|by left|exact Hs|].
  clear s W Hs. intros l f s1 W Hf Hm HL HR Hnz Hs. cbn beta in Hs.
  destruct (state f); first [idle_branch Hs | eapply erase_step; [done|by left|exact Hs]].
Qed.

Lemma drep_sent_step m s u s' :
  wf s → m_attr m = CM_DREP_ATTR_ID → drep_sent m s = Ok (u, s') → step_ok CTCM_FROM_HOST m s s'.
Proof.
  intros W Ha Hs. unfold drep_sent in Hs. read_msg Hs.
  eapply (flow_handler CTCM_FROM_HOST m no_key); [done|by right|exact Hs|].
  clear s W Hs. intros l f s1 W Hf Hm HL HR Hnz Hs. cbn beta in Hs.
  destruct (state f); first [idle_branch Hs | eapply erase_step; [done|by right|exact Hs]].
Qed.

Lemma drep_received_step m s u s' :
  wf s → m_attr m = CM_DREP_ATTR_ID → drep_received m s = Ok (u, s') → step_ok CTCM_FROM_NET m s s'.
Proof.
  intros W Ha Hs. unfold drep_received in Hs. read_msg Hs.
  rewrite <- (own_id_net m) in Hs by (by rewrite Ha).
  eapply (flow_handler CTCM_FROM_NET m no_key); [done|by right|exact Hs|].
  clear s W Hs. intros l f s1 W Hf Hm HL HR Hnz Hs. cbn beta in Hs.
  destruct (state f); first [idle_branch Hs | eapply erase_step; [done|by right|exact Hs]].
Qed.

Lemma dreq_sent_step m s u s' :
  wf s → dreq_sent m s = Ok (u, s') → step_ok CTCM_FROM_HOST m s s'.
Proof.
  intros W Hs. unfold dreq_sent in Hs. read_msg Hs.
  eapply (flow_handler CTCM_FROM_HOST m no_key); [done|by right|exact Hs|].
  clear s W Hs. intros l f s1 W Hf Hm HL HR Hnz Hs. cbn beta in Hs.
  destruct (state f) eqn:Hst; try idle_branch Hs;
    rewrite (assign_run _ _ _ _ Hf) in Hs; injection Hs as _ <-;
    (apply step_calm; [done|by apply calm_set_state]).
Qed.

Lemma dreq_received_step m s u s' :
  wf s → m_attr m = CM_DREQ_ATTR_ID → dreq_received m s = Ok (u, s') →
  step_ok CTCM_FROM_NET m s s'.
Proof.
  intros W Ha Hs. unfold dreq_received in Hs. read_msg Hs.
  rewrite <- (own_id_net m) in Hs by (by rewrite Ha).
  eapply (flow_handler CTCM_FROM_NET m no_key); [done|by right|exact Hs|].
  clear s W Hs. intros l f s1 W Hf Hm HL HR Hnz Hs. cbn beta in Hs.
  destruct (state f) eqn:Hst; try idle_branch Hs;
    rewrite (assign_run _ _ _ _ Hf) in Hs; injection Hs as _ <-;
    (apply step_calm; [done|by apply calm_set_state]).
Qed.

(** A handler that completes the handshake. *)
Lemma establish_step dir m s l f u s' :
  wf s → m_attr m = CM_RTU_ATTR_ID → own_id dir m ≠ 0 → heap s !! l = Some f →
  local_map s !! own_id dir m = Some l → live_state (state f) = false →
  (_ ← assign l (set_state ESTABLISHED); on_established l) s = Ok (u, s') → step_ok dir m s s'.
Proof.
  intros W Ha Hnz Hf HL Hl Hs. rewrite (assign_bind _ _ _ _ f Hf) in Hs.
  pose proof (not_live_unlisted _ _ _ W Hf Hl) as Hin.
  assert (Hid : local_id f = own_id dir m).
  { destruct (wf_local _ W _ _ HL) as (_ & g & Hg & Hid). congruence. }
  assert (C : calm (own_id dir m) (peer_key dir m) s (upd l (set_state ESTABLISHED f) s)).
  { apply calm_set_state; [done..|by left|done|congruence]. }
  eapply outcome_after; [exact C|done|].
  destruct (on_established_spec (peer_key dir m) _ l (set_state ESTABLISHED f) u s' (ca_wf _ _ _ _ C W)
              (heap_upd _ _ _)) as (W' & F & E);
    [done|done|cbn; congruence|cbn; congruence|done|].
  cbn in F. rewrite Hid in F. split; [done..|].
  destruct E as [Q|E]; [by apply out_quiet|exact (out_established dir m _ _ (conn_of (set_state ESTABLISHED f)) Ha Hid E)].
Qed.

Lemma rtu_sent_step m s u s' :
  wf s → m_attr m = CM_RTU_ATTR_ID → rtu_sent m s = Ok (u, s') → step_ok CTCM_FROM_HOST m s s'.
Proof.
  intros W Ha Hs. unfold rtu_sent in Hs. read_msg Hs.
  eapply (flow_handler CTCM_FROM_HOST m no_key); [done|by right|exact Hs|].
  clear s W Hs. intros l f s1 W Hf Hm HL HR Hnz Hs. cbn beta in Hs.
  destruct (state f) eqn:Hst; try idle_branch Hs;
    (eapply (establish_step _ m s1 l f); [done|done|auto|done|auto|by rewrite Hst|exact Hs]).
Qed.

Lemma rtu_received_step m s u s' :
  wf s → m_attr m = CM_RTU_ATTR_ID → rtu_received m s = Ok (u, s') → step_ok CTCM_FROM_NET m s s'.
Proof.
  intros W Ha Hs. unfold rtu_received in Hs. read_msg Hs.
  rewrite <- (own_id_net m) in Hs by (by rewrite Ha).
  eapply (flow_handler CTCM_FROM_NET m no_key); [done|by right|exact Hs|].
  clear s W Hs. intros l f s1 W Hf Hm HL HR Hnz Hs. cbn beta in Hs.
  destruct (state f) eqn:Hst; try idle_branch Hs;
    (eapply (establish_step _ m s1 l f); [done|done|auto|done|auto|by rewrite Hst|exact Hs]).
Qed.

(** [add_new_flow] on a flow that is known already. *)
Lemma add_known lid rid s l f l' s' :
  wf s → heap s !! l = Some f → in_qpn_map f = false → (lid ≠ 0 → local_map s !! lid = Some l) →
  (lid = 0 → remote_map s !! rid = Some l) → add_new_flow lid rid s = Ok (l', s') →
  l' = l ∧ calm lid rid s s' ∧
  ∃ f', heap s' !! l = Some f' ∧ mentions lid rid f' ∧ same_progress f f'.
Proof.
  intros W Hf Hin HL HR Hs.
  assert (H0 : local_map s !! 0 = None).
  { destruct (local_map s !! 0) eqn:E; [|done]. by apply (wf_local _ W) in E as []. }
  apply add_new_flow_spec in Hs as [C _ _ SL SR (f' & Hf' & Hm & Hp)]; [|done|].
  2:{ intros a g Ha Hg. destruct (decide (lid = 0)) as [->|Hz]; [congruence|].
      specialize (HL Hz). congruence. }
  assert (l' = l) as ->.
  { destruct (decide (lid = 0)) as [->|Hz]; auto. }
  rewrite Hf in Hp. split_and!; [done..|]. by exists f'.
Qed.

Lemma rep_sent_step m s u s' :
  wf s → rep_sent m s = Ok (u, s') → step_ok CTCM_FROM_HOST m s s'.
Proof.
  intros W Hs. unfold rep_sent in Hs. read_msg Hs.
  eapply (flow_handler CTCM_FROM_HOST m (peer_key CTCM_FROM_HOST m)); [done|by left|exact Hs|].
  clear s W Hs. intros l f s1 W Hf Hm HL HR Hnz Hs. cbn beta in Hs.
  destruct (state f) eqn:Hst; try idle_branch Hs.
  all: assert (C1 : calm (own_id CTCM_FROM_HOST m) (peer_key CTCM_FROM_HOST m) s1
                     (upd l (set_state REP_SENT f) s1))
         by (apply calm_set_state; rewrite ?Hst; done).
  all: pose proof (not_live_unlisted _ _ _ W Hf ltac:(by rewrite Hst)) as Hin.
  all: rewrite (assign_bind _ _ _ _ f Hf) in Hs.
  all: apply M_bind_Ok in Hs as (l' & s2 & Had & Hs); read_msg Hs.
  all: destruct (add_known _ _ _ l (set_state REP_SENT f) _ _ (ca_wf _ _ _ _ C1 W) (heap_upd _ _ _)
                   Hin HL HR Had) as (-> & C2 & f2 & Hf2 & Hm2 & (Hs2 & _)).
  all: rewrite (assign_run _ _ _ _ Hf2) in Hs; injection Hs as _ <-.
  all: apply step_calm; [done|]; etrans; [exact C1|]; etrans; [exact C2|].
  all: eapply calm_set_qpn; [by apply C2, C1|done|done|by rewrite Hs2|eauto].
Qed.

Lemma rep_received_step m s u s' :
  wf s → m_attr m = CM_REP_ATTR_ID → rep_received m s = Ok (u, s') → step_ok CTCM_FROM_NET m s s'.
Proof.
  intros W Ha Hs. unfold rep_received in Hs. read_msg Hs.
  rewrite <- (own_id_net m) in Hs by (by rewrite Ha).
  eapply (flow_handler CTCM_FROM_NET m no_key); [done|by right|exact Hs|].
  clear s W Hs Ha. intros l f s1 W Hf Hm HL HR Hnz Hs. cbn beta in Hs.
  destruct (state f) eqn:Hst; try idle_branch Hs.
  all: pose proof (not_live_unlisted _ _ _ W Hf ltac:(by rewrite Hst)) as Hin.
  all: assert (C1 : calm (own_id CTCM_FROM_NET m) (peer_key CTCM_FROM_NET m) s1
                     (upd l (set_remote_qpn (m_qpn m) (set_state REP_RCVD f))
                       (upd l (set_state REP_RCVD f) s1)))
         by (apply calm_state_qpn; rewrite ?Hst; eauto).
  all: rewrite (assign_bind _ _ _ _ f Hf) in Hs; read_msg Hs.
  all: rewrite (assign_bind _ _ _ _ _ (heap_upd _ _ _)) in Hs.
  all: apply M_bind_Ok in Hs as (l' & s2 & Had & [_ ->]%mret_M_Ok).
  all: destruct (add_known _ _ _ l _ _ _ (ca_wf _ _ _ _ C1 W) (heap_upd _ _ _) Hin HL HR Had)
         as (-> & C2 & _).
  all: apply step_calm; [done|]; etrans; [exact C1|exact C2].
Qed.

(** *** Every message *)
Lemma message_step m dir s u s' :
  wf s → process m dir s = Ok (u, s') → step_ok dir m s s'.
Proof.
  intros W Hs. rewrite process_eq in Hs. apply M_bind_Ok in Hs as (attr & ? & [Ha ->]%lift_Ok & Hs).
  assert (attr = m_attr m) as -> by (rewrite read_attr in Ha; congruence).
  unfold handler_of in Hs.
  destruct dir;
    (destruct (Z.eqb_spec (m_attr m) CM_REQ_ATTR_ID) as [?|_];
     [|destruct (Z.eqb_spec (m_attr m) CM_REJ_ATTR_ID) as [?|_];
     [|destruct (Z.eqb_spec (m_attr m) CM_REP_ATTR_ID) as [?|_];
     [|destruct (Z.eqb_spec (m_attr m) CM_RTU_ATTR_ID) as [?|_];
     [|destruct (Z.eqb_spec (m_attr m) CM_DREQ_ATTR_ID) as [?|_];
     [|destruct (Z.eqb_spec (m_attr m) CM_DREP_ATTR_ID) as [?|_]]]]]]).
  all: eauto using req_sent_step, rej_sent_step, rep_sent_step, rtu_sent_step, dreq_sent_step,
         drep_sent_step, req_received_step, rej_received_step, rep_received_step,
         rtu_received_step, dreq_received_step, drep_received_step.
  all: inv_M; by apply step_refl.
Qed.
