(* ===== verification/TrackerSpec.v ===== *)
(** * TrackerSpec: the contract of the connection tracker

    The abstract specification is a table of open connections, one per local
    communication id.  A packet leaves the table alone, opens one connection (an
    RTU) or closes one (a REJ or a DREP), and a query returns the local queue pair
    of the open connection with the given remote address and queue pair.  The
    tracker refines it in every reachable state. *)

From Stdlib Require Import ZArith Lia String.
From stdpp Require Import base tactics numbers list strings gmap.
From S2P Require Import Prelude Memory Layout IbMad Iba IbtaC12 Mbuf CmPacket Tracker TrackerInv TrackerStep.

Local Open Scope string_scope.
Open Scope Z_scope.
Open Scope ctcm_scope.

(** ** Reachable states *)
Section Reach.
Context {P : Type} `{CmPacket P}.

(** The states of a tracker that has processed some packets. *)
Inductive reachable : tracker → Prop :=
| reach_init : reachable empty_tracker
| reach_step s p dir u s' :
    reachable s → process p dir s = Ok (u, s') → reachable s'.

Lemma run_app tr1 tr2 s :
  run s (tr1 ++ tr2) = match run s tr1 with Ok s' => run s' tr2 | Fault e => Fault e end.
Proof.
  revert s. induction tr1 as [|[dir p] tr1 IH]; intros s; [done|]. cbn.
  by destruct (process p dir s) as [[u s1]|].
Qed.

Lemma process_wf s p dir u s' : wf s → process p dir s = Ok (u, s') → wf s'.
Proof. intros W Hs%process_decode. by eapply st_wf, message_step. Qed.

Lemma run_wf tr s s' : wf s → run s tr = Ok s' → wf s'.
Proof.
  revert s. induction tr as [|[dir p] tr IH]; intros s W Hs; cbn in Hs; [by simplify_eq|].
  destruct (process p dir s) as [[u s1]|] eqn:E; [|done]. by apply (IH s1 (process_wf _ _ _ _ _ W E)).
Qed.

(** C4: in every state the tracker can reach, whatever packets it was given:
    every entry of the two id maps leads to the flow with that id, ids in the maps
    are not zero, the table of queue pairs lists exactly the flows marked as listed,
    each once and with its current numbers, listed flows are established or being
    torn down, and no flow is in an MRA state or in TIMEWAIT. *)
Theorem reachable_wf s : reachable s → wf s.
Proof. induction 1; [apply wf_empty|by eapply process_wf]. Qed.
End Reach.

(** ** The table of connections *)

Definition abs (s : tracker) : gmap Z conn :=
  omap (λ l, f ← heap s !! l; if in_qpn_map f then Some (conn_of f) else None) (local_map s).

(** The effect of a message on the table. *)
Inductive table_step (dir : ctcm_direction) (m : cm_msg) (T : gmap Z conn) : gmap Z conn → Prop :=
| ts_skip : table_step dir m T T
| ts_open c :
    m_attr m = CM_RTU_ATTR_ID → c_lid c = own_id dir m → T !! c_lid c = None →
    (∀ i c', T !! i = Some c' → conn_key c' ≠ conn_key c) →
    c_lqpn c ≠ 0 → c_rqpn c ≠ 0 → table_step dir m T (<[c_lid c := c]> T)
| ts_close c :
    m_attr m = CM_REJ_ATTR_ID ∨ m_attr m = CM_DREP_ATTR_ID →
    (if own_id dir m =? 0 then c_remote c = peer_key dir m else c_lid c = own_id dir m) →
    T !! c_lid c = Some c → table_step dir m T (delete (c_lid c) T).

(** The answer to a query: the connection's local queue pair, or zero. *)
Definition table_answer (T : gmap Z conn) (k : flow_key) (q : Z) : Prop :=
  (∃ i c, T !! i = Some c ∧ conn_key c = k ∧ c_lqpn c = q ∧ q ≠ 0) ∨
  ((∀ i c, T !! i = Some c → conn_key c ≠ k) ∧ q = 0).

Lemma abs_lookup s i c : wf s → abs s !! i = Some c ↔ listed s c ∧ c_lid c = i.
Proof.
  intros W. unfold abs. rewrite lookup_omap. split.
  - destruct (local_map s !! i) as [l|] eqn:HL; [cbn|done].
    destruct (wf_local _ W _ _ HL) as (_ & f & Hf & Hid). rewrite Hf. cbn.
    destruct (in_qpn_map f) eqn:Hin; [|done]. intros [= <-]. split; [by exists l, f|done].
  - intros [(l & f & Hf & Hin & <-) Hid]. cbn in Hid. subst i.
    destruct (wf_listed _ W _ _ Hf Hin) as [-> _]. cbn. rewrite Hf. cbn. by rewrite Hin.
Qed.

Lemma listed_key s c : wf s → listed s c → qpn_map s !! conn_key c = Some (c_lqpn c) ∧ c_lqpn c ≠ 0.
Proof.
  intros W (l & f & Hf & Hin & <-). destruct (wf_listed _ W _ _ Hf Hin) as [_ Hq].
  by destruct (fo_live _ (wf_flow _ W _ _ Hf) Hin) as (_ & _ & ? & _).
Qed.

Lemma listed_lid_inj s c c' : wf s → listed s c → listed s c' → c_lid c = c_lid c' → c = c'.
Proof.
  intros W (l & f & Hf & Hin & <-) (l' & f' & Hf' & Hin' & <-) He. cbn in He.
  destruct (wf_listed _ W _ _ Hf Hin) as [HL _], (wf_listed _ W _ _ Hf' Hin') as [HL' _].
  congruence.
Qed.

(** The table of queue pairs in terms of the listed connections. *)
Lemma query_spec s k q :
  wf s → qpn_map s !! k = Some q ↔ ∃ c, listed s c ∧ conn_key c = k ∧ c_lqpn c = q.
Proof.
  intros W. split.
  - intros (l & f & Hf & Hin & Hk & Hq)%(wf_qpn _ W). exists (conn_of f).
    split_and!; [by exists l, f|done..].
  - intros (c & Hc & <- & <-). by apply listed_key.
Qed.

Lemma abs_quiet s s' : wf s → wf s' → quiet s s' → abs s' = abs s.
Proof.
  intros W W' Q. apply map_eq. intros i. apply option_eq. intros c.
  rewrite !abs_lookup by done. by rewrite (Q c).
Qed.

Lemma abs_establishes s s' c :
  wf s → wf s' → establishes c s s' → abs s' = <[c_lid c := c]> (abs s).
Proof.
  intros W W' (_ & _ & _ & Hf & Hl). apply map_eq. intros i. apply option_eq. intros c'.
  rewrite lookup_insert_Some, !abs_lookup, Hl by done. split.
  - intros [[Hc| ->] Hi]; [right|by left]. split; [|done]. intros <-. by apply (Hf c').
  - intros [[<- ->]|[Hne [Hc Hi]]]; auto.
Qed.

Lemma abs_drops s s' c : wf s → wf s' → drops c s s' → abs s' = delete (c_lid c) (abs s).
Proof.
  intros W W' [Hc Hl]. apply map_eq. intros i. apply option_eq. intros c'.
  rewrite lookup_delete_Some, !abs_lookup, Hl by done. split.
  - intros [[Hc' Hne] Hi]. split; [|done]. intros He. apply Hne.
    apply (listed_lid_inj s); [done..|congruence].
  - intros [Hne [Hc' Hi]]. split_and!; [done| |done]. congruence.
Qed.

Lemma step_refines dir m s s' : wf s → step_ok dir m s s' → table_step dir m (abs s) (abs s').
Proof.
  intros W [W' _ [Q|c Ha Hl E|c Ha Hl D]].
  - rewrite (abs_quiet s s') by done. apply ts_skip.
  - rewrite (abs_establishes s s' c) by done. destruct E as (Hk & Hlq & Hrq & Hf & Hls).
    apply ts_open; [done|done| | |done|done].
    + apply eq_None_not_Some. intros [c' [Hc' Hi]%abs_lookup]; [|done]. by apply (Hf c').
    + intros i c' [Hc' _]%abs_lookup He; [|done].
      destruct (listed_key _ _ W Hc') as [Hk' _]. rewrite He in Hk'. congruence.
  - rewrite (abs_drops s s' c) by done. apply ts_close; [done..|]. destruct D as [Hc _].
    by apply abs_lookup.
Qed.

Lemma answer_spec s k : wf s → table_answer (abs s) k (get_source_qpn s k).
Proof.
  intros W. unfold get_source_qpn. destruct (qpn_map s !! k) as [q|] eqn:Hq.
  - left. apply query_spec in Hq as (c & Hc & Hk & Hl); [|done]. exists (c_lid c), c.
    split_and!; [by apply abs_lookup|done..|]. destruct (listed_key _ _ W Hc). congruence.
  - right. split; [|done]. intros i c [Hc _]%abs_lookup Hk; [|done].
    destruct (listed_key _ _ W Hc) as [Hk' _]. congruence.
Qed.

(** C2: the tracker refines the table of connections: the empty tracker is the
    empty table; every packet that is processed, in any state that satisfies the
    invariant, is a step of the table for the message the packet holds; and a
    query returns the answer that the table determines. *)
Theorem tracker_refines_table {P} `{CmPacket P} s p dir u s' k :
  wf s → process p dir s = Ok (u, s') →
  abs empty_tracker = ∅ ∧
  table_step dir (decode p) (abs s) (abs s') ∧
  table_answer (abs s') k (get_source_qpn s' k).
Proof.
  intros W Hs%process_decode. pose proof (message_step _ _ _ _ _ W Hs) as St.
  split_and!; [done|by apply step_refines|]. apply answer_spec. apply St.
Qed.

(** ** When answers change *)

Lemma source_qpn_listed s k c :
  wf s → listed s c → conn_key c = k → get_source_qpn s k = c_lqpn c.
Proof. intros W Hc <-. unfold get_source_qpn. by destruct (listed_key _ _ W Hc) as [-> _]. Qed.

Lemma source_qpn_none s k :
  wf s → (∀ c, listed s c → conn_key c ≠ k) → get_source_qpn s k = 0.
Proof.
  intros W Hn. unfold get_source_qpn. destruct (qpn_map s !! k) eqn:Hq; [|done].
  apply query_spec in Hq as (c & Hc & Hk & _); [|done]. by apply Hn in Hc.
Qed.

Lemma source_qpn_same s s' k :
  wf s → wf s' → (∀ c, conn_key c = k → listed s' c ↔ listed s c) →
  get_source_qpn s' k = get_source_qpn s k.
Proof.
  intros W W' Hc. unfold get_source_qpn.
  replace (qpn_map s' !! k) with (qpn_map s !! k); [done|].
  apply option_eq. intros q. rewrite !query_spec by done.
  split; intros (c & Hl & Hk & Hq); exists c; (split_and!; [by apply Hc|done..]).
Qed.

Lemma establishes_queries s s' c :
  wf s → wf s' → establishes c s s' →
  get_source_qpn s (conn_key c) = 0 ∧ get_source_qpn s' (conn_key c) = c_lqpn c ∧
  ∀ k, k ≠ conn_key c → get_source_qpn s' k = get_source_qpn s k.
Proof.
  intros W W' (Hk & Hlq & Hrq & Hf & Hl). split_and!.
  - unfold get_source_qpn. by rewrite Hk.
  - apply source_qpn_listed; [done| |done]. apply Hl. by right.
  - intros k Hne. apply source_qpn_same; [done..|]. intros c' <-. rewrite Hl. split; [|auto].
    intros [?| ->]; [done|]. congruence.
Qed.

Lemma drops_queries s s' c :
  wf s → wf s' → drops c s s' →
  get_source_qpn s (conn_key c) = c_lqpn c ∧ c_lqpn c ≠ 0 ∧ get_source_qpn s' (conn_key c) = 0 ∧
  ∀ k, k ≠ conn_key c → get_source_qpn s' k = get_source_qpn s k.
Proof.
  intros W W' [Hc Hl]. destruct (listed_key _ _ W Hc) as [Hq Hnz]. split_and!.
  - by apply source_qpn_listed.
  - done.
  - apply source_qpn_none; [done|]. intros c' [Hc' Hne]%Hl He. apply Hne.
    destruct Hc as (l & f & Hf & Hin & <-), Hc' as (l' & f' & Hf' & Hin' & <-).
    assert (l = l') as -> by (eapply (wf_unique _ W); [done..|]; by rewrite !get_flow_key_conn).
    congruence.
  - intros k Hne. apply source_qpn_same; [done..|]. intros c' <-. rewrite Hl.
    split; [tauto|]. intros ?. split; [done|]. congruence.
Qed.

(** A packet changes the answer for at most one key, and only in two ways: an
    RTU turns "unknown" into the local queue pair of the connection it completes, a
    REJ or a DREP turns a known queue pair into "unknown".  An answer is never
    replaced by a different one. *)
Theorem query_changes {P} `{CmPacket P} s p dir u s' :
  wf s → process p dir s = Ok (u, s') →
  let m := decode p in
  (∀ k, get_source_qpn s' k = get_source_qpn s k) ∨
  ∃ k0, (∀ k, k ≠ k0 → get_source_qpn s' k = get_source_qpn s k) ∧
    (m_attr m = CM_RTU_ATTR_ID ∧ get_source_qpn s k0 = 0 ∧ get_source_qpn s' k0 ≠ 0 ∨
     (m_attr m = CM_REJ_ATTR_ID ∨ m_attr m = CM_DREP_ATTR_ID) ∧
     get_source_qpn s k0 ≠ 0 ∧ get_source_qpn s' k0 = 0).
Proof.
  intros W Hs%process_decode m.
  destruct (message_step _ _ _ _ _ W Hs) as [W' _ [Q|c Ha Hl E|c Ha Hl D]].
  - left. intros k. apply source_qpn_same; [done..|]. intros c _. apply Q.
  - right. exists (conn_key c). destruct (establishes_queries s s' c W W' E) as (-> & -> & Hk).
    split; [done|]. left. split_and!; [done..|]. apply E.
  - right. exists (conn_key c). destruct (drops_queries s s' c W W' D) as (-> & ? & -> & Hk).
    split; [done|]. by right.
Qed.
