(* ===== verification/Handshake.v ===== *)
(** * Handshake: connections come and go as the protocol says

    Forward execution: the three messages of a handshake, from either side, and
    the two of a teardown are processed without stopping the program, with the
    packets of any other connections in between, and the answer to the query for
    the connection is its local queue pair exactly in between. *)

From Stdlib Require Import ZArith Lia String.
From stdpp Require Import base tactics numbers list strings gmap.
From S2P Require Import Prelude Memory Layout IbMad Iba IbtaC12 Mbuf CmPacket Tracker TrackerInv TrackerStep TrackerSpec.

Local Open Scope string_scope.
Open Scope Z_scope.
Open Scope ctcm_scope.

(** ** Running the operations forward *)

(** Symbolic execution: unfold the operations, simplify, and look up. *)
Ltac run_unfold :=
  unfold get_flow, add_new_flow, on_established, make_shared, assign, obj, update, get_state,
    assertM, lift, assert_that, mbind, M_bind, mret, M_ret.
Ltac run_cbn :=
  repeat (progress (change (key_bool no_key) with false; cbn -[lookup insert delete next key_bool])).
Ltac run_M := run_unfold; run_cbn.

Lemma eqb_nonzero z : z ≠ 0 → (z =? 0) = false.
Proof. apply Z.eqb_neq. Qed.

(** What an operation that returns [l] leaves behind. *)
Record leaves (s : tracker) (l : loc) (f : flow_state) (lm : gmap Z loc) (rm : gmap cm_flow_key loc)
    (s' : tracker) : Prop := {
  lv_heap : heap s' !! l = Some f;
  lv_local : local_map s' = lm;
  lv_remote : remote_map s' = rm;
  lv_qpn : qpn_map s' = qpn_map s;
}.

Lemma no_key_free s : wf s → remote_map s !! no_key = None.
Proof. intros W. destruct (remote_map s !! no_key) eqn:E; [|done]. by apply (wf_remote _ W) in E as []. Qed.

Lemma no_id_free s : wf s → local_map s !! 0 = None.
Proof. intros W. destruct (local_map s !! 0) eqn:E; [|done]. by apply (wf_local _ W) in E as []. Qed.

(** A new flow known by a local id. *)
Lemma get_flow_new_local lid s :
  wf s → lid ≠ 0 → local_map s !! lid = None →
  ∃ s', get_flow lid no_key s = Ok (next s, s') ∧
        leaves s (next s) (set_local_id lid new_flow_state)
          (<[lid := next s]> (local_map s)) (remote_map s) s'.
Proof.
  intros W Hlid HL. pose proof (no_key_free _ W) as HR. run_unfold.
  rewrite (eqb_nonzero _ Hlid). run_cbn. rewrite HL. run_cbn. rewrite HL, HR. run_cbn.
  rewrite !lookup_insert_eq. run_cbn. rewrite !lookup_insert_eq. run_cbn.
  eexists. split; [done|]. split; [apply lookup_insert_eq|done..].
Qed.

(** A new flow known by a remote key. *)
Lemma get_flow_new_remote rk s :
  wf s → key_bool rk = true → remote_map s !! rk = None →
  ∃ s', get_flow 0 rk s = Ok (next s, s') ∧
        leaves s (next s) (set_remote_id rk new_flow_state)
          (local_map s) (<[rk := next s]> (remote_map s)) s'.
Proof.
  intros W Hrk HR. pose proof (no_id_free _ W) as HL. run_M.
  rewrite Hrk, HR. run_cbn. rewrite HL, HR. run_cbn.
  rewrite !lookup_insert_eq. run_cbn. rewrite !lookup_insert_eq. run_cbn.
  eexists. split; [done|]. split; [apply lookup_insert_eq|done..].
Qed.

(** A flow that is there. *)
Lemma get_flow_local lid rk l s :
  lid ≠ 0 → local_map s !! lid = Some l → get_flow lid rk s = Ok (l, s).
Proof. intros Hlid HL. run_unfold. rewrite (eqb_nonzero _ Hlid). run_cbn. by rewrite HL. Qed.

(** Giving the second id to a flow that has one. *)
Lemma add_remote lid rk l f s :
  local_map s !! lid = Some l → heap s !! l = Some f → remote_map s !! rk = None →
  key_bool rk = true → key_bool (remote_id f) = false →
  ∃ s', add_new_flow lid rk s = Ok (l, s') ∧
        leaves s l (set_remote_id rk f) (local_map s) (<[rk := l]> (remote_map s)) s'.
Proof.
  intros HL Hf HR Hrk Hid. run_M. rewrite HL, HR. run_cbn. rewrite Hrk. run_cbn.
  rewrite Hf. run_cbn. rewrite Hid. run_cbn. rewrite Hf. run_cbn.
  eexists. split; [done|]. split; [apply lookup_insert_eq|done..].
Qed.

Lemma get_flow_add_local lid rk l f s :
  lid ≠ 0 → local_map s !! lid = None → remote_map s !! rk = Some l → heap s !! l = Some f →
  local_id f = 0 →
  ∃ s', get_flow lid rk s = Ok (l, s') ∧
        leaves s l (set_local_id lid f) (<[lid := l]> (local_map s)) (remote_map s) s'.
Proof.
  intros Hlid HL HR Hf Hid. run_unfold. rewrite (eqb_nonzero _ Hlid). run_cbn.
  rewrite HL. run_cbn. rewrite HL, HR. run_cbn. rewrite Hf. run_cbn. rewrite Hid. run_cbn.
  rewrite Hf. run_cbn. eexists. split; [done|]. split; [apply lookup_insert_eq|done..].
Qed.

Lemma add_both lid rk l f s :
  local_map s !! lid = Some l → remote_map s !! rk = Some l → heap s !! l = Some f →
  local_id f = lid → remote_id f = rk → add_new_flow lid rk s = Ok (l, s).
Proof.
  intros HL HR Hf <- <-. run_M. rewrite HL, HR. run_cbn. rewrite bool_decide_eq_true_2 by done.
  run_cbn. rewrite Hf. run_cbn. by rewrite !bool_decide_eq_true_2 by done.
Qed.

(** ** Stages of a connection *)

(** The connection with local id [lid] and remote key [rk] is represented by the
    flow [f]: the maps lead to it under the ids it has, and to no other flow. *)
Record stage (lid : Z) (rk : cm_flow_key) (f : flow_state) (s : tracker) : Prop := {
  sg_loc : ∃ l, heap s !! l = Some f ∧
    local_map s !! lid = (if decide (local_id f = 0) then None else Some l) ∧
    remote_map s !! rk = (if decide (remote_id f = no_key) then None else Some l);
  sg_local : local_id f = 0 ∨ local_id f = lid;
  sg_remote : remote_id f = no_key ∨ remote_id f = rk;
  sg_named : local_id f ≠ 0 ∨ remote_id f ≠ no_key;
}.

(** A step that names neither id leaves the stage alone. *)
Lemma stage_frame lid rk f i k s s' :
  i ≠ lid → k ≠ rk → frame i k s s' → stage lid rk f s → stage lid rk f s'.
Proof.
  intros Ho Hp [FL FR FH] [(l & Hf & HL & HR) Hl Hr Hn].
  split; [|done..]. exists l. rewrite FL, FR by done. split_and!; [|done..].
  apply FH; [done|]. intros [[Hz He]|[[Hk He]|[He1 He2]]].
  - destruct Hl as [Hl|Hl]; congruence.
  - destruct Hr as [Hr|Hr]; [|congruence]. by rewrite Hr in He; rewrite <- He in Hk.
  - destruct Hn; congruence.
Qed.

(** A packet that concerns another connection. *)
Definition avoids {P} `{CmPacket P} (lid : Z) (rk : cm_flow_key) (x : ctcm_direction * P) : Prop :=
  own_id x.1 (decode x.2) ≠ lid ∧ peer_key x.1 (decode x.2) ≠ rk.

Section Isolation.
Context {P : Type} `{CmPacket P}.

(** Packets of other connections leave the stage of a connection alone. *)
Lemma stage_step lid rk f s p dir u s' :
  wf s → stage lid rk f s → avoids lid rk (dir, p) → process p dir s = Ok (u, s') →
  wf s' ∧ stage lid rk f s'.
Proof.
  intros W St [Ho Hp] Hs%process_decode. cbn in Ho, Hp.
  destruct (message_step _ _ _ _ _ W Hs) as [W' F _]. split; [done|].
  by eapply stage_frame; [exact Ho|exact Hp|..].
Qed.

Lemma stage_run lid rk f tr s s' :
  wf s → stage lid rk f s → Forall (avoids lid rk) tr → run s tr = Ok s' →
  wf s' ∧ stage lid rk f s'.
Proof.
  revert s. induction tr as [|[dir p] tr IH]; intros s W St Ha Hs; cbn in Hs.
  - by simplify_eq.
  - inversion Ha as [|?? Hp Htr]; subst. destruct (process p dir s) as [[u s1]|] eqn:E; [|done].
    destruct (stage_step lid rk f s p dir u s1 W St Hp E). by eapply IH.
Qed.

(** The same for ids that are not in use. *)
Lemma free_run lid rk tr s s' :
  wf s → Forall (avoids lid rk) tr → run s tr = Ok s' →
  wf s' ∧ local_map s' !! lid = local_map s !! lid ∧ remote_map s' !! rk = remote_map s !! rk.
Proof.
  revert s. induction tr as [|[dir p] tr IH]; intros s W Ha Hs; cbn in Hs.
  - by simplify_eq.
  - inversion Ha as [|?? [Ho Hp] Htr]; subst. destruct (process p dir s) as [[u s1]|] eqn:E; [|done].
    apply process_decode in E. destruct (message_step _ _ _ _ _ W E) as [W1 [FL FR FH] _].
    destruct (IH s1 W1 Htr Hs) as (W' & -> & ->). split_and!; [done|by apply FL|by apply FR].
Qed.
End Isolation.

(** ** The handlers on the connection's own messages *)

Lemma obj_bind {A} l f (k : flow_state → M A) s :
  heap s !! l = Some f → (obj l ≫= k) s = k f s.
Proof. intros Hf. apply M_bind_l. by apply obj_Ok. Qed.

Lemma process_handler (m : cm_msg) dir h s :
  handler_of dir (m_attr m) = Some h → process m dir s = h m s.
Proof.
  intros Hh. rewrite process_eq.
  rewrite (M_bind_l _ _ s (m_attr m) s) by (apply lift_Ok; by rewrite read_attr). by rewrite Hh.
Qed.

Ltac read_goal :=
  change CM_REQ_LOCAL_COMM_ID with CM_REP_LOCAL_COMM_ID;
  change CM_REJ_LOCAL_COMM_ID with CM_REP_LOCAL_COMM_ID;
  change CM_RTU_LOCAL_COMM_ID with CM_REP_LOCAL_COMM_ID;
  change CM_DREQ_LOCAL_COMM_ID with CM_REP_LOCAL_COMM_ID;
  change CM_DREP_LOCAL_COMM_ID with CM_REP_LOCAL_COMM_ID;
  change CM_REJ_REMOTE_COMM_ID with CM_REP_REMOTE_COMM_ID;
  change CM_RTU_REMOTE_COMM_ID with CM_REP_REMOTE_COMM_ID;
  change CM_DREQ_REMOTE_COMM_ID with CM_REP_REMOTE_COMM_ID;
  change CM_DREP_REMOTE_COMM_ID with CM_REP_REMOTE_COMM_ID;
  repeat first [ rewrite read_mad | rewrite read_local | rewrite read_remote
               | rewrite read_req_qpn | rewrite read_rep_qpn
               | rewrite read_src | rewrite read_dest ];
  cbn beta.

Lemma leaves_upd s s0 l f f' lm rm :
  leaves s l f lm rm s0 → leaves s l f' lm rm (upd l f' s0).
Proof. intros [Hh HL HR HQ]. split; [apply heap_upd|done..]. Qed.

Lemma req_sent_run m s :
  wf s → m_local_comm_id m ≠ 0 → local_map s !! m_local_comm_id m = None →
  ∃ s', req_sent m s = Ok (tt, s') ∧
        leaves s (next s) (Flow REQ_SENT (m_local_comm_id m) no_key (m_qpn m) 0 false)
          (<[m_local_comm_id m := next s]> (local_map s)) (remote_map s) s'.
Proof.
  intros W Hlid HL. destruct (get_flow_new_local _ s W Hlid HL) as (s0 & Hg & Lv).
  unfold req_sent. read_goal. rewrite (M_bind_l _ _ _ _ _ Hg), (obj_bind _ _ _ _ (lv_heap _ _ _ _ _ _ Lv)).
  cbn [state set_local_id new_flow_state].
  rewrite (assign_bind _ _ _ _ _ (lv_heap _ _ _ _ _ _ Lv)). read_goal.
  rewrite (assign_run _ _ _ _ (heap_upd _ _ _)). eexists. split; [done|].
  eapply leaves_upd, leaves_upd, Lv.
Qed.

Lemma req_received_run m s :
  let rk := (m_saddr m, m_local_comm_id m) in
  wf s → key_bool rk = true → remote_map s !! rk = None →
  ∃ s', req_received m s = Ok (tt, s') ∧
        leaves s (next s) (Flow REQ_RCVD 0 rk 0 (m_qpn m) false)
          (local_map s) (<[rk := next s]> (remote_map s)) s'.
Proof.
  intros rk W Hrk HR. destruct (get_flow_new_remote rk s W Hrk HR) as (s0 & Hg & Lv).
  unfold req_received. read_goal. fold rk.
  rewrite (M_bind_l _ _ _ _ _ Hg), (obj_bind _ _ _ _ (lv_heap _ _ _ _ _ _ Lv)).
  cbn [state set_remote_id new_flow_state]. rewrite decide_False by (by intros []).
  rewrite (M_bind_l _ _ _ tt s0) by done.
  rewrite (assign_bind _ _ _ _ _ (lv_heap _ _ _ _ _ _ Lv)). read_goal.
  rewrite (assign_run _ _ _ _ (heap_upd _ _ _)). eexists. split; [done|].
  eapply leaves_upd, leaves_upd, Lv.
Qed.

Lemma rep_received_run m s l f :
  let lid := m_remote_comm_id m in
  let rk := (m_saddr m, m_local_comm_id m) in
  lid ≠ 0 → local_map s !! lid = Some l → heap s !! l = Some f → state f = REQ_SENT →
  remote_id f = no_key → key_bool rk = true → remote_map s !! rk = None →
  ∃ s', rep_received m s = Ok (tt, s') ∧
        leaves s l (Flow REP_RCVD (local_id f) rk (local_qpn f) (m_qpn m) (in_qpn_map f))
          (local_map s) (<[rk := l]> (remote_map s)) s'.
Proof.
  intros lid rk Hlid HL Hf Hst Hid Hrk HR.
  unfold rep_received. read_goal. fold lid rk.
  rewrite (M_bind_l _ _ _ _ _ (get_flow_local _ _ _ _ Hlid HL)), (obj_bind _ _ _ _ Hf), Hst.
  rewrite (assign_bind _ _ _ _ _ Hf). read_goal. rewrite (assign_bind _ _ _ _ _ (heap_upd _ _ _)).
  destruct (add_remote lid rk l (set_remote_qpn (m_qpn m) (set_state REP_RCVD f))
              (upd l (set_remote_qpn (m_qpn m) (set_state REP_RCVD f))
                 (upd l (set_state REP_RCVD f) s))) as (s' & Hs & Lv);
    [done|apply heap_upd|done|done|by cbn; rewrite Hid|].
  rewrite (M_bind_l _ _ _ _ _ Hs). exists s'. split; [done|]. by destruct Lv.
Qed.

Lemma rep_sent_run m s l f :
  let lid := m_local_comm_id m in
  let rk := (m_daddr m, m_remote_comm_id m) in
  lid ≠ 0 → local_map s !! lid = None → remote_map s !! rk = Some l → heap s !! l = Some f →
  state f = REQ_RCVD → local_id f = 0 → remote_id f = rk →
  ∃ s', rep_sent m s = Ok (tt, s') ∧
        leaves s l (Flow REP_SENT lid rk (m_qpn m) (remote_qpn f) (in_qpn_map f))
          (<[lid := l]> (local_map s)) (remote_map s) s'.
Proof.
  intros lid rk Hlid HL HR Hf Hst Hid Hrk.
  destruct (get_flow_add_local lid rk l f s Hlid HL HR Hf Hid) as (s0 & Hg & [Hh HL0 HR0 HQ0]).
  unfold rep_sent. read_goal. fold lid rk.
  rewrite (M_bind_l _ _ _ _ _ Hg), (obj_bind _ _ _ _ Hh). cbn [state set_local_id]. rewrite Hst.
  rewrite (assign_bind _ _ _ _ _ Hh).
  rewrite (M_bind_l _ _ _ l (upd l (set_state REP_SENT (set_local_id lid f)) s0)).
  2:{ eapply add_both; [cbn; rewrite HL0; apply lookup_insert_eq|cbn; by rewrite HR0
                       |apply heap_upd|done|done]. }
  read_goal. rewrite (assign_run _ _ _ _ (heap_upd _ _ _)). eexists. split; [done|].
  split; [rewrite heap_upd, <- Hrk; done|done..].
Qed.

(** Completing the handshake. *)
Lemma establish_run l f s :
  heap s !! l = Some f → local_qpn f ≠ 0 → remote_qpn f ≠ 0 → qpn_map s !! get_flow_key f = None →
  ∃ s', (_ ← assign l (set_state ESTABLISHED); on_established l) s = Ok (tt, s') ∧
        heap s' !! l = Some (set_in_qpn_map true (set_state ESTABLISHED f)) ∧
        local_map s' = local_map s ∧ remote_map s' = remote_map s.
Proof.
  intros Hf Hlq Hrq Hq. rewrite (assign_bind _ _ _ _ _ Hf). unfold on_established.
  rewrite (obj_bind _ _ _ _ (heap_upd _ _ _)). cbn [local_qpn remote_qpn set_state].
  rewrite (eqb_nonzero _ Hlq), (eqb_nonzero _ Hrq). cbn [orb].
  rewrite (M_bind_l _ _ _ _ (upd l (set_state ESTABLISHED f) s)) by done.
  cbn [qpn_map upd set_heap]. change (get_flow_key (set_state ESTABLISHED f)) with (get_flow_key f).
  rewrite Hq. erewrite M_bind_l by done.
  rewrite (assign_run _ _ _ (set_state ESTABLISHED f)) by apply lookup_insert_eq.
  eexists. split; [done|]. split_and!; [apply heap_upd|done..].
Qed.

Lemma rtu_sent_run m s l f :
  m_local_comm_id m ≠ 0 → local_map s !! m_local_comm_id m = Some l → heap s !! l = Some f →
  state f = REP_RCVD → local_qpn f ≠ 0 → remote_qpn f ≠ 0 → qpn_map s !! get_flow_key f = None →
  ∃ s', rtu_sent m s = Ok (tt, s') ∧
        heap s' !! l = Some (set_in_qpn_map true (set_state ESTABLISHED f)) ∧
        local_map s' = local_map s ∧ remote_map s' = remote_map s.
Proof.
  intros Hlid HL Hf Hst Hlq Hrq Hq. unfold rtu_sent. read_goal.
  rewrite (M_bind_l _ _ _ _ _ (get_flow_local _ _ _ _ Hlid HL)), (obj_bind _ _ _ _ Hf), Hst.
  by apply establish_run.
Qed.

Lemma rtu_received_run m s l f :
  m_remote_comm_id m ≠ 0 → local_map s !! m_remote_comm_id m = Some l → heap s !! l = Some f →
  state f = REP_SENT → local_qpn f ≠ 0 → remote_qpn f ≠ 0 → qpn_map s !! get_flow_key f = None →
  ∃ s', rtu_received m s = Ok (tt, s') ∧
        heap s' !! l = Some (set_in_qpn_map true (set_state ESTABLISHED f)) ∧
        local_map s' = local_map s ∧ remote_map s' = remote_map s.
Proof.
  intros Hlid HL Hf Hst Hlq Hrq Hq. unfold rtu_received. read_goal.
  rewrite (M_bind_l _ _ _ _ _ (get_flow_local _ _ _ _ Hlid HL)), (obj_bind _ _ _ _ Hf), Hst.
  by apply establish_run.
Qed.

(** ** Answers at each stage *)

Lemma stage_listed lid rk f s : stage lid rk f s → in_qpn_map f = true → listed s (conn_of f).
Proof. intros [(l & Hf & _) _ _ _] Hin. by exists l, f. Qed.

Lemma stage_query lid rk f s :
  wf s → stage lid rk f s → in_qpn_map f = true → get_source_qpn s (get_flow_key f) = local_qpn f.
Proof. intros W St Hin. apply (source_qpn_listed s _ (conn_of f)); [done|by eapply stage_listed|done]. Qed.

Lemma unknown_free s k : wf s → get_source_qpn s k = 0 → qpn_map s !! k = None.
Proof.
  intros W Hk. unfold get_source_qpn in Hk. destruct (qpn_map s !! k) as [q|] eqn:Hq; [|done].
  apply query_spec in Hq as (c & Hc & _ & Hl); [|done]. destruct (listed_key _ _ W Hc). congruence.
Qed.

(** An RTU after which a new connection is listed changes that answer only. *)
Lemma rtu_queries m dir s u s' lid rk f :
  wf s → process m dir s = Ok (u, s') → stage lid rk f s' → in_qpn_map f = true →
  get_source_qpn s (get_flow_key f) = 0 →
  get_source_qpn s' (get_flow_key f) = local_qpn f ∧
  ∀ k, k ≠ get_flow_key f → get_source_qpn s' k = get_source_qpn s k.
Proof.
  intros W Hs St Hin Hz. destruct (message_step _ _ _ _ _ W Hs) as [W' _ O].
  split; [by eapply stage_query|]. pose proof (stage_listed _ _ _ _ St Hin) as Hl.
  assert (Hn : ¬ listed s (conn_of f)).
  { intros Hl'. pose proof (source_qpn_listed _ _ _ W Hl' eq_refl) as He.
    destruct (listed_key _ _ W Hl') as [_ Hnz]. rewrite <- get_flow_key_conn in He. congruence. }
  destruct O as [Q|c Ha _ E|c Ha _ D].
  - by apply Q in Hl.
  - assert (c = conn_of f) as -> by (apply E in Hl as [Hl| ->]; done).
    by apply (establishes_queries s s' (conn_of f)).
  - by apply D in Hl as [Hl _].
Qed.

(** *** The messages of a handshake *)
Definition is_req (m : cm_msg) (id qpn : Z) : Prop :=
  m_attr m = CM_REQ_ATTR_ID ∧ m_local_comm_id m = id ∧ m_qpn m = qpn.
Definition is_rep (m : cm_msg) (id peer qpn : Z) : Prop :=
  m_attr m = CM_REP_ATTR_ID ∧ m_local_comm_id m = id ∧ m_remote_comm_id m = peer ∧ m_qpn m = qpn.
Definition is_rtu (m : cm_msg) (id peer : Z) : Prop :=
  m_attr m = CM_RTU_ATTR_ID ∧ m_local_comm_id m = id ∧ m_remote_comm_id m = peer.

Lemma key_bool_true a b : a ≠ 0 → b ≠ 0 → key_bool (a, b) = true.
Proof. intros Ha Hb. unfold key_bool. cbn. by rewrite (eqb_nonzero _ Ha), (eqb_nonzero _ Hb). Qed.

(** From the state a handler leaves to the stage. *)
Lemma stage_of lid rk l f s :
  heap s !! l = Some f → local_id f = 0 ∨ local_id f = lid →
  remote_id f = no_key ∨ remote_id f = rk → local_id f ≠ 0 ∨ remote_id f ≠ no_key →
  local_map s !! lid = (if decide (local_id f = 0) then None else Some l) →
  remote_map s !! rk = (if decide (remote_id f = no_key) then None else Some l) →
  stage lid rk f s.
Proof. intros Hf Hl Hr Hn HL HR. split; [|done..]. by exists l. Qed.

Section Handshakes.
Context {P : Type} `{CmPacket P}.
Context (lid rid rip lqpn rqpn : Z).
Context (Hlid : lid ≠ 0) (Hrid : rid ≠ 0) (Hrip : rip ≠ 0) (Hlqpn : lqpn ≠ 0) (Hrqpn : rqpn ≠ 0).

Abbreviation rk := (rip, rid).

(** The packets of the connection itself never stop the program; the packets of
    other connections are arbitrary. *)
Lemma active_req p m s :
  carries p m → is_req m lid lqpn → wf s → local_map s !! lid = None → remote_map s !! rk = None →
  ∃ s', process p CTCM_FROM_HOST s = Ok (tt, s') ∧ wf s' ∧
        stage lid rk (Flow REQ_SENT lid no_key lqpn 0 false) s'.
Proof.
  intros Hc (Ha & <- & <-) W HL HR. rewrite (carries_process _ _ _ _ Hc).
  rewrite (process_handler m _ req_sent) by (by rewrite Ha).
  destruct (req_sent_run m s W Hlid HL) as (s' & Hs & [Hh HL' HR' HQ']). exists s'.
  split_and!; [done| |].
  - eapply (message_step m CTCM_FROM_HOST); [done|].
    rewrite (process_handler m _ req_sent) by (by rewrite Ha). done.
  - eapply stage_of; [done|by right|by left|by left| |].
    + cbn. rewrite HL', decide_False by done. apply lookup_insert_eq.
    + cbn. by rewrite HR', decide_True by done.
Qed.

Lemma active_rep p m f s :
  carries p m → is_rep m rid lid rqpn → m_saddr m = rip → wf s →
  stage lid rk f s → state f = REQ_SENT → local_id f = lid → remote_id f = no_key →
  ∃ s', process p CTCM_FROM_NET s = Ok (tt, s') ∧ wf s' ∧
        stage lid rk (Flow REP_RCVD lid rk (local_qpn f) rqpn (in_qpn_map f)) s'.
Proof.
  intros Hc (Ha & Hl & Hr & Hq) Hsa W [(l & Hf & HL & HR) _ _ _] Hst Hfl Hfr.
  rewrite decide_False in HL by congruence. rewrite decide_True in HR by done.
  rewrite (carries_process _ _ _ _ Hc).
  rewrite (process_handler m _ rep_received) by (by rewrite Ha).
  destruct (rep_received_run m s l f) as (s' & Hs & [Hh HL' HR' HQ']);
    rewrite ?Hsa, ?Hl, ?Hr; try done; [by apply key_bool_true|].
  exists s'. split_and!; [done| |].
  - eapply (message_step m CTCM_FROM_NET); [done|].
    rewrite (process_handler m _ rep_received) by (by rewrite Ha). done.
  - rewrite Hsa, Hl, Hq, Hfl in Hh. eapply stage_of; [done|by right|by right|by left| |].
    + cbn. by rewrite HL', decide_False.
    + cbn. rewrite HR', Hsa, Hl, decide_False by (unfold no_key; congruence).
      apply lookup_insert_eq.
Qed.

(** The RTU, from either side. *)
Lemma rtu_stage (m : cm_msg) dir l f s s' :
  wf s → process m dir s = Ok (tt, s') → heap s !! l = Some f → stage lid rk f s →
  local_map s !! lid = Some l → local_id f = lid → get_source_qpn s (get_flow_key f) = 0 →
  heap s' !! l = Some (set_in_qpn_map true (set_state ESTABLISHED f)) →
  local_map s' = local_map s → remote_map s' = remote_map s →
  wf s' ∧ stage lid rk (set_in_qpn_map true (set_state ESTABLISHED f)) s' ∧
  get_source_qpn s' (get_flow_key f) = local_qpn f ∧
  ∀ k, k ≠ get_flow_key f → get_source_qpn s' k = get_source_qpn s k.
Proof.
  intros W Hs Hf [(l0 & Hf0 & HL & HR) Sl Sr Sn] HLl Hfl Hz Hh HL' HR'.
  rewrite decide_False in HL by congruence. assert (l0 = l) as -> by congruence.
  assert (St : stage lid rk (set_in_qpn_map true (set_state ESTABLISHED f)) s').
  { eapply stage_of; [done..| |]; cbn; rewrite ?HL', ?HR'; [by rewrite decide_False by congruence|done]. }
  split_and!; [by eapply (message_step m dir)|done|..];
    by eapply (rtu_queries m dir s tt s' lid rk _ W Hs St).
Qed.

Lemma active_rtu p m f s :
  carries p m → is_rtu m lid rid → wf s → stage lid rk f s → state f = REP_RCVD →
  local_id f = lid → local_qpn f ≠ 0 → remote_qpn f ≠ 0 →
  get_source_qpn s (get_flow_key f) = 0 →
  ∃ s', process p CTCM_FROM_HOST s = Ok (tt, s') ∧ wf s' ∧
        stage lid rk (set_in_qpn_map true (set_state ESTABLISHED f)) s' ∧
        get_source_qpn s' (get_flow_key f) = local_qpn f ∧
        ∀ k, k ≠ get_flow_key f → get_source_qpn s' k = get_source_qpn s k.
Proof.
  intros Hc (Ha & Hl & Hr) W St Hst Hfl Hlq Hrq Hz. pose proof (unknown_free _ _ W Hz) as Hfree.
  pose proof St as [(l & Hf & HL & HR) _ _ _]. rewrite decide_False in HL by congruence.
  rewrite (carries_process _ _ _ _ Hc).
  assert (Hp : process m CTCM_FROM_HOST s = rtu_sent m s) by (apply process_handler; by rewrite Ha).
  destruct (rtu_sent_run m s l f) as (s' & Hs & Hh & HL' & HR'); rewrite ?Hl; try done.
  exists s'. rewrite <- Hp in Hs. split; [done|]. by apply (rtu_stage m CTCM_FROM_HOST l f s s').
Qed.

Lemma passive_req p m s :
  carries p m → is_req m rid rqpn → m_saddr m = rip → wf s →
  local_map s !! lid = None → remote_map s !! rk = None →
  ∃ s', process p CTCM_FROM_NET s = Ok (tt, s') ∧ wf s' ∧
        stage lid rk (Flow REQ_RCVD 0 rk 0 rqpn false) s'.
Proof.
  intros Hc (Ha & Hl & Hq) Hsa W HL HR. rewrite (carries_process _ _ _ _ Hc).
  assert (Hp : process m CTCM_FROM_NET s = req_received m s) by (apply process_handler; by rewrite Ha).
  destruct (req_received_run m s W) as (s' & Hs & [Hh HL' HR' HQ']);
    rewrite ?Hsa, ?Hl; try done; [by apply key_bool_true|].
  exists s'. rewrite <- Hp in Hs. split_and!; [done|by eapply (message_step m CTCM_FROM_NET)|].
  rewrite Hsa, Hl, Hq in Hh.
  assert (rk ≠ no_key) by (unfold no_key; congruence).
  eapply stage_of; [done|by left|by right|by right| |].
  - cbn. by rewrite HL', decide_True.
  - cbn. rewrite HR', Hsa, Hl, decide_False by done. apply lookup_insert_eq.
Qed.

Lemma passive_rep p m f s :
  carries p m → is_rep m lid rid lqpn → m_daddr m = rip → wf s →
  stage lid rk f s → state f = REQ_RCVD → local_id f = 0 → remote_id f = rk →
  ∃ s', process p CTCM_FROM_HOST s = Ok (tt, s') ∧ wf s' ∧
        stage lid rk (Flow REP_SENT lid rk lqpn (remote_qpn f) (in_qpn_map f)) s'.
Proof.
  intros Hc (Ha & Hl & Hr & Hq) Hda W [(l & Hf & HL & HR) _ _ _] Hst Hfl Hfr.
  assert (rk ≠ no_key) by (unfold no_key; congruence).
  rewrite decide_True in HL by done. rewrite decide_False in HR by congruence.
  rewrite (carries_process _ _ _ _ Hc).
  assert (Hp : process m CTCM_FROM_HOST s = rep_sent m s) by (apply process_handler; by rewrite Ha).
  destruct (rep_sent_run m s l f) as (s' & Hs & [Hh HL' HR' HQ']);
    rewrite ?Hda, ?Hl, ?Hr; try done.
  exists s'. rewrite <- Hp in Hs. split_and!; [done|by eapply (message_step m CTCM_FROM_HOST)|].
  rewrite Hda, Hl, Hr, Hq in Hh. eapply stage_of; [done|by right|by right|by left| |].
  - cbn. rewrite HL', Hl, decide_False by done. apply lookup_insert_eq.
  - cbn. by rewrite HR', decide_False.
Qed.

Lemma passive_rtu p m f s :
  carries p m → is_rtu m rid lid → wf s → stage lid rk f s → state f = REP_SENT →
  local_id f = lid → local_qpn f ≠ 0 → remote_qpn f ≠ 0 →
  get_source_qpn s (get_flow_key f) = 0 →
  ∃ s', process p CTCM_FROM_NET s = Ok (tt, s') ∧ wf s' ∧
        stage lid rk (set_in_qpn_map true (set_state ESTABLISHED f)) s' ∧
        get_source_qpn s' (get_flow_key f) = local_qpn f ∧
        ∀ k, k ≠ get_flow_key f → get_source_qpn s' k = get_source_qpn s k.
Proof.
  intros Hc (Ha & Hl & Hr) W St Hst Hfl Hlq Hrq Hz. pose proof (unknown_free _ _ W Hz) as Hfree.
  pose proof St as [(l & Hf & HL & HR) _ _ _]. rewrite decide_False in HL by congruence.
  rewrite (carries_process _ _ _ _ Hc).
  assert (Hp : process m CTCM_FROM_NET s = rtu_received m s) by (apply process_handler; by rewrite Ha).
  destruct (rtu_received_run m s l f) as (s' & Hs & Hh & HL' & HR'); rewrite ?Hr; try done.
  exists s'. rewrite <- Hp in Hs. split; [done|]. by apply (rtu_stage m CTCM_FROM_NET l f s s').
Qed.

(** C6: a connection opened by the local side.  From any consistent state in which
    the ids are not in use: the REQ from the host, the REP from the network and the
    RTU from the host, each carried by a packet, are processed without stopping the
    program, with any packets of other connections in between; if by the RTU no
    other connection has the same remote address and queue pair, the query for them
    then returns the queue pair announced in the REQ, no other answer changes, and
    the answer stays whatever packets of other connections follow. *)
Theorem active_handshake p_req p_rep p_rtu req rep rtu s t1 t2 t3 :
  carries p_req req → is_req req lid lqpn →
  carries p_rep rep → is_rep rep rid lid rqpn → m_saddr rep = rip →
  carries p_rtu rtu → is_rtu rtu lid rid →
  Forall (avoids lid rk) t1 → Forall (avoids lid rk) t2 → Forall (avoids lid rk) t3 →
  wf s → local_map s !! lid = None → remote_map s !! rk = None →
  ∃ s1, process p_req CTCM_FROM_HOST s = Ok (tt, s1) ∧ ∀ s1', run s1 t1 = Ok s1' →
  ∃ s2, process p_rep CTCM_FROM_NET s1' = Ok (tt, s2) ∧ ∀ s2', run s2 t2 = Ok s2' →
  get_source_qpn s2' (rip, rqpn) = 0 →
  ∃ s3, process p_rtu CTCM_FROM_HOST s2' = Ok (tt, s3) ∧
        get_source_qpn s3 (rip, rqpn) = lqpn ∧
        (∀ k, k ≠ (rip, rqpn) → get_source_qpn s3 k = get_source_qpn s2' k) ∧
        ∀ s3', run s3 t3 = Ok s3' → get_source_qpn s3' (rip, rqpn) = lqpn.
Proof.
  intros Cq Iq Cp Ip Sp Cu Iu A1 A2 A3 W HL HR.
  destruct (active_req p_req req s) as (s1 & Hs1 & W1 & St1); [done..|].
  exists s1. split; [done|]. intros s1' R1.
  destruct (stage_run _ _ _ _ _ _ W1 St1 A1 R1) as [W1' St1'].
  destruct (active_rep p_rep rep _ s1' Cp Ip Sp W1' St1') as (s2 & Hs2 & W2 & St2); [done..|].
  exists s2. split; [done|]. intros s2' R2 Hz.
  destruct (stage_run _ _ _ _ _ _ W2 St2 A2 R2) as [W2' St2'].
  destruct (active_rtu p_rtu rtu _ s2' Cu Iu W2' St2') as (s3 & Hs3 & W3 & St3 & Hq & Ho); [done..|].
  exists s3. split_and!; [done..|]. intros s3' R3.
  destruct (stage_run _ _ _ _ _ _ W3 St3 A3 R3) as [W3' St3'].
  exact (stage_query _ _ _ _ W3' St3' eq_refl).
Qed.

(** C7: the same for a connection opened by the remote side: REQ from the network,
    REP from the host, RTU from the network; the answer is the queue pair announced
    in the REP. *)
Theorem passive_handshake p_req p_rep p_rtu req rep rtu s t1 t2 t3 :
  carries p_req req → is_req req rid rqpn → m_saddr req = rip →
  carries p_rep rep → is_rep rep lid rid lqpn → m_daddr rep = rip →
  carries p_rtu rtu → is_rtu rtu rid lid →
  Forall (avoids lid rk) t1 → Forall (avoids lid rk) t2 → Forall (avoids lid rk) t3 →
  wf s → local_map s !! lid = None → remote_map s !! rk = None →
  ∃ s1, process p_req CTCM_FROM_NET s = Ok (tt, s1) ∧ ∀ s1', run s1 t1 = Ok s1' →
  ∃ s2, process p_rep CTCM_FROM_HOST s1' = Ok (tt, s2) ∧ ∀ s2', run s2 t2 = Ok s2' →
  get_source_qpn s2' (rip, rqpn) = 0 →
  ∃ s3, process p_rtu CTCM_FROM_NET s2' = Ok (tt, s3) ∧
        get_source_qpn s3 (rip, rqpn) = lqpn ∧
        (∀ k, k ≠ (rip, rqpn) → get_source_qpn s3 k = get_source_qpn s2' k) ∧
        ∀ s3', run s3 t3 = Ok s3' → get_source_qpn s3' (rip, rqpn) = lqpn.
Proof.
  intros Cq Iq Sq Cp Ip Sp Cu Iu A1 A2 A3 W HL HR.
  destruct (passive_req p_req req s) as (s1 & Hs1 & W1 & St1); [done..|].
  exists s1. split; [done|]. intros s1' R1.
  destruct (stage_run _ _ _ _ _ _ W1 St1 A1 R1) as [W1' St1'].
  destruct (passive_rep p_rep rep _ s1' Cp Ip Sp W1' St1') as (s2 & Hs2 & W2 & St2); [done..|].
  exists s2. split; [done|]. intros s2' R2 Hz.
  destruct (stage_run _ _ _ _ _ _ W2 St2 A2 R2) as [W2' St2'].
  destruct (passive_rtu p_rtu rtu _ s2' Cu Iu W2' St2') as (s3 & Hs3 & W3 & St3 & Hq & Ho); [done..|].
  exists s3. split_and!; [done..|]. intros s3' R3.
  destruct (stage_run _ _ _ _ _ _ W3 St3 A3 R3) as [W3' St3'].
  exact (stage_query _ _ _ _ W3' St3' eq_refl).
Qed.
End Handshakes.

(** ** Teardown *)

Lemma erase_flow_run lid rid l f s :
  wf s → lid ≠ 0 → local_map s !! lid = Some l → heap s !! l = Some f → in_qpn_map f = true →
  ∃ s', erase_flow lid rid s = Ok (tt, s') ∧ local_map s' !! lid = None ∧ remote_map s' !! rid = None.
Proof.
  intros W Hlid HL Hf Hin. destruct (wf_listed _ W _ _ Hf Hin) as [_ Hq].
  destruct (fo_live _ (wf_flow _ W _ _ Hf) Hin) as (_ & _ & Hlq & Hrq).
  unfold erase_flow, on_disconnected. run_unfold. rewrite (eqb_nonzero _ Hlid). run_cbn.
  rewrite HL. run_cbn. rewrite Hf. run_cbn. rewrite Hin. run_cbn. rewrite Hf. run_cbn.
  rewrite (eqb_nonzero _ Hlq), (eqb_nonzero _ Hrq). run_cbn. rewrite Hq. run_cbn.
  rewrite Hf. run_cbn. eexists. split; [done|]. split; apply lookup_delete_eq.
Qed.

(** A step that unlinks a listed flow drops its connection. *)
Lemma unlink_queries m dir s u s' lid rk f :
  wf s → process m dir s = Ok (u, s') → stage lid rk f s → in_qpn_map f = true →
  local_id f = lid → local_map s' !! lid = None →
  get_source_qpn s' (get_flow_key f) = 0 ∧
  ∀ k, k ≠ get_flow_key f → get_source_qpn s' k = get_source_qpn s k.
Proof.
  intros W Hs St Hin Hid HL. destruct (message_step _ _ _ _ _ W Hs) as [W' _ O].
  pose proof (stage_listed _ _ _ _ St Hin) as Hl.
  assert (Hn : ¬ listed s' (conn_of f)).
  { intros (l' & g & Hg & Hg1 & Hg2). destruct (wf_listed _ W' _ _ Hg Hg1) as [HL' _].
    injection Hg2 as Hg2 _ _ _. congruence. }
  destruct O as [Q|c Ha _ E|c Ha _ D].
  - by apply Q in Hl.
  - destruct Hn. apply E. by left.
  - assert (c = conn_of f) as ->.
    { destruct D as [_ D]. destruct (decide (conn_of f = c)) as [->|Hne]; [done|].
      destruct Hn. by apply D. }
    destruct (drops_queries s s' (conn_of f) W W' D) as (_ & _ & ? & ?). done.
Qed.

Section Teardown.
Context {P : Type} `{CmPacket P} (lid : Z) (rk : cm_flow_key).
Context (Hlid : lid ≠ 0).

(** A DREQ on a listed connection, from either side. *)
Lemma dreq_stage p m dir f s :
  carries p m → m_attr m = CM_DREQ_ATTR_ID → own_id dir m = lid → wf s → stage lid rk f s →
  in_qpn_map f = true → local_id f = lid →
  ∃ s' x, process p dir s = Ok (tt, s') ∧ wf s' ∧ (x = DREQ_SENT ∨ x = DREQ_RCVD) ∧
          stage lid rk (set_state x f) s' ∧ ∀ k, get_source_qpn s' k = get_source_qpn s k.
Proof.
  intros Hc Ha Ho W [(l & Hf & HL & HR) Sl Sr Sn] Hin Hid.
  assert (HLl : local_map s !! lid = Some l) by (by rewrite decide_False in HL by congruence).
  destruct (fo_live _ (wf_flow _ W _ _ Hf) Hin) as (Hlive & _).
  rewrite (carries_process _ _ _ _ Hc).
  assert (∃ x, (x = DREQ_SENT ∨ x = DREQ_RCVD) ∧
            process m dir s = Ok (tt, upd l (set_state x f) s)) as (x & Hx & Hs).
  { destruct dir.
    - exists DREQ_SENT. split; [by left|]. rewrite (process_handler m _ dreq_sent) by (by rewrite Ha).
      unfold dreq_sent. read_goal. cbn in Ho. rewrite Ho.
      rewrite (M_bind_l _ _ _ _ _ (get_flow_local _ _ _ _ Hlid HLl)), (obj_bind _ _ _ _ Hf).
      destruct (state f); try done; by apply assign_run.
    - exists DREQ_RCVD. split; [by right|]. rewrite (process_handler m _ dreq_received) by (by rewrite Ha).
      rewrite own_id_net in Ho by (by rewrite Ha). unfold dreq_received. read_goal. rewrite Ho.
      rewrite (M_bind_l _ _ _ _ _ (get_flow_local _ _ _ _ Hlid HLl)), (obj_bind _ _ _ _ Hf).
      destruct (state f); try done; by apply assign_run. }
  destruct (message_step _ _ _ _ _ W Hs) as [W' _ _].
  exists (upd l (set_state x f) s), x. split_and!; [done..| |done].
  eapply stage_of; [apply heap_upd|done..].
Qed.

(** A message that erases the flow of a listed connection. *)
Lemma erase_stage (m : cm_msg) dir f s :
  wf s → stage lid rk f s → in_qpn_map f = true → local_id f = lid → own_id dir m = lid →
  process m dir s = erase_flow lid (peer_key dir m) s →
  ∃ s', process m dir s = Ok (tt, s') ∧ get_source_qpn s' (get_flow_key f) = 0 ∧
        (∀ k, k ≠ get_flow_key f → get_source_qpn s' k = get_source_qpn s k) ∧
        local_map s' !! lid = None ∧ remote_map s' !! peer_key dir m = None.
Proof.
  intros W St Hin Hid Ho Hp. pose proof St as [(l & Hf & HL & HR) Sl Sr Sn].
  rewrite decide_False in HL by congruence.
  destruct (erase_flow_run lid (peer_key dir m) l f s) as (s' & Hs & HL' & HR'); [done..|].
  rewrite <- Hp in Hs. exists s'. split; [done|].
  destruct (unlink_queries _ _ _ _ _ _ _ _ W Hs St Hin Hid HL'). done.
Qed.

Lemma drep_stage p m dir f s :
  carries p m → m_attr m = CM_DREP_ATTR_ID → own_id dir m = lid → wf s → stage lid rk f s →
  in_qpn_map f = true → local_id f = lid → state f = DREQ_SENT ∨ state f = DREQ_RCVD →
  ∃ s', process p dir s = Ok (tt, s') ∧ get_source_qpn s' (get_flow_key f) = 0 ∧
        (∀ k, k ≠ get_flow_key f → get_source_qpn s' k = get_source_qpn s k) ∧
        local_map s' !! lid = None ∧ remote_map s' !! peer_key dir m = None.
Proof.
  intros Hc Ha Ho W St Hin Hid Hst. rewrite (carries_process _ _ _ _ Hc).
  apply erase_stage; try done. pose proof St as [(l & Hf & HL & HR) Sl Sr Sn].
  rewrite decide_False in HL by congruence. destruct dir.
  - rewrite (process_handler m _ drep_sent) by (by rewrite Ha). unfold drep_sent. read_goal.
    cbn in Ho. rewrite Ho.
    rewrite (M_bind_l _ _ _ _ _ (get_flow_local _ _ _ _ Hlid HL)), (obj_bind _ _ _ _ Hf).
    by destruct Hst as [-> | ->].
  - rewrite (process_handler m _ drep_received) by (by rewrite Ha).
    rewrite own_id_net in Ho by (by rewrite Ha). unfold drep_received. read_goal. rewrite Ho.
    rewrite (M_bind_l _ _ _ _ _ (get_flow_local _ _ _ _ Hlid HL)), (obj_bind _ _ _ _ Hf).
    by destruct Hst as [-> | ->].
Qed.

(** C8: a listed connection is torn down by a DREQ and a DREP about its local id,
    each from either side, with any packets of other connections in between: both
    are processed without stopping the program; until the DREP the answer for the
    connection stays, with the DREP it becomes "unknown" and no other answer
    changes; the local id, and the remote key the DREP names, are free again. *)
Theorem teardown p_dreq p_drep dreq drep d1 d2 f s t :
  carries p_dreq dreq → m_attr dreq = CM_DREQ_ATTR_ID → own_id d1 dreq = lid →
  carries p_drep drep → m_attr drep = CM_DREP_ATTR_ID → own_id d2 drep = lid →
  Forall (avoids lid rk) t → wf s → stage lid rk f s → in_qpn_map f = true → local_id f = lid →
  ∃ s1, process p_dreq d1 s = Ok (tt, s1) ∧ ∀ s1', run s1 t = Ok s1' →
        get_source_qpn s1' (get_flow_key f) = local_qpn f ∧
  ∃ s2, process p_drep d2 s1' = Ok (tt, s2) ∧
        get_source_qpn s2 (get_flow_key f) = 0 ∧
        (∀ k, k ≠ get_flow_key f → get_source_qpn s2 k = get_source_qpn s1' k) ∧
        local_map s2 !! lid = None ∧ remote_map s2 !! peer_key d2 drep = None.
Proof.
  intros C1 A1 O1 C2 A2 O2 Av W St Hin Hid.
  destruct (dreq_stage p_dreq dreq d1 f s) as (s1 & x & Hs1 & W1 & Hx & St1 & _); [done..|].
  exists s1. split; [done|]. intros s1' R.
  destruct (stage_run _ _ _ _ _ _ W1 St1 Av R) as [W1' St1'].
  split; [exact (stage_query _ _ _ _ W1' St1' Hin)|].
  by apply (drep_stage p_drep drep d2 (set_state x f) s1').
Qed.

(** A REJ from the network about the local id of an established connection, or
    of one whose DREQ was sent, closes it at once. *)
Theorem reject_closes p_rej rej f s :
  carries p_rej rej → m_attr rej = CM_REJ_ATTR_ID → m_remote_comm_id rej = lid →
  wf s → stage lid rk f s → in_qpn_map f = true → local_id f = lid →
  state f = ESTABLISHED ∨ state f = DREQ_SENT →
  get_source_qpn s (get_flow_key f) = local_qpn f ∧
  ∃ s', process p_rej CTCM_FROM_NET s = Ok (tt, s') ∧
        get_source_qpn s' (get_flow_key f) = 0 ∧
        (∀ k, k ≠ get_flow_key f → get_source_qpn s' k = get_source_qpn s k) ∧
        local_map s' !! lid = None.
Proof.
  intros Hc Ha Ho W St Hin Hid Hst. split; [by eapply stage_query|].
  rewrite (carries_process _ _ _ _ Hc).
  assert (Hown : own_id CTCM_FROM_NET rej = lid) by (rewrite own_id_net; by rewrite ?Ha).
  destruct (erase_stage rej CTCM_FROM_NET f s) as (s' & ? & ? & ? & ? & _); eauto 6.
  pose proof St as [(l & Hf & HL & HR) Sl Sr Sn]. rewrite decide_False in HL by congruence.
  rewrite (process_handler rej _ rej_received) by (by rewrite Ha).
  unfold rej_received. read_goal. rewrite Ho.
  rewrite (M_bind_l _ _ _ _ _ (get_flow_local _ _ _ _ Hlid HL)), (obj_bind _ _ _ _ Hf).
  by destruct Hst as [-> | ->].
Qed.
End Teardown.
