(* ===== verification/Conform.v ===== *)
(** * Conform: peers that follow the protocol

    The assertions of the tracker fail on traffic that the protocol does not allow.
    Here the traffic is that of a set of sessions, each between the host and one
    peer, in which every message names its session by the ids of both sides.  The
    messages may be lost, repeated, reordered and interleaved at will.  The program
    then never stops, every answer is right, and a session can always be reset and
    set up again. *)

From Stdlib Require Import ZArith Lia String.
From stdpp Require Import base tactics numbers list strings gmap.
From S2P Require Import Prelude Memory Layout IbMad Iba IbtaC12 Mbuf CmPacket Tracker TrackerInv TrackerStep TrackerSpec Handshake.

Local Open Scope string_scope.
Open Scope Z_scope.
Open Scope ctcm_scope.

(** ** Sessions *)

(** A connection as its two ends know it: who opens it, the communication ids, the
    address of the peer and the queue pair numbers. *)
Record session := Session {
  s_active : bool;
  s_lid : Z;
  s_rip : Z;
  s_rid : Z;
  s_lqpn : Z;
  s_rqpn : Z;
}.

#[global] Instance session_eq_dec : EqDecision session.
Proof. solve_decision. Defined.

Definition s_key (x : session) : cm_flow_key := (s_rip x, s_rid x).
Definition s_flow (x : session) : flow_key := (s_rip x, s_rqpn x).

Record session_ok (x : session) : Prop := {
  so_lid : s_lid x ≠ 0;
  so_rip : s_rip x ≠ 0;
  so_rid : s_rid x ≠ 0;
  so_lqpn : s_lqpn x ≠ 0;
  so_rqpn : s_rqpn x ≠ 0;
}.

(** No two sessions share an id of the host, an id of the peer, or a queue pair of
    the peer. *)
Record sessions_ok (S : list session) : Prop := {
  ss_ok : Forall session_ok S;
  ss_lid : ∀ x y, x ∈ S → y ∈ S → s_lid x = s_lid y → x = y;
  ss_key : ∀ x y, x ∈ S → y ∈ S → s_key x = s_key y → x = y;
  ss_flow : ∀ x y, x ∈ S → y ∈ S → s_flow x = s_flow y → x = y;
}.

(** The messages of a session: the side that opens it sends the REQ and the RTU and
    the other side the REP; both may send REJ, DREQ and DREP.  Each message names
    the ids of both sides, except the REQ, which has no id of the receiver. *)
Definition says (x : session) (dir : ctcm_direction) (m : cm_msg) : Prop :=
  let req := m_attr m = CM_REQ_ATTR_ID in
  let rep := m_attr m = CM_REP_ATTR_ID in
  match dir with
  | CTCM_FROM_HOST =>
      m_daddr m = s_rip x ∧ m_local_comm_id m = s_lid x ∧
      m_remote_comm_id m = (if m_attr m =? CM_REQ_ATTR_ID then 0 else s_rid x) ∧
      (req → s_active x = true) ∧ (rep → s_active x = false) ∧ (req ∨ rep → m_qpn m = s_lqpn x)
  | CTCM_FROM_NET =>
      m_saddr m = s_rip x ∧ m_local_comm_id m = s_rid x ∧
      m_remote_comm_id m = (if m_attr m =? CM_REQ_ATTR_ID then 0 else s_lid x) ∧
      (req → s_active x = false) ∧ (rep → s_active x = true) ∧ (req ∨ rep → m_qpn m = s_rqpn x)
  end.

(** Kinds of message that have a handler. *)
Definition tracked (attr : Z) : bool :=
  existsb (Z.eqb attr) [CM_REQ_ATTR_ID; CM_REJ_ATTR_ID; CM_REP_ATTR_ID; CM_RTU_ATTR_ID;
                        CM_DREQ_ATTR_ID; CM_DREP_ATTR_ID].

(** A packet of one of the sessions, or of a kind that the tracker ignores. *)
Definition conforms {P} `{CmPacket P} (S : list session) (y : ctcm_direction * P) : Prop :=
  ∃ m, carries y.2 m ∧ (tracked (m_attr m) = false ∨ ∃ x, x ∈ S ∧ says x y.1 m).

(** ** The invariant of one session *)

(** What the flows that the maps list for a session look like. *)
Record belongs (x : session) (f : flow_state) : Prop := {
  be_local : local_id f = s_lid x ∨ (local_id f = 0 ∧ s_active x = false);
  be_remote : remote_id f = no_key ∨ remote_id f = s_key x;
  be_lqpn : local_qpn f = 0 ∨ local_qpn f = s_lqpn x;
  be_rqpn : remote_qpn f = 0 ∨ remote_qpn f = s_rqpn x;
  be_req : state f = REQ_RCVD → remote_qpn f = s_rqpn x;
  be_named : match state f with REQ_RCVD | REP_SENT | REP_RCVD => true | _ => in_qpn_map f end = true →
             remote_id f = s_key x;
}.

(** The two maps agree on every flow that has both ids. *)
Record tracks (x : session) (s : tracker) : Prop := {
  tr_local : ∀ l, local_map s !! s_lid x = Some l →
    ∃ f, heap s !! l = Some f ∧ local_id f = s_lid x ∧ belongs x f ∧
         (remote_id f = s_key x → remote_map s !! s_key x = Some l);
  tr_remote : ∀ l, remote_map s !! s_key x = Some l →
    ∃ f, heap s !! l = Some f ∧ remote_id f = s_key x ∧ belongs x f ∧
         (local_id f = s_lid x → local_map s !! s_lid x = Some l);
}.

(** [e] returns from [s], and then [Q] holds. *)
Definition returns {A} (Q : A → tracker → Prop) (e : M A) (s : tracker) : Prop :=
  ∃ a s', e s = Ok (a, s') ∧ Q a s'.

Lemma returns_bind {A B} (Q : B → tracker → Prop) (e : M A) (k : A → M B) s :
  returns (λ a s1, returns Q (k a) s1) e s → returns Q (e ≫= k) s.
Proof.
  intros (a & s1 & He & b & s2 & Hk & HQ). exists b, s2. split; [|done].
  by rewrite (M_bind_l _ _ _ _ _ He).
Qed.

Lemma returns_obj (Q : flow_state → tracker → Prop) l f s :
  heap s !! l = Some f → Q f s → returns Q (obj l) s.
Proof. intros Hf HQ. exists f, s. split; [by apply obj_Ok|done]. Qed.

Lemma returns_ret {A} (Q : A → tracker → Prop) a s : Q a s → returns Q (mret a) s.
Proof. intros HQ. by exists a, s. Qed.

Lemma returns_assign (Q : unit → tracker → Prop) l f g s :
  heap s !! l = Some f → Q tt (upd l (g f) s) → returns Q (assign l g) s.
Proof. intros Hf HQ. exists tt, (upd l (g f) s). split; [by apply assign_run|done]. Qed.

Lemma returns_mono {A} (Q Q' : A → tracker → Prop) e s :
  returns Q e s → (∀ a s', e s = Ok (a, s') → Q a s' → Q' a s') → returns Q' e s.
Proof. intros (a & s' & He & HQ) Hm. exists a, s'. eauto. Qed.

Section Session.
Context (x : session) (Hx : session_ok x).

Lemma s_key_bool : key_bool (s_key x) = true.
Proof. by apply key_bool_true; destruct Hx. Qed.

Lemma s_key_named : s_key x ≠ no_key.
Proof. intros He. pose proof s_key_bool as Hk. by rewrite He in Hk. Qed.

(** *** Assignments *)

Lemma tracks_assign s l f f' :
  tracks x s → heap s !! l = Some f → local_id f' = local_id f → remote_id f' = remote_id f →
  (belongs x f → belongs x f') → tracks x (upd l f' s).
Proof.
  intros [TL TR] Hf Hl Hr Hb.
  assert (Hp : ∀ (Q : flow_state → Prop) l', (∃ g, heap s !! l' = Some g ∧ Q g) →
            (∀ g, l' = l → g = f → Q g → Q f') → ∃ g, heap (upd l f' s) !! l' = Some g ∧ Q g).
  { intros Q l' (g & Hg & HQ) Hff. destruct (decide (l' = l)) as [->|Hne].
    - exists f'. split; [apply heap_upd|]. apply (Hff g); [done|congruence|done].
    - exists g. split; [|done]. cbn. by rewrite lookup_insert_ne. }
  split; intros l' Hl'.
  - apply (Hp _ l' (TL l' Hl')). intros g -> -> (H1 & H2 & H3).
    split_and!; [congruence|auto|]. intros ?. apply H3. congruence.
  - apply (Hp _ l' (TR l' Hl')). intros g -> -> (H1 & H2 & H3).
    split_and!; [congruence|auto|]. intros ?. apply H3. congruence.
Qed.
(** *** Looking a flow up *)

Lemma absent_local s l f :
  tracks x s → local_map s !! s_lid x = None → remote_map s !! s_key x = Some l →
  heap s !! l = Some f → local_id f = 0.
Proof.
  intros T HL HR Hf. destruct (tr_remote _ _ T _ HR) as (g & Hg & Hr & Hb & Hl). simplify_eq.
  destruct (be_local _ _ Hb) as [He|[He _]]; [|done]. rewrite Hl in HL; done.
Qed.

(** The remote entry is untouched when a flow is made for the local id alone. *)
Lemma get_local_returns s :
  wf s → tracks x s →
  returns (λ l s1, wf s1 ∧ tracks x s1 ∧ local_map s1 !! s_lid x = Some l) (get_flow (s_lid x) no_key) s.
Proof.
  intros W T. destruct (local_map s !! s_lid x) as [l|] eqn:HL.
  { exists l, s. rewrite (get_flow_local _ _ l) by (by destruct Hx). done. }
  destruct (get_flow_new_local (s_lid x) s W (so_lid _ Hx) HL) as (s1 & Hg & [Hh HL1 HR1 _]).
  exists (next s), s1. split; [done|]. destruct (get_flow_spec _ _ _ _ _ W Hg) as ([W1 [_ _ FH] _] & Hl & _).
  split_and!; [auto| |apply Hl; by destruct Hx]. split.
  - intros l Hl'. rewrite Hl in Hl' by (by destruct Hx). injection Hl' as <-. eexists. split; [done|].
    cbn. split_and!; [done| |intros He; by destruct s_key_named].
    split; cbn; auto; discriminate.
  - intros l Hr. rewrite HR1 in Hr. destruct (tr_remote _ _ T _ Hr) as (g & Hg' & Hk & Hb & Hgl).
    exists g. pose proof (absent_local s l g T HL Hr Hg') as H0. split_and!; [|done..|].
    + apply FH; [done|]. intros [[? ?]|[[? _]|[_ ?]]]; [by destruct Hx; congruence|done|].
      destruct s_key_named. congruence.
    + intros He. destruct Hx. congruence.
Qed.

Lemma get_remote_returns s :
  wf s → tracks x s → s_active x = false →
  returns (λ l s1, wf s1 ∧ tracks x s1 ∧ remote_map s1 !! s_key x = Some l) (get_flow 0 (s_key x)) s.
Proof.
  intros W T Ha. pose proof s_key_bool as Hk. destruct (remote_map s !! s_key x) as [l|] eqn:HR.
  { exists l, s. split; [|done]. run_M. rewrite Hk. run_cbn. by rewrite HR. }
  destruct (get_flow_new_remote (s_key x) s W Hk HR) as (s1 & Hg & [Hh HL1 HR1 _]).
  exists (next s), s1. split; [done|]. destruct (get_flow_spec _ _ _ _ _ W Hg) as ([W1 [_ _ FH] _] & _ & Hr & _).
  split_and!; [auto| |by apply Hr]. split.
  - intros l Hl. rewrite HL1 in Hl. destruct (tr_local _ _ T _ Hl) as (g & Hg' & Hi & Hb & Hgr).
    exists g. assert (Hn : remote_id g ≠ s_key x) by (intros He; by rewrite Hgr in HR).
    split_and!; [|done..]. apply FH; [done|]. intros [[? _]|[[_ ?]|[? _]]]; [done|done|].
    destruct Hx. congruence.
  - intros l Hl. rewrite Hr in Hl by done. injection Hl as <-. eexists. split; [done|]. cbn.
    split_and!; [done| |intros He; by destruct Hx]. split; cbn; auto; discriminate.
Qed.

(** A flow that has both ids from the start. *)
Lemma get_flow_new_both s :
  wf s → local_map s !! s_lid x = None → remote_map s !! s_key x = None →
  ∃ s', get_flow (s_lid x) (s_key x) s = Ok (next s, s') ∧
        leaves s (next s) (Flow IDLE (s_lid x) (s_key x) 0 0 false)
          (<[s_lid x := next s]> (local_map s)) (<[s_key x := next s]> (remote_map s)) s'.
Proof.
  intros W HL HR. pose proof s_key_bool as Hk. run_unfold.
  rewrite (eqb_nonzero _ (so_lid _ Hx)). run_cbn. rewrite HL. run_cbn. rewrite HL, HR. run_cbn.
  rewrite !lookup_insert_eq. run_cbn. rewrite !lookup_insert_eq, Hk. run_cbn.
  rewrite !lookup_insert_eq. run_cbn. rewrite !lookup_insert_eq. run_cbn.
  eexists. split; [done|]. split; [apply lookup_insert_eq|done..].
Qed.

Lemma tracks_both s l f :
  local_map s !! s_lid x = Some l → remote_map s !! s_key x = Some l → heap s !! l = Some f →
  local_id f = s_lid x → remote_id f = s_key x → belongs x f → tracks x s.
Proof. intros HL HR Hf Hl Hr Hb. split; intros l' Hl'; simplify_eq; by exists f. Qed.

Lemma get_both_returns s :
  wf s → tracks x s →
  returns (λ l s1, wf s1 ∧ tracks x s1 ∧ local_map s1 !! s_lid x = Some l)
    (get_flow (s_lid x) (s_key x)) s.
Proof.
  intros W T. destruct (local_map s !! s_lid x) as [l|] eqn:HL.
  { exists l, s. rewrite (get_flow_local _ _ l) by (by destruct Hx). done. }
  destruct (remote_map s !! s_key x) as [l|] eqn:HR.
  - destruct (tr_remote _ _ T _ HR) as (f & Hf & Hr & Hb & _).
    destruct (get_flow_add_local (s_lid x) (s_key x) l f s (so_lid _ Hx) HL HR Hf) as (s1 & Hg & [Hh HL1 HR1 _]);
      [by eapply absent_local|].
    exists l, s1. split; [done|]. destruct (get_flow_spec _ _ _ _ _ W Hg) as ([W1 _ _] & Hl & _).
    split_and!; [auto| |apply Hl; by destruct Hx].
    eapply (tracks_both s1 l); [apply Hl; by destruct Hx|by rewrite HR1|done|done|done|].
    destruct Hb as [_ Br Bl Bq Bs Bn]. split; cbn; auto.
  - destruct (get_flow_new_both s W HL HR) as (s1 & Hg & [Hh HL1 HR1 _]).
    exists (next s), s1. split; [done|]. destruct (get_flow_spec _ _ _ _ _ W Hg) as ([W1 _ _] & Hl & _).
    split_and!; [auto| |apply Hl; by destruct Hx].
    eapply (tracks_both s1 (next s)); [apply Hl; by destruct Hx|by rewrite HR1, lookup_insert_eq|done..|].
    split; cbn; auto; discriminate.
Qed.
(** *** Listing and erasing *)

Lemma tracks_same s s' :
  heap s' = heap s → local_map s' = local_map s → remote_map s' = remote_map s →
  tracks x s → tracks x s'.
Proof. intros Hh HL HR [TL TR]. split; intros l; rewrite ?HL, ?HR, ?Hh; auto. Qed.

Definition kept : unit → tracker → Prop := λ _ s', tracks x s'.

Lemma set_state_belongs y f :
  y ≠ REQ_RCVD → remote_id f = s_key x ∨ y ≠ REP_SENT ∧ y ≠ REP_RCVD ∧ in_qpn_map f = false →
  belongs x f → belongs x (set_state y f).
Proof.
  intros Hy Hr [Bl Br Bq Bp Bs Bn]. split; cbn; [done..|].
  intros Hn. destruct Hr as [Hr|(H1 & H2 & H3)]; [done|]. rewrite H3 in Hn. by destruct y.
Qed.

Lemma establish_returns s l f :
  tracks x s → heap s !! l = Some f → remote_id f = s_key x →
  returns kept (_ ← assign l (set_state ESTABLISHED); on_established l) s.
Proof.
  intros T Hf Hr. apply returns_bind, (returns_assign _ l f); [done|].
  set (f1 := set_state ESTABLISHED f).
  assert (T1 : tracks x (upd l f1 s))
    by (apply (tracks_assign s l f); [done..|apply set_state_belongs; auto]).
  apply returns_bind, (returns_obj _ l f1); [apply heap_upd|]. destruct (orb _ _); [by apply returns_ret|].
  apply returns_bind. exists (upd l f1 s), (upd l f1 s). split; [done|].
  destruct (qpn_map _ !! _); [by apply returns_ret|]. apply returns_bind.
  eexists tt, _. split; [done|]. apply (returns_assign _ l f1); [apply heap_upd|].
  eapply tracks_assign; [by eapply tracks_same, T1|apply heap_upd|done..|].
  intros [Bl Br Bq Bp Bs Bn]. by split.
Qed.

Lemma tracks_none s :
  local_map s !! s_lid x = None → remote_map s !! s_key x = None → tracks x s.
Proof. intros HL HR. split; intros l Hl; congruence. Qed.

(** Erasing by both ids forgets the session. *)
Lemma erase_returns s l f :
  wf s → local_map s !! s_lid x = Some l → heap s !! l = Some f →
  returns (λ _ s', local_map s' !! s_lid x = None ∧ remote_map s' !! s_key x = None)
    (erase_flow (s_lid x) (s_key x)) s.
Proof.
  intros W HL Hf. destruct (in_qpn_map f) eqn:Hin.
  - destruct (erase_flow_run (s_lid x) (s_key x) l f s) as (s' & Hs & ?); [done|by destruct Hx|done..|].
    by exists tt, s'.
  - unfold returns, erase_flow. run_unfold. rewrite (eqb_nonzero _ (so_lid _ Hx)). run_cbn.
    rewrite HL. run_cbn. rewrite Hf. run_cbn. rewrite Hin. run_cbn.
    eexists tt, _. split; [done|]. split; apply lookup_delete_eq.
Qed.

Lemma erase_kept s l f :
  wf s → local_map s !! s_lid x = Some l → heap s !! l = Some f →
  returns kept (erase_flow (s_lid x) (s_key x)) s.
Proof.
  intros W HL Hf. eapply returns_mono; [by eapply erase_returns|]. intros [] s' _ [? ?]. by apply tracks_none.
Qed.

(** *** The handlers *)

Lemma found_returns (Q : unit → tracker → Prop) (g : M loc) (k : loc → flow_state → M unit) s :
  returns (λ l s1, wf s1 ∧ tracks x s1 ∧ local_map s1 !! s_lid x = Some l) g s →
  (∀ l f s1, wf s1 → tracks x s1 → local_map s1 !! s_lid x = Some l → heap s1 !! l = Some f →
     belongs x f → (remote_id f = s_key x → remote_map s1 !! s_key x = Some l) →
     local_id f = s_lid x → used_state (state f) = true → returns Q (k l f) s1) →
  returns Q (st ← g; f ← obj st; k st f) s.
Proof.
  intros Hg Hk. apply returns_bind. eapply returns_mono; [exact Hg|].
  intros l s1 _ (W1 & T1 & HL). destruct (tr_local _ _ T1 _ HL) as (f & Hf & Hi & Hb & Hr).
  apply returns_bind, (returns_obj _ l f); [done|].
  pose proof (fo_state _ (wf_flow _ W1 _ _ Hf)). by apply Hk.
Qed.

Section Handlers.
Context (s : tracker) (W : wf s) (T : tracks x s) (m : cm_msg).

Ltac found :=
  apply found_returns; [by first [apply get_local_returns | apply get_both_returns]|];
  intros l f s1 W1 T1 HL Hf Hb Hr Hi Hu; cbn beta;
  destruct (state f) eqn:Hst; try discriminate Hu; try (by apply returns_ret).

Lemma req_sent_kept :
  m_local_comm_id m = s_lid x → m_qpn m = s_lqpn x → returns kept (req_sent m) s.
Proof.
  intros Hm Hq. unfold req_sent, returns. read_goal. rewrite Hm. fold (returns kept). found.
  all: apply returns_bind, (returns_assign _ l f); [done|]; unfold returns; read_goal.
  all: apply (returns_assign _ l (set_state REQ_SENT f)); [apply heap_upd|].
  all: rewrite Hq; eapply tracks_assign; [|apply heap_upd|done|done|]; cbn.
  all: try (apply (tracks_assign s1 l f); [done..|]; apply set_state_belongs; [done|]).
  all: pose proof (not_live_unlisted _ _ _ W1 Hf ltac:(by rewrite Hst)) as Hin; auto.
  all: intros [Bl Br Bq Bp Bs Bn]; split; cbn in *; auto; congruence.
Qed.

Lemma req_received_kept :
  m_saddr m = s_rip x → m_local_comm_id m = s_rid x → m_qpn m = s_rqpn x → s_active x = false →
  returns kept (req_received m) s.
Proof.
  intros Hs Hm Hq Ha. unfold req_received, returns. read_goal. rewrite Hs, Hm.
  fold (s_key x). fold (returns kept). apply returns_bind.
  eapply returns_mono; [by apply get_remote_returns|]. intros l s1 _ (W1 & T1 & HR).
  destruct (tr_remote _ _ T1 _ HR) as (f & Hf & Hi & Hb & Hr). apply returns_bind, (returns_obj _ l f); [done|].
  destruct (state f) eqn:Hst; try (by apply returns_ret); apply returns_bind.
  1: rewrite decide_False by (by intros []); apply returns_ret.
  2: rewrite decide_True by done; unfold returns at 1; read_goal; exists tt, s1;
     rewrite Hq, (be_req _ _ Hb Hst), Z.eqb_refl; split; [done|].
  all: apply returns_bind, (returns_assign _ l f); [done|]; unfold returns; read_goal.
  all: apply (returns_assign _ l (set_state REQ_RCVD f)); [apply heap_upd|].
  all: rewrite Hq; unfold kept.
  all: apply (tracks_same (upd l (set_remote_qpn (s_rqpn x) (set_state REQ_RCVD f)) s1));
    [cbn; by rewrite insert_insert_eq|done|done|].
  all: apply (tracks_assign s1 l f); [done..|]; intros [Bl Br Bq Bp Bs Bn]; split; cbn; auto.
Qed.

Lemma rep_sent_kept :
  m_daddr m = s_rip x → m_local_comm_id m = s_lid x → m_remote_comm_id m = s_rid x →
  m_qpn m = s_lqpn x → returns kept (rep_sent m) s.
Proof.
  intros Hd Hm Hm' Hq. unfold rep_sent, returns. read_goal. rewrite Hd, Hm, Hm'.
  fold (s_key x). fold (returns kept). found.
  pose proof (be_named _ _ Hb ltac:(by rewrite Hst)) as Hk.
  apply returns_bind, (returns_assign _ l f); [done|]. apply returns_bind.
  exists l, (upd l (set_state REP_SENT f) s1). split.
  { eapply add_both; [done|by apply Hr|apply heap_upd|done..]. }
  unfold returns. read_goal. apply (returns_assign _ l (set_state REP_SENT f)); [apply heap_upd|].
  rewrite Hq. eapply (tracks_both _ l); [done|by apply Hr|apply heap_upd|done|done|].
  destruct Hb as [Bl Br Bq Bp Bs Bn]. split; cbn; auto; discriminate.
Qed.

Lemma rep_received_kept :
  m_saddr m = s_rip x → m_local_comm_id m = s_rid x → m_remote_comm_id m = s_lid x →
  m_qpn m = s_rqpn x → s_active x = true → returns kept (rep_received m) s.
Proof.
  intros Hd Hm Hm' Hq Ha. unfold rep_received, returns. read_goal. rewrite Hd, Hm, Hm'.
  fold (s_key x). fold (returns kept). found.
  apply returns_bind, (returns_assign _ l f); [done|]. unfold returns. read_goal. apply returns_bind.
  apply (returns_assign _ l (set_state REP_RCVD f)); [apply heap_upd|]. rewrite Hq. apply returns_bind.
  set (f1 := set_remote_qpn (s_rqpn x) (set_state REP_RCVD f)).
  set (s2 := upd l f1 (upd l (set_state REP_RCVD f) s1)).
  assert (Hb1 : belongs x (set_remote_id (s_key x) f1))
    by (destruct Hb as [Bl Br Bq Bp Bs Bn]; split; cbn; auto; discriminate).
  destruct (remote_map s1 !! s_key x) as [c|] eqn:HR.
  - destruct (tr_remote _ _ T1 _ HR) as (g & Hg & Hgr & Hgb & Hgl).
    assert (Hgi : local_id g = s_lid x) by (destruct (be_local _ _ Hgb) as [?|[_ ?]]; congruence).
    pose proof (Hgl Hgi) as HL'. assert (c = l) as -> by congruence. assert (g = f) as -> by congruence.
    exists l, s2. split; [by eapply add_both; [done|done|apply heap_upd|..]|].
    apply returns_ret. eapply (tracks_both s2 l f1); [done|done|apply heap_upd|done|done|].
    by rewrite <- Hgr in Hb1; destruct f.
  - destruct (add_remote (s_lid x) (s_key x) l f1 s2) as (s3 & Hs3 & [Hh HL3 HR3 _]);
      [done|apply heap_upd|done|exact s_key_bool| |].
    { cbn. destruct (be_remote _ _ Hb) as [-> | He]; [done|]. by apply Hr in He. }
    exists l, s3. split; [done|]. apply returns_ret.
    eapply (tracks_both s3 l); [by rewrite HL3|by rewrite HR3, lookup_insert_eq|done..].
Qed.

Lemma rtu_kept (y : ctcm_direction) :
  own_id y m = s_lid x → m_attr m = CM_RTU_ATTR_ID →
  returns kept (match y with CTCM_FROM_HOST => rtu_sent | CTCM_FROM_NET => rtu_received end m) s.
Proof.
  intros Ho Ha. destruct y; [|rewrite own_id_net in Ho by (by rewrite Ha)]; cbn in Ho;
    unfold rtu_sent, rtu_received, returns; read_goal; rewrite Ho; fold (returns kept); found;
    apply (establish_returns _ _ f); [done|done| |done|done|]; by apply (be_named _ _ Hb); rewrite Hst.
Qed.

Lemma dreq_kept (y : ctcm_direction) :
  own_id y m = s_lid x → m_attr m = CM_DREQ_ATTR_ID →
  returns kept (match y with CTCM_FROM_HOST => dreq_sent | CTCM_FROM_NET => dreq_received end m) s.
Proof.
  intros Ho Ha. destruct y; [|rewrite own_id_net in Ho by (by rewrite Ha)]; cbn in Ho;
    unfold dreq_sent, dreq_received, returns; read_goal; rewrite Ho; fold (returns kept); found;
    apply (returns_assign _ l f); [done| |done|..]; try done;
    apply (tracks_assign s1 l f); try done; intros [Bl Br Bq Bp Bs Bn]; split; cbn; auto;
    try discriminate; rewrite Hst in Bn; auto.
Qed.

Lemma erase_handlers_kept (y : ctcm_direction) :
  own_id y m = s_lid x → peer_key y m = s_key x →
  m_attr m = CM_REJ_ATTR_ID ∨ m_attr m = CM_DREP_ATTR_ID →
  returns kept (match y with
                | CTCM_FROM_HOST => if m_attr m =? CM_REJ_ATTR_ID then rej_sent else drep_sent
                | CTCM_FROM_NET => if m_attr m =? CM_REJ_ATTR_ID then rej_received else drep_received
                end m) s.
Proof.
  intros Ho Hk Ha. destruct y; [|rewrite own_id_net in Ho by (by destruct Ha as [-> | ->])];
    cbn in Ho, Hk; destruct Ha as [-> | ->]; cbn [Z.eqb Pos.eqb CM_REJ_ATTR_ID CM_DREP_ATTR_ID];
    unfold rej_sent, rej_received, drep_sent, drep_received, returns; read_goal;
    rewrite Ho, Hk; fold (returns kept); found; by eapply erase_kept.
Qed.
End Handlers.

(** *** A message of the session *)

Lemma says_own dir m :
  says x dir m → own_id dir m = (if m_attr m =? CM_REQ_ATTR_ID then
                                   match dir with CTCM_FROM_HOST => s_lid x | CTCM_FROM_NET => 0 end
                                 else s_lid x).
Proof.
  destruct dir; cbn; intros (_ & Hl & Hr & _); [by destruct (_ =? _)|].
  rewrite Hr. by destruct (_ =? _).
Qed.

Lemma says_peer dir m :
  says x dir m → m_attr m ≠ CM_REQ_ATTR_ID → peer_key dir m = s_key x.
Proof.
  intros Hs Hn%Z.eqb_neq. destruct dir; cbn in *; destruct Hs as (Ha & Hl & Hr & _);
    rewrite Hn in Hr; unfold s_key; congruence.
Qed.

Lemma says_returns dir m s :
  says x dir m → tracked (m_attr m) = true → wf s → tracks x s → returns kept (process m dir) s.
Proof.
  intros Hs Ht W T. pose proof (says_own _ _ Hs) as Ho. pose proof (says_peer _ _ Hs) as Hk.
  unfold returns. assert (Hh : ∃ h, handler_of dir (m_attr m) = Some h ∧ returns kept (h m) s).
  2:{ destruct Hh as (h & Hh & Hr). by rewrite (process_handler m dir h s Hh). }
  unfold tracked in Ht. cbn [existsb] in Ht. repeat rewrite orb_true_iff in Ht.
  destruct Ht as [Ha%Z.eqb_eq|[Ha%Z.eqb_eq|[Ha%Z.eqb_eq|[Ha%Z.eqb_eq|[Ha%Z.eqb_eq|[Ha%Z.eqb_eq|[=]]]]]]];
    rewrite Ha in Ho, Hk; cbn in Ho.
  - destruct dir; (eexists; split; [by rewrite Ha|]); cbn in Hs; destruct Hs as (? & ? & ? & ? & _ & ?);
      [apply req_sent_kept | apply req_received_kept]; auto.
  - pose proof (erase_handlers_kept s W T m dir Ho (Hk ltac:(done)) (or_introl Ha)) as He.
    rewrite Ha in He. destruct dir; (eexists; split; [by rewrite Ha|exact He]).
  - destruct dir; (eexists; split; [by rewrite Ha|]); cbn in Hs; rewrite Ha in Hs; cbn in Hs;
      destruct Hs as (? & ? & ? & _ & ? & ?); [apply rep_sent_kept | apply rep_received_kept]; auto.
  - pose proof (rtu_kept s W T m dir Ho Ha) as He.
    destruct dir; (eexists; split; [by rewrite Ha|exact He]).
  - pose proof (dreq_kept s W T m dir Ho Ha) as He.
    destruct dir; (eexists; split; [by rewrite Ha|exact He]).
  - pose proof (erase_handlers_kept s W T m dir Ho (Hk ltac:(done)) (or_intror Ha)) as He.
    rewrite Ha in He. destruct dir; (eexists; split; [by rewrite Ha|exact He]).
Qed.

(** A message that names neither the local id nor the remote key of the session. *)
Lemma tracks_frame i k s s' :
  wf s → i ≠ s_lid x → k ≠ s_key x → frame i k s s' → tracks x s → tracks x s'.
Proof.
  intros W Hi Hk [FL FR FH] [TL TR].
  assert (Hm : ∀ f, belongs x f → local_id f = s_lid x ∨ remote_id f = s_key x → ¬ mentions i k f).
  { intros f Hb Hn [[? He]|[[Hkb He]|[H0 Hno]]].
    - destruct (be_local _ _ Hb) as [?|[? _]]; congruence.
    - destruct (be_remote _ _ Hb) as [He'|?]; [|congruence]. rewrite He' in He. by subst k.
    - destruct Hn; [destruct Hx|destruct s_key_named]; congruence. }
  split; intros l; rewrite FL, FR by done; intros Hl.
  - destruct (TL _ Hl) as (f & Hf & ? & ? & ?). exists f. split_and!; [|done..]. apply FH; auto.
  - destruct (TR _ Hl) as (f & Hf & ? & ? & ?). exists f. split_and!; [|done..]. apply FH; auto.
Qed.
End Session.

(** ** All sessions together *)

Record fits (S : list session) (s : tracker) : Prop := {
  ft_wf : wf s;
  ft_tracks : ∀ x, x ∈ S → tracks x s;
  ft_known : ∀ k l, local_map s !! k = Some l → ∃ x, x ∈ S ∧ s_lid x = k;
}.

Lemma fits_empty S : fits S empty_tracker.
Proof. split; [apply wf_empty|by intros x _; apply tracks_none|done]. Qed.

Section Sessions.
Context (S : list session) (HS : sessions_ok S).

Lemma in_ok x : x ∈ S → session_ok x.
Proof. apply Forall_forall, HS. Qed.

(** A message of one session names no other. *)
Lemma says_apart x y dir m :
  x ∈ S → y ∈ S → x ≠ y → says x dir m → own_id dir m ≠ s_lid y ∧ peer_key dir m ≠ s_key y.
Proof.
  intros Hin Hy Hne Hs. pose proof (in_ok _ Hy) as Hyo. split.
  - rewrite (says_own _ _ _ Hs). intros He. destruct Hne. apply (ss_lid _ HS); [done..|].
    revert He. repeat case_match; try done; intros He; by destruct Hyo.
  - intros He. destruct (decide (m_attr m = CM_REQ_ATTR_ID)) as [Ha|Ha].
    + destruct dir; cbn in *; rewrite Ha in Hs; cbn in Hs; destruct Hs as (H1 & H2 & H3 & _).
      * rewrite H3 in He. injection He as _ ?. destruct Hyo. congruence.
      * rewrite H1, H2 in He. destruct Hne. by apply (ss_key _ HS).
    + rewrite (says_peer _ _ _ Hs Ha) in He. destruct Hne. by apply (ss_key _ HS).
Qed.

(** A message of one session leaves the others alone. *)
Lemma fits_says x dir m s :
  x ∈ S → says x dir m → tracked (m_attr m) = true → fits S s →
  ∃ s', process m dir s = Ok (tt, s') ∧ fits S s'.
Proof.
  intros Hin Hs Ht [W T K]. pose proof (in_ok _ Hin) as Hx.
  destruct (says_returns x Hx dir m s Hs Ht W (T _ Hin)) as ([] & s' & Hp & T').
  exists s'. split; [done|]. destruct (message_step _ _ _ _ _ W Hp) as [W' F _].
  split; [done| |].
  - intros y Hy. destruct (decide (x = y)) as [<-|Hne]; [done|].
    destruct (says_apart x y dir m) as [Hi Hk]; [done..|].
    by eapply (tracks_frame y (in_ok _ Hy)); [exact W|done|done|exact F|apply T].
  - intros k l Hl. destruct (decide (k = own_id dir m)) as [->|Hne].
    + destruct (wf_local _ W' _ _ Hl) as [Hz _]. exists x. split; [done|]. revert Hz. rewrite (says_own _ _ _ Hs).
      by repeat case_match.
    + rewrite (fr_local _ _ _ _ F) in Hl by done. eauto.
Qed.

Lemma untracked_process (m : cm_msg) dir s :
  tracked (m_attr m) = false → process m dir s = Ok (tt, s).
Proof.
  intros Ht. rewrite process_eq.
  rewrite (M_bind_l _ _ s (m_attr m) s) by (apply lift_Ok; by rewrite read_attr).
  unfold tracked in Ht. cbn [existsb] in Ht. rewrite !orb_false_iff in Ht.
  destruct Ht as (H1 & H2 & H3 & H4 & H5 & H6 & _).
  unfold handler_of. rewrite H1, H2, H3, H4, H5, H6. destruct dir; by rewrite read_log.
Qed.

Context {P : Type} `{CmPacket P}.

Lemma fits_step dir (p : P) s :
  conforms S (dir, p) → fits S s → ∃ s', process p dir s = Ok (tt, s') ∧ fits S s'.
Proof.
  intros (m & Hc & Hm) F. cbn [fst snd] in Hc, Hm. rewrite (carries_process _ _ _ _ Hc).
  destruct (tracked (m_attr m)) eqn:Ht; [|by exists s; rewrite untracked_process].
  destruct Hm as [Hm|(x & Hx & Hs)]; [congruence|]. by apply (fits_says x).
Qed.

Lemma fits_run (tr : list (ctcm_direction * P)) s :
  Forall (conforms S) tr → fits S s → ∃ s', run s tr = Ok s' ∧ fits S s'.
Proof.
  intros Htr. revert s. induction Htr as [|[dir p] tr Hp _ IH]; intros s F; [by exists s|].
  destruct (fits_step _ _ _ Hp F) as (s1 & Hs1 & F1). cbn [run]. rewrite Hs1. auto.
Qed.

(** The connections that can be listed. *)
Lemma fits_listed s l f :
  fits S s → heap s !! l = Some f → in_qpn_map f = true →
  ∃ x, x ∈ S ∧ local_map s !! s_lid x = Some l ∧ get_flow_key f = s_flow x ∧ local_qpn f = s_lqpn x.
Proof.
  intros [W T K] Hf Hin. destruct (wf_listed _ W _ _ Hf Hin) as [HL _].
  destruct (K _ _ HL) as (x & Hx & Hid). exists x. rewrite <- Hid in HL.
  destruct (tr_local _ _ (T _ Hx) _ HL) as (g & Hg & _ & Hb & _). simplify_eq.
  destruct (fo_live _ (wf_flow _ W _ _ Hf) Hin) as (_ & _ & Hlq & Hrq).
  assert (Hr : remote_id f = s_key x) by (apply (be_named _ _ Hb); by destruct (state f)).
  split_and!; [done..| |].
  - unfold get_flow_key, s_flow. rewrite Hr. destruct (be_rqpn _ _ Hb) as [?| ->]; done.
  - by destruct (be_lqpn _ _ Hb).
Qed.

Lemma fits_answers s k :
  fits S s → get_source_qpn s k = 0 ∨ ∃ x, x ∈ S ∧ k = s_flow x ∧ get_source_qpn s k = s_lqpn x.
Proof.
  intros F. unfold get_source_qpn. destruct (qpn_map s !! k) as [q|] eqn:Hq; [right|by left].
  destruct (wf_qpn _ (ft_wf _ _ F) _ _ Hq) as (l & f & Hf & Hin & <- & <-).
  destruct (fits_listed _ _ _ F Hf Hin) as (x & Hx & _ & Hk & Hl). by exists x.
Qed.

(** For any set of sessions with distinct ids, and any sequence of packets each of
    which carries a message of one of the sessions or of a kind that the tracker
    ignores, in any order, with any losses and repetitions: the tracker processes
    the whole sequence without stopping the program, and every answer it then
    gives is "unknown" or the queue pair of the host in the session that the query
    names. *)
Theorem conforming_runs (tr : list (ctcm_direction * P)) :
  Forall (conforms S) tr →
  ∃ s, run empty_tracker tr = Ok s ∧
    ∀ k, get_source_qpn s k = 0 ∨ ∃ x, x ∈ S ∧ k = s_flow x ∧ get_source_qpn s k = s_lqpn x.
Proof.
  intros Htr. destruct (fits_run tr empty_tracker Htr (fits_empty S)) as (s & Hs & F).
  exists s. split; [done|]. intros k. by apply fits_answers.
Qed.
End Sessions.
