(* ===== verification/Product.v ===== *)
(** * Product: the tracker is the product of its sessions

    Each session as an automaton of its own, which knows neither maps nor pointers:
    its state is the one flow of the session, or the two halves of it that the
    host's id and the peer's id lead to, and a message of the session moves it.  On
    traffic of conforming peers the tracker, with its shared heap and its maps, is
    the product of these automata: what it holds for a session is the result of
    that session's own messages, in their order, and so is its answer. *)

From Stdlib Require Import ZArith Lia String.
From stdpp Require Import base tactics numbers list strings gmap.
From S2P Require Import Prelude Memory Layout IbMad Iba IbtaC12 Mbuf CmPacket Tracker TrackerInv TrackerStep TrackerSpec Handshake Conform.

Local Open Scope string_scope.
Open Scope Z_scope.
Open Scope ctcm_scope.

(** ** The automaton of a session *)

(** [Joined f]: both ids lead to one flow.  [Apart a b]: the host's id leads to [a],
    which has no peer yet, and the peer's id to [b], which has no id of the host. *)
Inductive view :=
| Joined (f : flow_state)
| Apart (a b : option flow_state).

Definition no_view : view := Apart None None.

Section Automaton.
Context (x : session).

(** The flow that a message finds or makes, and where it goes when it has changed:
    by the host's id, by both, by the peer's. *)
Definition by_local (v : view) : flow_state * (flow_state → view) :=
  match v with
  | Joined f => (f, Joined)
  | Apart (Some f) b => (f, λ f, Apart (Some f) b)
  | Apart None b => (set_local_id (s_lid x) new_flow_state, λ f, Apart (Some f) b)
  end.

Definition by_both (v : view) : flow_state * (flow_state → view) :=
  match v with
  | Joined f => (f, Joined)
  | Apart (Some f) b => (f, λ f, Apart (Some f) b)
  | Apart None (Some g) => (set_local_id (s_lid x) g, Joined)
  | Apart None None => (set_remote_id (s_key x) (set_local_id (s_lid x) new_flow_state), Joined)
  end.

Definition by_remote (v : view) : flow_state * (flow_state → view) :=
  match v with
  | Joined f => (f, Joined)
  | Apart a (Some g) => (g, λ g, Apart a (Some g))
  | Apart a None => (set_remote_id (s_key x) new_flow_state, λ g, Apart a (Some g))
  end.

(** A connection is listed when both queue pairs are known. *)
Definition established (f : flow_state) : flow_state :=
  let f := set_state ESTABLISHED f in
  if (local_qpn f =? 0) || (remote_qpn f =? 0) then f else set_in_qpn_map true f.

(** What a message of kind [attr] does to the flow that it found; [join] is the one
    flow with both ids. *)
Definition react (dir : ctcm_direction) (attr : Z) (join put : flow_state → view) (f : flow_state) : view :=
  match dir with
  | CTCM_FROM_HOST =>
      if attr =? CM_REQ_ATTR_ID then
        match state f with
        | IDLE | REQ_SENT => put (set_local_qpn (s_lqpn x) (set_state REQ_SENT f))
        | _ => put f
        end
      else if attr =? CM_REJ_ATTR_ID then
        match state f with IDLE | REQ_RCVD | REQ_SENT | REP_RCVD | REP_SENT => no_view | _ => put f end
      else if attr =? CM_REP_ATTR_ID then
        match state f with
        | REQ_RCVD => put (set_local_qpn (s_lqpn x) (set_state REP_SENT f))
        | _ => put f
        end
      else if attr =? CM_RTU_ATTR_ID then
        match state f with REP_RCVD => put (established f) | _ => put f end
      else if attr =? CM_DREQ_ATTR_ID then
        match state f with
        | IDLE | ESTABLISHED | DREQ_SENT | DREQ_RCVD => put (set_state DREQ_SENT f)
        | _ => put f
        end
      else match state f with DREQ_SENT | DREQ_RCVD => no_view | _ => put f end
  | CTCM_FROM_NET =>
      if attr =? CM_REQ_ATTR_ID then
        match state f with
        | IDLE | REQ_RCVD => put (set_remote_qpn (s_rqpn x) (set_state REQ_RCVD f))
        | _ => put f
        end
      else if attr =? CM_REJ_ATTR_ID then
        match state f with
        | IDLE | REQ_SENT | REP_SENT | DREQ_SENT | REP_RCVD | ESTABLISHED => no_view
        | _ => put f
        end
      else if attr =? CM_REP_ATTR_ID then
        match state f with
        | REQ_SENT => join (set_remote_qpn (s_rqpn x) (set_state REP_RCVD f))
        | _ => put f
        end
      else if attr =? CM_RTU_ATTR_ID then
        match state f with REP_SENT => put (established f) | _ => put f end
      else if attr =? CM_DREQ_ATTR_ID then
        match state f with
        | REP_SENT | DREQ_SENT | ESTABLISHED | DREQ_RCVD => put (set_state DREQ_RCVD f)
        | _ => put f
        end
      else match state f with DREQ_SENT | DREQ_RCVD => no_view | _ => put f end
  end.

Definition finder (dir : ctcm_direction) (attr : Z) : view → flow_state * (flow_state → view) :=
  if (attr =? CM_REQ_ATTR_ID) && bool_decide (dir = CTCM_FROM_NET) then by_remote
  else if (attr =? CM_REJ_ATTR_ID) || (attr =? CM_REP_ATTR_ID) && bool_decide (dir = CTCM_FROM_HOST)
       then by_both
  else by_local.

Definition session_step (v : view) (y : ctcm_direction * Z) : view :=
  let '(f, put) := finder y.1 y.2 v in
  react y.1 y.2 (λ f, Joined (set_remote_id (s_key x) f)) put f.

(** What the session is answered with. *)
Definition view_answer (v : view) : Z :=
  match v with
  | Joined f | Apart (Some f) _ => if in_qpn_map f then local_qpn f else 0
  | Apart None _ => 0
  end.

(** ** What the tracker holds for a session *)

Definition flow_at (s : tracker) (l : loc) : flow_state := default new_flow_state (heap s !! l).

Definition view_of (s : tracker) : view :=
  match local_map s !! s_lid x, remote_map s !! s_key x with
  | Some l, Some l' =>
      if decide (l = l') then Joined (flow_at s l) else Apart (Some (flow_at s l)) (Some (flow_at s l'))
  | a, b => Apart (flow_at s <$> a) (flow_at s <$> b)
  end.

(** The same with what is known of the ids of the flows. *)
Definition side (s : tracker) (i : Z) (k : cm_flow_key) (e : option loc) (a : option flow_state) : Prop :=
  match a with
  | None => e = None
  | Some f => ∃ l, e = Some l ∧ heap s !! l = Some f ∧ local_id f = i ∧ remote_id f = k
  end.

Definition sees (s : tracker) (v : view) : Prop :=
  match v with
  | Joined f => ∃ l, local_map s !! s_lid x = Some l ∧ remote_map s !! s_key x = Some l ∧
                     heap s !! l = Some f ∧ local_id f = s_lid x ∧ remote_id f = s_key x
  | Apart a b => side s (s_lid x) no_key (local_map s !! s_lid x) a ∧
                 side s 0 (s_key x) (remote_map s !! s_key x) b
  end.

Context (Hx : session_ok x).

Lemma sees_view s v : sees s v → view_of s = v.
Proof.
  unfold sees, view_of, flow_at. destruct v as [f|a b].
  - intros (l & -> & -> & Hf & _). by rewrite decide_True, Hf.
  - unfold side. intros [Ha Hb]. destruct a as [f|], b as [g|].
    + destruct Ha as (l & -> & Hf & _ & Hr), Hb as (l' & -> & Hg & _ & Hk).
      rewrite decide_False, Hf, Hg; [done|]. intros ->. destruct (s_key_named x Hx). congruence.
    + destruct Ha as (l & -> & Hf & _). rewrite Hb. cbn. by rewrite Hf.
    + destruct Hb as (l & -> & Hf & _). rewrite Ha. cbn. by rewrite Hf.
    + by rewrite Ha, Hb.
Qed.

Lemma sees_none s : local_map s !! s_lid x = None → remote_map s !! s_key x = None → sees s no_view.
Proof. done. Qed.

(** ** Looking a flow up *)

(** The flow [f] is at [l], and assigning to it is what [put] says. *)
Record placed (put : flow_state → view) (f : flow_state) (l : loc) (s : tracker) : Prop := {
  pl_flow : heap s !! l = Some f;
  pl_put : ∀ f' s', heap s' = <[l := f']> (heap s) → local_map s' = local_map s →
    remote_map s' = remote_map s → local_id f' = local_id f → remote_id f' = remote_id f →
    sees s' (put f');
}.

Lemma placed_same put f l s : placed put f l s → sees s (put f).
Proof. intros [Hf Hp]. apply Hp; [|done..]. by rewrite insert_id. Qed.

Lemma side_insert s s' i k e a l f' :
  heap s' = <[l := f']> (heap s) → (∀ f, a = Some f → e ≠ Some l) → side s i k e a → side s' i k e a.
Proof.
  intros Hh Hl. destruct a as [f|]; [|done]. intros (l' & -> & Hf & Hi). exists l'. split; [done|].
  rewrite Hh, lookup_insert_ne; [done|]. intros ->. by apply (Hl f).
Qed.

Lemma placed_joined f l s :
  local_map s !! s_lid x = Some l → remote_map s !! s_key x = Some l → heap s !! l = Some f →
  local_id f = s_lid x → remote_id f = s_key x → placed Joined f l s.
Proof.
  intros HL HR Hf Hi Hk. split; [done|]. intros f' s' Hh HL' HR' Hi' Hk'. exists l.
  rewrite HL', HR', Hh, lookup_insert_eq, Hi', Hk'. done.
Qed.

Lemma placed_local f b l s :
  local_map s !! s_lid x = Some l → heap s !! l = Some f → local_id f = s_lid x → remote_id f = no_key →
  side s 0 (s_key x) (remote_map s !! s_key x) b → placed (λ f, Apart (Some f) b) f l s.
Proof.
  intros HL Hf Hi Hk Hb. split; [done|]. intros f' s' Hh HL' HR' Hi' Hk'. split.
  - exists l. rewrite HL', Hh, lookup_insert_eq, Hi', Hk'. done.
  - rewrite HR'. eapply side_insert; [done| |done]. intros g -> He. rewrite He in Hb.
    destruct Hb as (l' & [= <-] & Hg & _ & Hr). destruct (s_key_named x Hx). congruence.
Qed.

Lemma placed_remote a g l s :
  remote_map s !! s_key x = Some l → heap s !! l = Some g → local_id g = 0 → remote_id g = s_key x →
  side s (s_lid x) no_key (local_map s !! s_lid x) a → placed (λ g, Apart a (Some g)) g l s.
Proof.
  intros HR Hf Hi Hk Ha. split; [done|]. intros f' s' Hh HL' HR' Hi' Hk'. split.
  - rewrite HL'. eapply side_insert; [done| |done]. intros f -> He. rewrite He in Ha.
    destruct Ha as (l' & [= <-] & Hg & Hl & _). destruct (so_lid x Hx). congruence.
  - exists l. rewrite HR', Hh, lookup_insert_eq, Hi', Hk'. done.
Qed.

(** A side survives a step that touches no flow with its id. *)
Lemma side_frame lid rid s s' i k e a :
  frame lid rid s s' → (∀ f, local_id f = i → remote_id f = k → ¬ mentions lid rid f) →
  side s i k e a → side s' i k e a.
Proof.
  intros F Hm. destruct a as [f|]; [|done]. intros (l & -> & Hf & Hi & Hk). exists l.
  split_and!; [done| |done..]. apply (fr_heap _ _ _ _ F); auto.
Qed.

Definition found (find : view → flow_state * (flow_state → view)) (v : view) (l : loc) (s : tracker) : Prop :=
  placed (find v).2 (find v).1 l s.

Lemma get_local_found s v :
  wf s → sees s v → returns (found by_local v) (get_flow (s_lid x) no_key) s.
Proof.
  intros W Hv. pose proof (so_lid _ Hx) as Hl. destruct v as [f|[f|] b]; cbn in Hv.
  - destruct Hv as (l & HL & HR & Hf & Hi & Hk). exists l, s. split; [by apply get_flow_local|].
    by apply placed_joined.
  - destruct Hv as [(l & HL & Hf & Hi & Hk) Hb]. exists l, s. split; [by apply get_flow_local|].
    by apply placed_local.
  - destruct Hv as [HL Hb]. destruct (get_flow_new_local _ s W Hl HL) as (s1 & Hg & [Hh HL1 HR1 _]).
    exists (next s), s1. split; [done|]. destruct (get_flow_spec _ _ _ _ _ W Hg) as ([_ F _] & _).
    apply placed_local; [by rewrite HL1, lookup_insert_eq|done..|]. rewrite HR1.
    eapply side_frame; [exact F| |done]. intros g Hg1 Hg2 [[_ ?]|[[? _]|[_ ?]]]; [congruence|done|].
    destruct (s_key_named x Hx). congruence.
Qed.

Lemma get_remote_found s v :
  wf s → sees s v → returns (found by_remote v) (get_flow 0 (s_key x)) s.
Proof.
  intros W Hv. pose proof (s_key_bool x Hx) as Hkb.
  assert (Hk : ∀ l, remote_map s !! s_key x = Some l → get_flow 0 (s_key x) s = Ok (l, s)).
  { intros l HR. run_M. rewrite Hkb. run_cbn. by rewrite HR. }
  destruct v as [f|a [g|]]; cbn in Hv.
  - destruct Hv as (l & HL & HR & Hf & Hi & Hr). exists l, s. split; [auto|]. by apply placed_joined.
  - destruct Hv as [Ha (l & HR & Hf & Hi & Hr)]. exists l, s. split; [auto|]. by apply placed_remote.
  - destruct Hv as [Ha HR]. destruct (get_flow_new_remote _ s W Hkb HR) as (s1 & Hg & [Hh HL1 HR1 _]).
    exists (next s), s1. split; [done|]. destruct (get_flow_spec _ _ _ _ _ W Hg) as ([_ F _] & _).
    destruct a as [f|]; (apply placed_remote; [by rewrite HR1, lookup_insert_eq|done..|]); rewrite HL1;
      (eapply side_frame; [exact F| |done]); intros g' Hg1 Hg2 [[? _]|[[_ ?]|[? _]]]; try done;
      try (destruct (s_key_named x Hx); congruence); destruct (so_lid x Hx); congruence.
Qed.

Lemma get_both_found s v :
  wf s → sees s v → returns (found by_both v) (get_flow (s_lid x) (s_key x)) s.
Proof.
  intros W Hv. pose proof (so_lid _ Hx) as Hl. destruct v as [f|[f|] [g|]]; cbn in Hv.
  - destruct Hv as (l & HL & HR & Hf & Hi & Hk). exists l, s. split; [by apply get_flow_local|].
    by apply placed_joined.
  - destruct Hv as [(l & HL & Hf & Hi & Hk) Hb]. exists l, s. split; [by apply get_flow_local|].
    by apply placed_local.
  - destruct Hv as [(l & HL & Hf & Hi & Hk) Hb]. exists l, s. split; [by apply get_flow_local|].
    by apply placed_local.
  - destruct Hv as [HL (l & HR & Hf & Hi & Hk)].
    destruct (get_flow_add_local (s_lid x) (s_key x) l g s Hl HL HR Hf Hi) as (s1 & Hg & [Hh HL1 HR1 _]).
    exists l, s1. split; [done|]. apply placed_joined; [by rewrite HL1, lookup_insert_eq|by rewrite HR1|done..].
  - destruct Hv as [HL HR]. destruct (get_flow_new_both x Hx s W HL HR) as (s1 & Hg & [Hh HL1 HR1 _]).
    exists (next s), s1. split; [done|].
    apply placed_joined; [by rewrite HL1, lookup_insert_eq|by rewrite HR1, lookup_insert_eq|done..].
Qed.

(** ** The handlers move the automaton *)

Lemma returns_and {A} (Q1 Q2 : A → tracker → Prop) (e : M A) s :
  returns Q1 e s → returns Q2 e s → returns (λ a s', Q1 a s' ∧ Q2 a s') e s.
Proof. intros (a & s1 & He & H1) (a' & s2 & He' & H2). rewrite He in He'. injection He' as <- <-. by exists a, s1. Qed.

(** A lookup, and then the branch for the state of the flow. *)
Lemma found_then (Q : unit → tracker → Prop) find v (g : M loc) (k : loc → flow_state → M unit) s :
  returns (found find v) g s →
  returns (λ l s1, wf s1 ∧ tracks x s1 ∧
                   (local_map s1 !! s_lid x = Some l ∨ remote_map s1 !! s_key x = Some l)) g s →
  (∀ l s1, wf s1 → tracks x s1 → placed (find v).2 (find v).1 l s1 → belongs x (find v).1 →
     qpn_map s1 = qpn_map s → g s = Ok (l, s1) → used_state (state (find v).1) = true →
     returns Q (k l (find v).1) s1) →
  (∀ l s1, g s = Ok (l, s1) → qpn_map s1 = qpn_map s) →
  returns Q (st ← g; f ← obj st; k st f) s.
Proof.
  intros Hf Ht Hk Hq. apply returns_bind. eapply returns_mono; [exact (returns_and _ _ _ _ Hf Ht)|].
  cbn beta. intros l s1 Hg (Hp & W1 & T1 & Hm). apply returns_bind, (returns_obj _ l (find v).1); [exact (pl_flow _ _ _ _ Hp)|].
  pose proof (fo_state _ (wf_flow _ W1 _ _ (pl_flow _ _ _ _ Hp))).
  apply Hk; try done; [|by eapply Hq].
  destruct Hm as [Hm|Hm]; [destruct (tr_local _ _ T1 _ Hm) as (f & Hf' & _ & Hb & _)
                          |destruct (tr_remote _ _ T1 _ Hm) as (f & Hf' & _ & Hb & _)];
    by rewrite (pl_flow _ _ _ _ Hp) in Hf'; simplify_eq.
Qed.

Section Handlers.
Context (s : tracker) (v : view) (W : wf s) (T : tracks x s) (Hv : sees s v) (m : cm_msg).

(** The session's entry in the table of queue pairs is its own. *)
Context (Hown : ∀ q, qpn_map s !! s_flow x = Some q →
  ∃ l f, local_map s !! s_lid x = Some l ∧ heap s !! l = Some f ∧ in_qpn_map f = true).

Definition moves (dir : ctcm_direction) (attr : Z) : unit → tracker → Prop :=
  λ _ s', sees s' (session_step v (dir, attr)).

Lemma known_local l s1 :
  wf s1 ∧ tracks x s1 ∧ local_map s1 !! s_lid x = Some l →
  wf s1 ∧ tracks x s1 ∧ (local_map s1 !! s_lid x = Some l ∨ remote_map s1 !! s_key x = Some l).
Proof. intros (? & ? & ?). auto. Qed.

Ltac by_id :=
  eapply found_then;
  [ by first [apply get_local_found | apply get_both_found]
  | eapply returns_mono;
    [by first [apply get_local_returns | apply get_both_returns]|intros l s1 _; apply known_local]
  | intros l s1 W1 T1 Hp Hb Hq Hg Hu
  | intros l s1; apply get_flow_qpn_map ].

(** Name the flow and its place, and split on its state. *)
Ltac react_norm Hst :=
  unfold react;
  cbn [Z.eqb Pos.eqb CM_REQ_ATTR_ID CM_REJ_ATTR_ID CM_REP_ATTR_ID CM_RTU_ATTR_ID CM_DREQ_ATTR_ID CM_DREP_ATTR_ID];
  rewrite Hst.

Ltac on_state find :=
  unfold moves, session_step; cbn [fst snd]; change (finder _ _) with find;
  destruct (find v) as [f put] eqn:Hfind; cbn [fst snd] in *;
  destruct (state f) eqn:Hst; try discriminate; cbn beta iota; react_norm Hst;
  try (apply returns_ret; by eapply placed_same).

(** One assignment, and two. *)
Lemma placed_upd put f l s1 f' :
  placed put f l s1 → local_id f' = local_id f → remote_id f' = remote_id f → sees (upd l f' s1) (put f').
Proof. intros Hp Hi Hk. by apply (pl_put _ _ _ _ Hp). Qed.

Lemma placed_upd2 put f l s1 f1 f' :
  placed put f l s1 → local_id f' = local_id f → remote_id f' = remote_id f →
  sees (upd l f' (upd l f1 s1)) (put f').
Proof. intros Hp Hi Hk. apply (pl_put _ _ _ _ Hp); try done. cbn. by rewrite insert_insert_eq. Qed.

Lemma req_sent_moves :
  m_local_comm_id m = s_lid x → m_qpn m = s_lqpn x →
  returns (moves CTCM_FROM_HOST CM_REQ_ATTR_ID) (req_sent m) s.
Proof.
  intros Hm Hqp. unfold req_sent, returns. read_goal. rewrite Hm. fold (returns (moves CTCM_FROM_HOST CM_REQ_ATTR_ID)).
  by_id. on_state by_local.
  all: apply returns_bind, (returns_assign _ l f); [exact (pl_flow _ _ _ _ Hp)|]; unfold returns; read_goal.
  all: apply (returns_assign _ l (set_state REQ_SENT f)); [apply heap_upd|].
  all: rewrite Hqp; by eapply placed_upd2.
Qed.

Lemma req_received_moves :
  m_saddr m = s_rip x → m_local_comm_id m = s_rid x → m_qpn m = s_rqpn x → s_active x = false →
  returns (moves CTCM_FROM_NET CM_REQ_ATTR_ID) (req_received m) s.
Proof.
  intros Hs Hm Hqp Ha. unfold req_received, returns. read_goal. rewrite Hs, Hm. fold (s_key x).
  fold (returns (moves CTCM_FROM_NET CM_REQ_ATTR_ID)).
  eapply found_then; [by apply get_remote_found| | |intros l s1; apply get_flow_qpn_map].
  { eapply returns_mono; [by apply get_remote_returns|]. intros l s1 _ (? & ? & ?). auto. }
  intros l s1 W1 T1 Hp Hb Hq Hg Hu. on_state by_remote.
  all: apply returns_bind; cbn [decide].
  1: rewrite decide_False by (by intros []); apply returns_ret.
  2: rewrite decide_True by done; unfold returns at 1; read_goal; exists tt, s1;
     rewrite Hqp, (be_req _ _ Hb Hst), Z.eqb_refl; split; [done|].
  all: apply returns_bind, (returns_assign _ l f); [exact (pl_flow _ _ _ _ Hp)|]; unfold returns; read_goal.
  all: apply (returns_assign _ l (set_state REQ_RCVD f)); [apply heap_upd|].
  all: rewrite Hqp; by eapply placed_upd2.
Qed.

Lemma rep_sent_moves :
  m_daddr m = s_rip x → m_local_comm_id m = s_lid x → m_remote_comm_id m = s_rid x →
  m_qpn m = s_lqpn x → returns (moves CTCM_FROM_HOST CM_REP_ATTR_ID) (rep_sent m) s.
Proof.
  intros Hd Hm Hm' Hqp. unfold rep_sent, returns. read_goal. rewrite Hd, Hm, Hm'. fold (s_key x).
  fold (returns (moves CTCM_FROM_HOST CM_REP_ATTR_ID)). by_id. on_state by_both.
  pose proof (be_named _ _ Hb ltac:(by rewrite Hst)) as Hk.
  pose proof (placed_same _ _ _ _ Hp) as Hs.
  assert (Hj : put = Joined).
  { destruct v as [f0|[f0|] [g0|]]; cbn in Hfind; injection Hfind as <- <-; try done;
      destruct Hs as [(l' & _ & _ & _ & Hn) _]; destruct (s_key_named x Hx); congruence. }
  subst put. destruct Hs as (l' & HL & HR & Hf' & Hi & _).
  assert (l' = l) as ->.
  { destruct (get_flow_spec _ _ _ _ _ W Hg) as (_ & Hl & _). pose proof (Hl (so_lid _ Hx)). congruence. }
  apply returns_bind, (returns_assign _ l f); [done|]. apply returns_bind.
  exists l, (upd l (set_state REP_SENT f) s1). split.
  { eapply add_both; [done|done|apply heap_upd|done..]. }
  unfold returns. read_goal. apply (returns_assign _ l (set_state REP_SENT f)); [apply heap_upd|].
  rewrite Hqp. by eapply placed_upd2.
Qed.

Lemma rep_received_moves :
  m_saddr m = s_rip x → m_local_comm_id m = s_rid x → m_remote_comm_id m = s_lid x →
  m_qpn m = s_rqpn x → s_active x = true →
  returns (moves CTCM_FROM_NET CM_REP_ATTR_ID) (rep_received m) s.
Proof.
  intros Hd Hm Hm' Hqp Ha. unfold rep_received, returns. read_goal. rewrite Hd, Hm, Hm'. fold (s_key x).
  fold (returns (moves CTCM_FROM_NET CM_REP_ATTR_ID)). by_id. on_state by_local.
  apply returns_bind, (returns_assign _ l f); [exact (pl_flow _ _ _ _ Hp)|]. unfold returns. read_goal.
  apply returns_bind, (returns_assign _ l (set_state REP_RCVD f)); [apply heap_upd|]. rewrite Hqp.
  set (f1 := set_remote_qpn (s_rqpn x) (set_state REP_RCVD f)).
  set (s2 := upd l f1 (upd l (set_state REP_RCVD f) s1)).
  pose proof (placed_upd2 _ _ _ _ (set_state REP_RCVD f) f1 Hp eq_refl eq_refl) as Hs2. fold s2 in Hs2.
  apply returns_bind. destruct v as [f0|[f0|] b]; cbn in Hfind; injection Hfind as <- <-; [| |discriminate].
  - pose proof Hs2 as (l' & HL & HR & Hf' & Hi & Hk).
    exists l', s2. split; [by eapply add_both|]. apply returns_ret.
    assert (set_remote_id (s_key x) f1 = f1) as -> by (by rewrite <- Hk; destruct f1). done.
  - destruct Hs2 as [(l' & HL & Hf' & Hi & Hk) Hb2]. destruct b as [g|].
    { destruct Hv as [_ (lg & HR & Hg' & Hg0 & _)].
      destruct (tr_remote _ _ T _ HR) as (g1 & Hg1 & _ & Hbg & _). simplify_eq.
      destruct (be_local _ _ Hbg) as [He|[_ He]]; [destruct (so_lid x Hx)|]; congruence. }
    destruct (add_remote (s_lid x) (s_key x) l' f1 s2) as (s3 & Hs3 & [Hh HL3 HR3 _]);
      [done|done|done|exact (s_key_bool x Hx)|by rewrite Hk|].
    exists l', s3. split; [done|]. apply returns_ret. exists l'.
    by rewrite HL3, HR3, lookup_insert_eq.
Qed.

Lemma vacant l s1 rk f :
  get_flow (s_lid x) rk s = Ok (l, s1) → heap s1 !! l = Some f → live_state (state f) = false →
  qpn_map s !! s_flow x = None.
Proof.
  intros Hg Hf Hl. destruct (qpn_map s !! s_flow x) as [q|] eqn:Hq; [|done].
  destruct (Hown q eq_refl) as (l' & f' & HL & Hf' & Hin).
  rewrite (get_flow_local _ _ l') in Hg by (done || apply (so_lid x Hx)). injection Hg as <- <-.
  simplify_eq. by rewrite (not_live_unlisted _ _ _ W Hf Hl) in Hin.
Qed.

Lemma establish_moves put f l s1 rk :
  placed put f l s1 → get_flow (s_lid x) rk s = Ok (l, s1) → qpn_map s1 = qpn_map s →
  belongs x f → remote_id f = s_key x → live_state (state f) = false →
  returns (λ _ s', sees s' (put (established f))) (_ ← assign l (set_state ESTABLISHED); on_established l) s1.
Proof.
  intros Hp Hg Hq Hb Hk Hl. set (f1 := set_state ESTABLISHED f).
  apply returns_bind, (returns_assign _ l f); [exact (pl_flow _ _ _ _ Hp)|].
  apply returns_bind, (returns_obj _ l f1); [apply heap_upd|]. unfold established. fold f1.
  destruct (orb _ _) eqn:Hz; [apply returns_ret; by eapply placed_upd|].
  apply orb_false_iff in Hz as [_ Hr%Z.eqb_neq]. apply returns_bind. exists (upd l f1 s1), (upd l f1 s1).
  split; [done|]. assert (Hn : qpn_map (upd l f1 s1) !! get_flow_key f1 = None).
  { change (qpn_map (upd l f1 s1)) with (qpn_map s1). rewrite Hq.
    rewrite <- (vacant l s1 rk f Hg (pl_flow _ _ _ _ Hp) Hl). f_equal. unfold get_flow_key, s_flow. cbn in *.
    rewrite Hk. by destruct (be_rqpn _ _ Hb) as [?| ->]. }
  rewrite Hn. apply returns_bind. eexists tt, _. split; [done|].
  apply (returns_assign _ l f1); [apply heap_upd|]. apply (pl_put _ _ _ _ Hp); try done.
  cbn. by rewrite insert_insert_eq.
Qed.

Lemma rtu_moves dir :
  own_id dir m = s_lid x → m_attr m = CM_RTU_ATTR_ID →
  returns (moves dir CM_RTU_ATTR_ID)
    (match dir with CTCM_FROM_HOST => rtu_sent | CTCM_FROM_NET => rtu_received end m) s.
Proof.
  intros Ho Ha. destruct dir; [|rewrite own_id_net in Ho by (by rewrite Ha)]; cbn in Ho;
    unfold rtu_sent, rtu_received, returns; read_goal; rewrite Ho;
    [fold (returns (moves CTCM_FROM_HOST CM_RTU_ATTR_ID))|fold (returns (moves CTCM_FROM_NET CM_RTU_ATTR_ID))];
    by_id; on_state by_local;
    (eapply establish_moves; [done|exact Hg|done|done|by apply (be_named _ _ Hb); rewrite Hst|by rewrite Hst]).
Qed.

Lemma dreq_moves dir :
  own_id dir m = s_lid x → m_attr m = CM_DREQ_ATTR_ID →
  returns (moves dir CM_DREQ_ATTR_ID)
    (match dir with CTCM_FROM_HOST => dreq_sent | CTCM_FROM_NET => dreq_received end m) s.
Proof.
  intros Ho Ha. destruct dir; [|rewrite own_id_net in Ho by (by rewrite Ha)]; cbn in Ho;
    unfold dreq_sent, dreq_received, returns; read_goal; rewrite Ho;
    [fold (returns (moves CTCM_FROM_HOST CM_DREQ_ATTR_ID))|fold (returns (moves CTCM_FROM_NET CM_DREQ_ATTR_ID))];
    by_id; on_state by_local;
    (apply (returns_assign _ l f); [exact (pl_flow _ _ _ _ Hp)|by eapply placed_upd]).
Qed.

(** Erasing by both ids. *)
Lemma erase_moves put f l s1 rk :
  placed put f l s1 → get_flow (s_lid x) rk s = Ok (l, s1) → wf s1 →
  returns (λ _ s', sees s' no_view) (erase_flow (s_lid x) (s_key x)) s1.
Proof.
  intros Hp Hg W1. destruct (get_flow_spec _ _ _ _ _ W Hg) as (_ & Hl & _).
  eapply returns_mono; [eapply (erase_returns x Hx); [done|apply Hl, (so_lid x Hx)|exact (pl_flow _ _ _ _ Hp)]|].
  intros [] s' _ [? ?]. by apply sees_none.
Qed.

Lemma rej_moves dir :
  own_id dir m = s_lid x → peer_key dir m = s_key x → m_attr m = CM_REJ_ATTR_ID →
  returns (moves dir CM_REJ_ATTR_ID)
    (match dir with CTCM_FROM_HOST => rej_sent | CTCM_FROM_NET => rej_received end m) s.
Proof.
  intros Ho Hk Ha. destruct dir; [|rewrite own_id_net in Ho by (by rewrite Ha)]; cbn in Ho, Hk;
    unfold rej_sent, rej_received, returns; read_goal; rewrite Ho, Hk;
    [fold (returns (moves CTCM_FROM_HOST CM_REJ_ATTR_ID))|fold (returns (moves CTCM_FROM_NET CM_REJ_ATTR_ID))];
    by_id; on_state by_both; by eapply erase_moves.
Qed.

Lemma drep_moves dir :
  own_id dir m = s_lid x → peer_key dir m = s_key x → m_attr m = CM_DREP_ATTR_ID →
  returns (moves dir CM_DREP_ATTR_ID)
    (match dir with CTCM_FROM_HOST => drep_sent | CTCM_FROM_NET => drep_received end m) s.
Proof.
  intros Ho Hk Ha. destruct dir; [|rewrite own_id_net in Ho by (by rewrite Ha)]; cbn in Ho, Hk;
    unfold drep_sent, drep_received, returns; read_goal; rewrite Ho, Hk;
    [fold (returns (moves CTCM_FROM_HOST CM_DREP_ATTR_ID))|fold (returns (moves CTCM_FROM_NET CM_DREP_ATTR_ID))];
    by_id; on_state by_local; by eapply erase_moves.
Qed.

End Handlers.

(** A message of the session. *)
Lemma says_moves dir m s v :
  says x dir m → tracked (m_attr m) = true → wf s → tracks x s → sees s v →
  (∀ q, qpn_map s !! s_flow x = Some q →
     ∃ l f, local_map s !! s_lid x = Some l ∧ heap s !! l = Some f ∧ in_qpn_map f = true) →
  returns (λ _ s', sees s' (session_step v (dir, m_attr m))) (process m dir) s.
Proof.
  intros Hs Ht W T Hv Hq. pose proof (says_own _ _ _ Hs) as Ho. pose proof (says_peer _ _ _ Hs) as Hk.
  unfold returns.
  assert (Hh : ∃ h, handler_of dir (m_attr m) = Some h ∧ returns (moves v dir (m_attr m)) (h m) s).
  2:{ destruct Hh as (h & Hh & Hr). by rewrite (process_handler m dir h s Hh). }
  unfold tracked in Ht. cbn [existsb] in Ht. repeat rewrite orb_true_iff in Ht.
  destruct Ht as [Ha%Z.eqb_eq|[Ha%Z.eqb_eq|[Ha%Z.eqb_eq|[Ha%Z.eqb_eq|[Ha%Z.eqb_eq|[Ha%Z.eqb_eq|[=]]]]]]];
    rewrite Ha in Ho, Hk |- *; cbn in Ho; cbn [handler_of].
  - destruct dir; (eexists; split; [done|]); cbn in Hs; destruct Hs as (? & ? & ? & ? & _ & ?);
      [apply req_sent_moves | apply req_received_moves]; auto.
  - pose proof (rej_moves s v W T Hv m dir Ho (Hk ltac:(done)) Ha). destruct dir; by eexists.
  - destruct dir; (eexists; split; [done|]); cbn in Hs; rewrite Ha in Hs; cbn in Hs;
      destruct Hs as (? & ? & ? & _ & ? & ?); [apply rep_sent_moves | apply rep_received_moves]; auto.
  - pose proof (rtu_moves s v W T Hv m Hq dir Ho Ha). destruct dir; by eexists.
  - pose proof (dreq_moves s v W T Hv m dir Ho Ha). destruct dir; by eexists.
  - pose proof (drep_moves s v W T Hv m dir Ho (Hk ltac:(done)) Ha). destruct dir; by eexists.
Qed.

(** A step that names neither id of the session. *)
Lemma sees_frame i k s s' v :
  i ≠ s_lid x → k ≠ s_key x → frame i k s s' → sees s v → sees s' v.
Proof.
  intros Hi Hk F. pose proof (so_lid _ Hx) as H0. pose proof (s_key_named x Hx) as H1.
  assert (Hm : ∀ f, local_id f = s_lid x ∧ remote_id f = s_key x ∨ local_id f = s_lid x ∧ remote_id f = no_key ∨
                    local_id f = 0 ∧ remote_id f = s_key x → ¬ mentions i k f).
  { intros f [[El Er]|[[El Er]|[El Er]]] [[? He]|[[Hb He]|[He1 He2]]]; try congruence.
    rewrite Er in He. by subst k. }
  destruct v as [f|a b]; cbn; rewrite (fr_local _ _ _ _ F), (fr_remote _ _ _ _ F) by done.
  - intros (l & HL & HR & Hf & El & Er). exists l. split_and!; try done. apply (fr_heap _ _ _ _ F); auto.
  - intros [Ha Hb]. split; (eapply side_frame; [exact F| |done]); auto.
Qed.
End Automaton.

(** ** The product *)

(** Who a message is about: the host's id in it, or for a REQ of the peer the peer's
    id and address. *)
Definition addressed (x : session) (dir : ctcm_direction) (m : cm_msg) : bool :=
  if m_attr m =? CM_REQ_ATTR_ID then
    match dir with
    | CTCM_FROM_HOST => m_local_comm_id m =? s_lid x
    | CTCM_FROM_NET => bool_decide ((m_saddr m, m_local_comm_id m) = s_key x)
    end
  else own_id dir m =? s_lid x.

Lemma says_addressed x dir m : says x dir m → addressed x dir m = true.
Proof.
  intros Hs. pose proof (says_own _ _ _ Hs) as Ho. unfold addressed.
  destruct (m_attr m =? CM_REQ_ATTR_ID); [|rewrite Ho; apply Z.eqb_refl].
  destruct dir; cbn in Hs; destruct Hs as (H1 & H2 & _).
  - by rewrite H2, Z.eqb_refl.
  - by rewrite H1, H2, bool_decide_eq_true_2.
Qed.

Section Packets.
Context {P : Type} `{CmPacket P}.

(** The messages of a session in a run: direction and kind. *)
Definition own_message (x : session) (y : ctcm_direction * P) : option (ctcm_direction * Z) :=
  let m := decode y.2 in
  if tracked (m_attr m) && addressed x y.1 m then Some (y.1, m_attr m) else None.

Definition own_messages (x : session) : list (ctcm_direction * P) → list (ctcm_direction * Z) :=
  omap (own_message x).

Lemma carries_addressed p m x dir :
  carries p m → m_attr (decode p) = m_attr m ∧ addressed x dir (decode p) = addressed x dir m.
Proof.
  intros [(a & Hm & Ha & Hg & _) Hs Hd].
  assert (Hat : m_attr (decode p) = m_attr m) by (by apply (decode_attr p (Some a))).
  split; [done|]. unfold addressed, own_id. rewrite Hat. unfold decode. rewrite Hm, Hs. cbn.
  assert (Hl : result_or 0 (pkt_get CM_REP_LOCAL_COMM_ID p (Some a)) = m_local_comm_id m).
  { change CM_REP_LOCAL_COMM_ID with CM_REQ_LOCAL_COMM_ID. rewrite Hg; [done|].
    unfold read_fields. repeat case_match; by left. }
  rewrite Hl. destruct (m_attr m =? CM_REQ_ATTR_ID) eqn:Hr; [done|].
  assert (Hrem : result_or 0 (pkt_get CM_REP_REMOTE_COMM_ID p (Some a)) = m_remote_comm_id m).
  { change CM_REP_REMOTE_COMM_ID with CM_REJ_REMOTE_COMM_ID. rewrite Hg; [done|].
    unfold read_fields. rewrite Hr. case_match; right; by left. }
  by rewrite Hrem.
Qed.

Context (S : list session) (HS : sessions_ok S).

(** The tracker fits the sessions and holds for each of them [V x]. *)
Definition holds (V : session → view) (s : tracker) : Prop :=
  fits S s ∧ ∀ x, x ∈ S → sees x s (V x).

Lemma fits_own x s q :
  x ∈ S → fits S s → qpn_map s !! s_flow x = Some q →
  ∃ l f, local_map s !! s_lid x = Some l ∧ heap s !! l = Some f ∧ in_qpn_map f = true ∧ local_qpn f = q.
Proof.
  intros Hx F Hq. destruct (wf_qpn _ (ft_wf _ _ F) _ _ Hq) as (l & f & Hf & Hin & Hk & Hl).
  destruct (fits_listed _ _ _ _ F Hf Hin) as (y & Hy & HL & Hk' & _). rewrite Hk in Hk'.
  rewrite (ss_flow _ HS x y Hx Hy Hk'). by exists l, f.
Qed.

Lemma holds_answer x s v :
  x ∈ S → fits S s → sees x s v → get_source_qpn s (s_flow x) = view_answer v.
Proof.
  intros Hx F Hv. pose proof (ft_wf _ _ F) as W.
  assert (Hloc : ∀ l f, local_map s !! s_lid x = Some l → heap s !! l = Some f →
            get_source_qpn s (s_flow x) = if in_qpn_map f then local_qpn f else 0).
  { intros l f HL Hf. unfold get_source_qpn. destruct (in_qpn_map f) eqn:Hin.
    - destruct (fits_listed _ _ _ _ F Hf Hin) as (y & Hy & HL' & Hk & _).
      destruct (wf_local _ W _ _ HL) as (_ & f1 & ? & Hi), (wf_local _ W _ _ HL') as (_ & f2 & ? & Hi').
      assert (x = y) as <- by (apply (ss_lid _ HS); [done..|congruence]).
      destruct (wf_listed _ W _ _ Hf Hin) as [_ Hq]. by rewrite <- Hk, Hq.
    - destruct (qpn_map s !! s_flow x) as [q|] eqn:Hq; [|done].
      destruct (fits_own x s q Hx F Hq) as (l' & f' & ? & ? & ? & _). congruence. }
  destruct v as [f|[f|] b]; cbn in Hv |- *.
  - destruct Hv as (l & HL & _ & Hf & _). by apply (Hloc l).
  - destruct Hv as [(l & HL & Hf & _) _]. by apply (Hloc l).
  - destruct Hv as [HL _]. unfold get_source_qpn. destruct (qpn_map s !! s_flow x) as [q|] eqn:Hq; [|done].
    destruct (fits_own x s q Hx F Hq) as (l' & f' & ? & _). congruence.
Qed.

(** One packet moves the automaton of its session and no other. *)
Lemma holds_step dir (p : P) V s :
  conforms S (dir, p) → holds V s →
  ∃ s', process p dir s = Ok (tt, s') ∧
        holds (λ x, foldl (session_step x) (V x) (option_list (own_message x (dir, p)))) s'.
Proof.
  intros (m & Hc & Hm) [F Hv]. cbn [fst snd] in Hc, Hm. rewrite (carries_process _ _ _ _ Hc).
  assert (Hown : ∀ x, own_message x (dir, p) =
            if tracked (m_attr m) && addressed x dir m then Some (dir, m_attr m) else None).
  { intros x. unfold own_message. cbn [fst snd]. cbv zeta. by destruct (carries_addressed p m x dir Hc) as [-> ->]. }
  destruct (tracked (m_attr m)) eqn:Ht.
  2:{ exists s. rewrite (untracked_process m dir s Ht). split; [done|]. split; [done|].
      intros x Hx. rewrite Hown. by apply Hv. }
  destruct Hm as [Hm|(x & Hx & Hs)]; [congruence|].
  destruct (fits_says S HS x dir m s Hx Hs Ht F) as (s' & Hs' & F').
  exists s'. split; [done|]. split; [done|]. intros y Hy. rewrite Hown. cbn [andb].
  destruct (decide (x = y)) as [<-|Hne].
  - rewrite (says_addressed _ _ _ Hs). cbn.
    destruct (says_moves x (in_ok S HS _ Hx) dir m s (V x)) as ([] & s1 & Hs1 & Hv1); try done.
    { apply F. } { by apply F. } { by apply Hv. }
    { intros q Hq. destruct (fits_own x s q Hx F Hq) as (l & f & ? & ? & ? & _). by exists l, f. }
    congruence.
  - destruct (says_apart S HS x y dir m) as [Hi Hk]; [done..|].
    assert (addressed y dir m = false) as ->.
    { unfold addressed. destruct (m_attr m =? CM_REQ_ATTR_ID) eqn:Ha.
      - destruct dir; [by apply Z.eqb_neq|]. by apply bool_decide_eq_false_2.
      - by apply Z.eqb_neq. }
    destruct (message_step _ _ _ _ _ (ft_wf _ _ F) Hs') as [_ Fr _].
    by apply (sees_frame y (in_ok S HS _ Hy) _ _ s s' _ Hi Hk Fr), Hv.
Qed.

Lemma holds_run tr V s :
  Forall (conforms S) tr → holds V s →
  ∃ s', run s tr = Ok s' ∧ holds (λ x, foldl (session_step x) (V x) (own_messages x tr)) s'.
Proof.
  intros Htr. revert V s. induction Htr as [|[dir p] tr Hp _ IH]; intros V s Hh; [by exists s|].
  destruct (holds_step dir p V s Hp Hh) as (s1 & Hs1 & Hh1). cbn [run]. rewrite Hs1.
  destruct (IH _ s1 Hh1) as (s' & Hs' & [F' Hv']). exists s'. split; [done|]. split; [done|].
  intros x Hx. specialize (Hv' x Hx). unfold own_messages in *. cbn [omap list_omap].
  by destruct (own_message x (dir, p)).
Qed.

Lemma holds_empty : holds (λ _, no_view) empty_tracker.
Proof. split; [apply fits_empty|]. by intros x _. Qed.

(** C3: the tracker is the product of its sessions.  After any sequence of packets of
    conforming peers, in any order and with any losses and repetitions, the tracker
    has not stopped, and for each session: the flows that its maps hold under the
    ids of the session are the state of the session's own automaton after the
    session's own messages, in their order; and the answer to the query for the
    session is read off that state.  Every other query answers 0. *)
Theorem tracker_is_product tr :
  Forall (conforms S) tr →
  ∃ s, run empty_tracker tr = Ok s ∧
    (∀ x, x ∈ S →
       view_of x s = foldl (session_step x) no_view (own_messages x tr) ∧
       get_source_qpn s (s_flow x) = view_answer (foldl (session_step x) no_view (own_messages x tr))) ∧
    ∀ k, (∀ x, x ∈ S → k ≠ s_flow x) → get_source_qpn s k = 0.
Proof.
  intros Htr. destruct (holds_run tr _ _ Htr holds_empty) as (s & Hs & F & Hv). exists s. split; [done|]. split.
  - intros x Hx. specialize (Hv x Hx). split; [by apply (sees_view x (in_ok S HS _ Hx))|].
    by apply (holds_answer x).
  - intros k Hk. destruct (fits_answers S s k F) as [?|(x & Hx & -> & _)]; [done|]. by destruct (Hk x Hx).
Qed.
End Packets.
