(* ===== verification/Recover.v ===== *)
(** * Recover: a session can always be reset and set up again

    Whatever happened to a session before, three messages of it forget it (a REJ and
    a DREQ of the host and a DREP of the peer), and the three messages of the
    handshake then list it, with the traffic of the other sessions in between. *)

From Stdlib Require Import ZArith Lia String.
From stdpp Require Import base tactics numbers list strings gmap.
From S2P Require Import Prelude Memory Layout IbMad Iba IbtaC12 Mbuf CmPacket Tracker TrackerInv TrackerStep TrackerSpec Handshake Conform.

Local Open Scope string_scope.
Open Scope Z_scope.
Open Scope ctcm_scope.

(** ** Scripts *)

Definition closing : list (ctcm_direction * Z) :=
  [(CTCM_FROM_HOST, CM_REJ_ATTR_ID); (CTCM_FROM_HOST, CM_DREQ_ATTR_ID); (CTCM_FROM_NET, CM_DREP_ATTR_ID)].

Definition opening (x : session) : list (ctcm_direction * Z) :=
  if s_active x
  then [(CTCM_FROM_HOST, CM_REQ_ATTR_ID); (CTCM_FROM_NET, CM_REP_ATTR_ID); (CTCM_FROM_HOST, CM_RTU_ATTR_ID)]
  else [(CTCM_FROM_NET, CM_REQ_ATTR_ID); (CTCM_FROM_HOST, CM_REP_ATTR_ID); (CTCM_FROM_NET, CM_RTU_ATTR_ID)].

(** [tr] is the messages of [x] in the order of the script, with packets of the
    other sessions of [S] anywhere in between. *)
Inductive woven {P} `{CmPacket P} (S : list session) (x : session)
  : list (ctcm_direction * Z) → list (ctcm_direction * P) → Prop :=
| woven_nil : woven S x [] []
| woven_other y sc tr :
    conforms (List.filter (λ z, negb (bool_decide (z = x))) S) y → woven S x sc tr → woven S x sc (y :: tr)
| woven_own dir p m sc tr :
    carries p m → says x dir m → woven S x sc tr → woven S x ((dir, m_attr m) :: sc) ((dir, p) :: tr).

(** ** Phases *)
Section Phases.
Context (x : session) (Hx : session_ok x).

(** The flow when the handshake has come this far. *)
Definition opened (n : nat) : flow_state :=
  match n, s_active x with
  | 1%nat, true => Flow REQ_SENT (s_lid x) no_key (s_lqpn x) 0 false
  | 1%nat, false => Flow REQ_RCVD 0 (s_key x) 0 (s_rqpn x) false
  | 2%nat, true => Flow REP_RCVD (s_lid x) (s_key x) (s_lqpn x) (s_rqpn x) false
  | 2%nat, false => Flow REP_SENT (s_lid x) (s_key x) (s_lqpn x) (s_rqpn x) false
  | _, _ => Flow ESTABLISHED (s_lid x) (s_key x) (s_lqpn x) (s_rqpn x) true
  end.

(** What is known of the session after the first [n] messages of the script. *)
Definition phase (n : nat) (s : tracker) : Prop :=
  match n with
  | 0%nat => True
  | 1%nat => ∀ l f, local_map s !! s_lid x = Some l → heap s !! l = Some f → live_state (state f) = true
  | 2%nat => ∃ l f, local_map s !! s_lid x = Some l ∧ heap s !! l = Some f ∧ state f = DREQ_SENT
  | 3%nat => local_map s !! s_lid x = None ∧ remote_map s !! s_key x = None
  | S (S (S n)) => stage (s_lid x) (s_key x) (opened n) s
  end.

(** The traffic of other sessions does not change the phase. *)
Lemma phase_frame n i k s s' :
  wf s → i ≠ s_lid x → k ≠ s_key x → frame i k s s' → tracks x s → phase n s → phase n s'.
Proof.
  intros W Hi Hk F T Hp. pose proof (tracks_frame x Hx i k s s' W Hi Hk F T) as T'.
  assert (Hs : ∀ l f, local_map s !! s_lid x = Some l → heap s !! l = Some f →
                      heap s' !! l = Some f).
  { intros l f HL Hf. destruct (tr_local _ _ T _ HL) as (g & Hg & Hl & Hb & _). simplify_eq.
    apply (fr_heap _ _ _ _ F); [done|]. intros [[? He]|[[Hkb He]|[H0 _]]].
    - congruence.
    - destruct (be_remote _ _ Hb) as [He'|?]; [|congruence]. rewrite He' in He. by subst k.
    - destruct Hx. congruence. }
  destruct n as [|[|[|[|n]]]]; cbn [phase] in *.
  - done.
  - intros l f HL Hf. rewrite (fr_local _ _ _ _ F) in HL by done.
    destruct (tr_local _ _ T _ HL) as (g & Hg & _). rewrite (Hs _ _ HL Hg) in Hf. simplify_eq. eauto.
  - destruct Hp as (l & f & HL & Hf & Hst). exists l, f. rewrite (fr_local _ _ _ _ F) by done. eauto.
  - by rewrite (fr_local _ _ _ _ F), (fr_remote _ _ _ _ F) by done.
  - by eapply stage_frame; [exact Hi|exact Hk|..].
Qed.

(** *** The messages that close the session *)

Lemma close_rej m s :
  says x CTCM_FROM_HOST m → m_attr m = CM_REJ_ATTR_ID → wf s → tracks x s →
  returns (λ _ s', phase 1 s') (process m CTCM_FROM_HOST) s.
Proof.
  intros Hs Ha W T. unfold returns. rewrite (process_handler m _ rej_sent) by (by rewrite Ha).
  cbn in Hs. rewrite Ha in Hs. cbn in Hs. destruct Hs as (Hd & Hl & Hr & _).
  unfold rej_sent. read_goal. rewrite Hd, Hl, Hr. fold (s_key x). fold (returns (λ _ : unit, phase 1)).
  apply (found_returns x); [by apply get_both_returns|].
  intros l f s1 W1 T1 HL Hf Hb _ Hi Hu. cbn beta.
  destruct (state f) eqn:Hst; try discriminate Hu;
    try (apply returns_ret; intros l' f' HL' Hf'; simplify_eq; by rewrite Hst);
    (eapply returns_mono; [by eapply erase_returns|]); intros ? s' _ [HL' _] l' f' HL''; congruence.
Qed.

Lemma close_dreq m s :
  says x CTCM_FROM_HOST m → m_attr m = CM_DREQ_ATTR_ID → wf s → phase 1 s →
  returns (λ _ s', phase 2 s') (process m CTCM_FROM_HOST) s.
Proof.
  intros Hs Ha W Hp. unfold returns. rewrite (process_handler m _ dreq_sent) by (by rewrite Ha).
  destruct Hs as (_ & Hl & _). unfold dreq_sent. read_goal. rewrite Hl.
  assert (Hg : ∃ l f s1, get_flow (s_lid x) no_key s = Ok (l, s1) ∧ local_map s1 !! s_lid x = Some l ∧
            heap s1 !! l = Some f ∧ (state f = IDLE ∨ live_state (state f) = true)).
  { destruct (local_map s !! s_lid x) as [l|] eqn:HL.
    - destruct (wf_local _ W _ _ HL) as (Hn & f & Hf & _). exists l, f, s.
      rewrite (get_flow_local _ _ l) by done. eauto 6.
    - destruct (get_flow_new_local (s_lid x) s W (so_lid _ Hx) HL) as (s1 & Hg & [Hh HL1 _ _]).
      eexists _, _, s1. split_and!; [done|by rewrite HL1, lookup_insert_eq|done|by left]. }
  destruct Hg as (l & f & s1 & Hg & HL & Hf & Hst).
  rewrite (M_bind_l _ _ _ _ _ Hg), (obj_bind _ _ _ _ Hf).
  assert (Hok : returns (λ _ s', phase 2 s') (assign l (set_state DREQ_SENT)) s1).
  { apply (returns_assign _ l f); [done|]. exists l, (set_state DREQ_SENT f).
    split_and!; [done|apply heap_upd|done]. }
  by destruct Hst as [Hst|Hst]; destruct (state f).
Qed.

Lemma close_drep m s :
  says x CTCM_FROM_NET m → m_attr m = CM_DREP_ATTR_ID → wf s → phase 2 s →
  returns (λ _ s', phase 3 s') (process m CTCM_FROM_NET) s.
Proof.
  intros Hs Ha W (l & f & HL & Hf & Hst). unfold returns.
  rewrite (process_handler m _ drep_received) by (by rewrite Ha).
  cbn in Hs. rewrite Ha in Hs. cbn in Hs. destruct Hs as (Hd & Hl & Hr & _).
  unfold drep_received. read_goal. rewrite Hd, Hl, Hr. fold (s_key x).
  rewrite (M_bind_l _ _ _ _ _ (get_flow_local _ _ _ _ (so_lid _ Hx) HL)), (obj_bind _ _ _ _ Hf), Hst.
  by eapply erase_returns.
Qed.
End Phases.

(** *** The messages that open it *)
Section Scripts.
Context (S : list session) (HS : sessions_ok S) (x : session) (Hin : x ∈ S).

Lemma x_ok : session_ok x.
Proof. by apply (in_ok S HS). Qed.

(** Before the RTU the queue pair of the peer is not listed. *)
Lemma unlisted s : fits S s → phase x 5 s → get_source_qpn s (s_flow x) = 0.
Proof.
  intros F St. unfold get_source_qpn. destruct (qpn_map s !! s_flow x) as [q|] eqn:Hq; [|done].
  destruct (wf_qpn _ (ft_wf _ _ F) _ _ Hq) as (l & f & Hf & Hl & Hk & _).
  destruct (fits_listed S s l f F Hf Hl) as (y & Hy & HL & Hk' & _).
  assert (y = x) as -> by (apply (ss_flow _ HS); [done..|congruence]).
  destruct St as [(l' & Hf' & HL' & _) _ _ _]. rewrite HL in HL'.
  assert (l' = l) as -> by (case_decide; congruence).
  rewrite Hf in Hf'. injection Hf' as ->. cbn in Hl. by destruct (s_active x).
Qed.

Lemma open_req dir m s :
  says x dir m → (dir, m_attr m) = (if s_active x then CTCM_FROM_HOST else CTCM_FROM_NET, CM_REQ_ATTR_ID) →
  fits S s → phase x 3 s → returns (λ _ s', phase x 4 s') (process m dir) s.
Proof.
  intros Hs [= Hd Ha] F [HL HR]. destruct x_ok. pose proof (ft_wf _ _ F) as W.
  pose proof (carries_refl m) as Hc. cbn [phase opened].
  destruct (s_active x) eqn:Hact; rewrite Hd in *; cbn in Hs; destruct Hs as (? & ? & _ & _ & _ & ?).
  - destruct (active_req (s_lid x) (s_rid x) (s_rip x) (s_lqpn x) so_lid so_lqpn m m s Hc)
      as (s' & Hs' & _ & St); [by repeat split; auto|done..|]. by exists tt, s'.
  - destruct (passive_req (s_lid x) (s_rid x) (s_rip x) (s_rqpn x) so_rid so_rip m m s Hc)
      as (s' & Hs' & _ & St); [by repeat split; auto|done..|]. by exists tt, s'.
Qed.

Lemma open_rep dir m s :
  says x dir m → (dir, m_attr m) = (if s_active x then CTCM_FROM_NET else CTCM_FROM_HOST, CM_REP_ATTR_ID) →
  fits S s → phase x 4 s → returns (λ _ s', phase x 5 s') (process m dir) s.
Proof.
  intros Hs [= Hd Ha] F St. destruct x_ok. pose proof (ft_wf _ _ F) as W.
  pose proof (carries_refl m) as Hc. cbn [phase opened] in *.
  destruct (s_active x) eqn:Hact; rewrite Hd in *; cbn in Hs; rewrite Ha in Hs; cbn in Hs;
    destruct Hs as (? & ? & ? & _ & _ & ?).
  - assert (I : is_rep m (s_rid x) (s_lid x) (s_rqpn x)) by (repeat split; auto).
    destruct (active_rep _ _ _ _ so_lid so_rid so_rip m m _ s Hc I H W St) as (s' & Hs' & _ & St'); [done..|].
    by exists tt, s'.
  - assert (I : is_rep m (s_lid x) (s_rid x) (s_lqpn x)) by (repeat split; auto).
    destruct (passive_rep _ _ _ _ so_lid so_rid m m _ s Hc I H W St) as (s' & Hs' & _ & St'); [done..|].
    by exists tt, s'.
Qed.

Lemma open_rtu dir m s :
  says x dir m → (dir, m_attr m) = (if s_active x then CTCM_FROM_HOST else CTCM_FROM_NET, CM_RTU_ATTR_ID) →
  fits S s → phase x 5 s → returns (λ _ s', phase x 6 s') (process m dir) s.
Proof.
  intros Hs [= Hd Ha] F St. pose proof (unlisted _ F St) as Hz. destruct x_ok. pose proof (ft_wf _ _ F) as W.
  pose proof (carries_refl m) as Hc. cbn [phase opened] in *.
  destruct (s_active x) eqn:Hact; rewrite Hd in *; cbn in Hs; rewrite Ha in Hs; cbn in Hs;
    destruct Hs as (? & ? & ? & _ & _ & ?).
  - assert (I : is_rtu m (s_lid x) (s_rid x)) by (repeat split; auto).
    destruct (active_rtu _ _ _ so_lid m m _ s Hc I W St) as (s' & Hs' & _ & St' & _); [done..|].
    by exists tt, s'.
  - assert (I : is_rtu m (s_rid x) (s_lid x)) by (repeat split; auto).
    destruct (passive_rtu _ _ _ so_lid m m _ s Hc I W St) as (s' & Hs' & _ & St' & _); [done..|].
    by exists tt, s'.
Qed.

Definition script : list (ctcm_direction * Z) := closing ++ opening x.

Lemma script_step n dir m s :
  script !! n = Some (dir, m_attr m) → says x dir m → fits S s → phase x n s →
  ∃ s', process m dir s = Ok (tt, s') ∧ fits S s' ∧ phase x (Datatypes.S n) s'.
Proof.
  intros Hn Hs F Hp. pose proof (ft_wf _ _ F) as W. pose proof (ft_tracks _ _ F _ Hin) as T.
  assert (Hr : tracked (m_attr m) = true ∧ returns (λ _ s', phase x (Datatypes.S n) s') (process m dir) s).
  { destruct n as [|[|[|n]]]; cbn in Hn.
    1-3: injection Hn as <- Ha; (split; [by rewrite <- Ha|]).
    - by apply close_rej; [exact x_ok|..].
    - by apply close_dreq; [exact x_ok|..].
    - by apply close_drep; [exact x_ok|..].
    - assert (Ho : ∀ a, opening x !! n = Some (dir, a) → n = 0%nat ∧ a = CM_REQ_ATTR_ID ∨
                     n = 1%nat ∧ a = CM_REP_ATTR_ID ∨ n = 2%nat ∧ a = CM_RTU_ATTR_ID).
      { intros a. unfold opening. destruct (s_active x), n as [|[|[|]]]; cbn; intros [=]; auto. }
      split; [by destruct (Ho _ Hn) as [[_ ->]|[[_ ->]|[_ ->]]]|].
      destruct (Ho _ Hn) as [[-> _]|[[-> _]|[-> _]]]; unfold opening in Hn.
      + apply open_req; [done| |done|done]. by destruct (s_active x); injection Hn as <- <-.
      + apply open_rep; [done| |done|done]. by destruct (s_active x); injection Hn as <- <-.
      + apply open_rtu; [done| |done|done]. by destruct (s_active x); injection Hn as <- <-. }
  destruct Hr as [Ht ([] & s' & Hs' & Hp')].
  destruct (fits_says S HS x dir m s Hin Hs Ht F) as (s'' & Hs'' & F').
  rewrite Hs' in Hs''. injection Hs'' as <-. by exists s'.
Qed.

Context {P : Type} `{CmPacket P}.

Lemma other_step n dir (p : P) s :
  conforms (List.filter (λ z, negb (bool_decide (z = x))) S) (dir, p) → fits S s → phase x n s →
  ∃ s', process p dir s = Ok (tt, s') ∧ fits S s' ∧ phase x n s'.
Proof.
  intros (m & Hc & Hm) F Hp. cbn [fst snd] in Hc, Hm. rewrite (carries_process _ _ _ _ Hc).
  destruct (tracked (m_attr m)) eqn:Ht; [|by exists s; rewrite untracked_process].
  destruct Hm as [Hm|(y & Hy & Hs)]; [congruence|].
  apply list_elem_of_In, filter_In in Hy as [Hy%list_elem_of_In Hne].
  rewrite negb_true_iff, bool_decide_eq_false in Hne.
  destruct (fits_says S HS y dir m s Hy Hs Ht F) as (s' & Hs' & F'). exists s'. split_and!; [done..|].
  destruct (message_step _ _ _ _ _ (ft_wf _ _ F) Hs') as [_ Fr _].
  destruct (says_apart S HS y x dir m) as [Hi Hk]; [done..|].
  by eapply (phase_frame x x_ok); [exact (ft_wf _ _ F)|exact Hi|exact Hk|exact Fr|apply F|].
Qed.

Lemma woven_run sc (tr : list (ctcm_direction * P)) n s :
  woven S x sc tr → sc = drop n script → fits S s → phase x n s →
  ∃ s', run s tr = Ok s' ∧ fits S s' ∧ phase x (n + length sc) s'.
Proof.
  intros Hw. revert n s. induction Hw as [|[dir p] sc tr Hy _ IH|dir p m sc tr Hc Hs _ IH]; intros n s Hsc F Hp.
  - exists s. by rewrite Nat.add_0_r.
  - destruct (other_step n dir p s Hy F Hp) as (s1 & Hs1 & F1 & Hp1). cbn [run]. rewrite Hs1. eauto.
  - assert (Hn : script !! n = Some (dir, m_attr m)).
    { by rewrite <- (Nat.add_0_r n), <- lookup_drop, <- Hsc. }
    destruct (script_step n dir m s Hn Hs F Hp) as (s1 & Hs1 & F1 & Hp1).
    cbn [run]. rewrite (carries_process _ _ _ _ Hc), Hs1.
    destruct (IH (Datatypes.S n) s1) as (s' & ? & ? & ?); [|done..|].
    { by rewrite <- Nat.add_1_r, <- drop_drop, <- Hsc. }
    exists s'. cbn [length]. by rewrite Nat.add_succ_r.
Qed.

(** C11: after any conforming history, whatever state it has left the session in, the
    REJ and the DREQ of the host and the DREP of the peer followed by the three
    messages of the handshake, with any traffic of the other sessions in between,
    establish the session: the program does not stop, and the query for the peer's
    queue pair then answers the queue pair of the host. *)
Theorem session_recovers (history tr : list (ctcm_direction * P)) :
  Forall (conforms S) history → woven S x (closing ++ opening x) tr →
  ∃ s, run empty_tracker (history ++ tr) = Ok s ∧ get_source_qpn s (s_flow x) = s_lqpn x.
Proof.
  intros Hh Hw. destruct (fits_run S HS history empty_tracker Hh (fits_empty S)) as (s0 & Hs0 & F0).
  destruct (woven_run _ tr 0 s0 Hw eq_refl F0 I) as (s & Hs & F & Hp). exists s. split.
  - rewrite run_app, Hs0. done.
  - assert (Hp6 : phase x 6 s) by (by unfold opening in Hp; destruct (s_active x)).
    cbn in Hp6. by apply (stage_query _ _ _ _ (ft_wf _ _ F)) in Hp6; destruct (s_active x).
Qed.
End Scripts.
