(* ===== verification/Network.v ===== *)
(** * Network: trackers at many hosts

    Every host runs a tracker that sees what the host sends and what it receives.  The
    hosts exchange the messages of their sessions over a network that loses, repeats
    and reorders them at will; the two ends of a session are mirror images.  No
    tracker ever stops its host, an answer at one end is the end of a real session,
    the two ends never contradict each other, and once a handshake has come through
    both ends answer, whatever the other sessions do meanwhile. *)

From Stdlib Require Import ZArith Lia String.
From stdpp Require Import base tactics numbers list strings gmap.
From S2P Require Import Prelude Memory Layout IbMad Iba IbtaC12 Mbuf CmPacket Tracker TrackerInv TrackerStep TrackerSpec Handshake Conform Product.

Open Scope Z_scope.
Open Scope ctcm_scope.

(** ** Hosts, events and schedules *)

(** The trackers, by the address of the host. *)
Abbreviation net := (gmap Z tracker).

Definition tracker_of (w : net) (a : Z) : tracker := default empty_tracker (w !! a).

Lemma tracker_of_empty a : tracker_of ∅ a = empty_tracker.
Proof. unfold tracker_of. by rewrite lookup_empty. Qed.

(** A host sends a message, and its tracker sees it; the network hands a message to its
    destination, and the tracker there sees it. *)
Inductive event :=
| Send (m : cm_msg)
| Deliver (m : cm_msg).

Definition net_process (w : net) (a : Z) (dir : ctcm_direction) (m : cm_msg) : result net :=
  match process m dir (tracker_of w a) with
  | Ok (_, s) => Ok (<[a := s]> w)
  | Fault e => Fault e
  end.

Definition net_step (w : net) (ev : event) : result net :=
  match ev with
  | Send m => net_process w (m_saddr m) CTCM_FROM_HOST m
  | Deliver m => net_process w (m_daddr m) CTCM_FROM_NET m
  end.

Fixpoint net_run (w : net) (evs : list event) : result net :=
  match evs with
  | [] => Ok w
  | ev :: evs' => match net_step w ev with Ok w' => net_run w' evs' | Fault e => Fault e end
  end.

(** What the tracker of one host sees of a run. *)
Definition seen_at (a : Z) (ev : event) : option (ctcm_direction * cm_msg) :=
  match ev with
  | Send m => if m_saddr m =? a then Some (CTCM_FROM_HOST, m) else None
  | Deliver m => if m_daddr m =? a then Some (CTCM_FROM_NET, m) else None
  end.

Definition history (a : Z) : list event → list (ctcm_direction * cm_msg) := omap (seen_at a).

(** The sessions of the hosts, each known at both ends.  *)
Definition mirror (a : Z) (x : session) : session :=
  Session (negb (s_active x)) (s_rid x) a (s_lid x) (s_rqpn x) (s_lqpn x).

Record network_ok (S : Z → list session) : Prop := {
  no_sessions : ∀ a, sessions_ok (S a);
  no_mirror : ∀ a x, x ∈ S a → mirror a x ∈ S (s_rip x);
}.

(** Hosts send messages of their sessions, with their own address, or messages that
    the tracker ignores. *)
Definition utters (S : Z → list session) (m : cm_msg) : Prop :=
  tracked (m_attr m) = false ∨ ∃ x, x ∈ S (m_saddr m) ∧ says x CTCM_FROM_HOST m.

(** A schedule delivers only what was sent before; as often as it likes, or never. *)
Fixpoint possible (S : Z → list session) (sent : list cm_msg) (evs : list event) : Prop :=
  match evs with
  | [] => True
  | Send m :: evs' => utters S m ∧ possible S (m :: sent) evs'
  | Deliver m :: evs' => m ∈ sent ∧ possible S sent evs'
  end.

(** ** Each tracker runs on its own history *)

Lemma net_run_histories evs w :
  (∀ a, ∃ s, run (tracker_of w a) (history a evs) = Ok s) →
  ∃ w', net_run w evs = Ok w' ∧ ∀ a, run (tracker_of w a) (history a evs) = Ok (tracker_of w' a).
Proof.
  revert w. induction evs as [|ev evs IH]; intros w Hr; [by exists w|].
  assert (Hev : ∃ b y, (∀ a, seen_at a ev = if b =? a then Some y else None) ∧
                       net_step w ev = net_process w b y.1 y.2).
  { destruct ev as [m|m]; [exists (m_saddr m), (CTCM_FROM_HOST, m)|exists (m_daddr m), (CTCM_FROM_NET, m)]; done. }
  destruct Hev as (b & [dir m] & Hsee & Hstep).
  assert (Hh : ∀ a, history a (ev :: evs) = (if b =? a then [(dir, m)] else []) ++ history a evs).
  { intros a. unfold history. cbn. rewrite Hsee. by destruct (b =? a). }
  destruct (process m dir (tracker_of w b)) as [[u s1]|] eqn:Hp.
  2:{ destruct (Hr b) as [s Hs]. rewrite Hh, Z.eqb_refl in Hs. cbn in Hs. by rewrite Hp in Hs. }
  cbn [net_run]. rewrite Hstep. unfold net_process. cbn [fst snd]. rewrite Hp.
  assert (Ht : ∀ a, run (tracker_of w a) (history a (ev :: evs)) =
                    run (tracker_of (<[b := s1]> w) a) (history a evs)).
  { intros a. rewrite Hh. unfold tracker_of at 2. destruct (Z.eqb_spec b a) as [<-|Hne]; cbn.
    - by rewrite Hp, lookup_insert_eq.
    - by rewrite lookup_insert_ne. }
  destruct (IH (<[b := s1]> w)) as (w' & Hw & Ha).
  { intros a. destruct (Hr a) as [s Hs]. exists s. by rewrite <- Ht. }
  exists w'. split; [done|]. intros a. by rewrite Ht.
Qed.

Section Network.
Context (S : Z → list session) (HS : network_ok S).

(** What one end sends is what the other end may receive. *)
Lemma says_mirror x m :
  says x CTCM_FROM_HOST m → says (mirror (m_saddr m) x) CTCM_FROM_NET m.
Proof.
  cbn. intros (Hd & Hl & Hr & Hq & Hp & Hn). split_and!; try done.
  - intros Ha. by rewrite (Hq Ha).
  - intros Ha. by rewrite (Hp Ha).
Qed.

Lemma sent_conforms m : utters S m → conforms (S (m_saddr m)) (CTCM_FROM_HOST, m).
Proof. intros Hu. exists m. split; [apply carries_refl|done]. Qed.

Lemma delivered_conforms m : utters S m → conforms (S (m_daddr m)) (CTCM_FROM_NET, m).
Proof.
  intros Hu. exists m. split; [apply carries_refl|]. destruct Hu as [?|(x & Hx & Hs)]; [by left|right].
  exists (mirror (m_saddr m) x). split; [|by apply says_mirror].
  assert (m_daddr m = s_rip x) as -> by (by destruct Hs). by apply (no_mirror _ HS).
Qed.

Lemma history_conforms a evs sent :
  Forall (utters S) sent → possible S sent evs → Forall (conforms (S a)) (history a evs).
Proof.
  revert sent. induction evs as [|[m|m] evs IH]; intros sent Hsent Hp; [constructor|..];
    destruct Hp as [Hm Hp]; unfold history; cbn.
  - assert (IHs : Forall (conforms (S a)) (history a evs)) by (eapply (IH (m :: sent)); [by constructor|done]).
    destruct (Z.eqb_spec (m_saddr m) a) as [<-|]; [constructor; [by apply sent_conforms|done]|done].
  - assert (IHs : Forall (conforms (S a)) (history a evs)) by (by eapply (IH sent)).
    destruct (Z.eqb_spec (m_daddr m) a) as [<-|]; [|done]. constructor; [|done].
    apply delivered_conforms. rewrite Forall_forall in Hsent. auto.
Qed.

(** Every schedule runs to its end, and every tracker holds its sessions. *)
Lemma network_runs evs :
  possible S [] evs →
  ∃ w, net_run ∅ evs = Ok w ∧
    ∀ a, fits (S a) (tracker_of w a) ∧
      ∀ x, x ∈ S a → sees x (tracker_of w a) (foldl (session_step x) no_view (own_messages x (history a evs))).
Proof.
  intros Hp.
  assert (Hr : ∀ a, ∃ s, run empty_tracker (history a evs) = Ok s ∧
            holds (S a) (λ x, foldl (session_step x) no_view (own_messages x (history a evs))) s).
  { intros a. apply holds_run; [apply (no_sessions _ HS)| |apply holds_empty].
    by eapply (history_conforms a evs []). }
  destruct (net_run_histories evs ∅) as (w & Hw & Ha).
  { intros a. rewrite tracker_of_empty. destruct (Hr a) as (s & Hs & _). by exists s. }
  exists w. split; [done|]. intros a. destruct (Hr a) as (s & Hs & F & Hv).
  specialize (Ha a). rewrite tracker_of_empty, Hs in Ha. by injection Ha as <-.
Qed.

Lemma mirror_flow a x : s_flow (mirror a x) = (a, s_lqpn x).
Proof. done. Qed.

(** C9: trackers at the two ends of the network.  For any hosts with mirrored sessions
    and any schedule that delivers only what was sent, with any losses, repetitions
    and reorderings: no tracker stops its host.  If the tracker of host [a] answers
    queue pair [q] for address [b] and queue pair [r], then [q] is the end at [a], and
    [r] the end at [b], of one session between the two hosts; and the tracker of [b],
    asked for address [a] and queue pair [q], answers [r] or "unknown", never another
    queue pair. *)
Theorem network_sound evs :
  possible S [] evs →
  ∃ w, net_run ∅ evs = Ok w ∧
    ∀ a b r, let q := get_source_qpn (tracker_of w a) (b, r) in q ≠ 0 →
      (∃ x, x ∈ S a ∧ mirror a x ∈ S b ∧ s_rip x = b ∧ s_lqpn x = q ∧ s_rqpn x = r) ∧
      (get_source_qpn (tracker_of w b) (a, q) = r ∨ get_source_qpn (tracker_of w b) (a, q) = 0).
Proof.
  intros Hp. destruct (network_runs evs Hp) as (w & Hw & Ha). exists w. split; [done|].
  intros a b r q Hq. destruct (fits_answers (S a) _ (b, r) (proj1 (Ha a))) as [?|(x & Hx & Hk & Hl)]; [done|].
  injection Hk as -> ->. pose proof (no_mirror _ HS a x Hx) as Hm. split; [by exists x|].
  destruct (fits_answers (S (s_rip x)) _ (a, q) (proj1 (Ha (s_rip x)))) as [?|(y & Hy & Hk & ->)]; [by right|left].
  assert (y = mirror a x) as ->; [|done]. apply (ss_flow _ (no_sessions _ HS (s_rip x))); [done..|].
  rewrite mirror_flow, <- Hl. by symmetry.
Qed.

(** ** Handshakes *)

(** The messages of a handshake as the two ends see them; [opener] is the direction of
    the side that opens the session. *)
Definition opener (x : session) : ctcm_direction :=
  if s_active x then CTCM_FROM_HOST else CTCM_FROM_NET.
Definition other (d : ctcm_direction) : ctcm_direction :=
  match d with CTCM_FROM_HOST => CTCM_FROM_NET | CTCM_FROM_NET => CTCM_FROM_HOST end.

(** The REQ, perhaps repeated, then the REP and the RTU, and otherwise repetitions of
    the three in any order. *)
Definition handshake (d : ctcm_direction) (ms : list (ctcm_direction * Z)) : Prop :=
  ∃ n post, ms = replicate (Datatypes.S n) (d, CM_REQ_ATTR_ID) ++ (other d, CM_REP_ATTR_ID) :: post ∧
    (d, CM_RTU_ATTR_ID) ∈ post ∧
    Forall (λ y, y ∈ [(d, CM_REQ_ATTR_ID); (other d, CM_REP_ATTR_ID); (d, CM_RTU_ATTR_ID)]) post.

(** The views that the session goes through. *)
Definition after_req (x : session) : view :=
  if s_active x then Apart (Some (Flow REQ_SENT (s_lid x) no_key (s_lqpn x) 0 false)) None
  else Apart None (Some (Flow REQ_RCVD 0 (s_key x) 0 (s_rqpn x) false)).
Definition after_rep (x : session) : view :=
  Joined (Flow (if s_active x then REP_RCVD else REP_SENT) (s_lid x) (s_key x) (s_lqpn x) (s_rqpn x) false).
Definition after_rtu (x : session) : view :=
  Joined (Flow ESTABLISHED (s_lid x) (s_key x) (s_lqpn x) (s_rqpn x) true).

Lemma step_req x : session_step x no_view (opener x, CM_REQ_ATTR_ID) = after_req x.
Proof. unfold opener, after_req. by destruct (s_active x). Qed.
Lemma step_req_again x : session_step x (after_req x) (opener x, CM_REQ_ATTR_ID) = after_req x.
Proof. unfold opener, after_req. by destruct (s_active x). Qed.
Lemma step_rep x : session_step x (after_req x) (other (opener x), CM_REP_ATTR_ID) = after_rep x.
Proof. unfold opener, after_req, after_rep. by destruct (s_active x). Qed.
Lemma step_rtu x :
  session_ok x → session_step x (after_rep x) (opener x, CM_RTU_ATTR_ID) = after_rtu x.
Proof.
  intros [_ _ _ Hl%Z.eqb_neq Hr%Z.eqb_neq]. unfold opener, after_rep, after_rtu, session_step.
  destruct (s_active x); cbn; unfold established; cbn; by rewrite Hl, Hr.
Qed.

(** Repetitions change nothing. *)
Lemma step_repeat x v y :
  v = after_rep x ∧ y ∈ [(opener x, CM_REQ_ATTR_ID); (other (opener x), CM_REP_ATTR_ID)] ∨
  v = after_rtu x ∧ y ∈ [(opener x, CM_REQ_ATTR_ID); (other (opener x), CM_REP_ATTR_ID);
                         (opener x, CM_RTU_ATTR_ID)] →
  session_step x v y = v.
Proof.
  unfold opener, after_rep, after_rtu. rewrite !elem_of_cons, !elem_of_nil.
  intros [[-> Hy]|[-> Hy]]; destruct (s_active x); repeat destruct Hy as [->|Hy]; done.
Qed.

Lemma reqs_run x n :
  foldl (session_step x) no_view (replicate (Datatypes.S n) (opener x, CM_REQ_ATTR_ID)) = after_req x.
Proof.
  cbn. rewrite step_req. induction n as [|n IH]; [done|]. cbn. by rewrite step_req_again.
Qed.

Lemma rest_run x post v :
  session_ok x →
  Forall (λ y, y ∈ [(opener x, CM_REQ_ATTR_ID); (other (opener x), CM_REP_ATTR_ID);
                    (opener x, CM_RTU_ATTR_ID)]) post →
  v = after_rtu x ∨ v = after_rep x ∧ (opener x, CM_RTU_ATTR_ID) ∈ post →
  foldl (session_step x) v post = after_rtu x.
Proof.
  intros Hx Hpost. revert v. induction Hpost as [|y post Hy _ IH]; intros v Hv; cbn.
  - destruct Hv as [->|[_ Hin]]; [done|]. by apply not_elem_of_nil in Hin.
  - destruct Hv as [-> |[-> Hin]].
    + rewrite step_repeat by auto. apply IH. by left.
    + destruct (decide (y = (opener x, CM_RTU_ATTR_ID))) as [->|Hne].
      * rewrite step_rtu by done. apply IH. by left.
      * rewrite elem_of_cons in Hin. destruct Hin as [Hin|Hin]; [congruence|].
        rewrite step_repeat; [apply IH; by right|]. left. split; [done|].
        rewrite !elem_of_cons in Hy. rewrite !elem_of_cons.
        destruct Hy as [?|[?|[?|Hy]]]; [auto|auto|done|by apply not_elem_of_nil in Hy].
Qed.

Lemma handshake_run x ms :
  session_ok x → handshake (opener x) ms → foldl (session_step x) no_view ms = after_rtu x.
Proof.
  intros Hx (n & post & -> & Hin & Hall). rewrite foldl_app, reqs_run. cbn [foldl].
  rewrite step_rep. apply rest_run; auto.
Qed.

(** C10: a handshake reaches both ends.  For any schedule of the network: if the tracker
    of [a] and the tracker of [b] have each seen the messages of a session's handshake
    in order, with any repetitions, among whatever messages of other sessions, then
    each of them answers its own host's queue pair for the address and queue pair of
    the other. *)
Theorem network_handshake evs a x :
  possible S [] evs → x ∈ S a →
  handshake (opener x) (own_messages x (history a evs)) →
  handshake (other (opener x)) (own_messages (mirror a x) (history (s_rip x) evs)) →
  ∃ w, net_run ∅ evs = Ok w ∧
    get_source_qpn (tracker_of w a) (s_rip x, s_rqpn x) = s_lqpn x ∧
    get_source_qpn (tracker_of w (s_rip x)) (a, s_lqpn x) = s_rqpn x.
Proof.
  intros Hp Hx Ha Hb. destruct (network_runs evs Hp) as (w & Hw & Hs). exists w. split; [done|].
  pose proof (no_mirror _ HS a x Hx) as Hm.
  assert (Hans : ∀ c y, y ∈ S c → handshake (opener y) (own_messages y (history c evs)) →
            get_source_qpn (tracker_of w c) (s_flow y) = s_lqpn y).
  { intros c y Hy Hh. destruct (Hs c) as [F Hv]. pose proof (no_sessions _ HS c) as HSc.
    rewrite (holds_answer (S c) HSc y _ _ Hy F (Hv y Hy)).
    by rewrite (handshake_run y _ (in_ok (S c) HSc _ Hy) Hh). }
  split; [by apply (Hans a x)|]. apply (Hans (s_rip x) (mirror a x)); [done|].
  replace (opener (mirror a x)) with (other (opener x)); [done|]. unfold opener. cbn. by destruct (s_active x).
Qed.
End Network.
