(* ===== verification/TrackerTrace.v ===== *)
(** * TrackerTrace: the state machine of a flow, and where answers come from

    What one packet can do to the progress of a flow (its state and queue pair
    numbers), and, over a whole run, the messages that every answer rests on. *)

From Stdlib Require Import ZArith Lia String.
From stdpp Require Import base tactics numbers list strings gmap.
From S2P Require Import Prelude Memory Layout IbMad Iba IbtaC12 Mbuf CmPacket Tracker TrackerInv TrackerStep TrackerSpec.

Local Open Scope string_scope.
Open Scope Z_scope.
Open Scope ctcm_scope.

(** ** The state machine *)

(** The moves that a message of kind [attr] from [dir] can make. *)
Definition may_move (dir : ctcm_direction) (attr : Z) (x y : fstate) : bool :=
  match dir, y with
  | CTCM_FROM_HOST, REQ_SENT =>
      (attr =? CM_REQ_ATTR_ID) && match x with IDLE | REQ_SENT => true | _ => false end
  | CTCM_FROM_NET, REQ_RCVD =>
      (attr =? CM_REQ_ATTR_ID) && match x with IDLE | REQ_RCVD => true | _ => false end
  | CTCM_FROM_HOST, REP_SENT =>
      (attr =? CM_REP_ATTR_ID) && match x with REQ_RCVD | MRA_REQ_SENT => true | _ => false end
  | CTCM_FROM_NET, REP_RCVD =>
      (attr =? CM_REP_ATTR_ID) && match x with REQ_SENT | MRA_REQ_RCVD => true | _ => false end
  | CTCM_FROM_HOST, ESTABLISHED =>
      (attr =? CM_RTU_ATTR_ID) && match x with REP_RCVD | MRA_REP_SENT => true | _ => false end
  | CTCM_FROM_NET, ESTABLISHED =>
      (attr =? CM_RTU_ATTR_ID) && match x with REP_SENT | MRA_REP_RCVD => true | _ => false end
  | CTCM_FROM_HOST, DREQ_SENT =>
      (attr =? CM_DREQ_ATTR_ID) &&
      match x with IDLE | ESTABLISHED | DREQ_SENT | DREQ_RCVD => true | _ => false end
  | CTCM_FROM_NET, DREQ_RCVD =>
      (attr =? CM_DREQ_ATTR_ID) &&
      match x with
      | REP_SENT | DREQ_SENT | ESTABLISHED | MRA_REP_RCVD | TIMEWAIT | DREQ_RCVD => true
      | _ => false
      end
  | _, _ => false
  end.

(** Messages that announce a queue pair number. *)
Definition announces (m : cm_msg) (q : Z) : Prop :=
  (m_attr m = CM_REQ_ATTR_ID ∨ m_attr m = CM_REP_ATTR_ID) ∧ m_qpn m = q.

(** What a message can do to a flow. *)
Record flow_step (dir : ctcm_direction) (m : cm_msg) (f f' : flow_state) : Prop := {
  fs_state : state f' = state f ∨ may_move dir (m_attr m) (state f) (state f') = true;
  fs_local_qpn : local_qpn f' = local_qpn f ∨ dir = CTCM_FROM_HOST ∧ announces m (local_qpn f');
  fs_remote_qpn : remote_qpn f' = remote_qpn f ∨ dir = CTCM_FROM_NET ∧ announces m (remote_qpn f');
  fs_listed : in_qpn_map f' = true → in_qpn_map f = true ∨ m_attr m = CM_RTU_ATTR_ID;
}.

(** All flows after [s'] relate to the flow of [s] at the same place, or to a new
    one. *)
Definition evolve (R : flow_state → flow_state → Prop) (s s' : tracker) : Prop :=
  ∀ l f', heap s' !! l = Some f' → R (default new_flow_state (heap s !! l)) f'.

(** Bookkeeping for the ids [lid] and [rid]: the flow may get them, and may be
    unlisted.  An id is set only where there was none, and a flow that gets the
    second of its two ids here has both of them from here. *)
Definition bound (lid : Z) (rid : cm_flow_key) (f : flow_state) : Prop :=
  lid ≠ 0 ∧ local_id f = lid ∧ key_bool rid = true ∧ remote_id f = rid.

Definition half_bound (f : flow_state) : Prop := local_id f = 0 ∨ key_bool (remote_id f) = false.

Record renamed (lid : Z) (rid : cm_flow_key) (f f' : flow_state) : Prop := {
  rn_local : local_id f' = local_id f ∨ local_id f = 0 ∧ local_id f' = lid;
  rn_remote : remote_id f' = remote_id f ∨
    key_bool (remote_id f) = false ∧ key_bool rid = true ∧ remote_id f' = rid;
  rn_bound : local_id f' = local_id f ∧ remote_id f' = remote_id f ∨
    half_bound f' ∨ bound lid rid f';
}.

Record inert (lid : Z) (rid : cm_flow_key) (f f' : flow_state) : Prop := {
  in_state : state f' = state f;
  in_local_qpn : local_qpn f' = local_qpn f;
  in_remote_qpn : remote_qpn f' = remote_qpn f;
  in_listed : in_qpn_map f' = true → in_qpn_map f = true;
  in_renamed : renamed lid rid f f';
}.

#[global] Instance renamed_preorder lid rid : PreOrder (renamed lid rid).
Proof.
  split; [intros f; split; auto|]. intros f1 f2 f3 [L1 R1 B1] [L2 R2 B2]. split.
  - destruct L1 as [L1|[? ?]], L2 as [L2|[? ?]]; [left|right|right|right]; try split; congruence.
  - destruct R1 as [R1|(? & ? & ?)], R2 as [R2|(? & ? & ?)]; [left|right|right|];
      [congruence|rewrite <- R1; auto|rewrite R2; auto|congruence].
  - destruct B2 as [[HL HR]|[B2|B2]]; [|auto..].
    unfold half_bound, bound in *. rewrite HL, HR. destruct B1 as [?|[?|?]]; auto.
Qed.

#[global] Instance inert_preorder lid rid : PreOrder (inert lid rid).
Proof.
  split; [by intros f; split|]. intros f1 f2 f3 [A1 B1 C1 D1 E1] [A2 B2 C2 D2 E2].
  split; [congruence..|auto|by etrans].
Qed.

(** Ids that stay as they are. *)
Lemma renamed_same lid rid f f' :
  local_id f' = local_id f → remote_id f' = remote_id f → renamed lid rid f f'.
Proof. intros HL HR. split; auto. Qed.

(** Without a remote key only the local id is set. *)
Lemma inert_weaken lid rid f f' : inert lid no_key f f' → inert lid rid f f'.
Proof.
  intros [A B C D [L R BB]]. split; [done..|]. split; [done| |].
  - destruct R as [?|(_ & [=] & _)]. by left.
  - destruct BB as [?|[?|(_ & _ & [=] & _)]]; auto.
Qed.

Lemma evolve_refl R `{!Reflexive R} s s' : heap s' = heap s → evolve R s s'.
Proof. intros Hh l f'. rewrite Hh. intros ->. cbn. reflexivity. Qed.

(** Composition: the flow in the middle is the new flow where there is none. *)
Lemma evolve_trans (R1 R2 R : flow_state → flow_state → Prop) s s1 s' :
  (∀ f f1 f', R1 f f1 → R2 f1 f' → R f f') →
  (∀ l, heap s1 !! l = None → heap s !! l = None ∧ R1 new_flow_state new_flow_state) →
  evolve R1 s s1 → evolve R2 s1 s' → evolve R s s'.
Proof.
  intros HR Hn H1 H2 l f' Hf'. specialize (H2 l f' Hf').
  destruct (heap s1 !! l) as [f1|] eqn:E; cbn in H2.
  - eapply HR; [by apply H1|done].
  - destruct (Hn l E) as [-> ?]. cbn. by eapply HR.
Qed.

Lemma evolve_upd (R : flow_state → flow_state → Prop) `{!Reflexive R} s l f f' :
  heap s !! l = Some f → R f f' → evolve R s (upd l f' s).
Proof.
  intros Hf HR l' g'. cbn. intros [[<- <-]|[_ Hg]]%lookup_insert_Some; [by rewrite Hf|].
  rewrite Hg. cbn. reflexivity.
Qed.

(** Flow objects are never freed while they can be reached. *)
Definition grows (s s' : tracker) : Prop := ∀ l, heap s' !! l = None → heap s !! l = None.

(** The steps of the table operations, each inert. *)
Record bookkeeping (lid : Z) (rid : cm_flow_key) (s s' : tracker) : Prop := {
  bk_evolve : evolve (inert lid rid) s s';
  bk_grows : grows s s';
}.

#[global] Instance bookkeeping_preorder lid rid : PreOrder (bookkeeping lid rid).
Proof.
  split.
  - intros s. split; [by apply (evolve_refl (inert lid rid))|by intros l].
  - intros s1 s2 s3 [E12 G12] [E23 G23]. split.
    + eapply (evolve_trans (inert lid rid)); [apply transitivity| |done..].
      intros l Hl. split; [by apply G12|reflexivity].
    + intros l Hl. by apply G12, G23.
Qed.

Lemma bk_weaken lid rid s s' : bookkeeping lid no_key s s' → bookkeeping lid rid s s'.
Proof. intros [E G]. split; [|done]. intros l f' Hf'. by apply inert_weaken, E. Qed.

Lemma bk_heap lid rid s s' : heap s' = heap s → bookkeeping lid rid s s'.
Proof. intros Hh. split; [by apply (evolve_refl (inert lid rid))|]. intros l. by rewrite Hh. Qed.

Lemma bk_upd lid rid s s' l f f' :
  heap s' = <[l := f']> (heap s) → heap s !! l = Some f → inert lid rid f f' →
  bookkeeping lid rid s s'.
Proof.
  intros Hh Hf Hi. split.
  - intros l' g'. rewrite Hh. intros [[<- <-]|[_ Hg]]%lookup_insert_Some; [by rewrite Hf|].
    rewrite Hg. cbn. reflexivity.
  - intros l'. rewrite Hh. by intros [? _]%lookup_insert_None.
Qed.

Lemma bk_new lid rid s s' :
  heap s' = <[next s := new_flow_state]> (heap s) → heap s !! next s = None →
  bookkeeping lid rid s s'.
Proof.
  intros Hh Hn. split.
  - intros l g'. rewrite Hh. intros [[<- <-]|[_ Hg]]%lookup_insert_Some.
    + rewrite Hn. reflexivity.
    + rewrite Hg. cbn. reflexivity.
  - intros l'. rewrite Hh. by intros [? _]%lookup_insert_None.
Qed.

(** The two assignments of [add_new_flow], on a flow known by the other id or by
    none. *)
Lemma name_local_bk lid rid s l f u s' :
  heap s !! l = Some f → lid ≠ 0 → remote_id f = rid ∨ key_bool (remote_id f) = false →
  name_local lid l s = Ok (u, s') →
  bookkeeping lid rid s s' ∧ heap s' !! l = Some (set_local_id lid f).
Proof.
  intros Hf Hlid Hr Hs. unfold name_local in Hs. inv_M. simplify_eq. apply Z.eqb_eq in E0.
  split; [|apply lookup_insert_eq]. eapply (bk_upd _ _ _ _ l); [done|done|]. split; [done..|].
  split; cbn; [auto..|]. right. unfold half_bound, bound; cbn.
  destruct Hr as [<-|Hr]; [|auto]. destruct (key_bool (remote_id f)); auto.
Qed.

Lemma name_remote_bk lid rid s l f u s' :
  heap s !! l = Some f → key_bool rid = true → local_id f = lid →
  name_remote rid l s = Ok (u, s') → bookkeeping lid rid s s'.
Proof.
  intros Hf Hk Hl Hs. unfold name_remote in Hs. inv_M. simplify_eq. apply negb_true_iff in E0.
  eapply (bk_upd _ _ _ _ l); [done|done|]. split; [done..|].
  split; cbn; [auto..|]. right. unfold half_bound, bound; cbn.
  destruct (decide (local_id f = 0)); auto.
Qed.

Lemma name_both_bk lid rid (b1 b2 : bool) s l f u1 u2 s1 s2 :
  heap s !! l = Some f → (b1 = true → lid ≠ 0) → (b2 = true → key_bool rid = true) →
  remote_id f = rid ∨ key_bool (remote_id f) = false →
  (b2 = true → b1 = false → local_id f = lid) →
  (if b1 then name_local lid l else mret tt) s = Ok (u1, s1) →
  (if b2 then name_remote rid l else mret tt) s1 = Ok (u2, s2) → bookkeeping lid rid s s2.
Proof.
  intros Hf Hb1 Hb2 Hr Hl H1 H2. destruct b1.
  - destruct (name_local_bk lid rid _ _ _ _ _ Hf (Hb1 eq_refl) Hr H1) as [B1 Hf1].
    etrans; [exact B1|]. destruct b2; [by eapply name_remote_bk; [done|auto|..]|inv_M; reflexivity].
  - inv_M. destruct b2; [by eapply name_remote_bk; [done|auto..]|inv_M; reflexivity].
Qed.

Lemma add_new_flow_bk lid rid s l s' :
  wf s → add_new_flow lid rid s = Ok (l, s') → bookkeeping lid rid s s'.
Proof.
  intros W Hs. unfold add_new_flow in Hs. apply M_bind_Ok in Hs as (? & ? & [-> ->]%get_state_Ok & Hs).
  cbn zeta in Hs. fold (name_local lid) (name_remote rid) in Hs.
  destruct (local_map s !! lid) as [a|] eqn:HL, (remote_map s !! rid) as [b|] eqn:HR.
  { inv_M. reflexivity. }
  all: apply M_bind_Ok in Hs as (st & s1 & H1 & Hs).
  all: apply M_bind_Ok in Hs as (u2 & s2 & H2 & Hs); apply M_bind_Ok in Hs as (u3 & s3 & H3 & Hs).
  all: apply mret_M_Ok in Hs as [-> ->].
  all: repeat case_bool_decide; try done; cbn [andb] in H2, H3.
  - apply mret_M_Ok in H1 as [-> ->]. destruct (wf_local _ W _ _ HL) as (Hk & f & Hf & Hid).
    inv_M. destruct (key_bool rid) eqn:E; [|inv_M; reflexivity]. by eapply name_remote_bk.
  - apply mret_M_Ok in H1 as [-> ->]. destruct (wf_remote _ W _ _ HR) as (Hk & f & Hf & Hid).
    inv_M. destruct (Z.eqb_spec lid 0) as [|Hz]; cbn [negb] in H2; [inv_M; reflexivity|].
    apply (name_local_bk lid rid s b f u2 s2 Hf Hz (or_introl Hid) H2).
  - apply M_bind_Ok in H1 as (? & ? & [_ ->]%assertM_Ok & [= <- <-]).
    match type of H2 with _ ?s0 = _ =>
      transitivity s0; [exact (bk_new lid rid s s0 eq_refl (wf_fresh _ W))|] end.
    eapply (name_both_bk _ _ _ _ _ _ new_flow_state); [apply lookup_insert_eq| | | | |exact H2|exact H3].
    all: destruct (Z.eqb_spec lid 0); cbn; auto; congruence.
Qed.

Lemma get_flow_bk lid rid s l s' :
  wf s → get_flow lid rid s = Ok (l, s') → bookkeeping lid rid s s'.
Proof.
  intros W Hs. unfold get_flow in Hs. inv_M. cbn zeta in Hs.
  destruct (if negb (lid =? 0) then local_map s !! lid else remote_map s !! rid); inv_M; [reflexivity|].
  by eapply add_new_flow_bk.
Qed.

Lemma on_disconnected_bk lid rid l s u s' :
  on_disconnected l s = Ok (u, s') → bookkeeping lid rid s s'.
Proof.
  intros Hs. unfold on_disconnected in Hs. apply M_bind_Ok in Hs as (f & ? & [Hf ->]%obj_Ok & Hs).
  destruct (orb _ _); [inv_M; reflexivity|].
  apply M_bind_Ok in Hs as (? & ? & [-> ->]%get_state_Ok & Hs).
  destruct (qpn_map s !! get_flow_key f); [|inv_M; reflexivity].
  inv_M. eapply bk_upd; [done|done|]. split; [done..|]. by apply renamed_same.
Qed.

Lemma erase_flow_bk lid rid s u s' : erase_flow lid rid s = Ok (u, s') → bookkeeping lid rid s s'.
Proof.
  intros Hs. unfold erase_flow in Hs. inv_M.
  destruct (negb (lid =? 0)); [destruct (local_map s !! lid)|destruct (remote_map s !! rid)];
    try (inv_M; reflexivity);
    apply M_bind_Ok in Hs as (f & ? & [Hf ->]%obj_Ok & Hs);
    apply M_bind_Ok in Hs as (u1 & s1 & H1 & Hs); inv_M;
    (transitivity s1; [|by apply bk_heap]);
    (destruct (in_qpn_map f); [by eapply on_disconnected_bk|inv_M; reflexivity]).
Qed.

(** ** One message *)

(** The message names the flow by its local id, by its remote key. *)
Definition names (dir : ctcm_direction) (m : cm_msg) (f : flow_state) : Prop :=
  own_id dir m ≠ 0 ∧ local_id f = own_id dir m.
Definition keys (dir : ctcm_direction) (m : cm_msg) (f : flow_state) : Prop :=
  key_bool (peer_key dir m) = true ∧ remote_id f = peer_key dir m.

(** The message from which a flow may have its local queue pair number: it names
    the flow by the local id, or it is a REP without one, for the remote key. *)
Definition local_source (dir : ctcm_direction) (m : cm_msg) (f : flow_state) : Prop :=
  names dir m f ∨ own_id dir m = 0 ∧ m_attr m = CM_REP_ATTR_ID ∧ keys dir m f.

(** And its remote one: a REQ from the flow's remote key, or a REP to the flow's
    local id from its remote key, or from no key at all. *)
Definition remote_source (dir : ctcm_direction) (m : cm_msg) (f : flow_state) : Prop :=
  m_attr m = CM_REQ_ATTR_ID ∧ keys dir m f ∨
  m_attr m = CM_REP_ATTR_ID ∧ names dir m f ∧ (keys dir m f ∨ key_bool (peer_key dir m) = false).

(** All that a message can do to a flow, with the ids. *)
Record flow_act (dir : ctcm_direction) (m : cm_msg) (f f' : flow_state) : Prop := {
  fa_step : flow_step dir m f f';
  fa_renamed : renamed (own_id dir m) (peer_key dir m) f f';
  fa_local : local_qpn f' = local_qpn f ∨ local_source dir m f';
  fa_remote : remote_qpn f' = remote_qpn f ∨ remote_source dir m f';
  fa_listed : in_qpn_map f' = true → in_qpn_map f = true ∨ names dir m f';
}.

Abbreviation inert_for dir m := (inert (own_id dir m) (peer_key dir m)).
Abbreviation bookkeeping_for dir m := (bookkeeping (own_id dir m) (peer_key dir m)).

Lemma inert_act dir m f f' : inert_for dir m f f' → flow_act dir m f f'.
Proof. intros [Hs Hl Hr Hi Hn]. split; auto. split; auto. Qed.

#[global] Instance flow_act_refl dir m : Reflexive (flow_act dir m).
Proof. intros f. apply inert_act. reflexivity. Qed.

(** Ids that a flow has stay. *)
Lemma renamed_names lid rid dir m f f' : renamed lid rid f f' → names dir m f → names dir m f'.
Proof. unfold names. intros [[->|[Hz _]] _ _] [Hnz Hl]; [by split|congruence]. Qed.

Lemma renamed_keys lid rid dir m f f' : renamed lid rid f f' → keys dir m f → keys dir m f'.
Proof. unfold keys. intros [_ [->|(Hz & _)] _] [Hnz Hl]; [by split|congruence]. Qed.

Lemma renamed_local_source lid rid dir m f f' :
  renamed lid rid f f' → local_source dir m f → local_source dir m f'.
Proof.
  intros Hn [H|(? & ? & H)]; [left; by eapply renamed_names|right].
  split_and!; [done..|by eapply renamed_keys].
Qed.

Lemma renamed_remote_source lid rid dir m f f' :
  renamed lid rid f f' → remote_source dir m f → remote_source dir m f'.
Proof.
  intros Hn [[? H]|(? & Hm & H)]; [left|right].
  - split; [done|by eapply renamed_keys].
  - split_and!; [done|by eapply renamed_names|].
    destruct H as [H|H]; [left; by eapply renamed_keys|by right].
Qed.

Lemma inert_then_act dir m f f1 f' :
  inert_for dir m f f1 → flow_act dir m f1 f' → flow_act dir m f f'.
Proof.
  intros [Hs Hl Hr Hi Hn] [[S L R I] N L' R' I']. split; [|by etrans|..].
  - split; rewrite <- ?Hs, <- ?Hl, <- ?Hr; auto. intros Hin. destruct (I Hin); auto.
  - by rewrite <- Hl.
  - by rewrite <- Hr.
  - intros Hin. destruct (I' Hin); auto.
Qed.

Lemma act_then_inert dir m f f1 f' :
  flow_act dir m f f1 → inert_for dir m f1 f' → flow_act dir m f f'.
Proof.
  intros [[S L R I] N L' R' I'] [Hs Hl Hr Hi Hn]. split; [|by etrans|..].
  - split; rewrite ?Hs, ?Hl, ?Hr; auto.
  - rewrite Hl. destruct L'; [by left|right; by eapply renamed_local_source].
  - rewrite Hr. destruct R'; [by left|right; by eapply renamed_remote_source].
  - intros Hin. destruct (I' (Hi Hin)); [by left|right; by eapply renamed_names].
Qed.

Lemma bk_then_act dir m s s1 s' :
  bookkeeping_for dir m s s1 → evolve (flow_act dir m) s1 s' → evolve (flow_act dir m) s s'.
Proof.
  intros [E G] E'. eapply (evolve_trans (inert_for dir m)); [apply inert_then_act| |done..].
  intros l Hl. split; [by apply G|reflexivity].
Qed.

Lemma bk_act dir m s s' : bookkeeping_for dir m s s' → evolve (flow_act dir m) s s'.
Proof. intros B l f' Hf'. by apply inert_act, (bk_evolve _ _ _ _ B). Qed.

(** The decomposition of a handler: the lookup, and what is known of the flow that
    it finds. *)
Record found (dir : ctcm_direction) (m : cm_msg) (s : tracker) (l : loc) (f : flow_state) : Prop := {
  fd_wf : wf s;
  fd_flow : heap s !! l = Some f;
  fd_local : own_id dir m ≠ 0 → local_map s !! own_id dir m = Some l;
  fd_names : own_id dir m ≠ 0 → names dir m f;
  fd_keys : own_id dir m = 0 → keys dir m f;
}.

Lemma flow_handler_bk dir m rid (k : loc → flow_state → M unit) s u s' :
  wf s → rid = peer_key dir m ∨ rid = no_key →
  (st ← get_flow (own_id dir m) rid; f ← obj st; k st f) s = Ok (u, s') →
  ∃ l f s1, bookkeeping_for dir m s s1 ∧ found dir m s1 l f ∧
    (rid = no_key → own_id dir m ≠ 0) ∧ k l f s1 = Ok (u, s').
Proof.
  intros W Hrid Hs. apply M_bind_Ok in Hs as (l & s1 & Hg & Hs).
  apply M_bind_Ok in Hs as (f & ? & [Hf ->]%obj_Ok & Hs).
  assert (Hnz : rid = no_key → own_id dir m ≠ 0).
  { intros -> Hz. unfold get_flow in Hg. rewrite Hz in Hg. by apply M_bind_Ok in Hg as (? & ? & [? _]%assertM_Ok & _). }
  pose proof (get_flow_bk _ _ _ _ _ W Hg) as B.
  destruct (get_flow_spec _ _ _ _ _ W Hg) as (C & HL & HR & _). pose proof (ca_wf _ _ _ _ C W) as W1.
  exists l, f, s1. split_and!; [|split|done|done]; try done.
  - destruct Hrid as [<- | ->]; [done|by apply bk_weaken].
  - intros Hz. destruct (wf_local _ W1 _ _ (HL Hz)) as (? & g & Hg' & ?). simplify_eq. by split.
  - intros Hz. destruct Hrid as [Hr|Hr]; [|by specialize (Hnz Hr)].
    destruct (wf_remote _ W1 _ _ (HR Hz)) as (? & g & Hg' & ?). split; congruence.
Qed.

(** One flow acts, bookkeeping follows. *)
Lemma evolve_at dir m s l f f1 s1 s' :
  heap s !! l = Some f → heap s1 = <[l := f1]> (heap s) → flow_act dir m f f1 →
  bookkeeping_for dir m s1 s' → evolve (flow_act dir m) s s'.
Proof.
  intros Hf Hh Hst [E G] l' f' Hf'. specialize (E l' f' Hf'). rewrite Hh in E.
  destruct (decide (l' = l)) as [->|Hne].
  - rewrite lookup_insert_eq in E. rewrite Hf. cbn in *. by eapply act_then_inert.
  - rewrite lookup_insert_ne in E by done. by apply inert_act.
Qed.

(** One flow acts in the end, after bookkeeping. *)
Lemma evolve_other dir m s l f1 s1 s2 s' f' :
  heap s1 = <[l := f1]> (heap s) → bookkeeping_for dir m s1 s2 → heap s' = <[l := f']> (heap s2) →
  flow_act dir m (default new_flow_state (heap s !! l)) f' → evolve (flow_act dir m) s s'.
Proof.
  intros Hh B Hh' Ha l0 f0. rewrite Hh'. intros [[<- <-]|[Hne Hf0]]%lookup_insert_Some; [done|].
  pose proof (bk_evolve _ _ _ _ B l0 f0 Hf0) as Hi. rewrite Hh, lookup_insert_ne in Hi by done.
  by apply inert_act.
Qed.

Lemma on_established_heap l f s u s' :
  heap s !! l = Some f → on_established l s = Ok (u, s') →
  heap s' = heap s ∨ heap s' = <[l := set_in_qpn_map true f]> (heap s).
Proof.
  intros Hf Hs. unfold on_established in Hs. apply M_bind_Ok in Hs as (g & ? & [Hg ->]%obj_Ok & Hs).
  simplify_eq. destruct (orb _ _); [inv_M; by left|].
  apply M_bind_Ok in Hs as (? & ? & [-> ->]%get_state_Ok & Hs).
  destruct (qpn_map s !! get_flow_key f); [inv_M; by left|].
  apply M_bind_Ok in Hs as (? & ? & ->%update_Ok & Hs). right.
  apply assign_Ok in Hs as (g & Hg' & ->). cbn in *. by simplify_eq.
Qed.

Lemma rtu_evolve dir m l f s u s' :
  heap s !! l = Some f → m_attr m = CM_RTU_ATTR_ID → names dir m f →
  may_move dir CM_RTU_ATTR_ID (state f) ESTABLISHED = true →
  (_ ← assign l (set_state ESTABLISHED); on_established l) s = Ok (u, s') →
  evolve (flow_act dir m) s s'.
Proof.
  intros Hf Ha Hn Hmv Hs. rewrite (assign_bind _ _ _ _ f Hf) in Hs.
  apply (on_established_heap l _ _ _ _ (heap_upd _ _ _)) in Hs as [Hh|Hh].
  - eapply (evolve_at dir m s l f (set_state ESTABLISHED f) s'); [done|done| |reflexivity].
    split; [split; cbn; rewrite ?Ha; auto|by apply renamed_same|cbn; auto..].
  - eapply (evolve_at dir m s l f (set_in_qpn_map true (set_state ESTABLISHED f)) s');
      [done|by rewrite Hh; cbn; rewrite insert_insert_eq| |reflexivity].
    split; [split; cbn; rewrite ?Ha; auto|by apply renamed_same|cbn; auto..].
Qed.

(** Two assignments to one flow. *)
Lemma two_assigns_evolve dir m l f g1 g2 s s' :
  heap s !! l = Some f → flow_act dir m f (g2 (g1 f)) →
  s' = upd l (g2 (g1 f)) (upd l (g1 f) s) → evolve (flow_act dir m) s s'.
Proof.
  intros Hf Hst ->. eapply (evolve_at dir m s l f _ (upd l _ (upd l _ s))); [done| |done|reflexivity].
  cbn. by rewrite insert_insert_eq.
Qed.

Ltac idle_evolve H :=
  lazymatch type of H with
  | mret _ _ = _ => apply mret_M_Ok in H as [_ ->]; by apply bk_act
  end.

(** Split a handler into its lookup and its action on the flow found. *)
Ltac split_handler W Hs dir m rid :=
  let B := fresh "B" in let Fd := fresh "Fd" in let Hnz := fresh "Hnz" in
  apply (flow_handler_bk dir m rid _ _ _ _ W ltac:(auto)) in Hs as (l & f & s1 & B & Fd & Hnz & Hs);
  cbn beta in Hs; destruct (state f) eqn:Hst; try idle_evolve Hs;
  (eapply bk_then_act; [exact B|]); pose proof (fd_flow _ _ _ _ _ Fd) as Hf.

Ltac flow_step_solve Ha Hst :=
  split; cbn; rewrite ?Ha, ?Hst; unfold announces; rewrite ?Ha; cbn; auto 6.

Lemma req_sent_evolve m s u s' :
  wf s → m_attr m = CM_REQ_ATTR_ID → req_sent m s = Ok (u, s') →
  evolve (flow_act CTCM_FROM_HOST m) s s'.
Proof.
  intros W Ha Hs. unfold req_sent in Hs. read_msg Hs.
  split_handler W Hs CTCM_FROM_HOST m no_key.
  all: rewrite (assign_bind _ _ _ _ f Hf) in Hs; read_msg Hs.
  all: rewrite (assign_run _ _ _ _ (heap_upd _ _ _)) in Hs; injection Hs as _ <-.
  all: eapply (two_assigns_evolve _ m l f (set_state REQ_SENT) (set_local_qpn (m_qpn m)));
    [done| |done].
  all: split; [flow_step_solve Ha Hst|by apply renamed_same| |cbn; auto..].
  all: right; left; by apply (fd_names _ _ _ _ _ Fd), Hnz.
Qed.

Lemma req_received_evolve m s u s' :
  wf s → m_attr m = CM_REQ_ATTR_ID → req_received m s = Ok (u, s') →
  evolve (flow_act CTCM_FROM_NET m) s s'.
Proof.
  intros W Ha Hs. unfold req_received in Hs. read_msg Hs.
  assert (Ho : own_id CTCM_FROM_NET m = 0) by (unfold own_id; by rewrite Ha). rewrite <- Ho in Hs at 1.
  split_handler W Hs CTCM_FROM_NET m (peer_key CTCM_FROM_NET m).
  all: apply M_bind_Ok in Hs as (? & s2 & Hc & Hs).
  all: assert (s2 = s1) as -> by (case_decide; [read_msg Hc|]; inv_M; done).
  all: rewrite (assign_bind _ _ _ _ f Hf) in Hs; read_msg Hs.
  all: rewrite (assign_run _ _ _ _ (heap_upd _ _ _)) in Hs; injection Hs as _ <-.
  all: eapply (two_assigns_evolve _ m l f (set_state REQ_RCVD) (set_remote_qpn (m_qpn m)));
    [done| |done].
  all: split; [flow_step_solve Ha Hst|by apply renamed_same|cbn; auto| |cbn; auto].
  all: right; left; split; [done|by apply (fd_keys _ _ _ _ _ Fd)].
Qed.

(** The handlers that erase the flow. *)
Lemma erase_evolve dir m (h : cm_msg → M unit) s u s' :
  wf s → m_attr m = CM_REJ_ATTR_ID ∨ m_attr m = CM_DREP_ATTR_ID →
  In (dir, h) [(CTCM_FROM_HOST, rej_sent); (CTCM_FROM_NET, rej_received);
               (CTCM_FROM_HOST, drep_sent); (CTCM_FROM_NET, drep_received)] →
  h m s = Ok (u, s') → evolve (flow_act dir m) s s'.
Proof.
  intros W Ha Hh Hs.
  assert (Ho : own_id CTCM_FROM_NET m = m_remote_comm_id m)
    by (apply own_id_net; destruct Ha as [-> | ->]; done).
  destruct Hh as [[= <- <-]|[[= <- <-]|[[= <- <-]|[[= <- <-]|[]]]]];
    unfold rej_sent, rej_received, drep_sent, drep_received in Hs; read_msg Hs.
  - split_handler W Hs CTCM_FROM_HOST m (peer_key CTCM_FROM_HOST m); by eapply bk_act, erase_flow_bk.
  - rewrite <- Ho in Hs. split_handler W Hs CTCM_FROM_NET m (peer_key CTCM_FROM_NET m); by eapply bk_act, erase_flow_bk.
  - split_handler W Hs CTCM_FROM_HOST m no_key; by eapply bk_act, erase_flow_bk.
  - rewrite <- Ho in Hs. split_handler W Hs CTCM_FROM_NET m no_key; by eapply bk_act, erase_flow_bk.
Qed.

Lemma rep_sent_evolve m s u s' :
  wf s → m_attr m = CM_REP_ATTR_ID → rep_sent m s = Ok (u, s') →
  evolve (flow_act CTCM_FROM_HOST m) s s'.
Proof.
  intros W Ha Hs. unfold rep_sent in Hs. read_msg Hs.
  split_handler W Hs CTCM_FROM_HOST m (peer_key CTCM_FROM_HOST m).
  all: destruct Fd as [W1 _ HL HN HK].
  all: rewrite (assign_bind _ _ _ _ f Hf) in Hs.
  all: apply M_bind_Ok in Hs as (l' & s2 & Had & Hs); read_msg Hs.
  all: apply add_new_flow_bk in Had; [|eapply wf_assign; [done|done|by split|]];
    [|apply set_state_ok; [by eapply wf_flow|done|by rewrite Hst]].
  all: apply assign_Ok in Hs as (f2 & Hf2 & ->).
  all: pose proof (bk_evolve _ _ _ _ Had l f2 Hf2) as [Hi1 Hi2 Hi3 Hi4 Hi5]; rewrite heap_upd in *; cbn in *.
  all: assert (R : renamed (own_id CTCM_FROM_HOST m) (peer_key CTCM_FROM_HOST m) f f2)
         by (etrans; [by apply (renamed_same _ _ f (set_state REP_SENT f))|exact Hi5]).
  all: eapply (evolve_other _ m s1 l (set_state REP_SENT f) (upd l (set_state REP_SENT f) s1));
    [done|exact Had|done|rewrite Hf; cbn].
  all: split; [flow_step_solve Ha Hst; rewrite ?Hi1, ?Hi3; auto| | |cbn; auto..].
  all: try (etrans; [exact R|by apply renamed_same]).
  all: right; destruct (decide (own_id CTCM_FROM_HOST m = 0)) as [Hz|Hz];
    [right; split_and!; [done|done|]; eapply (renamed_keys _ _ _ _ _ _ R); auto
    |left; eapply (renamed_names _ _ _ _ _ _ R); auto].
Qed.

(** After a REP has arrived the flow of its local id is the flow of its remote key,
    where it has one. *)
Lemma rep_named m s l f l' s' :
  wf s → heap s !! l = Some f → in_qpn_map f = false →
  local_map s !! own_id CTCM_FROM_NET m = Some l →
  add_new_flow (own_id CTCM_FROM_NET m) (peer_key CTCM_FROM_NET m) s = Ok (l', s') →
  ∀ f', heap s' !! l = Some f' →
    keys CTCM_FROM_NET m f' ∨ key_bool (peer_key CTCM_FROM_NET m) = false.
Proof.
  intros W Hf Hin HL Hs f' Hf'.
  apply add_new_flow_spec in Hs as [C _ HR HS _ _]; [|done|intros a g; rewrite HL; congruence].
  destruct (key_bool (peer_key CTCM_FROM_NET m)) eqn:Hk; [left|by right].
  specialize (HR eq_refl). rewrite (HS _ HL) in HR.
  destruct (wf_remote _ (ca_wf _ _ _ _ C W) _ _ HR) as (? & g & Hg & ?). split; congruence.
Qed.

Lemma rep_finish m s l f f1 s1 s' :
  heap s !! l = Some f → m_attr m = CM_REP_ATTR_ID → heap s1 = <[l := f1]> (heap s) →
  names CTCM_FROM_NET m f → bookkeeping_for CTCM_FROM_NET m s1 s' →
  (∀ f', heap s' !! l = Some f' →
     keys CTCM_FROM_NET m f' ∨ key_bool (peer_key CTCM_FROM_NET m) = false) →
  local_id f1 = local_id f → remote_id f1 = remote_id f → local_qpn f1 = local_qpn f →
  (in_qpn_map f1 = true → in_qpn_map f = true) → flow_step CTCM_FROM_NET m f f1 →
  evolve (flow_act CTCM_FROM_NET m) s s'.
Proof.
  intros Hf Ha Hh HN [E G] HK Hl Hr Hq Hi [S L R I] l0 f0 Hf0. pose proof (E l0 f0 Hf0) as E0.
  rewrite Hh in E0. destruct (decide (l0 = l)) as [->|Hne].
  2:{ rewrite lookup_insert_ne in E0 by done. by apply inert_act. }
  rewrite lookup_insert_eq in E0. rewrite Hf. cbn in *. destruct E0 as [Es El Er Ei En].
  assert (Rn : renamed (own_id CTCM_FROM_NET m) (peer_key CTCM_FROM_NET m) f f0)
    by (etrans; [by apply (renamed_same _ _ f f1)|done]).
  split; [split; rewrite ?Es, ?El, ?Er; auto|done|left; congruence| |auto].
  right. right. split_and!; [done|by eapply renamed_names|auto].
Qed.

Lemma rep_received_evolve m s u s' :
  wf s → m_attr m = CM_REP_ATTR_ID → rep_received m s = Ok (u, s') →
  evolve (flow_act CTCM_FROM_NET m) s s'.
Proof.
  intros W Ha Hs. unfold rep_received in Hs. read_msg Hs.
  rewrite <- (own_id_net m) in Hs by (by rewrite Ha).
  split_handler W Hs CTCM_FROM_NET m no_key.
  all: destruct Fd as [W1 _ HL HN HK]; specialize (Hnz eq_refl); specialize (HN Hnz).
  all: rewrite (assign_bind _ _ _ _ f Hf) in Hs; read_msg Hs.
  all: rewrite (assign_bind _ _ _ _ _ (heap_upd _ _ _)) in Hs.
  all: apply M_bind_Ok in Hs as (l' & s2 & Had & [_ ->]%mret_M_Ok).
  all: pose proof (not_live_unlisted _ _ _ W1 Hf ltac:(by rewrite Hst)) as Hin.
  all: set (f1 := set_remote_qpn (m_qpn m) (set_state REP_RCVD f)).
  all: set (s0 := upd l f1 (upd l (set_state REP_RCVD f) s1)) in Had.
  all: assert (W0 : wf s0) by (apply (ca_wf (own_id CTCM_FROM_NET m) (peer_key CTCM_FROM_NET m) s1);
         [|done]; apply calm_state_qpn; rewrite ?Hst; eauto; left; split; apply HN).
  all: pose proof (rep_named m s0 l f1 l' s2 W0 (heap_upd _ _ _) Hin (HL Hnz) Had) as HR.
  all: pose proof (add_new_flow_bk _ _ _ _ _ W0 Had) as B2.
  all: apply (rep_finish m s1 l f f1 s0 s2 Hf Ha); [cbn; by rewrite insert_insert_eq|done|done|done|..].
  all: try done; flow_step_solve Ha Hst.
Qed.

Lemma rtu_handlers_evolve m s u s' :
  wf s → m_attr m = CM_RTU_ATTR_ID →
  (rtu_sent m s = Ok (u, s') → evolve (flow_act CTCM_FROM_HOST m) s s') ∧
  (rtu_received m s = Ok (u, s') → evolve (flow_act CTCM_FROM_NET m) s s').
Proof.
  intros W Ha. split; intros Hs; unfold rtu_sent, rtu_received in Hs; read_msg Hs.
  - split_handler W Hs CTCM_FROM_HOST m no_key;
      (eapply rtu_evolve; [done|done|by apply (fd_names _ _ _ _ _ Fd), Hnz|by rewrite Hst|exact Hs]).
  - rewrite <- (own_id_net m) in Hs by (by rewrite Ha).
    split_handler W Hs CTCM_FROM_NET m no_key;
      (eapply rtu_evolve; [done|done|by apply (fd_names _ _ _ _ _ Fd), Hnz|by rewrite Hst|exact Hs]).
Qed.

Lemma state_act dir m f x :
  may_move dir (m_attr m) (state f) x = true → flow_act dir m f (set_state x f).
Proof. intros Hm. split; [split; cbn; auto|by apply renamed_same|cbn; auto..]. Qed.

Lemma dreq_handlers_evolve m s u s' :
  wf s → m_attr m = CM_DREQ_ATTR_ID →
  (dreq_sent m s = Ok (u, s') → evolve (flow_act CTCM_FROM_HOST m) s s') ∧
  (dreq_received m s = Ok (u, s') → evolve (flow_act CTCM_FROM_NET m) s s').
Proof.
  intros W Ha. split; intros Hs; unfold dreq_sent, dreq_received in Hs; read_msg Hs.
  - split_handler W Hs CTCM_FROM_HOST m no_key;
      rewrite (assign_run _ _ _ _ Hf) in Hs; injection Hs as _ <-;
      (eapply evolve_upd; [apply _|done|]); apply state_act; by rewrite Ha, Hst.
  - rewrite <- (own_id_net m) in Hs by (by rewrite Ha).
    split_handler W Hs CTCM_FROM_NET m no_key;
      rewrite (assign_run _ _ _ _ Hf) in Hs; injection Hs as _ <-;
      (eapply evolve_upd; [apply _|done|]); apply state_act; by rewrite Ha, Hst.
Qed.

Lemma message_evolve m dir s u s' :
  wf s → process m dir s = Ok (u, s') → evolve (flow_act dir m) s s'.
Proof.
  intros W Hs. rewrite process_eq in Hs. apply M_bind_Ok in Hs as (attr & ? & [Ha ->]%lift_Ok & Hs).
  assert (attr = m_attr m) as -> by (rewrite read_attr in Ha; congruence).
  unfold handler_of in Hs.
  destruct dir;
    (destruct (Z.eqb_spec (m_attr m) CM_REQ_ATTR_ID) as [?|_];
     [|destruct (Z.eqb_spec (m_attr m) CM_REJ_ATTR_ID) as [?|_];
     [|destruct (Z.eqb_spec (m_attr m) CM_REP_ATTR_ID) as [?|_];
     [|destruct (Z.eqb_spec (m_attr m) CM_RTU_ATTR_ID) as [?|_];
     [|destruct (Z.eqb_spec (m_attr m) CM_DREQ_ATTR_ID) as [?|_];
     [|destruct (Z.eqb_spec (m_attr m) CM_DREP_ATTR_ID) as [?|_]]]]]]).
  all: lazymatch type of Hs with
       | req_sent _ _ = _ => by eapply req_sent_evolve
       | req_received _ _ = _ => by eapply req_received_evolve
       | rep_sent _ _ = _ => by eapply rep_sent_evolve
       | rep_received _ _ = _ => by eapply rep_received_evolve
       | rtu_sent _ _ = _ => by apply (rtu_handlers_evolve m s u s')
       | rtu_received _ _ = _ => by apply (rtu_handlers_evolve m s u s')
       | dreq_sent _ _ = _ => by apply (dreq_handlers_evolve m s u s')
       | dreq_received _ _ = _ => by apply (dreq_handlers_evolve m s u s')
       | (lift _ ≫= _) _ = _ => inv_M; apply (evolve_refl (flow_act _ m)); reflexivity
       | ?h _ _ = _ => apply (erase_evolve _ m h s u s' W); [tauto|cbn; tauto|done]
       end.
Qed.

(** C18: the state machine of a flow.  One packet moves a flow only along the
    transitions of the protocol for its message and direction ([may_move]); the
    local queue pair number is set only by a REQ or a REP from the host, the remote
    one only by a REQ or a REP from the network, each to the number in the message;
    and a flow becomes listed only by an RTU.  A flow that appears starts from the
    initial state. *)
Theorem flow_transitions {P} `{CmPacket P} s p dir u s' l f' :
  wf s → process p dir s = Ok (u, s') → heap s' !! l = Some f' →
  flow_step dir (decode p) (default new_flow_state (heap s !! l)) f'.
Proof. intros W Hs%process_decode Hf'. by apply (fa_step _ _ _ _ (message_evolve _ _ _ _ _ W Hs l f' Hf')). Qed.

(** ** Runs *)
Section Runs.
Context {P : Type} `{CmPacket P}.

(** What the ids and the progress of a flow rest on, in the packets processed so
    far: a packet that names both ids, where it has both; the announcements of its
    queue pairs; and the RTU that listed it. *)
Record grounded (tr : list (ctcm_direction * P)) (f : flow_state) : Prop := {
  gr_bound : local_id f ≠ 0 → key_bool (remote_id f) = true →
    ∃ dir p, In (dir, p) tr ∧ names dir (decode p) f ∧ keys dir (decode p) f;
  gr_local : local_qpn f ≠ 0 →
    ∃ p, In (CTCM_FROM_HOST, p) tr ∧ announces (decode p) (local_qpn f) ∧
      local_source CTCM_FROM_HOST (decode p) f;
  gr_remote : remote_qpn f ≠ 0 →
    ∃ p, In (CTCM_FROM_NET, p) tr ∧ announces (decode p) (remote_qpn f) ∧
      remote_source CTCM_FROM_NET (decode p) f;
  gr_listed : in_qpn_map f = true →
    ∃ dir p, In (dir, p) tr ∧ m_attr (decode p) = CM_RTU_ATTR_ID ∧ names dir (decode p) f;
}.

Lemma grounded_new tr : grounded tr new_flow_state.
Proof. by split. Qed.

Lemma grounded_bound tr dir p f f' :
  grounded tr f → renamed (own_id dir (decode p)) (peer_key dir (decode p)) f f' →
  local_id f' ≠ 0 → key_bool (remote_id f') = true →
  ∃ dir' p', In (dir', p') (tr ++ [(dir, p)]) ∧ names dir' (decode p') f' ∧ keys dir' (decode p') f'.
Proof.
  intros G R Hl Hk. destruct (rn_bound _ _ _ _ R) as [[El Ek]|[[?|?]|(? & ? & ? & ?)]];
    [|congruence|congruence|].
  - destruct (gr_bound _ _ G) as (d & q & Hin & Hn & Hy); [congruence..|]. exists d, q.
    rewrite in_app_iff. split_and!; [by left|by eapply renamed_names|by eapply renamed_keys].
  - exists dir, p. rewrite in_app_iff. cbn. by split_and!; [auto|..].
Qed.

Lemma grounded_step tr dir p f f' :
  grounded tr f → flow_act dir (decode p) f f' → grounded (tr ++ [(dir, p)]) f'.
Proof.
  intros G [[_ L R I] N LS RS IN]. pose proof (grounded_bound _ _ _ _ _ G N) as GB.
  destruct G as [_ GL GR GI].
  assert (Hlast : In (dir, p) (tr ++ [(dir, p)])) by (rewrite in_app_iff; cbn; auto).
  assert (Hold : ∀ x, In x tr → In x (tr ++ [(dir, p)])) by (intros x; rewrite in_app_iff; auto).
  split; [done|..].
  - intros Hz. destruct (decide (local_qpn f' = local_qpn f)) as [He|He].
    + rewrite He in *. destruct (GL Hz) as (q & ? & ? & ?). exists q.
      split_and!; [auto|done|by eapply renamed_local_source].
    + destruct L as [|[-> Ha]]; [done|]. destruct LS; [done|]. by exists p.
  - intros Hz. destruct (decide (remote_qpn f' = remote_qpn f)) as [He|He].
    + rewrite He in *. destruct (GR Hz) as (q & ? & ? & ?). exists q.
      split_and!; [auto|done|by eapply renamed_remote_source].
    + destruct R as [|[-> Ha]]; [done|]. destruct RS; [done|]. by exists p.
  - intros Hin. destruct (in_qpn_map f) eqn:Hf.
    + destruct (GI eq_refl) as (d & q & ? & ? & ?). exists d, q.
      split_and!; [auto|done|by eapply renamed_names].
    + exists dir, p. destruct (I Hin), (IN Hin); done.
Qed.

Definition all_grounded (tr : list (ctcm_direction * P)) (s : tracker) : Prop :=
  ∀ l f, heap s !! l = Some f → grounded tr f.

Lemma process_grounded tr s p dir u s' :
  wf s → all_grounded tr s → process p dir s = Ok (u, s') →
  all_grounded (tr ++ [(dir, p)]) s'.
Proof.
  intros W G E%process_decode l f Hf.
  eapply grounded_step; [|by apply (message_evolve _ _ _ _ _ W E)].
  destruct (heap s !! l) as [g|] eqn:Hg; cbn; [by eapply G|apply grounded_new].
Qed.

Lemma run_grounded tr tr0 s s' :
  wf s → all_grounded tr0 s → run s tr = Ok s' → wf s' ∧ all_grounded (tr0 ++ tr) s'.
Proof.
  revert tr0 s. induction tr as [|[dir p] tr IH]; intros tr0 s W G Hs; cbn in Hs.
  - simplify_eq. by rewrite app_nil_r.
  - destruct (process p dir s) as [[u s1]|] eqn:E; [|done].
    rewrite (cons_middle (dir, p) tr0 tr), app_assoc.
    apply (IH _ s1); [by eapply process_wf|by eapply process_grounded|done].
Qed.

(** C17: every answer rests on the packets that were processed.  If after a run from
    the empty tracker the query for an address and a remote queue pair returns a
    queue pair, then there are a local id and a remote id such that
    - the host announced that queue pair in a REQ or a REP with that local id, or in
      a REP without a local id to that address and remote id;
    - the network announced the remote queue pair in a REQ or a REP that came from
      that address with that remote id, and a REP was for that local id; or in a REP
      for that local id whose own id or source address is zero;
    - an RTU for the local id was seen;
    - one packet named the local id together with the address and the remote id, or
      the address and the remote id are both zero. *)
Theorem answers_grounded tr s ip rqpn :
  run empty_tracker tr = Ok s → get_source_qpn s (ip, rqpn) ≠ 0 →
  ∃ lid rid, lid ≠ 0 ∧
  (∃ p, In (CTCM_FROM_HOST, p) tr ∧ announces (decode p) (get_source_qpn s (ip, rqpn)) ∧
     (m_local_comm_id (decode p) = lid ∨
      m_attr (decode p) = CM_REP_ATTR_ID ∧ m_local_comm_id (decode p) = 0 ∧
      (m_daddr (decode p), m_remote_comm_id (decode p)) = (ip, rid))) ∧
  (∃ p, In (CTCM_FROM_NET, p) tr ∧ announces (decode p) rqpn ∧
     (m_attr (decode p) = CM_REP_ATTR_ID → m_remote_comm_id (decode p) = lid) ∧
     ((m_saddr (decode p), m_local_comm_id (decode p)) = (ip, rid) ∨
      m_attr (decode p) = CM_REP_ATTR_ID ∧
      (m_saddr (decode p) = 0 ∨ m_local_comm_id (decode p) = 0))) ∧
  (∃ dir p, In (dir, p) tr ∧ m_attr (decode p) = CM_RTU_ATTR_ID ∧ own_id dir (decode p) = lid) ∧
  ((ip, rid) = no_key ∨
   ∃ dir p, In (dir, p) tr ∧ own_id dir (decode p) = lid ∧ peer_key dir (decode p) = (ip, rid)).
Proof.
  intros Hs Hz. destruct (run_grounded tr [] empty_tracker s) as [W G]; [apply wf_empty|done|done|].
  unfold get_source_qpn in *. destruct (qpn_map s !! (ip, rqpn)) as [q|] eqn:Hq; [|done].
  destruct (wf_qpn _ W _ _ Hq) as (l & f & Hf & Hin & Hk & <-). destruct (G l f Hf) as [GB GL GR GI].
  destruct (fo_live _ (wf_flow _ W _ _ Hf) Hin) as (_ & Hl & _ & Hr).
  destruct (remote_id f) as [ip' rid] eqn:Hid. unfold get_flow_key in Hk. rewrite Hid in Hk.
  injection Hk as -> <-. exists (local_id f), rid. split_and!; [done|..].
  - destruct (GL Hz) as (p & ? & ? & [[_ Hn]|(Ho & Ha & _ & Hy)]); exists p; split_and!; auto.
    right. split_and!; [done|done|]. by rewrite Hid in Hy.
  - destruct (GR Hr) as (p & ? & ? & HS). exists p. split_and!; [done|done|..].
    + intros Ha. destruct HS as [[Ha' _]|(_ & [_ Hn] & _)]; [by rewrite Ha in Ha'|].
      rewrite Hn. rewrite own_id_net; [done|by rewrite Ha].
    + destruct HS as [(_ & _ & Hy)|(Ha & _ & [[_ Hy]|Hk])];
        [left; by rewrite Hid in Hy|left; by rewrite Hid in Hy|right]. split; [done|]. unfold key_bool, peer_key in Hk. cbn [fst snd] in Hk.
      destruct (Z.eqb_spec (m_saddr (decode p)) 0), (Z.eqb_spec (m_local_comm_id (decode p)) 0);
        first [by left|by right|done].
  - destruct (GI Hin) as (d & p & ? & ? & _ & ?). exists d, p. by split_and!.
  - destruct (fo_remote _ (wf_flow _ W _ _ Hf)) as [Hno|Hk]; [left; congruence|right].
    rewrite Hid in Hk. destruct (GB Hl Hk) as (d & p & ? & [_ ?] & [_ ?]). exists d, p. rewrite <- Hid; by split_and!.
Qed.
End Runs.
