(* ===== verification/Widths.v ===== *)
(** * Widths: the tracker's numbers fit their C types

    The model keeps ids, addresses and queue pair numbers as integers.  In the sources
    they have 32 bits (src/src/cm_connection_tracker.h: [id_t], [qpn_t] and
    [in_addr_t]), and the queue pair numbers of the messages have 24.  In every state
    the tracker can reach all the numbers it holds, and all its answers, stay within
    these widths, so no conversion of the sources ever cuts one off. *)

From Stdlib Require Import ZArith Lia String.
From stdpp Require Import base tactics numbers list strings gmap.
From S2P Require Import Prelude Memory Layout IbMad Iba IbtaC12 Mbuf CmPacket Tracker TrackerInv TrackerStep TrackerSpec TrackerTrace.

Local Open Scope string_scope.
Open Scope Z_scope.
Open Scope ctcm_scope.

Definition u32 (v : Z) : Prop := 0 ≤ v < 2 ^ 32.
Definition u24 (v : Z) : Prop := 0 ≤ v < 2 ^ 24.
Definition key_typed (k : Z * Z) : Prop := u32 k.1 ∧ u32 k.2.

Lemma u32_0 : u32 0.
Proof. done. Qed.
Lemma u24_0 : u24 0.
Proof. done. Qed.
#[local] Hint Resolve u32_0 u24_0 : core.

(** ** Messages *)

Record msg_typed (m : cm_msg) : Prop := {
  mt_local : u32 (m_local_comm_id m);
  mt_remote : u32 (m_remote_comm_id m);
  mt_qpn : u24 (m_qpn m);
  mt_saddr : u32 (m_saddr m);
  mt_daddr : u32 (m_daddr m);
}.

Lemma result_or_range (r : result Z) n :
  0 < n → (∀ v, r = Ok v → 0 ≤ v < n) → 0 ≤ result_or 0 r < n.
Proof. intros Hn Hr. destruct r; cbn; [by apply Hr|lia]. Qed.

Lemma decode_typed {P} `{CmPacketLaws P} (p : P) : msg_typed (decode p).
Proof.
  assert (Hget : ∀ f msg, fld_ok f = true → 0 ≤ result_or 0 (pkt_get f p msg) < 2 ^ fld_width f).
  { intros f msg Hf. apply result_or_range; [|intros v; by apply pkt_get_range].
    apply Z.pow_pos_nonneg; [done|]. apply fld_ok_spec in Hf. lia. }
  split; unfold decode, u32, u24; cbn [m_local_comm_id m_remote_comm_id m_qpn m_saddr m_daddr].
  - by apply (Hget CM_REP_LOCAL_COMM_ID).
  - by apply (Hget CM_REP_REMOTE_COMM_ID).
  - destruct (_ =? _); [by apply (Hget CM_REQ_LOCAL_QPN)|by apply (Hget CM_REP_LOCAL_QPN)].
  - apply result_or_range; [done|]. apply pkt_saddr_range.
  - apply result_or_range; [done|]. apply pkt_daddr_range.
Qed.

Lemma own_id_typed dir m : msg_typed m → u32 (own_id dir m).
Proof. intros [? ? ? ? ?]. unfold own_id. destruct dir; [done|]. by destruct (_ =? _). Qed.

Lemma peer_key_typed dir m : msg_typed m → key_typed (peer_key dir m).
Proof. intros [? ? ? ? ?]. by destruct dir. Qed.

(** ** Flows and tables *)

Record flow_typed (f : flow_state) : Prop := {
  ty_local_id : u32 (local_id f);
  ty_remote_id : key_typed (remote_id f);
  ty_local_qpn : u24 (local_qpn f);
  ty_remote_qpn : u24 (remote_qpn f);
}.

Record typed (s : tracker) : Prop := {
  ty_flows : ∀ l f, heap s !! l = Some f → flow_typed f;
  ty_local : ∀ k l, local_map s !! k = Some l → u32 k;
  ty_remote : ∀ k l, remote_map s !! k = Some l → key_typed k;
  ty_qpns : ∀ k q, qpn_map s !! k = Some q → u32 k.1 ∧ u24 k.2 ∧ u24 q;
}.

Lemma new_typed : flow_typed new_flow_state.
Proof. by split. Qed.

Lemma act_typed dir m f f' : msg_typed m → flow_typed f → flow_act dir m f f' → flow_typed f'.
Proof.
  intros Hm [TL TR TQ TP] [[_ L R _] [NL NR _] _ _ _].
  pose proof (own_id_typed dir m Hm). pose proof (peer_key_typed dir m Hm). split.
  - by destruct NL as [-> |[_ ->]].
  - by destruct NR as [-> |(_ & _ & ->)].
  - destruct L as [-> |[_ [_ <-]]]; [done|apply Hm].
  - destruct R as [-> |[_ [_ <-]]]; [done|apply Hm].
Qed.

(** The keys of the maps are numbers of flows. *)
Lemma flows_typed s : wf s → (∀ l f, heap s !! l = Some f → flow_typed f) → typed s.
Proof.
  intros W Hf. split; [done|..].
  - intros k l (_ & f & Hl & <-)%(wf_local _ W). by apply (Hf l).
  - intros k l (_ & f & Hl & <-)%(wf_remote _ W). by apply (Hf l).
  - intros k q (l & f & Hl & _ & <- & <-)%(wf_qpn _ W). destruct (Hf _ _ Hl) as [? [? ?] ? ?]. done.
Qed.

Lemma process_typed {P} `{CmPacketLaws P} (p : P) dir s u s' :
  wf s → typed s → process p dir s = Ok (u, s') → typed s'.
Proof.
  intros W T Hs. apply flows_typed; [by eapply process_wf|]. apply process_decode in Hs. intros l f Hf.
  eapply (act_typed dir (decode p)); [apply decode_typed| |by apply (message_evolve _ _ _ _ _ W Hs)].
  destruct (heap s !! l) eqn:E; cbn; [by eapply ty_flows|apply new_typed].
Qed.

(** C33: types.  In every state that the tracker can reach, whatever packets it was
    given: all communication ids and addresses in the flows and in the keys of the
    maps fit 32 bits, all queue pair numbers fit 24, and so does every answer to a
    query. *)
Theorem reachable_typed {P} `{CmPacketLaws P} s :
  reachable (P := P) s → typed s ∧ ∀ k, u24 (get_source_qpn s k).
Proof.
  intros Hr. assert (T : wf s ∧ typed s).
  { induction Hr as [|s p dir u s' _ [W T] Hs]; [split; [apply wf_empty|by split]|].
    split; [by eapply process_wf|by eapply process_typed]. }
  destruct T as [W T]. split; [done|]. intros k. unfold get_source_qpn.
  destruct (qpn_map s !! k) eqn:Hq; [by eapply ty_qpns|done].
Qed.
