(* ===== verification/Growth.v ===== *)
(** * Growth: progress of a flow and size of the tables

    Two bounds over whole runs.  The phases of a flow are ordered and it never goes
    back, so it advances at most four times however long the run is.  A packet adds
    at most one entry to each map, so the tables never hold more entries than
    packets were processed; requests of peers that never follow up reach that
    bound, because nothing but a REJ or a DREP takes an entry out. *)

From Stdlib Require Import ZArith Lia String.
From stdpp Require Import base tactics numbers list strings gmap.
From S2P Require Import Prelude Memory Layout IbMad Iba IbtaC12 Mbuf CmPacket Tracker TrackerInv TrackerStep TrackerSpec TrackerTrace Handshake.

Local Open Scope string_scope.
Open Scope Z_scope.
Open Scope ctcm_scope.

(** ** Relations that every operation respects *)

(** A relation between the states before and after that allows a flow object to be
    made or assigned, the table of queue pairs to change, and entries to be added to
    the maps. *)
Class Lax (R : tracker → tracker → Prop) : Prop := {
  lax_preorder :: PreOrder R;
  lax_heap : ∀ s h n, (∀ l, h !! l = None → heap s !! l = None) →
    R s (Tracker h n (local_map s) (remote_map s) (qpn_map s));
  lax_qpn : ∀ s q, R s (set_qpn_map q s);
  lax_local : ∀ s i l, R s (set_local_map (<[i := l]> (local_map s)) s);
  lax_remote : ∀ s k l, R s (set_remote_map (<[k := l]> (remote_map s)) s);
}.

(** One that also allows entries to be taken out. *)
Class Erasable (R : tracker → tracker → Prop) : Prop := {
  er_local : ∀ s i, R s (set_local_map (delete i (local_map s)) s);
  er_remote : ∀ s k, R s (set_remote_map (delete k (remote_map s)) s);
}.

(** [e] respects [R] whenever it returns. *)
Definition always (R : tracker → tracker → Prop) {A} (e : M A) : Prop :=
  ∀ s a s', e s = Ok (a, s') → R s s'.

Create HintDb always.

Section Always.
Context (R : tracker → tracker → Prop) `{!Lax R}.

Lemma always_bind {A B} (e : M A) (k : A → M B) :
  always R e → (∀ a, always R (k a)) → always R (e ≫= k).
Proof. intros He Hk s b s' (a & s1 & H1 & H2)%M_bind_Ok. etransitivity; [by eapply He|by eapply Hk]. Qed.

Lemma always_ret {A} (a : A) : always R (mret a).
Proof. by intros s b s' [_ ->]%mret_M_Ok. Qed.
Lemma always_lift {A} (e : result A) : always R (lift e).
Proof. by intros s b s' [_ ->]%lift_Ok. Qed.
Lemma always_obj l : always R (obj l).
Proof. by intros s b s' [_ ->]%obj_Ok. Qed.
Lemma always_get_state : always R get_state.
Proof. by intros s b s' [_ ->]%get_state_Ok. Qed.
Lemma always_assign l g : always R (assign l g).
Proof. intros s a s' (f & Hf & ->)%assign_Ok. apply lax_heap. by intros l' [? _]%lookup_insert_None. Qed.
Lemma always_make_shared : always R make_shared.
Proof. intros s a s' [= <- <-]. apply lax_heap. by intros l' [? _]%lookup_insert_None. Qed.
Lemma always_update g : (∀ s, R s (g s)) → always R (update g).
Proof. by intros Hg s a s' ->%update_Ok. Qed.
End Always.

#[export] Hint Resolve always_ret always_lift always_obj always_get_state always_assign
  always_make_shared : always.

Ltac always_step :=
  match goal with
  | |- always _ (_ ≫= _) => apply always_bind; [done| |intros ?]
  | |- always _ (update _) => 
      apply always_update; intros ?;
      first [apply lax_qpn | apply lax_local | apply lax_remote | apply er_local | apply er_remote]
  | |- always _ (assertM _) => by apply always_lift
  | |- always _ (let _ := _ in _) => cbn zeta
  | |- always _ (match ?x with _ => _ end) => destruct x
  | _ => by auto with always
  end.
Ltac always_all := repeat always_step.

Section Operations.
Context (R : tracker → tracker → Prop) `{!Lax R}.

Lemma always_on_established l : always R (on_established l).
Proof. unfold on_established. always_all. Qed.
Lemma always_on_disconnected l : always R (on_disconnected l).
Proof. unfold on_disconnected. always_all. Qed.
Lemma always_add_new_flow i k : always R (add_new_flow i k).
Proof. unfold add_new_flow. always_all. Qed.
#[local] Hint Resolve always_on_established always_on_disconnected always_add_new_flow : always.
Lemma always_get_flow i k : always R (get_flow i k).
Proof. unfold get_flow. always_all. Qed.
Lemma always_erase_flow `{!Erasable R} i k : always R (erase_flow i k).
Proof. unfold erase_flow. always_all. Qed.
#[local] Hint Resolve always_get_flow always_erase_flow : always.

(** The messages whose handler can take an entry out. *)
Definition erasing (attr : Z) : bool := (attr =? CM_REJ_ATTR_ID) || (attr =? CM_DREP_ATTR_ID).

Context {P : Type} `{CmPacket P}.

Lemma always_adding dir attr (h : P → M unit) p :
  erasing attr = false → handler_of dir attr = Some h → always R (h p).
Proof.
  unfold erasing, handler_of. intros [Hj Hd]%orb_false_iff. rewrite Hj, Hd. intros Hh.
  destruct dir; repeat case_match; simplify_eq;
    unfold req_sent, req_received, rep_sent, rep_received, rtu_sent, rtu_received, dreq_sent,
      dreq_received; always_all.
Qed.

Lemma always_erasing `{!Erasable R} dir attr (h : P → M unit) p :
  erasing attr = true → handler_of dir attr = Some h → always R (h p).
Proof.
  unfold erasing, handler_of. intros [->%Z.eqb_eq| ->%Z.eqb_eq]%orb_true_iff Hh; destruct dir; cbn in Hh;
    simplify_eq; unfold rej_sent, rej_received, drep_sent, drep_received; always_all.
Qed.

Lemma always_process (p : P) dir :
  (∀ attr h, get_attr_id p = Ok attr → handler_of dir attr = Some h → always R (h p)) →
  always R (process p dir).
Proof.
  intros Hh s a s'. rewrite process_eq.
  intros (attr & s1 & [Hr ->]%lift_Ok & Hs)%M_bind_Ok. revert s a s' Hs.
  change (always R (match handler_of dir attr with
    | Some h => h p
    | None => hdr ← lift (pkt_mad p); _ ← lift (pkt_hdr8 "base_version" p hdr);
        _ ← lift (pkt_hdr8 "mgmt_class" p hdr); _ ← lift (pkt_hdr8 "class_version" p hdr);
        _ ← lift (pkt_hdr8 "method" p hdr); mret tt
    end)).
  destruct (handler_of dir attr) eqn:E; [by eapply Hh|always_all].
Qed.
End Operations.

(** Flow objects stay. *)
#[global] Instance grows_lax : Lax grows.
Proof.
  split; [split; [by intros s l|by intros s1 s2 s3 H1 H2 l Hl; apply H1, H2]|..]; unfold grows; cbn; auto.
Qed.
#[global] Instance grows_erasable : Erasable grows.
Proof. split; unfold grows; cbn; auto. Qed.

Section Run.
Context {P : Type} `{CmPacket P}.

Lemma process_grows (p : P) dir : always grows (process p dir).
Proof.
  apply always_process; [apply _|]. intros attr h _ Hh. destruct (erasing attr) eqn:He.
  - by eapply always_erasing; [apply _..| |].
  - by eapply always_adding; [apply _| |].
Qed.

(** ** The phases of a flow *)

Definition phase_of (x : fstate) : nat :=
  match x with
  | IDLE => 0
  | REQ_SENT | REQ_RCVD | MRA_REQ_RCVD | MRA_REQ_SENT => 1
  | REP_SENT | REP_RCVD | MRA_REP_SENT | MRA_REP_RCVD => 2
  | ESTABLISHED => 3
  | DREQ_SENT | DREQ_RCVD | TIMEWAIT => 4
  end.

(** A location without a flow has the phase of a new one. *)
Definition phase_at (s : tracker) (l : loc) : nat :=
  phase_of (state (default new_flow_state (heap s !! l))).

Lemma phase_of_bound x : (phase_of x ≤ 4)%nat.
Proof. destruct x; cbn; lia. Qed.

Lemma may_move_phase dir attr x y : may_move dir attr x y = true → (phase_of x ≤ phase_of y)%nat.
Proof.
  unfold may_move. destruct dir, y; intros Hm; try discriminate Hm;
    apply andb_true_iff in Hm as [_ Hm]; destruct x; try discriminate Hm; cbn; lia.
Qed.

Lemma phase_step (p : P) dir s u s' l :
  wf s → process p dir s = Ok (u, s') → (phase_at s l ≤ phase_at s' l)%nat.
Proof.
  intros W Hs. unfold phase_at. destruct (heap s' !! l) as [f'|] eqn:Hf'.
  - cbn. destruct (fa_step _ _ _ _ (message_evolve _ _ _ _ _ W (process_decode _ _ _ _ Hs) l f' Hf')) as [[->|Hm] _ _ _];
      [done|]. by eapply may_move_phase.
  - by rewrite (process_grows p dir s u s' Hs l Hf').
Qed.

(** The packets of a run that change the phase of the flow at [l]. *)
Fixpoint advances (s : tracker) (tr : list (ctcm_direction * P)) (l : loc) : nat :=
  match tr with
  | [] => 0
  | (dir, p) :: tr' =>
      match process p dir s with
      | Ok (_, s') => (if decide (phase_at s' l = phase_at s l) then 0 else 1) + advances s' tr' l
      | Fault _ => 0
      end
  end%nat.

Lemma advances_le tr s l : wf s → (advances s tr l + phase_at s l ≤ 4)%nat.
Proof.
  revert s. induction tr as [|[dir p] tr IH]; intros s W; cbn.
  - apply phase_of_bound.
  - destruct (process p dir s) as [[u s']|] eqn:Hs; [|apply phase_of_bound].
    pose proof (phase_step p dir s u s' l W Hs). specialize (IH s' (process_wf _ _ _ _ _ W Hs)).
    case_decide; lia.
Qed.

Lemma advances_app tr1 tr2 s s1 l :
  run s tr1 = Ok s1 → advances s (tr1 ++ tr2) l = (advances s tr1 l + advances s1 tr2 l)%nat.
Proof.
  revert s. induction tr1 as [|[dir p] tr IH]; intros s Hs; cbn in *; [by simplify_eq|].
  destruct (process p dir s) as [[u s2]|] eqn:E; [|done]. rewrite (IH s2 Hs). lia.
Qed.

Lemma run_phase tr s s' l : wf s → run s tr = Ok s' → (phase_at s l ≤ phase_at s' l)%nat.
Proof.
  revert s. induction tr as [|[dir p] tr IH]; intros s W Hs; cbn in Hs; [by simplify_eq|].
  destruct (process p dir s) as [[u s1]|] eqn:E; [|done].
  pose proof (phase_step p dir s u s1 l W E). specialize (IH s1 (process_wf _ _ _ _ _ W E) Hs). lia.
Qed.

(** C19: a flow makes progress and comes to an end.  Its phases are: new, requested,
    replied, established, closing.  In a run of any length it never goes back to an
    earlier phase, and the packets that change its phase are at most as many as the
    phases that are left to it, four for a new one; after that no packet changes
    the phase any more. *)
Theorem flow_progress tr1 tr2 s s1 l :
  wf s → run s tr1 = Ok s1 →
  (phase_at s l ≤ phase_at s1 l ≤ 4)%nat ∧
  (advances s (tr1 ++ tr2) l ≤ 4 - phase_at s l)%nat ∧
  advances s (tr1 ++ tr2) l = (advances s tr1 l + advances s1 tr2 l)%nat ∧
  (phase_at s1 l = 4%nat → advances s1 tr2 l = 0%nat).
Proof.
  intros W Hs. pose proof (run_wf _ _ _ W Hs) as W1.
  pose proof (advances_le (tr1 ++ tr2) s l W). pose proof (advances_le tr2 s1 l W1).
  split_and!; [by eapply run_phase|apply phase_of_bound|lia|by apply advances_app|lia].
Qed.

(** ** The size of the tables *)

Lemma size_off_key {K A} `{Countable K} (m m' : gmap K A) k :
  (∀ j, j ≠ k → m' !! j = m !! j) → (size m' ≤ S (size m))%nat.
Proof.
  intros Hm. assert (He : delete k m' = delete k m).
  { apply map_eq. intros j. destruct (decide (j = k)) as [->|Hj].
    - by rewrite !lookup_delete_eq.
    - by rewrite !lookup_delete_ne, Hm by done. }
  assert (Hs : size (delete k m') = size (delete k m)) by (by rewrite He).
  rewrite !map_size_delete in Hs. destruct (m' !! k), (m !! k); cbn in Hs; lia.
Qed.

Lemma process_sizes (p : P) dir s u s' :
  wf s → process p dir s = Ok (u, s') →
  (size (local_map s') ≤ S (size (local_map s)))%nat ∧
  (size (remote_map s') ≤ S (size (remote_map s)))%nat.
Proof.
  intros W Hs%process_decode. destruct (message_step _ _ _ _ _ W Hs) as [_ [FL FR _] _].
  split; by eapply size_off_key.
Qed.

Lemma run_sizes tr s s' :
  wf s → run s tr = Ok s' →
  (size (local_map s') ≤ length tr + size (local_map s))%nat ∧
  (size (remote_map s') ≤ length tr + size (remote_map s))%nat.
Proof.
  revert s. induction tr as [|[dir p] tr IH]; intros s W Hs; cbn in Hs; [by simplify_eq|].
  destruct (process p dir s) as [[u s1]|] eqn:E; [|done].
  destruct (process_sizes _ _ _ _ _ W E). destruct (IH s1 (process_wf _ _ _ _ _ W E) Hs). cbn. lia.
Qed.

(** A table whose keys all occur in a list has no more entries than the list. *)
Lemma size_covered {K A} `{Countable K} (m : gmap K A) (ks : list K) :
  (∀ k, is_Some (m !! k) → k ∈ ks) → (size m ≤ length ks)%nat.
Proof.
  intros Hk. rewrite <- length_map_to_list, <- (length_fmap fst). apply submseteq_length, NoDup_submseteq.
  - apply NoDup_fst_map_to_list.
  - intros k ([k' a] & -> & Ha)%list_elem_of_fmap. apply Hk. apply elem_of_map_to_list in Ha. by eexists.
Qed.

(** The connections that are listed are among those with a local id. *)
Lemma listed_sizes s : wf s → (size (qpn_map s) ≤ size (local_map s))%nat.
Proof.
  intros W. rewrite <- (length_map_to_list (local_map s)).
  rewrite <- (length_fmap (λ '(_, l), get_flow_key (default new_flow_state (heap s !! l)))).
  apply size_covered. intros k [q (l & f & Hf & Hin & <- & _)%(wf_qpn _ W)].
  destruct (wf_listed _ W _ _ Hf Hin) as [HL _]. apply list_elem_of_fmap.
  exists (local_id f, l). rewrite Hf. split; [done|]. by apply elem_of_map_to_list.
Qed.

End Run.

(** ** What takes an entry out *)

(** Entries are added to the two maps and none taken out. *)
Record adds_only (s s' : tracker) : Prop := {
  ao_local : dom (local_map s) ⊆ dom (local_map s');
  ao_remote : dom (remote_map s) ⊆ dom (remote_map s');
}.

#[global] Instance adds_only_lax : Lax adds_only.
Proof.
  split; [split; [by intros s; split|intros s1 s2 s3 [] []; split; by etransitivity]|..];
    intros; split; cbn; set_solver.
Qed.

Section Piling.
Context {P : Type} `{CmPacket P}.

Lemma process_adds (p : P) dir :
  erasing (m_attr (decode p)) = false → always adds_only (process p dir).
Proof.
  intros Ha. apply always_process; [apply _|]. intros attr h Hr Hh.
  eapply always_adding; [apply _| |exact Hh]. unfold get_attr_id in Hr. inv_ok.
  by rewrite <- (decode_attr p a attr).
Qed.

Lemma run_adds (tr : list (ctcm_direction * P)) s s' :
  Forall (λ y, erasing (m_attr (decode y.2)) = false) tr → run s tr = Ok s' → adds_only s s'.
Proof.
  intros Htr. revert s. induction Htr as [|[dir p] tr Hp _ IH]; intros s Hs; cbn in Hs; [by simplify_eq|].
  destruct (process p dir s) as [[u s1]|] eqn:E; [|done].
  etransitivity; [by eapply process_adds|by apply IH].
Qed.

(** A run without a REJ or a DREP. *)
Definition no_erasing (tr : list (ctcm_direction * P)) : Prop :=
  Forall (λ y, m_attr (decode y.2) ≠ CM_REJ_ATTR_ID ∧ m_attr (decode y.2) ≠ CM_DREP_ATTR_ID) tr.

Lemma no_erasing_adds tr s s' : no_erasing tr → run s tr = Ok s' → adds_only s s'.
Proof.
  intros Htr. apply run_adds. eapply Forall_impl; [exact Htr|].
  intros [dir p] [Hj%Z.eqb_neq Hd%Z.eqb_neq]. cbn in *. unfold erasing. by rewrite Hj, Hd.
Qed.

(** C20: what the tables can hold.  After any run from the empty tracker, each of the
    two maps by id has at most as many entries as packets were processed, and the
    table of queue pairs at most as many as the map by local id.  In any run an
    entry of the maps is taken out only by a REJ or a DREP: without those, every id
    that is there stays there. *)
Theorem table_sizes (tr tr' : list (ctcm_direction * P)) s s' :
  run empty_tracker tr = Ok s → run s tr' = Ok s' →
  (size (local_map s) ≤ length tr)%nat ∧ (size (remote_map s) ≤ length tr)%nat ∧
  (size (qpn_map s) ≤ size (local_map s))%nat ∧
  (no_erasing tr' →
   dom (local_map s) ⊆ dom (local_map s') ∧ dom (remote_map s) ⊆ dom (remote_map s')).
Proof.
  intros Hs Hs'. destruct (run_sizes tr _ _ wf_empty Hs) as [HL HR]. cbn [local_map remote_map empty_tracker] in HL, HR. rewrite map_size_empty in HL. rewrite map_size_empty in HR.
  split_and!; [lia|lia|by apply listed_sizes, (run_wf _ _ _ wf_empty Hs)|].
  intros Htr. by destruct (no_erasing_adds tr' s s' Htr Hs').
Qed.

(** A request of a peer that is not known yet. *)
Definition request_from (p : P) (k : cm_flow_key) : Prop :=
  ∃ m, carries p m ∧ m_attr m = CM_REQ_ATTR_ID ∧ (m_saddr m, m_local_comm_id m) = k.

Lemma request_adds p k s :
  wf s → request_from p k → key_bool k = true → remote_map s !! k = None →
  ∃ s', process p CTCM_FROM_NET s = Ok (tt, s') ∧ wf s' ∧ dom (remote_map s') = {[k]} ∪ dom (remote_map s).
Proof.
  intros W (m & Hc & Ha & Hk) Hb Hn. rewrite (carries_process _ _ _ _ Hc).
  rewrite (process_handler m CTCM_FROM_NET req_received) by (by rewrite Ha). subst k.
  destruct (req_received_run m s W Hb Hn) as (s' & Hs & [_ _ HR _]). exists s'. split_and!; [done| |].
  - eapply (process_wf (P := cm_msg) s m CTCM_FROM_NET tt s' W).
    by rewrite (process_handler m CTCM_FROM_NET req_received) by (by rewrite Ha).
  - rewrite HR. by rewrite dom_insert_L.
Qed.

Lemma requests_add ps ks s :
  Forall2 request_from ps ks → NoDup ks → Forall (λ k, key_bool k = true) ks →
  wf s → Forall (λ k, remote_map s !! k = None) ks →
  ∃ s', run s ((λ p, (CTCM_FROM_NET, p)) <$> ps) = Ok s' ∧
        dom (remote_map s') = list_to_set ks ∪ dom (remote_map s).
Proof.
  intros Hps. revert s. induction Hps as [|p k ps ks Hp _ IH]; intros s Hd Hk W Hn.
  { exists s. by rewrite list_to_set_nil, (left_id_L ∅ (∪)). }
  apply NoDup_cons in Hd as [Hk' Hd]. apply Forall_cons in Hk as [Hk Hks].
  apply Forall_cons in Hn as [Hn Hns].
  destruct (request_adds p k s W Hp Hk Hn) as (s1 & Hs1 & W1 & Hdom).
  destruct (IH s1) as (s' & Hs' & Hdom'); [done..| |].
  { apply Forall_forall. intros j Hj. rewrite Forall_forall in Hns. apply not_elem_of_dom. rewrite Hdom.
    rewrite not_elem_of_union, not_elem_of_singleton, not_elem_of_dom. split; [by intros ->|auto]. }
  exists s'. cbn [fmap list_fmap run]. rewrite Hs1. split; [done|].
  by rewrite Hdom', Hdom, list_to_set_cons, (assoc_L (∪)), (comm_L (∪) {[k]}).
Qed.

(** C35: requests pile up.  Requests from the network with distinct senders (address
    and id, neither zero) are all accepted and leave one entry each.  There is no
    timeout: whatever packets follow, as long as none is a REJ or a DREP, the table
    keeps at least that many entries. *)
Theorem requests_pile_up ps ks tr :
  Forall2 request_from ps ks → NoDup ks → Forall (λ k, key_bool k = true) ks →
  no_erasing tr →
  ∃ s, run empty_tracker ((λ p, (CTCM_FROM_NET, p)) <$> ps) = Ok s ∧
       size (remote_map s) = length ps ∧
       ∀ s', run s tr = Ok s' → (length ps ≤ size (remote_map s'))%nat.
Proof.
  intros Hps Hd Hk Htr. destruct (requests_add ps ks empty_tracker) as (s & Hs & Hdom);
    [done..|apply wf_empty|by apply Forall_forall|].
  assert (Hsz : size (dom (remote_map s)) = length ps).
  { rewrite Hdom, (Forall2_length _ _ _ Hps). cbn [remote_map empty_tracker]. rewrite dom_empty_L, (right_id_L ∅ (∪)).
    by apply size_list_to_set. }
  exists s. split_and!; [done|by rewrite <- size_dom|]. intros s' Hs'.
  rewrite <- size_dom, <- Hsz. apply subseteq_size. by apply (no_erasing_adds tr).
Qed.
End Piling.
