(* ===== verification/Relate.v ===== *)
(** * Relate: two runs of the tracker side by side

    The tracker depends neither on where its flow objects are in memory nor on how
    an address is written as a number.  This file relates two trackers whose flow
    objects are at different places, one of which may have freed objects that no map
    refers to, and whose addresses are translated: every packet takes related
    trackers to related trackers, or stops both in the same way.

    [sim] is the relational form of [asserts]: it runs two programs and relates what
    they return and leave. *)

From Stdlib Require Import ZArith Lia String.
From stdpp Require Import base tactics numbers list strings gmap.
From S2P Require Import Prelude Memory Layout IbMad Iba IbtaC12 Mbuf CmPacket Tracker TrackerInv TrackerStep TrackerSpec Handshake.

Local Open Scope string_scope.
Open Scope Z_scope.
Open Scope ctcm_scope.

(** ** Two runs *)

Definition sim {A A'} (Q : A → A' → tracker → tracker → Prop) (e : M A) (e' : M A') (s t : tracker) : Prop :=
  match e s, e' t with
  | Ok (a, s1), Ok (a', t1) => Q a a' s1 t1
  | Fault x, Fault y => x = y
  | _, _ => False
  end.

Section Sim.
Context {A A' B B' : Type}.

Lemma sim_bind (Q : B → B' → tracker → tracker → Prop) (e : M A) (e' : M A') k k' s t :
  sim (λ a a' s1 t1, sim Q (k a) (k' a') s1 t1) e e' s t → sim Q (e ≫= k) (e' ≫= k') s t.
Proof.
  unfold sim, mbind, M_bind. by destruct (e s) as [[a s1]|x], (e' t) as [[a' t1]|y].
Qed.

Lemma sim_mono (Q Q' : A → A' → tracker → tracker → Prop) e e' s t :
  sim Q e e' s t →
  (∀ a a' s1 t1, e s = Ok (a, s1) → e' t = Ok (a', t1) → Q a a' s1 t1 → Q' a a' s1 t1) →
  sim Q' e e' s t.
Proof. unfold sim. destruct (e s) as [[a s1]|x], (e' t) as [[a' t1]|y]; auto. Qed.

Lemma sim_ret (Q : A → A' → tracker → tracker → Prop) a a' s t : Q a a' s t → sim Q (mret a) (mret a') s t.
Proof. done. Qed.

(** Reads of related packets: the second result is the first, translated. *)
Lemma sim_lift (Q : A → A' → tracker → tracker → Prop) (g : A → A') (e : result A) (e' : result A') s t :
  e' = match e with Ok a => Ok (g a) | Fault x => Fault x end →
  (∀ a, e = Ok a → Q a (g a) s t) → sim Q (lift e) (lift e') s t.
Proof. intros -> HQ. unfold sim, lift. destruct e; auto. Qed.
End Sim.

Lemma sim_assert (Q : unit → unit → tracker → tracker → Prop) b b' s t :
  b' = b → (b = true → Q tt tt s t) → sim Q (assertM b) (assertM b') s t.
Proof. intros -> HQ. unfold sim, assertM, lift, assert_that. cbn. destruct b; auto. Qed.

Lemma sim_get_state (Q : tracker → tracker → tracker → tracker → Prop) s t :
  Q s t s t → sim Q get_state get_state s t.
Proof. done. Qed.

Lemma sim_update (Q : unit → unit → tracker → tracker → Prop) g g' s t :
  Q tt tt (g s) (g' t) → sim Q (update g) (update g') s t.
Proof. done. Qed.

(** ** Related trackers *)

(** A translation of addresses. *)
Class Translation (φ : Z → Z) : Prop := {
  tr_inj :: Inj (=) (=) φ;
  tr_zero : φ 0 = 0;
}.

#[global] Instance id_translation : Translation (λ a, a).
Proof. split; [by intros a b|done]. Qed.

Section Related.
Context (φ : Z → Z) `{!Translation φ}.

Definition trk (k : Z * Z) : Z * Z := (φ k.1, k.2).
Definition trf (f : flow_state) : flow_state := set_remote_id (trk (remote_id f)) f.

#[global] Instance trk_inj : Inj (=) (=) trk.
Proof. intros [a i] [b j] [= ->%(inj φ) ->]. done. Qed.

Lemma trk_no_key : trk no_key = no_key.
Proof. unfold trk, no_key. cbn. by rewrite tr_zero. Qed.

Lemma tr_eqb_0 a : (φ a =? 0) = (a =? 0).
Proof.
  destruct (Z.eqb_spec a 0) as [->|Ha]; [by rewrite tr_zero|]. apply Z.eqb_neq.
  rewrite <- tr_zero. by intros ?%(inj φ).
Qed.

Lemma trk_bool k : key_bool (trk k) = key_bool k.
Proof. unfold key_bool, trk. cbn. by rewrite tr_eqb_0. Qed.

Lemma trf_new : trf new_flow_state = new_flow_state.
Proof. unfold trf. cbn. by rewrite trk_no_key. Qed.

Lemma trf_flow_key f : get_flow_key (trf f) = trk (get_flow_key f).
Proof. done. Qed.

(** The objects at [l] and [l'] correspond. *)
Abbreviation places := (loc → loc → Prop).

(** [may] says whether the next allocation is at a free place on both sides. *)
Record related (may : bool) (β : places) (s t : tracker) : Prop := {
  rel_fun : ∀ l l1 l2, β l l1 → β l l2 → l1 = l2;
  rel_inj : ∀ l1 l2 l, β l1 l → β l2 l → l1 = l2;
  rel_heap : ∀ l l', β l l' → ∃ f, heap s !! l = Some f ∧ heap t !! l' = Some (trf f);
  rel_local : ∀ k, option_Forall2 β (local_map s !! k) (local_map t !! k);
  rel_remote : ∀ k, option_Forall2 β (remote_map s !! k) (remote_map t !! trk k);
  rel_remote_img : ∀ k l, remote_map t !! k = Some l → ∃ k0, k = trk k0;
  rel_qpn : qpn_map t = kmap trk (qpn_map s);
  rel_next : may = true → heap s !! next s = None ∧ heap t !! next t = None;
}.

(** Computations that relate results by [R], extending the correspondence. *)
Definition keeps {A A'} (may : bool) (β : places) (R : places → A → A' → Prop)
    (a : A) (a' : A') (s t : tracker) : Prop :=
  ∃ β', (∀ l l', β l l' → β' l l') ∧ related may β' s t ∧ R β' a a'.

Abbreviation triv := (λ (_ : places) a a', a = a').
Definition same_place : places → loc → loc → Prop := λ β, β.

Lemma keeps_refl {A A'} may β (R : places → A → A' → Prop) a a' s t :
  related may β s t → R β a a' → keeps may β R a a' s t.
Proof. intros Hr HR. by exists β. Qed.

Lemma keeps_trans {A A'} may β β' (R : places → A → A' → Prop) a a' s t :
  (∀ l l', β l l' → β' l l') → keeps may β' R a a' s t → keeps may β R a a' s t.
Proof. intros Hb (β2 & Hs & Hr & HR). exists β2. split_and!; auto. Qed.

Lemma related_may β s t may : related may β s t → related false β s t.
Proof. intros []. by split. Qed.

(** ** Changes of the state on both sides *)

Lemma related_upd may β s t l l' f :
  related may β s t → β l l' → related may β (upd l f s) (upd l' (trf f) t).
Proof.
  intros [Rf Ri Rh Rl Rr Rm Rq Rn] Hb. destruct (Rh _ _ Hb) as (f0 & Hs & Ht).
  split; cbn; try done.
  - intros a a' Ha. destruct (decide (a = l)) as [->|Hne].
    + rewrite <- (Rf _ _ _ Hb Ha), !lookup_insert_eq. eauto.
    + assert (Hne' : a' ≠ l') by (intros ->; by destruct Hne, (Ri _ _ _ Ha Hb)).
      rewrite !lookup_insert_ne by done. eauto.
  - intros Hm. destruct (Rn Hm) as [Ns Nt]. split; apply lookup_insert_None; split; congruence.
Qed.

Lemma related_local may β s t k x y :
  related may β s t → option_Forall2 β x y →
  related may β (set_local_map (partial_alter (λ _, x) k (local_map s)) s)
                (set_local_map (partial_alter (λ _, y) k (local_map t)) t).
Proof.
  intros [Rf Ri Rh Rl Rr Rm Rq Rn] Hx. split; cbn; try done.
  intros i. destruct (decide (i = k)) as [->|Hne].
  - by rewrite !lookup_partial_alter_eq.
  - by rewrite !lookup_partial_alter_ne by done.
Qed.

Lemma related_remote may β s t k x y :
  related may β s t → option_Forall2 β x y →
  related may β (set_remote_map (partial_alter (λ _, x) k (remote_map s)) s)
                (set_remote_map (partial_alter (λ _, y) (trk k) (remote_map t)) t).
Proof.
  intros [Rf Ri Rh Rl Rr Rm Rq Rn] Hx. split; cbn; try done.
  - intros i. destruct (decide (i = k)) as [->|Hne].
    + by rewrite !lookup_partial_alter_eq.
    + rewrite !lookup_partial_alter_ne; [done|by intros ?%(inj trk)|done].
  - intros i l. destruct (decide (i = trk k)) as [->|Hne]; [eauto|].
    rewrite lookup_partial_alter_ne by done. apply Rm.
Qed.

Lemma related_qpn may β s t q :
  related may β s t → related may β (set_qpn_map q s) (set_qpn_map (kmap trk q) t).
Proof. intros [Rf Ri Rh Rl Rr Rm Rq Rn]. by split. Qed.

(** ** Programs that respect the relation *)

Definition respects {A A'} (may may' : bool) (R : places → A → A' → Prop) (β : places)
    (e : M A) (e' : M A') : Prop :=
  ∀ s t, related may β s t → sim (keeps may' β R) e e' s t.

Lemma respects_bind {A A' B B'} m1 m2 m3 (R : places → A → A' → Prop) (R' : places → B → B' → Prop) β
    (e : M A) (e' : M A') k k' :
  respects m1 m2 R β e e' →
  (∀ β' a a', (∀ l l', β l l' → β' l l') → R β' a a' → respects m2 m3 R' β' (k a) (k' a')) →
  respects m1 m3 R' β (e ≫= k) (e' ≫= k').
Proof.
  intros He Hk s t Hr. apply sim_bind. eapply sim_mono; [by apply He|].
  intros a a' s1 t1 _ _ (β' & Hb & Hr1 & HR). eapply sim_mono; [by eapply Hk|].
  intros b b' s2 t2 _ _ HQ. by eapply keeps_trans.
Qed.

Lemma respects_ret {A A'} m (R : places → A → A' → Prop) β a a' : R β a a' → respects m m R β (mret a) (mret a').
Proof. intros HR s t Hr. apply sim_ret. by apply keeps_refl. Qed.

Lemma respects_lift {A A'} m (g : A → A') β e e' :
  e' = match e with Ok a => Ok (g a) | Fault x => Fault x end →
  respects m m (λ _ a a', a' = g a) β (lift e) (lift e').
Proof. intros He s t Hr. apply (sim_lift _ g); [done|]. intros a _. by apply keeps_refl. Qed.

Lemma respects_read {A} m β (e e' : result A) : e' = e → respects m m triv β (lift e) (lift e').
Proof.
  intros -> s t Hr. apply (sim_lift _ id); [by destruct e|]. intros a _. by apply keeps_refl.
Qed.

Lemma respects_assert m β b b' : b' = b → respects m m triv β (assertM b) (assertM b').
Proof. intros Hb s t Hr. apply sim_assert; [done|]. intros _. by apply keeps_refl. Qed.

Lemma respects_obj m β l l' : β l l' → respects m m (λ _ f f', f' = trf f) β (obj l) (obj l').
Proof.
  intros Hl s t Hr. destruct (rel_heap _ _ _ _ Hr _ _ Hl) as (f & Hs & Ht).
  unfold sim, obj. rewrite Hs, Ht. by apply keeps_refl.
Qed.

Lemma respects_assign m β l l' g g' :
  β l l' → (∀ f, g' (trf f) = trf (g f)) → respects m m triv β (assign l g) (assign l' g').
Proof.
  intros Hl Hg s t Hr. destruct (rel_heap _ _ _ _ Hr _ _ Hl) as (f & Hs & Ht).
  unfold sim. rewrite (assign_run _ _ _ _ Hs), (assign_run _ _ _ _ Ht), Hg.
  apply keeps_refl; [by apply related_upd|done].
Qed.

Lemma respects_update m β g g' :
  (∀ s t, related m β s t → related m β (g s) (g' t)) → respects m m triv β (update g) (update g').
Proof. intros Hg s t Hr. apply sim_update, keeps_refl; [by apply Hg|done]. Qed.

(** What was read of the state before still tells about it. *)
Lemma respects_get_state m β : respects m m (λ β, related m β) β get_state get_state.
Proof. intros s t Hr. by apply sim_get_state, keeps_refl. Qed.

Lemma respects_make_shared β : respects true false same_place β make_shared make_shared.
Proof.
  intros s t Hr. pose proof Hr as [Rf Ri Rh Rl Rr Rm Rq Rn]. destruct (Rn eq_refl) as [Ns Nt].
  unfold sim, make_shared. exists (λ l l', β l l' ∨ l = next s ∧ l' = next t).
  assert (Hs : ∀ l l', β l l' → l ≠ next s ∧ l' ≠ next t).
  { intros l l' (f & Hf & Hf')%Rh. split; congruence. }
  split_and!; [by left| |by right]. split; cbn.
  - intros l l1 l2 [H1|[-> ->]] [H2|[? ->]]; subst; eauto; by apply Hs in H1 || apply Hs in H2; tauto.
  - intros l1 l2 l [H1|[-> ->]] [H2|[-> ?]]; subst; eauto; by apply Hs in H1 || apply Hs in H2; tauto.
  - intros l l' [Hl|[-> ->]].
    + destruct (Hs _ _ Hl). rewrite !lookup_insert_ne by done. auto.
    + rewrite !lookup_insert_eq. exists new_flow_state. by rewrite trf_new.
  - intros k. destruct (Rl k); constructor; auto.
  - intros k. destruct (Rr k); constructor; auto.
  - done.
  - done.
  - done.
Qed.

Lemma respects_weaken {A A'} m (R : places → A → A' → Prop) β e e' :
  respects m m R β e e' → respects m false R β e e'.
Proof.
  intros He s t Hr. eapply sim_mono; [by apply He|]. intros a a' s1 t1 _ _ (β' & Hb & Hr' & HR).
  exists β'. split_and!; [done| |done]. by eapply related_may.
Qed.

(** ** The tables *)

Lemma qpn_lookup m β s t k : related m β s t → qpn_map t !! trk k = qpn_map s !! k.
Proof. intros Hr. rewrite (rel_qpn _ _ _ _ Hr). apply (lookup_kmap trk). Qed.

Lemma on_established_respects m β l l' :
  β l l' → respects m m triv β (on_established l) (on_established l').
Proof.
  intros Hl. unfold on_established. eapply respects_bind; [by apply respects_obj|].
  intros β1 f ? Hb1 ->. cbn [local_qpn remote_qpn trf set_remote_id].
  destruct (orb _ _); [by apply respects_ret|]. eapply respects_bind; [apply respects_get_state|].
  intros β2 s0 t0 Hb2 Hr0. rewrite trf_flow_key, (qpn_lookup _ _ _ _ _ Hr0).
  destruct (qpn_map s0 !! get_flow_key f); [by apply respects_ret|].
  eapply respects_bind; [|intros; apply respects_assign; auto].
  apply respects_update. intros s t Hr. rewrite (rel_qpn _ _ _ _ Hr), <- (kmap_insert trk).
  by apply related_qpn.
Qed.

Lemma on_disconnected_respects m β l l' :
  β l l' → respects m m triv β (on_disconnected l) (on_disconnected l').
Proof.
  intros Hl. unfold on_disconnected. eapply respects_bind; [by apply respects_obj|].
  intros β1 f ? Hb1 ->. cbn [local_qpn remote_qpn trf set_remote_id].
  destruct (orb _ _); [by apply respects_ret|]. eapply respects_bind; [apply respects_get_state|].
  intros β2 s0 t0 Hb2 Hr0. rewrite trf_flow_key, (qpn_lookup _ _ _ _ _ Hr0).
  destruct (qpn_map s0 !! get_flow_key f); [|by apply respects_ret].
  eapply respects_bind; [|intros; apply respects_assign; auto].
  apply respects_update. intros s t Hr. rewrite (rel_qpn _ _ _ _ Hr), <- (kmap_delete trk).
  by apply related_qpn.
Qed.

Lemma delete_local_respects m β lid :
  respects m m triv β (update (λ s, set_local_map (delete lid (local_map s)) s))
                      (update (λ s, set_local_map (delete lid (local_map s)) s)).
Proof. apply respects_update. intros s t Hr. apply (related_local _ _ _ _ lid None None); [done|constructor]. Qed.

Lemma delete_remote_respects m β rid :
  respects m m triv β (update (λ s, set_remote_map (delete rid (remote_map s)) s))
                      (update (λ s, set_remote_map (delete (trk rid) (remote_map s)) s)).
Proof. apply respects_update. intros s t Hr. apply (related_remote _ _ _ _ rid None None); [done|constructor]. Qed.

(** The branch of [erase_flow] that has found a flow. *)
Lemma erase_found_respects m β l l' (e1 e2 e1' e2' : M unit) :
  β l l' → (∀ β, respects m m triv β e1 e1') → (∀ β, respects m m triv β e2 e2') →
  respects m m triv β
    (f ← obj l; _ ← (if in_qpn_map f then on_disconnected l else mret tt); _ ← e1; e2)
    (f ← obj l'; _ ← (if in_qpn_map f then on_disconnected l' else mret tt); _ ← e1'; e2').
Proof.
  intros Hl H1 H2. eapply respects_bind; [by apply respects_obj|]. intros β1 f ? Hb1 ->.
  eapply (respects_bind _ _ _ triv).
  - change (in_qpn_map (trf f)) with (in_qpn_map f).
    destruct (in_qpn_map f); [by apply on_disconnected_respects; auto|by apply respects_ret].
  - intros β2 _ _ _ _. eapply respects_bind; [apply H1|]. intros β3 _ _ _ _. apply H2.
Qed.

Lemma erase_flow_respects m β lid rid :
  respects m m triv β (erase_flow lid rid) (erase_flow lid (trk rid)).
Proof.
  unfold erase_flow. rewrite trk_bool. eapply respects_bind; [by apply respects_assert|].
  intros β1 _ _ Hb1 _. eapply respects_bind; [apply respects_get_state|].
  intros β2 s0 t0 Hb2 Hr0. destruct (negb (lid =? 0)).
  - destruct (rel_local _ _ _ _ Hr0 lid) as [l l' Hl|]; [|by apply respects_ret].
    apply erase_found_respects; auto using delete_local_respects, delete_remote_respects.
  - destruct (rel_remote _ _ _ _ Hr0 rid) as [l l' Hl|]; [|by apply respects_ret].
    apply erase_found_respects; auto using delete_local_respects, delete_remote_respects.
Qed.

(** Giving a flow its ids. *)
Lemma name_local_respects m β lid l l' :
  β l l' → respects m m triv β (name_local lid l) (name_local lid l').
Proof.
  intros Hl. eapply respects_bind; [by apply respects_obj|]. intros β1 f ? Hb1 ->.
  eapply respects_bind; [by apply respects_assert|]. intros β2 _ _ Hb2 _.
  eapply respects_bind; [apply respects_assign; auto|]. intros β3 _ _ Hb3 _.
  apply respects_update. intros s t Hr. apply (related_local _ _ _ _ lid (Some l) (Some l')); [done|].
  constructor. auto.
Qed.

Lemma name_remote_respects m β rid l l' :
  β l l' → respects m m triv β (name_remote rid l) (name_remote (trk rid) l').
Proof.
  intros Hl. eapply respects_bind; [by apply respects_obj|]. intros β1 f ? Hb1 ->.
  eapply respects_bind; [apply respects_assert; cbn; by rewrite trk_bool|]. intros β2 _ _ Hb2 _.
  eapply respects_bind; [apply respects_assign; auto|]. intros β3 _ _ Hb3 _.
  apply respects_update. intros s t Hr. apply (related_remote _ _ _ _ rid (Some l) (Some l')); [done|].
  constructor. auto.
Qed.

Lemma add_tail_respects m β lid rid (b c : bool) l l' :
  β l l' →
  respects m m same_place β
    (_ ← (if b then name_local lid l else mret tt);
     _ ← (if c then name_remote rid l else mret tt); mret l)
    (_ ← (if b then name_local lid l' else mret tt);
     _ ← (if c then name_remote (trk rid) l' else mret tt); mret l').
Proof.
  intros Hl. eapply (respects_bind _ _ _ triv).
  { destruct b; [by apply name_local_respects|by apply respects_ret]. }
  intros β1 _ _ Hb1 _. eapply (respects_bind _ _ _ triv).
  { destruct c; [by apply name_remote_respects; auto|by apply respects_ret]. }
  intros β2 _ _ Hb2 _. apply respects_ret. unfold same_place. auto.
Qed.

(** [add_new_flow] makes a flow only if neither id is known. *)
Lemma add_known_respects m β lid rid a a' b b' :
  β a a' → β b b' →
  respects m m same_place β
    (_ ← assertM (bool_decide (a = b)); f ← obj a;
     _ ← assertM (bool_decide (local_id f = lid) && bool_decide (remote_id f = rid)); mret a)
    (_ ← assertM (bool_decide (a' = b')); f ← obj a';
     _ ← assertM (bool_decide (local_id f = lid) && bool_decide (remote_id f = trk rid)); mret a').
Proof.
  intros Ha Hb s t Hr. revert s t Hr.
  enough (He : bool_decide (a' = b') = bool_decide (a = b) → respects m m same_place β
    (_ ← assertM (bool_decide (a = b)); f ← obj a;
     _ ← assertM (bool_decide (local_id f = lid) && bool_decide (remote_id f = rid)); mret a)
    (_ ← assertM (bool_decide (a' = b')); f ← obj a';
     _ ← assertM (bool_decide (local_id f = lid) && bool_decide (remote_id f = trk rid)); mret a')).
  { intros s t Hr. apply He; [|done]. apply bool_decide_ext. split.
    - intros ->. by eapply rel_inj.
    - intros ->. by eapply rel_fun. }
  intros He. eapply respects_bind; [by apply respects_assert|]. intros β1 _ _ Hb1 _.
  eapply respects_bind; [apply respects_obj; auto|]. intros β2 f ? Hb2 ->.
  eapply respects_bind; [apply respects_assert|intros β3 _ _ Hb3 _; apply respects_ret; unfold same_place; auto].
  f_equal. apply bool_decide_ext. cbn. split; [apply (inj trk)|by intros ->].
Qed.

Lemma some_none (l : loc) : bool_decide (Some l = None) = false.
Proof. by apply bool_decide_eq_false_2. Qed.

Lemma add_new_flow_related m β lid rid s t :
  related m β s t → m = true ∨ is_Some (local_map s !! lid) ∨ is_Some (remote_map s !! rid) →
  sim (keeps false β same_place) (add_new_flow lid rid) (add_new_flow lid (trk rid)) s t.
Proof.
  intros Hr Hm. unfold add_new_flow. apply sim_bind, sim_get_state. cbn zeta.
  fold (name_local lid) (name_remote rid) (name_remote (trk rid)). rewrite trk_bool.
  pose proof (rel_local _ _ _ _ Hr lid) as HL. pose proof (rel_remote _ _ _ _ Hr rid) as HR.
  destruct HL as [a a' Ha|], HR as [b b' Hb|].
  - apply respects_weaken with m; [by apply add_known_respects|done].
  - apply respects_weaken with m; [|done]. eapply (respects_bind _ _ _ same_place); [by apply respects_ret|].
    intros β1 l l' _ Hl. rewrite !some_none. by apply add_tail_respects.
  - apply respects_weaken with m; [|done]. eapply (respects_bind _ _ _ same_place); [by apply respects_ret|].
    intros β1 l l' _ Hl. rewrite !some_none. by apply add_tail_respects.
  - destruct Hm as [->|[[]|[]]]; [|done..].
    revert s t Hr. fold (respects true false same_place β
      (st ← (_ ← assertM (negb (lid =? 0) || key_bool rid); make_shared);
       _ ← (if bool_decide (@None loc = None) && negb (lid =? 0) then name_local lid st else mret tt);
       _ ← (if bool_decide (@None loc = None) && key_bool rid then name_remote rid st else mret tt); mret st)
      (st ← (_ ← assertM (negb (lid =? 0) || key_bool rid); make_shared);
       _ ← (if bool_decide (@None loc = None) && negb (lid =? 0) then name_local lid st else mret tt);
       _ ← (if bool_decide (@None loc = None) && key_bool rid then name_remote (trk rid) st else mret tt); mret st)).
    apply (respects_bind _ false _ same_place); [|intros; by apply add_tail_respects].
    eapply respects_bind; [by apply respects_assert|]. intros. apply respects_make_shared.
Qed.

Lemma get_flow_respects β lid rid :
  respects true false same_place β (get_flow lid rid) (get_flow lid (trk rid)).
Proof.
  unfold get_flow. rewrite trk_bool. eapply respects_bind; [by apply respects_assert|].
  intros β1 _ _ _ _ s t Hr. apply sim_bind, sim_get_state. cbn zeta.
  assert (Hst : option_Forall2 β1 (if negb (lid =? 0) then local_map s !! lid else remote_map s !! rid)
                  (if negb (lid =? 0) then local_map t !! lid else remote_map t !! trk rid)).
  { destruct (negb _); [by eapply rel_local|by eapply rel_remote]. }
  destruct Hst as [l l' Hl|]; [|apply (add_new_flow_related true); auto].
  by apply respects_weaken with true; [apply respects_ret|].
Qed.

(** ** The handlers *)

(** Two packets with the same contents, but for the translation of addresses. *)
Context {P P' : Type} `{CmPacket P} `{CmPacket P'}.

Definition tr_result (r : result Z) : result Z :=
  match r with Ok a => Ok (φ a) | Fault x => Fault x end.

Record twin (p : P) (p' : P') : Prop := {
  tw_mad : pkt_mad p' = pkt_mad p;
  tw_get : ∀ f msg, pkt_get f p' msg = pkt_get f p msg;
  tw_attr : ∀ msg, pkt_attr_id p' msg = pkt_attr_id p msg;
  tw_hdr8 : ∀ f msg, pkt_hdr8 f p' msg = pkt_hdr8 f p msg;
  tw_saddr : pkt_saddr p' = tr_result (pkt_saddr p);
  tw_daddr : pkt_daddr p' = tr_result (pkt_daddr p);
}.

Section Packets.
Context (p : P) (p' : P') (Hp : twin p p').

Lemma from_src_respects m β id :
  respects m m (λ _ k k', k' = trk k) β (lift (from_src p id)) (lift (from_src p' id)).
Proof. apply respects_lift. unfold from_src. rewrite (tw_saddr _ _ Hp). by destruct (pkt_saddr p). Qed.

Lemma from_dest_respects m β id :
  respects m m (λ _ k k', k' = trk k) β (lift (from_dest p id)) (lift (from_dest p' id)).
Proof. apply respects_lift. unfold from_dest. rewrite (tw_daddr _ _ Hp). by destruct (pkt_daddr p). Qed.

(** The part of a handler after its reads. *)
Lemma flow_handler_respects β lid rid rid' (k k' : loc → flow_state → M unit) :
  rid' = trk rid →
  (∀ β' l l' f, β' l l' → respects false false triv β' (k l f) (k' l' (trf f))) →
  respects true false triv β
    (st ← get_flow lid rid; f ← obj st; k st f) (st ← get_flow lid rid'; f ← obj st; k' st f).
Proof.
  intros -> Hk. eapply respects_bind; [apply get_flow_respects|]. intros β1 l l' _ Hl.
  eapply respects_bind; [by apply respects_obj|]. intros β2 f ? Hb ->. apply Hk. by apply Hb.
Qed.

Lemma no_key_trk : no_key = trk no_key.
Proof. by rewrite trk_no_key. Qed.

Ltac reads :=
  repeat (eapply respects_bind;
    [first [ apply respects_read; first [apply (tw_mad _ _ Hp) | apply (tw_get _ _ Hp)]
           | apply from_src_respects | apply from_dest_respects ]
    |first [intros ? ? ? _ <- | intros ? ? ? _ ->]]).

Ltac follow :=
  repeat match goal with
  | |- respects _ _ _ _ (mret _) (mret _) => by apply respects_ret
  | |- respects _ _ _ _ (erase_flow _ _) (erase_flow _ _) => apply erase_flow_respects
  | |- respects _ _ _ _ (on_established _) (on_established _) => apply on_established_respects; by auto
  | |- respects _ _ _ _ (assign _ _) (assign _ _) => apply respects_assign; [by auto|done]
  | |- respects _ _ _ _ (_ ≫= _) (_ ≫= _) =>
      eapply respects_bind;
      [first [ apply respects_assign; [by auto|done]
             | apply respects_read; apply (tw_get _ _ Hp) ]
      |intros ? ? ? ? <-]
  end.

Lemma simple_handlers_respect β :
  respects true false triv β (req_sent p) (req_sent p') ∧
  respects true false triv β (rej_sent p) (rej_sent p') ∧
  respects true false triv β (rej_received p) (rej_received p') ∧
  respects true false triv β (rtu_sent p) (rtu_sent p') ∧
  respects true false triv β (rtu_received p) (rtu_received p') ∧
  respects true false triv β (dreq_sent p) (dreq_sent p') ∧
  respects true false triv β (dreq_received p) (dreq_received p') ∧
  respects true false triv β (drep_sent p) (drep_sent p') ∧
  respects true false triv β (drep_received p) (drep_received p').
Proof.
  unfold req_sent, rej_sent, rej_received, rtu_sent, rtu_received, dreq_sent, dreq_received,
    drep_sent, drep_received.
  split_and!; reads; apply flow_handler_respects; try apply no_key_trk; try done;
    intros β2 l l' f Hl; change (state (trf f)) with (state f); destruct (state f); follow.
Qed.

Lemma req_received_respects β : respects true false triv β (req_received p) (req_received p').
Proof.
  unfold req_received. reads. apply flow_handler_respects; [done|].
  intros β2 l l' f Hl. change (state (trf f)) with (state f).
  destruct (state f) eqn:Hst; follow.
  all: eapply (respects_bind _ _ _ triv); [|intros ? ? ? ? <-; follow].
  - rewrite !decide_False by (by intros []). follow.
  - rewrite !decide_True by done. eapply respects_bind; [apply respects_read, (tw_get _ _ Hp)|].
    intros β3 q ? _ <-. by apply respects_assert.
Qed.

(** The handlers of a REP make no second flow: the one they have found has an entry
    under one of the two ids. *)
Lemma sim_read {A B B'} (Q : B → B' → tracker → tracker → Prop) (e e' : result A) k k' s t :
  e' = e → (∀ a, sim Q (k a) (k' a) s t) → sim Q (lift e ≫= k) (lift e' ≫= k') s t.
Proof. intros -> Hk. apply sim_bind, (sim_lift _ id); [by destruct e|auto]. Qed.

Lemma sim_key {B B'} (Q : B → B' → tracker → tracker → Prop) (e e' : result cm_flow_key) k k' s t :
  e' = match e with Ok a => Ok (trk a) | Fault x => Fault x end →
  (∀ a, sim Q (k a) (k' (trk a)) s t) → sim Q (lift e ≫= k) (lift e' ≫= k') s t.
Proof. intros -> Hk. apply sim_bind, (sim_lift _ trk); auto. Qed.

Lemma sim_flow {A A'} (R : places → A → A' → Prop) β lid rid rid' k k' s t :
  wf s → related true β s t → rid' = trk rid →
  (∀ β1 l l' f s1 t1, wf s1 → related false β1 s1 t1 → β1 l l' → heap s1 !! l = Some f →
     (lid ≠ 0 → local_map s1 !! lid = Some l) → (lid = 0 → remote_map s1 !! rid = Some l) →
     sim (keeps false β1 R) (k l f) (k' l' (trf f)) s1 t1) →
  sim (keeps false β R) (st ← get_flow lid rid; f ← obj st; k st f)
    (st ← get_flow lid rid'; f ← obj st; k' st f) s t.
Proof.
  intros W Hr -> Hk. apply sim_bind. eapply sim_mono; [by apply get_flow_respects|].
  intros l l' s1 t1 Hg _ (β1 & Hb & Hr1 & Hl).
  destruct (get_flow_spec _ _ _ _ _ W Hg) as (C & HL & HR & _).
  destruct (rel_heap _ _ _ _ Hr1 _ _ Hl) as (f & Hs & Ht).
  apply sim_bind. unfold sim at 1, obj. rewrite Hs, Ht.
  eapply sim_mono; [apply (Hk β1 l l' f s1 t1); try done; by apply C|].
  intros a a' s2 t2 _ _ HQ. by eapply keeps_trans.
Qed.

Lemma sim_assign {A A'} (Q : A → A' → tracker → tracker → Prop) m β l l' f g g' k k' s t :
  related m β s t → β l l' → heap s !! l = Some f → g' (trf f) = trf (g f) →
  (related m β (upd l (g f) s) (upd l' (trf (g f)) t) →
   sim Q (k tt) (k' tt) (upd l (g f) s) (upd l' (trf (g f)) t)) →
  sim Q (assign l g ≫= k) (assign l' g' ≫= k') s t.
Proof.
  intros Hr Hl Hf Hg Hk. destruct (rel_heap _ _ _ _ Hr _ _ Hl) as (f0 & Hs & Ht).
  assert (f0 = f) as -> by congruence. apply sim_bind. unfold sim at 1.
  rewrite (assign_run _ _ _ _ Hs), (assign_run _ _ _ _ Ht), Hg.
  apply Hk. by apply related_upd.
Qed.

Lemma rep_sent_related β s t :
  wf s → related true β s t → sim (keeps false β triv) (rep_sent p) (rep_sent p') s t.
Proof.
  intros W Hr. unfold rep_sent. apply sim_read; [apply (tw_mad _ _ Hp)|]. intros msg.
  apply sim_read; [apply (tw_get _ _ Hp)|]. intros lid. apply sim_read; [apply (tw_get _ _ Hp)|]. intros id.
  apply sim_key. { unfold from_dest. rewrite (tw_daddr _ _ Hp). by destruct (pkt_daddr p). } intros rid.
  apply (sim_flow _ _ lid rid); [done..|]. intros β1 l l' f s1 t1 W1 Hr1 Hl Hf HL HR.
  change (state (trf f)) with (state f). destruct (state f); try (by apply (respects_ret false)).
  all: eapply sim_assign; [done..|]; intros Hr2; apply sim_bind; eapply sim_mono;
    [apply (add_new_flow_related false); [done|right]|].
  1, 3: cbn; destruct (decide (lid = 0)); [right; rewrite HR|left; rewrite HL]; eauto.
  all: intros a a' s2 t2 _ _ (β2 & Hb2 & Hr3 & _); apply sim_read; [apply (tw_get _ _ Hp)|]; intros q;
    eapply sim_mono; [apply (respects_assign false β2); eauto|].
  all: intros; by eapply keeps_trans.
Qed.

Lemma rep_received_related β s t :
  wf s → related true β s t → sim (keeps false β triv) (rep_received p) (rep_received p') s t.
Proof.
  intros W Hr. unfold rep_received. apply sim_read; [apply (tw_mad _ _ Hp)|]. intros msg.
  apply sim_read; [apply (tw_get _ _ Hp)|]. intros lid. apply sim_read; [apply (tw_get _ _ Hp)|]. intros id.
  apply sim_key. { unfold from_src. rewrite (tw_saddr _ _ Hp). by destruct (pkt_saddr p). } intros rid.
  apply (sim_flow _ _ lid no_key); [done|done|apply no_key_trk|]. intros β1 l l' f s1 t1 W1 Hr1 Hl Hf HL HR.
  change (state (trf f)) with (state f). destruct (state f); try (by apply (respects_ret false)).
  all: eapply sim_assign; [done..|]; intros Hr2; apply sim_read; [apply (tw_get _ _ Hp)|]; intros q.
  all: eapply sim_assign; [done|done|apply heap_upd|done|]; intros Hr3; apply sim_bind; eapply sim_mono;
    [apply (add_new_flow_related false); [done|right; left]|].
  1, 3: cbn; destruct (decide (lid = 0)) as [Hz|]; [|by rewrite HL; eauto].
  1, 2: by destruct (wf_remote _ W1 _ _ (HR Hz)).
  all: intros a a' s2 t2 _ _ (β2 & Hb2 & Hr4 & _); by apply (sim_ret _ tt tt), (keeps_trans _ _ β2), keeps_refl.
Qed.

(** One packet takes related trackers to related trackers. *)
Lemma process_related β s t dir :
  wf s → related true β s t → sim (keeps false β triv) (process p dir) (process p' dir) s t.
Proof.
  intros W Hr. unfold sim. rewrite !process_eq.
  assert (Ha : get_attr_id p' = get_attr_id p).
  { unfold get_attr_id. rewrite (tw_mad _ _ Hp). destruct (pkt_mad p); [apply (tw_attr _ _ Hp)|done]. }
  destruct (simple_handlers_respect β) as (A1 & A2 & A3 & A4 & A5 & A6 & A7 & A8 & A9).
  change (sim (keeps false β (λ _ (a a' : unit), a = a'))
    (attr ← lift (get_attr_id p); match handler_of dir attr with Some h => h p | None =>
       hdr ← lift (pkt_mad p); _ ← lift (pkt_hdr8 "base_version" p hdr);
       _ ← lift (pkt_hdr8 "mgmt_class" p hdr); _ ← lift (pkt_hdr8 "class_version" p hdr);
       _ ← lift (pkt_hdr8 "method" p hdr); mret tt end)
    (attr ← lift (get_attr_id p'); match handler_of dir attr with Some h => h p' | None =>
       hdr ← lift (pkt_mad p'); _ ← lift (pkt_hdr8 "base_version" p' hdr);
       _ ← lift (pkt_hdr8 "mgmt_class" p' hdr); _ ← lift (pkt_hdr8 "class_version" p' hdr);
       _ ← lift (pkt_hdr8 "method" p' hdr); mret tt end) s t).
  apply sim_read; [done|]. intros attr. unfold handler_of.
  destruct dir; repeat case_match; simplify_eq;
    first [ exact (A1 s t Hr) | exact (A2 s t Hr) | exact (A3 s t Hr) | exact (A4 s t Hr) | exact (A5 s t Hr)
          | exact (A6 s t Hr) | exact (A7 s t Hr) | exact (A8 s t Hr) | exact (A9 s t Hr)
          | exact (req_received_respects β s t Hr) | exact (rep_sent_related β s t W Hr)
          | exact (rep_received_related β s t W Hr) | idtac ].
  all: apply sim_read; [apply (tw_mad _ _ Hp)|]; intros hdr;
    do 4 (apply sim_read; [apply (tw_hdr8 _ _ Hp)|]; intros ?); apply keeps_refl; [by eapply related_may|done].
Qed.
End Packets.
End Related.
