(* ===== verification/Lifetime.v ===== *)
(** * Lifetime: the flow objects live as long as the maps refer to them

    [std::shared_ptr] counts the owners of a flow object and frees it with the last
    one; the allocator may then use its place again.  Between packets the owners are
    the entries of the two maps, since the pointers of a handler are gone when it
    returns; objects are freed here at that point, and not within a handler, whose own
    pointer keeps its object while it runs.  [run_rc] is the tracker with freeing and
    with an arbitrary allocator; it behaves as [run], which never frees.  What it holds
    in memory is the subject of [Reclaim]. *)

From Stdlib Require Import ZArith Lia String.
From stdpp Require Import base tactics numbers list strings gmap.
From S2P Require Import Prelude Memory Layout IbMad Iba IbtaC12 Mbuf CmPacket Tracker TrackerInv TrackerStep TrackerSpec Handshake Relate Growth.

Local Open Scope string_scope.
Open Scope Z_scope.
Open Scope ctcm_scope.

(** ** Reference counts *)

(** [use_count()] of the object at [l], between packets. *)
Definition owners (s : tracker) (l : loc) : nat :=
  size (filter (λ x : Z * loc, x.2 = l) (local_map s)) +
  size (filter (λ x : cm_flow_key * loc, x.2 = l) (remote_map s)).

(** The objects without an owner are gone. *)
Definition collect (s : tracker) : tracker :=
  set_heap (filter (λ x : loc * flow_state, owners s x.1 ≠ 0%nat) (heap s)) s.

Lemma owners_ne s l :
  owners s l ≠ 0%nat ↔ (∃ k, local_map s !! k = Some l) ∨ (∃ k, remote_map s !! k = Some l).
Proof.
  assert (Hz : ∀ K `{Countable K} (m : gmap K loc),
    size (filter (λ x : K * loc, x.2 = l) m) ≠ 0%nat ↔ ∃ k, m !! k = Some l).
  { intros K ? ? m. rewrite map_size_non_empty_iff. split.
    - intros (k & x & [Hk Hx]%map_lookup_filter_Some)%map_choose. cbn in Hx. subst x. eauto.
    - intros [k Hk] He. apply map_empty_filter in He. by apply (He k l Hk). }
  unfold owners. rewrite <- !Hz. lia.
Qed.

(** ** Freeing and any allocator *)

Section Allocator.
(** Where the allocator puts the next object: at a place that is not in use. *)
Context (alloc : gmap loc flow_state → loc) (alloc_free : ∀ h, h !! alloc h = None).
Context {P : Type} `{CmPacket P}.

Definition with_next (s : tracker) : tracker :=
  Tracker (heap s) (alloc (heap s)) (local_map s) (remote_map s) (qpn_map s).

Fixpoint run_rc (s : tracker) (tr : list (ctcm_direction * P)) : result tracker :=
  match tr with
  | [] => Ok s
  | (dir, p) :: tr' =>
      match process p dir (with_next s) with Ok (_, s') => run_rc (collect s') tr' | Fault e => Fault e end
  end.

Abbreviation ident := (λ a : Z, a).

Lemma related_collect β s t : related ident false β s t → ∃ β', related ident false β' s (collect t).
Proof.
  intros [Rf Ri Rh Rl Rr Rm Rq Rn]. exists (λ l l', β l l' ∧ owners t l' ≠ 0%nat).
  split; cbn; [intros l l1 l2 [? _] [? _]; eauto|intros l1 l2 l [? _] [? _]; eauto|..|done|done|done].
  - intros l l' [Hl Ho]. destruct (Rh _ _ Hl) as (f & Hf & Hf'). exists f. split; [done|].
    by apply map_lookup_filter_Some.
  - intros k. specialize (Rl k). destruct (local_map t !! k) as [l'|] eqn:E; inversion Rl; subst; constructor.
    split; [done|]. apply owners_ne. eauto.
  - intros k. specialize (Rr k). destruct (remote_map t !! trk ident k) as [l'|] eqn:E; inversion Rr; subst; constructor.
    split; [done|]. apply owners_ne. eauto.
Qed.

Lemma related_alloc β s t : wf s → related ident false β s t → related ident true β s (with_next t).
Proof.
  intros W [Rf Ri Rh Rl Rr Rm Rq _]. split; try done. intros _. split; [|apply alloc_free].
  destruct (heap s !! next s) as [f|] eqn:E; [|done]. apply (wf_next _ W) in E. lia.
Qed.

Lemma twin_refl (p : P) : twin ident p p.
Proof. split; try done; unfold tr_result; [by destruct (pkt_saddr p)|by destruct (pkt_daddr p)]. Qed.

(** What the objects in memory are, after freeing. *)
Definition no_garbage (t : tracker) : Prop := ∀ l, is_Some (heap t !! l) ↔ owners t l ≠ 0%nat.

Lemma collect_no_garbage β s t : related ident false β s t → no_garbage (collect t).
Proof.
  intros [Rf Ri Rh Rl Rr Rm Rq _] l. cbn. change (owners (collect t) l) with (owners t l). split.
  - by intros [f [_ ?]%map_lookup_filter_Some].
  - intros Ho. assert (Hb : ∃ l0, β l0 l).
    { apply owners_ne in Ho as [[k Hk]|[k Hk]].
      - specialize (Rl k). rewrite Hk in Rl. inversion Rl. eauto.
      - specialize (Rr k). replace (trk ident k) with k in Rr by (by destruct k). rewrite Hk in Rr.
        inversion Rr. eauto. }
    destruct Hb as [l0 (f & _ & Hf)%Rh]. eexists. by apply map_lookup_filter_Some.
Qed.

Lemma run_rc_related tr : ∀ β s t,
  wf s → related ident false β s t → no_garbage t →
  match run s tr, run_rc t tr with
  | Ok s', Ok t' => wf s' ∧ (∃ β', related ident false β' s' t') ∧ no_garbage t'
  | Fault x, Fault y => x = y
  | _, _ => False
  end.
Proof.
  induction tr as [|[dir p] tr IH]; intros β s t W Hr Hg; cbn; [eauto|].
  pose proof (process_related ident p p (twin_refl p) β s (with_next t) dir W (related_alloc _ _ _ W Hr)) as Hs.
  unfold sim in Hs. destruct (process p dir s) as [[u s1]|x] eqn:E, (process p dir (with_next t)) as [[u' t1]|y];
    try done.
  destruct Hs as (β1 & _ & Hr1 & _). destruct (related_collect _ _ _ Hr1) as [β2 Hr2].
  apply (IH β2); [by eapply process_wf|done|by eapply collect_no_garbage].
Qed.

(** ** The same tables *)

(** The flow that an id leads to. *)
Definition flow_by_local (s : tracker) (i : Z) : option flow_state := l ← local_map s !! i; heap s !! l.
Definition flow_by_remote (s : tracker) (k : cm_flow_key) : option flow_state :=
  l ← remote_map s !! k; heap s !! l.

(** The same answers, under every id a flow with the same contents, and two ids lead
    to one object on both sides or on neither. *)
Record same_tables (s t : tracker) : Prop := {
  sm_qpn : qpn_map t = qpn_map s;
  sm_local : ∀ i, flow_by_local t i = flow_by_local s i;
  sm_remote : ∀ k, flow_by_remote t k = flow_by_remote s k;
  sm_shared : ∀ i k, (∃ l, local_map t !! i = Some l ∧ remote_map t !! k = Some l) ↔
                     (∃ l, local_map s !! i = Some l ∧ remote_map s !! k = Some l);
}.

Lemma trk_ident k : trk ident k = k.
Proof. by destruct k. Qed.

Lemma related_same β s t : related ident false β s t → same_tables s t.
Proof.
  intros [Rf Ri Rh Rl Rr Rm Rq _].
  assert (Rr' : ∀ k, option_Forall2 β (remote_map s !! k) (remote_map t !! k)).
  { intros k. rewrite <- (trk_ident k) at 2. apply Rr. }
  assert (Hf : ∀ x y, option_Forall2 β x y → y ≫= (λ l, heap t !! l) = x ≫= (λ l, heap s !! l)).
  { intros x y [l l' (f & Hs & Ht)%Rh|]; [|done]. cbn. rewrite Hs, Ht. by destruct f as [? ? [] ? ? ?]. }
  split.
  - rewrite Rq. apply map_eq. intros k. rewrite <- (trk_ident k) at 1. apply (lookup_kmap (trk ident)).
  - intros i. by apply Hf.
  - intros k. by apply Hf.
  - intros i k. specialize (Rl i). specialize (Rr' k).
    destruct Rl as [a a' Ha|], Rr' as [b b' Hb|]; split; intros (l & Hl & Hl'); try done; simplify_eq.
    + exists b. by rewrite (Ri _ _ _ Ha Hb).
    + exists b'. by rewrite (Rf _ _ _ Ha Hb).
Qed.

Lemma run_rc_same (tr : list (ctcm_direction * P)) :
  match run empty_tracker tr, run_rc empty_tracker tr with
  | Ok s, Ok t => same_tables s t ∧ no_garbage t
  | Fault x, Fault y => x = y
  | _, _ => False
  end.
Proof.
  assert (Hr : related ident false (λ _ _, False) empty_tracker empty_tracker).
  { split; try done; intros k; constructor. }
  assert (Hg : no_garbage empty_tracker) by (intros l; split; [by intros []|done]).
  pose proof (run_rc_related tr _ _ _ wf_empty Hr Hg) as Hs.
  destruct (run empty_tracker tr) as [s|], (run_rc empty_tracker tr) as [t|]; try done.
  destruct Hs as (_ & [β Hr'] & Hg'). by split; [eapply related_same|].
Qed.
End Allocator.

(** Having the same tables is an equivalence, and queries do not tell apart what is
    equivalent. *)
#[global] Instance same_tables_equiv : Equivalence same_tables.
Proof.
  split.
  - by split.
  - intros s t [Q L R S]. split; [done..|]. intros i k. by rewrite S.
  - intros s t u [Q L R S] [Q' L' R' S']. split.
    + by rewrite Q'.
    + intros i. by rewrite L'.
    + intros k. by rewrite R'.
    + intros i k. by rewrite S'.
Qed.

#[global] Instance get_source_qpn_proper : Proper (same_tables ==> eq ==> eq) get_source_qpn.
Proof. intros s t Hs k ? <-. unfold get_source_qpn. by rewrite (sm_qpn _ _ Hs). Qed.

(** Any two allocators. *)
Corollary allocators_agree (a b : gmap loc flow_state → loc) {P} `{CmPacket P} (tr : list (ctcm_direction * P)) :
  (∀ h, h !! a h = None) → (∀ h, h !! b h = None) →
  match run_rc a empty_tracker tr, run_rc b empty_tracker tr with
  | Ok s, Ok t => same_tables s t
  | Fault x, Fault y => x = y
  | _, _ => False
  end.
Proof.
  intros Ha Hb. pose proof (run_rc_same a Ha tr) as H1. pose proof (run_rc_same b Hb tr) as H2.
  destruct (run empty_tracker tr), (run_rc a empty_tracker tr), (run_rc b empty_tracker tr); try done.
  - destruct H1 as [H1 _], H2 as [H2 _]. by rewrite <- H1, <- H2.
  - by subst.
Qed.

(** The allocator that reuses the lowest free place. *)
Definition lowest_free (h : gmap loc flow_state) : loc :=
  default (size h) (List.find (λ l, bool_decide (h !! l = None)) (seq 0 (size h))).

Lemma lowest_free_free h : h !! lowest_free h = None.
Proof.
  unfold lowest_free. destruct (List.find _ _) as [l|] eqn:Hf; cbn.
  { apply find_some in Hf as [_ Hl]. by apply bool_decide_eq_true in Hl. }
  destruct (h !! size h) as [f|] eqn:Hn; [|done]. exfalso.
  assert (Hall : ∀ l, l ∈ seq 0 (S (size h)) → is_Some (h !! l)).
  { intros l Hl. rewrite seq_S, elem_of_app in Hl. destruct Hl as [Hl|Hl].
    - apply list_elem_of_In in Hl. pose proof (find_none _ _ Hf _ Hl) as Hb.
      apply bool_decide_eq_false in Hb. by apply not_eq_None_Some.
    - apply list_elem_of_singleton in Hl as ->. by eexists. }
  assert (Hs : seq 0 (S (size h)) ⊆+ (map_to_list h).*1).
  { apply NoDup_submseteq; [apply NoDup_seq|]. intros l [x Hx]%Hall. apply list_elem_of_fmap.
    exists (l, x). split; [done|]. by apply elem_of_map_to_list. }
  apply submseteq_length in Hs. rewrite length_seq, length_fmap, length_map_to_list in Hs. lia.
Qed.
