(* ===== verification/Reclaim.v ===== *)
(** * Reclaim: the memory of the tracker is that of its open sessions

    On traffic of conforming peers, with reference counts and any allocator: the flow
    objects in memory are exactly the flows of the sessions, as the automata of
    [Product] have them after their own messages, one object per flow.  Sessions that
    were rejected or disconnected leave nothing behind: no object, and no entry in any
    of the three maps.  An erasure that forgot one of the two id maps would keep the
    object alive and break this. *)

From Stdlib Require Import ZArith Lia String.
From stdpp Require Import base tactics numbers list strings gmap.
From S2P Require Import Prelude Memory Layout IbMad Iba IbtaC12 Mbuf CmPacket Tracker TrackerInv TrackerStep TrackerSpec Handshake Conform Product Relate Growth Lifetime.

Local Open Scope string_scope.
Open Scope Z_scope.
Open Scope ctcm_scope.

(** The flows of a session, as contents and as places. *)
Definition view_flows (v : view) : list flow_state :=
  match v with
  | Joined f => [f]
  | Apart a b => option_list a ++ option_list b
  end.

Definition session_locs (s : tracker) (x : session) : list loc :=
  match local_map s !! s_lid x, remote_map s !! s_key x with
  | Some l, Some l' => if decide (l = l') then [l] else [l; l']
  | a, b => option_list a ++ option_list b
  end.

Lemma elem_of_session_locs s x l :
  l ∈ session_locs s x ↔ local_map s !! s_lid x = Some l ∨ remote_map s !! s_key x = Some l.
Proof.
  unfold session_locs. destruct (local_map s !! s_lid x), (remote_map s !! s_key x); cbn;
    try case_decide; subst; rewrite ?elem_of_cons, ?elem_of_nil;
    (split; [intros Hl; repeat destruct Hl as [Hl|Hl]|intros [Hl|Hl]]); simplify_eq; auto; done.
Qed.

Lemma session_locs_NoDup s x : NoDup (session_locs s x).
Proof.
  unfold session_locs. destruct (local_map s !! s_lid x), (remote_map s !! s_key x); cbn;
    try case_decide; repeat constructor; rewrite ?elem_of_cons, ?elem_of_nil; intuition congruence.
Qed.

(** The contents at the places of a session are its flows. *)
Lemma session_locs_flows x s v :
  session_ok x → sees x s v → flow_at s <$> session_locs s x = view_flows v.
Proof.
  intros Hx. unfold sees, session_locs, flow_at. destruct v as [f|a b]; cbn.
  - intros (l & -> & -> & Hf & _). rewrite decide_True by done. cbn. by rewrite Hf.
  - unfold side. intros [Ha Hb]. destruct a as [f|], b as [g|].
    + destruct Ha as (l & -> & Hf & _ & Hr), Hb as (l' & -> & Hg & _ & Hk).
      rewrite decide_False; [cbn; by rewrite Hf, Hg|]. intros ->. destruct (s_key_named x Hx). congruence.
    + destruct Ha as (l & -> & Hf & _). rewrite Hb. cbn. by rewrite Hf.
    + destruct Hb as (l & -> & Hf & _). rewrite Ha. cbn. by rewrite Hf.
    + by rewrite Ha, Hb.
Qed.

(** A flow of a session has an id of it, and none of another. *)
Lemma session_locs_ids x s v l :
  sees x s v → l ∈ session_locs s x →
  ∃ f, heap s !! l = Some f ∧
    (local_id f = s_lid x ∧ (remote_id f = s_key x ∨ remote_id f = no_key) ∨
     local_id f = 0 ∧ remote_id f = s_key x).
Proof.
  intros Hv Hl%elem_of_session_locs. unfold sees in Hv. destruct v as [f|a b].
  - destruct Hv as (l' & HL & HR & Hf & ? & ?). assert (l' = l) as -> by (destruct Hl; congruence).
    exists f. auto.
  - unfold side in Hv. destruct Hv as [Ha Hb], Hl as [Hl|Hl].
    + destruct a as [f|]; [|congruence]. destruct Ha as (l' & He & Hf & ? & ?).
      assert (l' = l) as -> by congruence. exists f. auto 6.
    + destruct b as [f|]; [|congruence]. destruct Hb as (l' & He & Hf & ? & ?).
      assert (l' = l) as -> by congruence. exists f. auto.
Qed.

(** ** The tables with freeing hold the same sessions *)

Lemma by_local_some s i f :
  flow_by_local s i = Some f ↔ ∃ l, local_map s !! i = Some l ∧ heap s !! l = Some f.
Proof. unfold flow_by_local. by rewrite bind_Some. Qed.
Lemma by_remote_some s k f :
  flow_by_remote s k = Some f ↔ ∃ l, remote_map s !! k = Some l ∧ heap s !! l = Some f.
Proof. unfold flow_by_remote. by rewrite bind_Some. Qed.

Lemma no_garbage_local t i : no_garbage t → flow_by_local t i = None → local_map t !! i = None.
Proof.
  intros Hg Hn. destruct (local_map t !! i) as [l|] eqn:E; [|done].
  assert (is_Some (heap t !! l)) as [f Hf] by (apply Hg, owners_ne; eauto).
  assert (flow_by_local t i = Some f) by (apply by_local_some; eauto). congruence.
Qed.

Lemma no_garbage_remote t k : no_garbage t → flow_by_remote t k = None → remote_map t !! k = None.
Proof.
  intros Hg Hn. destruct (remote_map t !! k) as [l|] eqn:E; [|done].
  assert (is_Some (heap t !! l)) as [f Hf] by (apply Hg, owners_ne; eauto).
  assert (flow_by_remote t k = Some f) by (apply by_remote_some; eauto). congruence.
Qed.

Lemma sees_same x s t v : same_tables s t → no_garbage t → sees x s v → sees x t v.
Proof.
  intros [_ ML MR MS] Hg. destruct v as [f|a b]; cbn.
  - intros (l & HL & HR & Hf & Hi & Hk).
    assert (flow_by_local t (s_lid x) = Some f) as (l1 & HL1 & Hf1)%by_local_some
      by (rewrite ML; apply by_local_some; eauto).
    destruct (proj2 (MS (s_lid x) (s_key x))) as (l2 & HL2 & HR2); [eauto|].
    assert (l2 = l1) as -> by congruence. exists l1. by split_and!.
  - intros [Ha Hb]. split.
    + destruct a as [f|]; cbn in *.
      * destruct Ha as (l & HL & Hf & Hi & Hk).
        assert (flow_by_local t (s_lid x) = Some f) as (l1 & HL1 & Hf1)%by_local_some
          by (rewrite ML; apply by_local_some; eauto). by exists l1.
      * apply no_garbage_local; [done|]. rewrite ML. unfold flow_by_local. by rewrite Ha.
    + destruct b as [f|]; cbn in *.
      * destruct Hb as (l & HR & Hf & Hi & Hk).
        assert (flow_by_remote t (s_key x) = Some f) as (l1 & HR1 & Hf1)%by_remote_some
          by (rewrite MR; apply by_remote_some; eauto). by exists l1.
      * apply no_garbage_remote; [done|]. rewrite MR. unfold flow_by_remote. by rewrite Hb.
Qed.

(** ** Every entry is a session's *)
Section Sessions.
Context (S : list session) (HS : sessions_ok S).
Context {P : Type} `{CmPacket P}.

Definition keyed (s : tracker) : Prop :=
  ∀ k l, remote_map s !! k = Some l → ∃ x, x ∈ S ∧ s_key x = k.

Lemma says_keyed x dir m k :
  x ∈ S → says x dir m → key_bool (peer_key dir m) = true → k = peer_key dir m → s_key x = k.
Proof.
  intros Hx Hs Hk ->. destruct (decide (m_attr m = CM_REQ_ATTR_ID)) as [Ha|Ha];
    [|symmetry; by apply says_peer].
  destruct dir; cbn in Hs; rewrite Ha in Hs; cbn in Hs; destruct Hs as (H1 & H2 & H3 & _).
  - unfold key_bool, peer_key in Hk. rewrite H3 in Hk. cbn in Hk. by rewrite andb_false_r in Hk.
  - unfold s_key, peer_key. congruence.
Qed.

Lemma keyed_step dir (p : P) s u s' :
  conforms S (dir, p) → fits S s → keyed s → process p dir s = Ok (u, s') → keyed s'.
Proof.
  intros (m & Hc & Hm) F K Hs. cbn [fst snd] in Hc, Hm. rewrite (carries_process _ _ _ _ Hc) in Hs.
  destruct (tracked (m_attr m)) eqn:Ht.
  2:{ rewrite untracked_process in Hs by done. injection Hs as _ <-. done. }
  destruct Hm as [Hm|(x & Hx & Hsay)]; [congruence|].
  destruct (message_step _ _ _ _ _ (ft_wf _ _ F) Hs) as [W' Fr _]. intros k l Hl.
  destruct (decide (k = peer_key dir m)) as [->|Hne].
  - exists x. split; [done|]. eapply says_keyed; [done|done| |done]. by apply (wf_remote _ W' _ _ Hl).
  - rewrite (fr_remote _ _ _ _ Fr) in Hl by done. eauto.
Qed.

Lemma keyed_run (tr : list (ctcm_direction * P)) s s' :
  Forall (conforms S) tr → fits S s → keyed s → run s tr = Ok s' → keyed s'.
Proof.
  intros Htr. revert s. induction Htr as [|[dir p] tr Hp _ IH]; intros s F K Hs; cbn [run] in Hs.
  - by injection Hs as <-.
  - destruct (fits_step S HS dir p s Hp F) as (s1 & Hs1 & F1). rewrite Hs1 in Hs.
    apply (IH s1); [done|exact (keyed_step dir p s tt s1 Hp F K Hs1)|done].
Qed.

(** ** The objects in memory *)

Definition all_locs (t : tracker) : list loc := S ≫= session_locs t.

Context (V : session → view) (t : tracker).
Context (Hv : ∀ x, x ∈ S → sees x t (V x)) (Hg : no_garbage t).
Context (KL : ∀ k l, local_map t !! k = Some l → ∃ x, x ∈ S ∧ s_lid x = k) (KR : keyed t).

Lemma elem_of_all_locs l : l ∈ all_locs t ↔ is_Some (heap t !! l).
Proof.
  rewrite (Hg l), owners_ne. unfold all_locs. rewrite list_elem_of_bind. split.
  - intros (x & [HL|HR]%elem_of_session_locs & _); eauto.
  - intros [[k Hk]|[k Hk]].
    + destruct (KL _ _ Hk) as (x & Hx & <-). exists x. rewrite elem_of_session_locs. auto.
    + destruct (KR _ _ Hk) as (x & Hx & <-). exists x. rewrite elem_of_session_locs. auto.
Qed.

Lemma locs_apart x y l :
  x ∈ S → y ∈ S → l ∈ session_locs t x → l ∈ session_locs t y → x = y.
Proof.
  intros Hx Hy Hlx Hly.
  destruct (session_locs_ids x t _ l (Hv x Hx) Hlx) as (f & Hf & Ix).
  destruct (session_locs_ids y t _ l (Hv y Hy) Hly) as (g & Hg' & Iy). simplify_eq.
  pose proof (in_ok S HS _ Hx) as Ox. pose proof (in_ok S HS _ Hy) as Oy.
  pose proof (s_key_named x Ox). pose proof (s_key_named y Oy). destruct Ox, Oy.
  destruct Ix as [[Lx Rx]|[Lx Rx]], Iy as [[Ly Ry]|[Ly Ry]]; try congruence.
  - apply (ss_lid _ HS); congruence.
  - apply (ss_key _ HS); congruence.
Qed.

Lemma all_locs_NoDup : NoDup S → NoDup (all_locs t).
Proof.
  unfold all_locs. intros Hnd. pose proof locs_apart as Hap. clear -Hnd Hap. revert Hap.
  induction Hnd as [|x S' Hx _ IH]; intros Hap; [constructor|]. cbn. apply NoDup_app.
  split_and!; [apply session_locs_NoDup| |apply IH; intros; eapply Hap; eauto using list_elem_of_further].
  intros l Hl (y & Hly & Hy)%list_elem_of_bind.
  assert (x = y) as -> by (eapply Hap; eauto using list_elem_of_here, list_elem_of_further). done.
Qed.

Lemma heap_flows :
  NoDup S → (map_to_list (heap t)).*2 ≡ₚ S ≫= (λ x, view_flows (V x)).
Proof.
  intros Hnd.
  assert (Hp : (map_to_list (heap t)).*1 ≡ₚ all_locs t).
  { apply NoDup_Permutation; [apply NoDup_fst_map_to_list|by apply all_locs_NoDup|]. intros l.
    rewrite elem_of_all_locs, list_elem_of_fmap. split.
    - intros ([l' f] & -> & Hf%elem_of_map_to_list). by eexists.
    - intros [f Hf]. exists (l, f). split; [done|]. by apply elem_of_map_to_list. }
  assert (Hf : (map_to_list (heap t)).*2 = flow_at t <$> (map_to_list (heap t)).*1).
  { rewrite <- list_fmap_compose. apply list_fmap_ext. intros i [l f] Hi.
    apply list_elem_of_lookup_2, elem_of_map_to_list in Hi. cbn. unfold flow_at. by rewrite Hi. }
  rewrite Hf, Hp. unfold all_locs. clear -HS Hv. apply reflexive_eq.
  assert (Hs : ∀ S', (∀ x, x ∈ S' → x ∈ S) →
    flow_at t <$> (S' ≫= session_locs t) = S' ≫= (λ x, view_flows (V x))); [|auto].
  induction S' as [|x S' IH]; intros Hin; [done|]. cbn. rewrite fmap_app. f_equal.
  - assert (x ∈ S) by auto using list_elem_of_here. apply session_locs_flows; [by apply (in_ok S HS)|auto].
  - apply IH. auto using list_elem_of_further.
Qed.
End Sessions.

(** ** Runs *)

(** The state of a session's automaton after a run. *)
Definition session_after {P} `{CmPacket P} (tr : list (ctcm_direction * P)) (x : session) : view :=
  foldl (session_step x) no_view (own_messages x tr).

(** The tables of a run with freeing, on traffic of conforming peers. *)
Lemma run_rc_sessions alloc {P} `{CmPacket P} S (tr : list (ctcm_direction * P)) :
  (∀ h, h !! alloc h = None) → sessions_ok S → Forall (conforms S) tr →
  ∃ t, run_rc alloc empty_tracker tr = Ok t ∧ no_garbage t ∧
    (∀ x, x ∈ S → sees x t (session_after tr x)) ∧
    (∀ k l, local_map t !! k = Some l → ∃ x, x ∈ S ∧ s_lid x = k) ∧ keyed S t ∧
    (∀ k q, qpn_map t !! k = Some q → local_map t ≠ ∅).
Proof.
  intros Ha HS Htr. destruct (holds_run S HS tr _ _ Htr (holds_empty S)) as (s & Hs & F & Hv).
  assert (K : keyed S s) by (eapply keyed_run; [done|exact Htr|apply fits_empty|done|done]).
  pose proof (run_rc_same alloc Ha tr) as Hr. rewrite Hs in Hr.
  destruct (run_rc alloc empty_tracker tr) as [t|]; [|done]. destruct Hr as [Sm Hg].
  exists t. split_and!; [done|done|..].
  - intros x Hx. eapply sees_same; [done|done|by apply Hv].
  - intros k l Hl. assert (is_Some (heap t !! l)) as [f Hf] by (apply Hg, owners_ne; eauto).
    assert (flow_by_local t k = Some f) as Hk by (apply by_local_some; eauto).
    rewrite (sm_local _ _ Sm) in Hk. apply by_local_some in Hk as (l' & Hl' & _). by eapply ft_known.
  - intros k l Hl. assert (is_Some (heap t !! l)) as [f Hf] by (apply Hg, owners_ne; eauto).
    assert (flow_by_remote t k = Some f) as Hk by (apply by_remote_some; eauto).
    rewrite (sm_remote _ _ Sm) in Hk. apply by_remote_some in Hk as (l' & Hl' & _). by eapply K.
  - intros k q Hq He. rewrite (sm_qpn _ _ Sm) in Hq.
    destruct (wf_qpn _ (ft_wf _ _ F) _ _ Hq) as (l & f & Hf & Hin & _).
    destruct (wf_listed _ (ft_wf _ _ F) _ _ Hf Hin) as [HL _].
    assert (flow_by_local s (local_id f) = Some f) as Hk by (apply by_local_some; eauto).
    rewrite <- (sm_local _ _ Sm) in Hk. apply by_local_some in Hk as (l' & Hl' & _).
    by rewrite He in Hl'.
Qed.

(** C16: no leaks.  On traffic of conforming peers, with reference counts and any
    allocator, which may put a new flow where an old one was: the tracker processes
    every packet, and then the flow objects in memory are, one for one, the flows of
    the sessions as their automata have them after their own messages.  A session
    that ended leaves none, and when no session is open all the maps are empty too. *)
Theorem memory_follows_sessions alloc {P} `{CmPacket P} S (tr : list (ctcm_direction * P)) :
  (∀ h, h !! alloc h = None) → sessions_ok S → NoDup S → Forall (conforms S) tr →
  ∃ t, run_rc alloc empty_tracker tr = Ok t ∧
    (map_to_list (heap t)).*2 ≡ₚ S ≫= (λ x, view_flows (session_after tr x)) ∧
    ((∀ x, x ∈ S → session_after tr x = no_view) → t = Tracker ∅ (next t) ∅ ∅ ∅).
Proof.
  intros Ha HS Hnd Htr.
  destruct (run_rc_sessions alloc S tr Ha HS Htr) as (t & Ht & Hg & Hv & KL & KR & KQ).
  exists t. split_and!; [done|by apply (heap_flows S HS)|]. intros Hnone.
  assert (HL : local_map t = ∅).
  { apply map_empty. intros k. destruct (local_map t !! k) eqn:Hk; [|done].
    destruct (KL _ _ Hk) as (x & Hx & <-). specialize (Hv x Hx). rewrite (Hnone x Hx) in Hv.
    destruct Hv as [Hv _]. cbn in Hv. congruence. }
  assert (HR : remote_map t = ∅).
  { apply map_empty. intros k. destruct (remote_map t !! k) eqn:Hk; [|done].
    destruct (KR _ _ Hk) as (x & Hx & <-). specialize (Hv x Hx). rewrite (Hnone x Hx) in Hv.
    destruct Hv as [_ Hv]. cbn in Hv. congruence. }
  assert (HH : heap t = ∅).
  { apply map_empty. intros l. destruct (heap t !! l) eqn:Hl; [|done].
    assert (owners t l ≠ 0%nat) as [[k Hk]|[k Hk]]%owners_ne by (by apply Hg; eexists).
    - by rewrite HL in Hk.
    - by rewrite HR in Hk. }
  assert (HQ : qpn_map t = ∅).
  { apply map_empty. intros k. destruct (qpn_map t !! k) eqn:Hk; [|done]. by destruct (KQ _ _ Hk). }
  destruct t. cbn in *. by subst.
Qed.
