(* ===== verification/TrackerLog.v ===== *)
(** * TrackerLog: the log of src/src/cm_connection_tracker.cpp

    The operations and handlers of the tracker once more, with every line that they
    write: an entry per [log_debug] call, in the order of the code, with the values
    that it prints at that moment, and the text of each entry.  The theorems about
    the log are in [LogSpec]. *)

From Stdlib Require Import ZArith Lia String Ascii.
From stdpp Require Import base tactics numbers list strings gmap pretty.
From coqutil Require Import Byte.
From S2P Require Import Prelude Memory Layout IbMad Iba IbtaC12 Mbuf CmPacket Tracker Log TrackerInv TrackerStep TrackerSpec TrackerTrace Growth.

Local Open Scope string_scope.
Open Scope Z_scope.
Open Scope ctcm_scope.

(** ** Entries *)

Inductive entry :=
| LFlow (func : string) (f : flow_state)
| LUnknownErased (local_id remote_id : Z)
| LAddNewFlow (local_id remote_id : Z)
| LExisting
| LNewFlow
| LInLocal (local_id remote_id : Z)
| LInRemote (local_id remote_id : Z)
| LUnexpected (what : string) (st : fstate)
| LWarnIdle (what : string) (local_id : Z)
| LToIdle (what : string) (local_id : Z)
| LRepSent (local_id qpn : Z)
| LRepDuplicate (local_id qpn : Z)
| LRepReceived (local_id remote_id local_qpn remote_qpn : Z)
| LRtu (what : string) (local_id qpn : Z)
| LDreqIdle (local_id : Z)
| LDreq (what to : string) (local_id : Z)
| LBadQpns (local_qpn remote_qpn : Z)
| LInTable (local_qpn : Z)
| LEstablished (local_qpn remote_ip remote_qpn : Z)
| LNotInTable (local_qpn : Z)
| LDisconnected (local_qpn remote_qpn : Z)
| LUnknownAttr (func : string) (attr_id : Z)
| LMad (base_version mgmt_class class_version method : Z).

(** [%d] of a 32-bit number, and [inet_ntoa]. *)
Definition dec (z : Z) : string := pretty (if u32 z <? 2 ^ 31 then u32 z else u32 z - 2 ^ 32).
Definition inet_ntoa `{Endian} (ip : Z) : string :=
  String.concat "." ((λ b, pretty (byte.unsigned b)) <$> host_split 4 ip).

Definition newline : string := String "010" "".

(** The text that the call hands to [rte_log]. *)
Definition text `{Endian} (e : entry) : result string :=
  let x z := ("0x" ++ hex z)%string in
  match e with
  | LFlow func f => log func "" f
  | LUnknownErased l r => Ok (log_debug ("Unknown ID erased: " ++ x l ++ ", " ++ x r ++ newline))
  | LAddNewFlow l r => Ok (log_debug ("add_new_flow(" ++ x l ++ ", " ++ x r ++ ")" ++ newline))
  | LExisting => Ok (log_debug ("Warning: adding an already existing entry" ++ newline))
  | LNewFlow => Ok (log_debug ("New flow_state{}" ++ newline))
  | LInLocal l r =>
      Ok (log_debug ("flow_state in local: local_id " ++ x l ++ ", remote_id " ++ x r ++ newline))
  | LInRemote l r =>
      Ok (log_debug ("flow_state in remote: local_id " ++ x l ++ ", remote_id " ++ x r ++ newline))
  | LUnexpected what st =>
      Ok (log_debug ("CM " ++ what ++ " -> unexpected state: " ++ x (Z.of_nat (state_index st)) ++ newline))
  | LWarnIdle what l =>
      Ok (log_debug ("CM[" ++ x l ++ "] " ++ what ++ ": warning IDLE state or not found." ++ newline))
  | LToIdle what l => Ok (log_debug ("CM " ++ what ++ " -> IDLE. local ID = " ++ x l ++ newline))
  | LRepSent l q => Ok (log_debug ("CM rep -> REP_SENT. local ID = " ++ x l ++ ", qpn = " ++ x q ++ newline))
  | LRepDuplicate l q =>
      Ok (log_debug ("CM rep -> REP_SENT duplicate. local ID = " ++ x l ++ ", qpn = " ++ x q ++ newline))
  | LRepReceived l r lq rq =>
      Ok (log_debug ("CM rep received -> REP_SENT. local ID = " ++ x l ++ ", remote ID = " ++ x r
            ++ ", local qpn = " ++ x lq ++ " remote qpn = " ++ x rq ++ newline))
  | LRtu what l q =>
      Ok (log_debug ("CM " ++ what ++ " -> ESTABLISHED. local ID = " ++ x l ++ ", qpn = " ++ x q ++ newline))
  | LDreqIdle l => Ok (log_debug ("CM[" ++ dec l ++ "] dreq (IDLE): maybe we missed some states?" ++ newline))
  | LDreq what to l => Ok (log_debug ("CM " ++ what ++ " -> " ++ to ++ ". local ID = " ++ x l ++ newline))
  | LBadQpns l r => Ok (log_debug ("Bad QPNs local: " ++ x l ++ " remote: " ++ x r ++ newline))
  | LInTable q => Ok (log_debug ("QP already in table: " ++ x q ++ newline))
  | LEstablished l ip r =>
      Ok (log_debug ("Established: local: " ++ x l ++ ", remote: " ++ inet_ntoa ip ++ ":" ++ x r ++ newline))
  | LNotInTable q => Ok (log_debug ("QP was not in table: " ++ x q ++ newline))
  | LDisconnected l r => Ok (log_debug ("Disconnected: local: " ++ x l ++ ", remote: " ++ x r ++ newline))
  | LUnknownAttr func a => Ok (log_debug ("Unknown attr_id received in " ++ func ++ ": " ++ x a ++ newline))
  | LMad bv mc cv me =>
      Ok (log_debug ("RoCE MAD packet: " ++ newline ++ "base_version: " ++ x bv ++ ", mgmt_class: " ++ x mc
            ++ ", class_version: " ++ x cv ++ ", method: " ++ x me ++ newline))
  end.

(** ** Code that logs *)

Definition L (A : Type) : Type := tracker → result (A * tracker * list entry).

#[global] Instance L_ret : MRet L := λ A a s, Ok (a, s, []).
#[global] Instance L_bind : MBind L := λ A B k e s,
  match e s with
  | Ok (a, s1, w1) =>
      match k a s1 with Ok (b, s2, w2) => Ok (b, s2, w1 ++ w2)%list | Fault f => Fault f end
  | Fault f => Fault f
  end.

(** What making the text of an entry can do to the program: [flow_state::log] looks up
    the name of the state in an array; see [text_evaluates]. *)
Definition evaluates (e : entry) : result unit :=
  match e with
  | LFlow func f => _ ← log func "" f; Ok tt
  | _ => Ok tt
  end.

Lemma text_evaluates `{Endian} e : evaluates e = (_ ← text e; Ok tt).
Proof. by destruct e. Qed.

(** A line: its text is made, and it is written. *)
Definition tell (e : entry) : L unit := λ s,
  match evaluates e with Ok _ => Ok (tt, s, [e]) | Fault f => Fault f end.

Lemma tell_eq e s : tell e s = Ok (tt, s, [e]).
Proof.
  unfold tell. destruct e; try done. cbn [evaluates]. by destruct (log_total func "" f) as [t ->].
Qed.

(** Code that writes nothing. *)
Definition mute {A} (e : M A) : L A := λ s,
  match e s with Ok (a, s') => Ok (a, s', []) | Fault f => Fault f end.
(** The same code without the log. *)
Definition forget {A} (e : L A) : M A := λ s,
  match e s with Ok (a, s', _) => Ok (a, s') | Fault f => Fault f end.

(** A line with values of a flow. *)
Definition note (l : loc) (line : flow_state → entry) : L unit := f ← mute (obj l); tell (line f).

Definition on_established_log (st : loc) : L unit :=
  f ← mute (obj st);
  if (local_qpn f =? 0) || (remote_qpn f =? 0) then tell (LBadQpns (local_qpn f) (remote_qpn f)) else
  s ← mute get_state;
  match qpn_map s !! get_flow_key f with
  | Some _ => tell (LInTable (local_qpn f))
  | None =>
      _ ← mute (update (λ s, set_qpn_map (<[get_flow_key f := local_qpn f]> (qpn_map s)) s));
      _ ← mute (assign st (set_in_qpn_map true));
      note st (λ f, LEstablished (local_qpn f) (remote_id f).1 (remote_qpn f))
  end.

Definition on_disconnected_log (st : loc) : L unit :=
  f ← mute (obj st);
  if (local_qpn f =? 0) || (remote_qpn f =? 0) then tell (LBadQpns (local_qpn f) (remote_qpn f)) else
  s ← mute get_state;
  match qpn_map s !! get_flow_key f with
  | None => tell (LNotInTable (local_qpn f))
  | Some _ =>
      _ ← mute (update (λ s, set_qpn_map (delete (get_flow_key f) (qpn_map s)) s));
      _ ← mute (assign st (set_in_qpn_map false));
      note st (λ f, LDisconnected (local_qpn f) (remote_qpn f))
  end.

Definition add_new_flow_log (lid : Z) (rid : cm_flow_key) : L loc :=
  _ ← tell (LAddNewFlow lid rid.2);
  s ← mute get_state;
  let local_it := local_map s !! lid in
  let remote_it := remote_map s !! rid in
  match local_it, remote_it with
  | Some a, Some b =>
      _ ← mute (assertM (bool_decide (a = b)));
      f ← mute (obj a);
      _ ← mute (assertM (bool_decide (local_id f = lid) && bool_decide (remote_id f = rid)));
      _ ← tell LExisting;
      mret a
  | _, _ =>
      st ← match local_it, remote_it with
           | Some a, _ => _ ← note a (λ f, LInLocal (local_id f) (remote_id f).2); mret a
           | None, Some b => _ ← note b (λ f, LInRemote (local_id f) (remote_id f).2); mret b
           | None, None =>
               _ ← mute (assertM (negb (lid =? 0) || key_bool rid));
               st ← mute make_shared;
               _ ← tell LNewFlow;
               mret st
           end;
      _ ← mute (if bool_decide (local_it = None) && negb (lid =? 0) then
             f ← obj st;
             _ ← assertM (local_id f =? 0);
             _ ← assign st (set_local_id lid);
             update (λ s, set_local_map (<[lid := st]> (local_map s)) s)
           else mret tt);
      _ ← mute (if bool_decide (remote_it = None) && key_bool rid then
             f ← obj st;
             _ ← assertM (negb (key_bool (remote_id f)));
             _ ← assign st (set_remote_id rid);
             update (λ s, set_remote_map (<[rid := st]> (remote_map s)) s)
           else mret tt);
      mret st
  end.

Definition get_flow_log (lid : Z) (rid : cm_flow_key) : L loc :=
  _ ← mute (assertM (negb (lid =? 0) || key_bool rid));
  s ← mute get_state;
  let st := if negb (lid =? 0) then local_map s !! lid else remote_map s !! rid in
  match st with
  | None => add_new_flow_log lid rid
  | Some l => mret l
  end.

Definition erase_flow_log (lid : Z) (rid : cm_flow_key) : L unit :=
  _ ← mute (assertM (negb (lid =? 0) || key_bool rid));
  s ← mute get_state;
  if negb (lid =? 0) then
    match local_map s !! lid with
    | None => tell (LUnknownErased lid rid.2)
    | Some st =>
        f ← mute (obj st);
        _ ← (if in_qpn_map f then on_disconnected_log st else mret tt);
        _ ← mute (update (λ s, set_local_map (delete lid (local_map s)) s));
        mute (update (λ s, set_remote_map (delete rid (remote_map s)) s))
    end
  else
    match remote_map s !! rid with
    | None => tell (LUnknownErased lid rid.2)
    | Some st =>
        f ← mute (obj st);
        _ ← (if in_qpn_map f then on_disconnected_log st else mret tt);
        _ ← mute (update (λ s, set_remote_map (delete rid (remote_map s)) s));
        mute (update (λ s, set_local_map (delete lid (local_map s)) s))
    end.

(** ** The handlers *)
Section Handlers.
Context {P : Type} `{CmPacket P}.

(** [BOOST_CURRENT_FUNCTION]: how the compiler spells the name of a function. *)
Context (current_function : string → string).

(** [state->log(BOOST_CURRENT_FUNCTION)] *)
Definition log_flow (func : string) (st : loc) : L unit := note st (LFlow (current_function func)).

Definition req_sent_log (p : P) : L unit :=
  msg ← mute (lift (pkt_mad p));
  lid ← mute (lift (pkt_get CM_REQ_LOCAL_COMM_ID p msg));
  st ← get_flow_log lid no_key;
  _ ← log_flow "req_sent" st;
  f ← mute (obj st);
  match state f with
  | IDLE | REQ_SENT =>
      _ ← mute (assign st (set_state REQ_SENT));
      qpn ← mute (lift (pkt_get CM_REQ_LOCAL_QPN p msg));
      _ ← mute (assign st (set_local_qpn qpn));
      log_flow "req_sent" st
  | x => tell (LUnexpected "req" x)
  end.

Definition req_received_log (p : P) : L unit :=
  msg ← mute (lift (pkt_mad p));
  rid ← mute (lift (pkt_get CM_REQ_LOCAL_COMM_ID p msg));
  remote_flow ← mute (lift (from_src p rid));
  st ← get_flow_log 0 remote_flow;
  _ ← log_flow "req_received" st;
  f ← mute (obj st);
  match state f with
  | REQ_RCVD | IDLE =>
      _ ← (if decide (state f = REQ_RCVD ∧ NDEBUG = false) then
             qpn ← mute (lift (pkt_get CM_REQ_LOCAL_QPN p msg));
             mute (assertM (remote_qpn f =? qpn))
           else mret tt);
      _ ← mute (assign st (set_state REQ_RCVD));
      qpn ← mute (lift (pkt_get CM_REQ_LOCAL_QPN p msg));
      _ ← mute (assign st (set_remote_qpn qpn));
      log_flow "req_received" st
  | x => tell (LUnexpected "req received" x)
  end.

Definition rej_sent_log (p : P) : L unit :=
  msg ← mute (lift (pkt_mad p));
  lid ← mute (lift (pkt_get CM_REJ_LOCAL_COMM_ID p msg));
  rid ← mute (lift (pkt_get CM_REJ_REMOTE_COMM_ID p msg));
  remote_flow ← mute (lift (from_dest p rid));
  st ← get_flow_log lid remote_flow;
  _ ← log_flow "rej_sent" st;
  f ← mute (obj st);
  match state f with
  | IDLE | REQ_RCVD | REQ_SENT | MRA_REQ_RCVD | MRA_REQ_SENT | REP_RCVD | MRA_REP_SENT =>
      _ ← (if decide (state f = IDLE) then tell (LWarnIdle "rej" lid) else mret tt);
      _ ← erase_flow_log lid remote_flow;
      tell (LToIdle "rej" lid)
  | REP_SENT | MRA_REP_RCVD =>
      _ ← erase_flow_log lid remote_flow;
      tell (LToIdle "rej" lid)
  | x => tell (LUnexpected "rej" x)
  end.

Definition rej_received_log (p : P) : L unit :=
  msg ← mute (lift (pkt_mad p));
  lid ← mute (lift (pkt_get CM_REJ_REMOTE_COMM_ID p msg));
  rid ← mute (lift (pkt_get CM_REJ_LOCAL_COMM_ID p msg));
  remote_flow ← mute (lift (from_src p rid));
  st ← get_flow_log lid remote_flow;
  _ ← log_flow "rej_received" st;
  f ← mute (obj st);
  match state f with
  | IDLE | REQ_SENT | MRA_REQ_RCVD | REP_SENT | MRA_REP_RCVD | MRA_REQ_SENT =>
      _ ← (if decide (state f = IDLE) then tell (LWarnIdle "rej received" lid) else mret tt);
      _ ← erase_flow_log lid remote_flow;
      tell (LToIdle "rej received" lid)
  | DREQ_SENT | REP_RCVD | MRA_REP_SENT | ESTABLISHED =>
      _ ← erase_flow_log lid remote_flow;
      tell (LToIdle "rej received" lid)
  | x => tell (LUnexpected "rej received" x)
  end.

Definition rep_sent_log (p : P) : L unit :=
  msg ← mute (lift (pkt_mad p));
  lid ← mute (lift (pkt_get CM_REP_LOCAL_COMM_ID p msg));
  rid ← mute (lift (pkt_get CM_REP_REMOTE_COMM_ID p msg));
  remote_flow ← mute (lift (from_dest p rid));
  st ← get_flow_log lid remote_flow;
  _ ← log_flow "rep_sent" st;
  f ← mute (obj st);
  match state f with
  | REQ_RCVD | MRA_REQ_SENT =>
      _ ← mute (assign st (set_state REP_SENT));
      _ ← add_new_flow_log lid remote_flow;
      qpn ← mute (lift (pkt_get CM_REP_LOCAL_QPN p msg));
      _ ← mute (assign st (set_local_qpn qpn));
      note st (λ f, LRepSent lid (local_qpn f))
  | REP_SENT => tell (LRepDuplicate lid (local_qpn f))
  | x => tell (LUnexpected "rep" x)
  end.

Definition rep_received_log (p : P) : L unit :=
  msg ← mute (lift (pkt_mad p));
  lid ← mute (lift (pkt_get CM_REP_REMOTE_COMM_ID p msg));
  rid ← mute (lift (pkt_get CM_REP_LOCAL_COMM_ID p msg));
  remote_flow ← mute (lift (from_src p rid));
  st ← get_flow_log lid no_key;
  _ ← log_flow "rep_received" st;
  f ← mute (obj st);
  match state f with
  | REQ_SENT | MRA_REQ_RCVD =>
      _ ← mute (assign st (set_state REP_RCVD));
      qpn ← mute (lift (pkt_get CM_REP_LOCAL_QPN p msg));
      _ ← mute (assign st (set_remote_qpn qpn));
      _ ← add_new_flow_log lid remote_flow;
      note st (λ f, LRepReceived lid rid (local_qpn f) (remote_qpn f))
  | x => tell (LUnexpected "rep received" x)
  end.

Definition rtu_sent_log (p : P) : L unit :=
  msg ← mute (lift (pkt_mad p));
  lid ← mute (lift (pkt_get CM_RTU_LOCAL_COMM_ID p msg));
  st ← get_flow_log lid no_key;
  _ ← log_flow "rtu_sent" st;
  f ← mute (obj st);
  match state f with
  | REP_RCVD | MRA_REP_SENT =>
      _ ← mute (assign st (set_state ESTABLISHED));
      _ ← on_established_log st;
      note st (λ f, LRtu "rtu" lid (local_qpn f))
  | x => tell (LUnexpected "rtu" x)
  end.

Definition rtu_received_log (p : P) : L unit :=
  msg ← mute (lift (pkt_mad p));
  lid ← mute (lift (pkt_get CM_RTU_REMOTE_COMM_ID p msg));
  st ← get_flow_log lid no_key;
  _ ← log_flow "rtu_received" st;
  f ← mute (obj st);
  match state f with
  | REP_SENT | MRA_REP_RCVD =>
      _ ← mute (assign st (set_state ESTABLISHED));
      _ ← on_established_log st;
      note st (λ f, LRtu "rtu received" lid (local_qpn f))
  | x => tell (LUnexpected "rtu received" x)
  end.

Definition dreq_sent_log (p : P) : L unit :=
  msg ← mute (lift (pkt_mad p));
  lid ← mute (lift (pkt_get CM_DREQ_LOCAL_COMM_ID p msg));
  st ← get_flow_log lid no_key;
  _ ← log_flow "dreq_sent" st;
  f ← mute (obj st);
  match state f with
  | IDLE | ESTABLISHED | DREQ_SENT | DREQ_RCVD =>
      _ ← (if decide (state f = IDLE) then tell (LDreqIdle lid) else mret tt);
      _ ← mute (assign st (set_state DREQ_SENT));
      tell (LDreq "dreq" "DREQ_SENT" lid)
  | x => tell (LUnexpected "dreq" x)
  end.

Definition dreq_received_log (p : P) : L unit :=
  msg ← mute (lift (pkt_mad p));
  lid ← mute (lift (pkt_get CM_DREQ_REMOTE_COMM_ID p msg));
  st ← get_flow_log lid no_key;
  _ ← log_flow "dreq_received" st;
  f ← mute (obj st);
  match state f with
  | REP_SENT | DREQ_SENT | ESTABLISHED | MRA_REP_RCVD | TIMEWAIT | DREQ_RCVD =>
      _ ← mute (assign st (set_state DREQ_RCVD));
      tell (LDreq "dreq received" "DREQ_RCVD" lid)
  | x => tell (LUnexpected "dreq received" x)
  end.

Definition drep_sent_log (p : P) : L unit :=
  msg ← mute (lift (pkt_mad p));
  lid ← mute (lift (pkt_get CM_DREP_LOCAL_COMM_ID p msg));
  rid ← mute (lift (pkt_get CM_DREP_REMOTE_COMM_ID p msg));
  remote_flow ← mute (lift (from_dest p rid));
  st ← get_flow_log lid no_key;
  _ ← log_flow "drep_sent" st;
  f ← mute (obj st);
  match state f with
  | DREQ_SENT | DREQ_RCVD =>
      _ ← erase_flow_log lid remote_flow;
      tell (LToIdle "drep" lid)
  | x => tell (LUnexpected "drep" x)
  end.

Definition drep_received_log (p : P) : L unit :=
  msg ← mute (lift (pkt_mad p));
  lid ← mute (lift (pkt_get CM_DREP_REMOTE_COMM_ID p msg));
  rid ← mute (lift (pkt_get CM_DREP_LOCAL_COMM_ID p msg));
  remote_flow ← mute (lift (from_src p rid));
  st ← get_flow_log lid no_key;
  _ ← log_flow "drep_received" st;
  f ← mute (obj st);
  match state f with
  | DREQ_SENT | DREQ_RCVD =>
      _ ← erase_flow_log lid remote_flow;
      tell (LToIdle "drep received" lid)
  | x => tell (LUnexpected "drep received" x)
  end.

(** The handlers by kind and direction, as the two vectors of the class hold them. *)
Definition handler_log (dir : ctcm_direction) (attr : Z) : option (P → L unit) :=
  match dir with
  | CTCM_FROM_HOST =>
      if attr =? CM_REQ_ATTR_ID then Some req_sent_log else
      if attr =? CM_REJ_ATTR_ID then Some rej_sent_log else
      if attr =? CM_REP_ATTR_ID then Some rep_sent_log else
      if attr =? CM_RTU_ATTR_ID then Some rtu_sent_log else
      if attr =? CM_DREQ_ATTR_ID then Some dreq_sent_log else
      if attr =? CM_DREP_ATTR_ID then Some drep_sent_log else None
  | CTCM_FROM_NET =>
      if attr =? CM_REQ_ATTR_ID then Some req_received_log else
      if attr =? CM_REJ_ATTR_ID then Some rej_received_log else
      if attr =? CM_REP_ATTR_ID then Some rep_received_log else
      if attr =? CM_RTU_ATTR_ID then Some rtu_received_log else
      if attr =? CM_DREQ_ATTR_ID then Some dreq_received_log else
      if attr =? CM_DREP_ATTR_ID then Some drep_received_log else None
  end.

Definition process_log (p : P) (dir : ctcm_direction) : L unit :=
  attr_id ← mute (lift (get_attr_id p));
  match handler_log dir attr_id with
  | Some h => h p
  | None =>
      _ ← tell (LUnknownAttr (current_function "process_packet") attr_id);
      hdr ← mute (lift (pkt_mad p));
      bv ← mute (lift (pkt_hdr8 "base_version" p hdr));
      mc ← mute (lift (pkt_hdr8 "mgmt_class" p hdr));
      cv ← mute (lift (pkt_hdr8 "class_version" p hdr));
      me ← mute (lift (pkt_hdr8 "method" p hdr));
      tell (LMad bv mc cv me)
  end.

(** A sequence of packets, with all that was written. *)
Fixpoint run_log (s : tracker) (tr : list (ctcm_direction * P)) : result (tracker * list entry) :=
  match tr with
  | [] => Ok (s, [])
  | (dir, p) :: tr' =>
      match process_log p dir s with
      | Ok (_, s', w) =>
          match run_log s' tr' with Ok (s2, w2) => Ok (s2, w ++ w2)%list | Fault e => Fault e end
      | Fault e => Fault e
      end
  end.
End Handlers.
