(* ===== verification/LogSpec.v ===== *)
(** * LogSpec: the log and the state

    The transcription with the log is that of [Tracker] with the lines left out: no
    argument of a log call can stop the program, since every state has a name.  And
    the log is a faithful account: the connections that it reports established are
    those that it reports disconnected together with those that the table lists. *)

From Stdlib Require Import ZArith Lia String.
From stdpp Require Import base tactics numbers list strings gmap.
From S2P Require Import Prelude Memory Layout IbMad Iba IbtaC12 Mbuf CmPacket Tracker Log TrackerInv TrackerStep TrackerSpec TrackerTrace Growth TrackerLog.

Local Open Scope string_scope.
Open Scope Z_scope.
Open Scope ctcm_scope.

(** ** Leaving the lines out *)

Lemma same_bind {A B} (e : L A) (e0 : M A) (k : A → L B) (k0 : A → M B) s :
  forget e s = e0 s → (∀ a s1, e0 s = Ok (a, s1) → forget (k a) s1 = k0 a s1) →
  forget (e ≫= k) s = (e0 ≫= k0) s.
Proof.
  intros He Hk. unfold forget, mbind, L_bind, M_bind in *. rewrite <- He in Hk |- *.
  destruct (e s) as [[[a s1] w1]|]; [|done]. rewrite <- (Hk a s1) by done.
  by destruct (k a s1) as [[[b s2] w2]|].
Qed.

Lemma same_mute {A} (e : M A) s : forget (mute e) s = e s.
Proof. unfold forget, mute. by destruct (e s) as [[a s']|]. Qed.

Lemma same_ret {A} (a : A) s : forget (mret a) s = (mret a : M A) s.
Proof. done. Qed.

Lemma same_tell x s : forget (tell x) s = (mret tt : M unit) s.
Proof. unfold forget. by rewrite tell_eq. Qed.

Lemma same_tell_then {A} x (k : unit → L A) s : forget (tell x ≫= k) s = forget (k tt) s.
Proof. unfold forget, mbind, L_bind. rewrite tell_eq. by destruct (k tt s) as [[[a s1] w1]|]. Qed.

Lemma same_ret_then {A B} (a : A) (k : A → L B) s : forget ((mret a : L A) ≫= k) s = forget (k a) s.
Proof. unfold forget, mbind, L_bind, mret, L_ret. by destruct (k a s) as [[[b s1] w1]|]. Qed.

Lemma same_note_then {A} l line (k : unit → L A) s :
  is_Some (heap s !! l) → forget (note l line ≫= k) s = forget (k tt) s.
Proof.
  intros [f Hf]. unfold forget, note, mbind, L_bind, mute, obj. rewrite Hf, tell_eq.
  by destruct (k tt s) as [[[a s1] w1]|].
Qed.

(** A last line. *)
Lemma same_then_tell (e : L unit) (e0 : M unit) x s :
  forget e s = e0 s → forget (_ ← e; tell x) s = e0 s.
Proof.
  intros <-. unfold forget, mbind, L_bind. destruct (e s) as [[[[] s1] w1]|]; [|done]. by rewrite tell_eq.
Qed.

Lemma same_then_note {A} (e : L A) (e0 : M A) l line (k0 : A → M unit) s :
  forget e s = e0 s → (∀ a s1, e0 s = Ok (a, s1) → is_Some (heap s1 !! l) ∧ k0 a s1 = Ok (tt, s1)) →
  forget (_ ← e; note l line) s = (e0 ≫= k0) s.
Proof.
  intros He Hl. apply same_bind; [done|]. intros a s1 Ha. destruct (Hl a s1 Ha) as [[f Hf] ->].
  unfold forget, note, mbind, L_bind, mute, obj. by rewrite Hf, tell_eq.
Qed.

Create HintDb same.
#[export] Hint Resolve same_mute same_ret same_tell : same.

(** ** The table operations *)

(** Every entry of the maps leads to a flow. *)
Record linked (s : tracker) : Prop := {
  li_local : ∀ k l, local_map s !! k = Some l → is_Some (heap s !! l);
  li_remote : ∀ k l, remote_map s !! k = Some l → is_Some (heap s !! l);
}.

Lemma wf_linked s : wf s → linked s.
Proof.
  intros W. split; intros k l Hl.
  - apply (wf_local _ W) in Hl as (_ & f & Hf & _). by exists f.
  - apply (wf_remote _ W) in Hl as (_ & f & Hf & _). by exists f.
Qed.

Lemma linked_upd s l f : linked s → linked (upd l f s).
Proof.
  intros [HL HR]. split; intros k l' Hl'; cbn; apply lookup_insert_is_Some'; right; eauto.
Qed.

Lemma add_new_flow_same i k s : linked s → forget (add_new_flow_log i k) s = add_new_flow i k s.
Proof.
  intros [HL HR]. unfold add_new_flow_log, add_new_flow. rewrite same_tell_then.
  apply same_bind; [apply same_mute|]. intros ? ? [-> ->]%get_state_Ok. cbn zeta.
  destruct (local_map s !! i) as [a|] eqn:Ha, (remote_map s !! k) as [b|] eqn:Hb.
  { do 3 (apply same_bind; [apply same_mute|intros]). by rewrite same_tell_then. }
  all: apply same_bind;
    [|intros; apply same_bind; [apply same_mute|intros; apply same_bind; [apply same_mute|by intros]]].
  - by rewrite same_note_then by eauto.
  - by rewrite same_note_then by eauto.
  - apply same_bind; [apply same_mute|]. intros [] s1 _. unfold forget, mbind, L_bind, tell, mute.
    by destruct (make_shared s1) as [[l s2]|].
Qed.
#[export] Hint Resolve add_new_flow_same : same.

Lemma get_flow_same i k s : linked s → forget (get_flow_log i k) s = get_flow i k s.
Proof.
  intros Hl. unfold get_flow_log, get_flow. apply same_bind; [apply same_mute|].
  intros ? ? [_ ->]%assertM_Ok. apply same_bind; [apply same_mute|]. intros ? ? [-> ->]%get_state_Ok. cbn zeta.
  destruct (if negb (i =? 0) then _ else _); [done|by apply add_new_flow_same].
Qed.

Lemma assign_leaves l g s a s' : assign l g s = Ok (a, s') → is_Some (heap s' !! l).
Proof. intros (f & Hf & ->)%assign_Ok. cbn. rewrite lookup_insert_eq. by eexists. Qed.

Lemma on_established_same l s : forget (on_established_log l) s = on_established l s.
Proof.
  unfold on_established_log, on_established. apply same_bind; [apply same_mute|].
  intros f ? [Hf ->]%obj_Ok. destruct (orb _ _); [done|].
  apply same_bind; [apply same_mute|]. intros ? ? [-> ->]%get_state_Ok.
  destruct (qpn_map s !! get_flow_key f); [done|].
  apply same_bind; [apply same_mute|]. intros [] s1 _.
  transitivity ((assign l (set_in_qpn_map true) ≫= λ _, mret tt : M unit) s1).
  - apply same_then_note; [apply same_mute|]. intros a s2 Ha. split; [by eapply assign_leaves|done].
  - unfold mbind, M_bind. by destruct (assign l _ s1) as [[[] s2]|].
Qed.

Lemma on_disconnected_same l s : forget (on_disconnected_log l) s = on_disconnected l s.
Proof.
  unfold on_disconnected_log, on_disconnected. apply same_bind; [apply same_mute|].
  intros f ? [Hf ->]%obj_Ok. destruct (orb _ _); [done|].
  apply same_bind; [apply same_mute|]. intros ? ? [-> ->]%get_state_Ok.
  destruct (qpn_map s !! get_flow_key f); [|done].
  apply same_bind; [apply same_mute|]. intros [] s1 _.
  transitivity ((assign l (set_in_qpn_map false) ≫= λ _, mret tt : M unit) s1).
  - apply same_then_note; [apply same_mute|]. intros a s2 Ha. split; [by eapply assign_leaves|done].
  - unfold mbind, M_bind. by destruct (assign l _ s1) as [[[] s2]|].
Qed.
#[export] Hint Resolve on_established_same on_disconnected_same : same.

Lemma erase_flow_same i k s : forget (erase_flow_log i k) s = erase_flow i k s.
Proof.
  unfold erase_flow_log, erase_flow. apply same_bind; [apply same_mute|]. intros.
  apply same_bind; [apply same_mute|]. intros. destruct (negb (i =? 0)).
  all: match goal with |- forget (match ?x with _ => _ end) _ = _ => destruct x; [|done] end.
  all: apply same_bind; [apply same_mute|]; intros f ? _.
  all: apply same_bind; [destruct (in_qpn_map f); by auto with same|]; intros.
  all: apply same_bind; [apply same_mute|]; intros; apply same_mute.
Qed.
#[export] Hint Resolve erase_flow_same : same.

(** ** The handlers *)
Section Handlers.
Context {P : Type} `{CmPacket P} (cf : string → string).

(** The lookup of a handler, with the line about the flow it found. *)
Lemma flow_same i k func (kl : loc → flow_state → L unit) (k0 : loc → flow_state → M unit) s :
  wf s → (∀ l f s1, wf s1 → heap s1 !! l = Some f → forget (kl l f) s1 = k0 l f s1) →
  forget (st ← get_flow_log i k; _ ← log_flow cf func st; f ← mute (obj st); kl st f) s =
  (st ← get_flow i k; f ← obj st; k0 st f) s.
Proof.
  intros W Hk. apply same_bind; [by apply get_flow_same, wf_linked|]. intros l s1 Hg.
  destruct (get_flow_spec _ _ _ _ _ W Hg) as ([W1 _ _] & _ & _ & f & Hf & _).
  unfold log_flow. rewrite same_note_then by eauto.
  apply same_bind; [apply same_mute|]. intros f' s1' [Hf' ->]%obj_Ok. auto.
Qed.

(** A line at the end of a branch, about the flow. *)
Lemma last_note (e : L unit) (e0 : M unit) l line s :
  forget e s = e0 s → (∀ s1, e0 s = Ok (tt, s1) → is_Some (heap s1 !! l)) →
  forget (_ ← e; note l line) s = e0 s.
Proof.
  intros He Hl. transitivity ((e0 ≫= λ _, mret tt : M unit) s).
  - apply same_then_note; [done|]. intros [] s1 Hs1. split; [by apply Hl|done].
  - unfold mbind, M_bind. by destruct (e0 s) as [[[] s1]|].
Qed.

Ltac reads := repeat (apply same_bind; [apply same_mute|]; intros ? ? [_ ->]%lift_Ok).

(** Reads, the lookup, and the branches that only write a line. *)
Ltac handler W :=
  reads; apply (flow_same _ _ _ _ _ _ W); intros l f s1 W1 Hf; cbn beta;
  destruct (state f) eqn:Hst; try (by apply same_tell).

Lemma req_sent_same p s : wf s → forget (req_sent_log cf p) s = req_sent p s.
Proof.
  intros W. unfold req_sent_log, req_sent. handler W.
  all: apply same_bind; [apply same_mute|]; intros [] s2 _.
  all: apply same_bind; [apply same_mute|]; intros q s3 _.
  all: apply last_note; [apply same_mute|intros s4; apply assign_leaves].
Qed.

Lemma req_received_same p s : wf s → forget (req_received_log cf p) s = req_received p s.
Proof.
  intros W. unfold req_received_log, req_received. handler W.
  all: apply same_bind; [case_decide; [apply same_bind; [apply same_mute|by intros; apply same_mute]|done]|].
  all: intros [] s2 _; apply same_bind; [apply same_mute|]; intros [] s3 _.
  all: apply same_bind; [apply same_mute|]; intros q s4 _.
  all: apply last_note; [apply same_mute|intros s5; apply assign_leaves].
Qed.

Lemma rej_same p s :
  wf s → forget (rej_sent_log cf p) s = rej_sent p s ∧ forget (rej_received_log cf p) s = rej_received p s.
Proof.
  intros W. unfold rej_sent_log, rej_sent, rej_received_log, rej_received. split; handler W.
  all: try (case_decide; [rewrite same_tell_then|rewrite same_ret_then]); try done.
  all: by apply same_then_tell, erase_flow_same.
Qed.

(** The flow is still there after [e]. *)
Lemma grows_leaves {A} (e : M A) l f s a s' :
  always grows e → heap s !! l = Some f → e s = Ok (a, s') → is_Some (heap s' !! l).
Proof.
  intros Ha Hf Hs. destruct (heap s' !! l) eqn:E; [by eexists|].
  pose proof (Ha _ _ _ Hs l E). congruence.
Qed.

Lemma rep_sent_same p s : wf s → forget (rep_sent_log cf p) s = rep_sent p s.
Proof.
  intros W. unfold rep_sent_log, rep_sent. handler W.
  all: apply same_bind; [apply same_mute|]; intros [] s2 (f2 & Hf2 & ->)%assign_Ok.
  all: apply same_bind; [by apply add_new_flow_same, linked_upd, wf_linked|]; intros l' s3 _.
  all: apply same_bind; [apply same_mute|]; intros q s4 _.
  all: apply last_note; [apply same_mute|intros s5; apply assign_leaves].
Qed.

Lemma rep_received_same p s : wf s → forget (rep_received_log cf p) s = rep_received p s.
Proof.
  intros W. unfold rep_received_log, rep_received. handler W.
  all: apply same_bind; [apply same_mute|]; intros [] s2 (f2 & Hf2 & ->)%assign_Ok.
  all: apply same_bind; [apply same_mute|]; intros q s3 [_ ->]%lift_Ok.
  all: apply same_bind; [apply same_mute|]; intros [] s4 (f4 & Hf4 & ->)%assign_Ok.
  all: apply same_then_note; [by apply add_new_flow_same, linked_upd, linked_upd, wf_linked|].
  all: intros l' s5 Hs5; (split; [|done]).
  all: eapply (grows_leaves (add_new_flow _ _)); [by apply always_add_new_flow, grows_lax| |exact Hs5].
  all: apply lookup_insert_eq.
Qed.

Lemma rtu_same p s :
  wf s → forget (rtu_sent_log cf p) s = rtu_sent p s ∧ forget (rtu_received_log cf p) s = rtu_received p s.
Proof.
  intros W. unfold rtu_sent_log, rtu_sent, rtu_received_log, rtu_received. split; handler W.
  all: apply same_bind; [apply same_mute|]; intros [] s2 Ha%assign_leaves.
  all: apply last_note; [apply on_established_same|]; intros s3 Hs3; destruct Ha as [f2 Hf2].
  all: eapply (grows_leaves (on_established _)); [by apply always_on_established, grows_lax|exact Hf2|exact Hs3].
Qed.

Lemma dreq_same p s :
  wf s → forget (dreq_sent_log cf p) s = dreq_sent p s ∧ forget (dreq_received_log cf p) s = dreq_received p s.
Proof.
  intros W. unfold dreq_sent_log, dreq_sent, dreq_received_log, dreq_received. split; handler W.
  all: try (case_decide; [rewrite same_tell_then|rewrite same_ret_then]); try done.
  all: by apply same_then_tell, same_mute.
Qed.

Lemma drep_same p s :
  wf s → forget (drep_sent_log cf p) s = drep_sent p s ∧ forget (drep_received_log cf p) s = drep_received p s.
Proof.
  intros W. unfold drep_sent_log, drep_sent, drep_received_log, drep_received. split; handler W.
  all: by apply same_then_tell, erase_flow_same.
Qed.

Lemma process_same p dir s : wf s → forget (process_log cf p dir) s = process p dir s.
Proof.
  intros W. rewrite process_eq. unfold process_log. apply same_bind; [apply same_mute|].
  intros attr ? [_ ->]%lift_Ok. unfold handler_log, handler_of.
  destruct dir; repeat case_match; simplify_eq.
  all: try (by apply req_sent_same); try (by apply req_received_same); try (by apply rej_same);
    try (by apply rep_sent_same); try (by apply rep_received_same); try (by apply rtu_same);
    try (by apply dreq_same); try (by apply drep_same).
  all: rewrite same_tell_then; reads; by apply same_tell.
Qed.

(** Writing the log changes nothing.  For every sequence of packets from a state
    that satisfies the invariant, the code with all its [log_debug] calls and the
    code without them end in the same state, or stop the program with the same
    fault. *)
Theorem logging_is_silent tr s :
  wf s → match run_log cf s tr with Ok (s', _) => Ok s' | Fault e => Fault e end = run s tr.
Proof.
  revert s. induction tr as [|[dir p] tr IH]; intros s W; [done|]. cbn [run_log run].
  pose proof (process_same p dir s W) as Hp. unfold forget in Hp. rewrite <- Hp.
  destruct (process_log cf p dir s) as [[[[] s1] w]|]; [|done].
  rewrite <- IH by (by apply (process_wf s p dir tt)). by destruct (run_log cf s1 tr) as [[s2 w2]|].
Qed.
End Handlers.

(** ** The log accounts for the table *)

(** The connections that a piece of log reports, by their two queue pairs, and the
    ones that the table lists. *)
Definition opened (w : list entry) : list (Z * Z) :=
  omap (λ e, match e with LEstablished l _ r => Some (l, r) | _ => None end) w.
Definition closed (w : list entry) : list (Z * Z) :=
  omap (λ e, match e with LDisconnected l r => Some (l, r) | _ => None end) w.
Definition table_pairs (q : gmap flow_key Z) : list (Z * Z) :=
  (λ '(k, l), (l, k.2)) <$> map_to_list q.

Lemma opened_app w w' : opened (w ++ w') = (opened w ++ opened w')%list.
Proof. apply omap_app. Qed.
Lemma closed_app w w' : closed (w ++ w') = (closed w ++ closed w')%list.
Proof. apply omap_app. Qed.

Lemma table_pairs_insert q k l :
  q !! k = None → table_pairs (<[k := l]> q) ≡ₚ (l, k.2) :: table_pairs q.
Proof. intros Hk. unfold table_pairs. by rewrite map_to_list_insert. Qed.

Lemma table_pairs_delete q k l :
  q !! k = Some l → table_pairs q ≡ₚ (l, k.2) :: table_pairs (delete k q).
Proof. intros Hk. unfold table_pairs. by rewrite <- (map_to_list_delete q k l). Qed.

(** What [e] does from [s] is in the log. *)
Definition accounts {A} (e : L A) (s : tracker) : Prop := ∀ a s' w,
  e s = Ok (a, s', w) →
  (opened w ++ table_pairs (qpn_map s) ≡ₚ closed w ++ table_pairs (qpn_map s'))%list.

(** Code that leaves the table and reports no change of it. *)
Definition neutral {A} (e : L A) : Prop := ∀ s a s' w,
  e s = Ok (a, s', w) → qpn_map s' = qpn_map s ∧ opened w = [] ∧ closed w = [].

Lemma L_bind_Ok {A B} (e : L A) (k : A → L B) s b s' w :
  (e ≫= k) s = Ok (b, s', w) →
  ∃ a s1 w1 w2, e s = Ok (a, s1, w1) ∧ k a s1 = Ok (b, s', w2) ∧ w = (w1 ++ w2)%list.
Proof.
  unfold mbind, L_bind. destruct (e s) as [[[a s1] w1]|]; [|done].
  destruct (k a s1) as [[[b' s2] w2]|] eqn:E; [|done]. intros [= <- <- <-]. by exists a, s1, w1, w2.
Qed.

Lemma neutral_accounts {A} (e : L A) s : neutral e → accounts e s.
Proof. intros Hn a s' w He. by destruct (Hn _ _ _ _ He) as (-> & -> & ->). Qed.

(** One piece of log after the other. *)
Lemma account_app w1 w2 (t0 t1 t2 : list (Z * Z)) :
  (opened w1 ++ t0 ≡ₚ closed w1 ++ t1)%list → (opened w2 ++ t1 ≡ₚ closed w2 ++ t2)%list →
  (opened (w1 ++ w2) ++ t0 ≡ₚ closed (w1 ++ w2) ++ t2)%list.
Proof.
  intros H1 H2. rewrite opened_app, closed_app, <- !app_assoc.
  etransitivity; [apply Permutation_app_swap_app|]. etransitivity; [apply Permutation_app_head, H1|].
  etransitivity; [apply Permutation_app_swap_app|]. by apply Permutation_app_head.
Qed.

Lemma accounts_bind {A B} (e : L A) (k : A → L B) s :
  accounts e s → (∀ a s1 w, e s = Ok (a, s1, w) → accounts (k a) s1) → accounts (e ≫= k) s.
Proof.
  intros He Hk b s' w (a & s1 & w1 & w2 & H1 & H2 & ->)%L_bind_Ok.
  eapply account_app; [exact (He _ _ _ H1)|exact (Hk _ _ _ H1 _ _ _ H2)].
Qed.

Create HintDb neutral.

Lemma neutral_bind {A B} (e : L A) (k : A → L B) : neutral e → (∀ a, neutral (k a)) → neutral (e ≫= k).
Proof.
  intros He Hk s b s' w (a & s1 & w1 & w2 & H1 & H2 & ->)%L_bind_Ok.
  destruct (He _ _ _ _ H1) as (E1 & E2 & E3), (Hk _ _ _ _ _ H2) as (F1 & F2 & F3).
  rewrite opened_app, closed_app. by rewrite E2, E3, F1, F2, F3.
Qed.
Lemma neutral_ret {A} (a : A) : neutral (mret a).
Proof. by intros s b s' w [= <- <- <-]. Qed.
Lemma neutral_tell x : opened [x] = [] → closed [x] = [] → neutral (tell x).
Proof. intros Ho Hc s b s' w Hs. rewrite tell_eq in Hs. by injection Hs as <- <- <-. Qed.
Lemma neutral_mute {A} (e : M A) :
  (∀ s a s', e s = Ok (a, s') → qpn_map s' = qpn_map s) → neutral (mute e).
Proof.
  intros He s a s' w. unfold mute. destruct (e s) as [[b s1]|] eqn:E; [|done]. intros [= <- <- <-].
  by rewrite (He _ _ _ E).
Qed.
Lemma neutral_lift {A} (e : result A) : neutral (mute (lift e)).
Proof. apply neutral_mute. by intros s a s' [_ ->]%lift_Ok. Qed.
Lemma neutral_assert b : neutral (mute (assertM b)).
Proof. apply neutral_lift. Qed.
Lemma neutral_obj l : neutral (mute (obj l)).
Proof. apply neutral_mute. by intros s a s' [_ ->]%obj_Ok. Qed.
Lemma neutral_get_state : neutral (mute get_state).
Proof. apply neutral_mute. by intros s a s' [_ ->]%get_state_Ok. Qed.
Lemma neutral_assign l g : neutral (mute (assign l g)).
Proof. apply neutral_mute. by intros s a s' (f & _ & ->)%assign_Ok. Qed.
Lemma neutral_make_shared : neutral (mute make_shared).
Proof. apply neutral_mute. by intros s a s' [= <- <-]. Qed.
Lemma neutral_update g : (∀ s, qpn_map (g s) = qpn_map s) → neutral (mute (update g)).
Proof. intros Hg. apply neutral_mute. by intros s a s' ->%update_Ok. Qed.
#[export] Hint Resolve neutral_ret neutral_lift neutral_assert neutral_obj neutral_get_state neutral_assign
  neutral_make_shared : neutral.

Lemma neutral_note l line : (∀ f, opened [line f] = [] ∧ closed [line f] = []) → neutral (note l line).
Proof.
  intros Hl. apply neutral_bind; [apply neutral_obj|]. intros f. by apply neutral_tell; apply Hl.
Qed.
Lemma neutral_log_flow cf func l : neutral (log_flow cf func l).
Proof. by apply neutral_note. Qed.
#[export] Hint Resolve neutral_log_flow : neutral.

Ltac neutral_step :=
  match goal with
  | |- neutral (note _ _) => by apply neutral_note
  | |- neutral (mute (update _)) => by apply neutral_update
  | |- neutral (tell _) => by apply neutral_tell
  | |- neutral (_ ≫= _) => apply neutral_bind; [|intros ?]
  | |- neutral (let _ := _ in _) => cbn zeta
  | |- neutral (match ?x with _ => _ end) => destruct x
  | _ => by auto with neutral
  end.
Ltac neutral_all := repeat neutral_step.

Lemma neutral_add_new_flow i k : neutral (add_new_flow_log i k).
Proof.
  unfold add_new_flow_log. neutral_all.
  all: apply neutral_mute; intros s u s' Hs; destruct (_ && _); inv_M; done.
Qed.
#[export] Hint Resolve neutral_add_new_flow : neutral.

Lemma neutral_get_flow i k : neutral (get_flow_log i k).
Proof. unfold get_flow_log. neutral_all. Qed.
#[export] Hint Resolve neutral_get_flow : neutral.

Lemma mute_Ok {A} (e : M A) s a s' w : mute e s = Ok (a, s', w) → e s = Ok (a, s') ∧ w = [].
Proof. unfold mute. destruct (e s) as [[b s1]|]; [|done]. by intros [= <- <- <-]. Qed.

Lemma note_Ok l line s u s' w :
  note l line s = Ok (u, s', w) → ∃ f, heap s !! l = Some f ∧ s' = s ∧ w = [line f].
Proof.
  intros (f & s1 & w1 & w2 & [[Hf ->]%obj_Ok ->]%mute_Ok & Ht & ->)%L_bind_Ok.
  rewrite tell_eq in Ht. injection Ht as <- <- <-. by exists f.
Qed.

(** Decompose a run of code that logs. *)
Ltac inv_L Hs :=
  repeat match type of Hs with
  | (mute _ ≫= _) _ = Ok _ =>
      let a := fresh "a" in let s1 := fresh "s" in let E := fresh "E" in
      apply L_bind_Ok in Hs as (a & s1 & ? & ? & [E ->]%mute_Ok & Hs & ->); inv_M
  end.

(** Listing a connection. *)
Lemma on_established_accounts l s : accounts (on_established_log l) s.
Proof.
  intros [] s' w Hs. unfold on_established_log in Hs. inv_L Hs. cbn [app].
  destruct (orb _ _); [by injection Hs as <- <-|]. inv_L Hs.
  destruct (qpn_map _ !! get_flow_key a) eqn:Hq; [by injection Hs as <- <-|].
  inv_L Hs. apply note_Ok in Hs as (f1 & Hf1 & -> & ->). cbn in *. simplify_map_eq.
  cbn. by rewrite table_pairs_insert.
Qed.

(** Unlisting a flow that is listed. *)
Lemma on_disconnected_accounts l f s :
  heap s !! l = Some f → qpn_map s !! get_flow_key f = Some (local_qpn f) →
  accounts (on_disconnected_log l) s.
Proof.
  intros Hf Hq [] s' w Hs. unfold on_disconnected_log in Hs. inv_L Hs. cbn [app]. simplify_eq.
  destruct (orb _ _); [by injection Hs as <- <-|]. inv_L Hs. rewrite Hq in Hs.
  inv_L Hs. apply note_Ok in Hs as (f1 & Hf1 & -> & ->). cbn in *. simplify_map_eq.
  cbn. by rewrite (table_pairs_delete _ _ _ Hq).
Qed.

Lemma erase_flow_accounts i k s : wf s → accounts (erase_flow_log i k) s.
Proof.
  intros W. unfold erase_flow_log. apply accounts_bind; [apply neutral_accounts; by auto with neutral|].
  intros ? s1 w [[_ ->]%assertM_Ok ->]%mute_Ok.
  apply accounts_bind; [apply neutral_accounts; by auto with neutral|].
  intros ? s1 w [[-> ->]%get_state_Ok ->]%mute_Ok. destruct (negb (i =? 0)).
  all: match goal with |- accounts (match ?x with _ => _ end) _ => destruct x end;
    [|apply neutral_accounts; by apply neutral_tell].
  all: apply accounts_bind; [apply neutral_accounts; by auto with neutral|].
  all: intros f s1 w [[Hf ->]%obj_Ok ->]%mute_Ok.
  all: apply accounts_bind; [|intros; apply neutral_accounts; neutral_all].
  all: destruct (in_qpn_map f) eqn:Hin; [|apply neutral_accounts; by auto with neutral].
  all: eapply on_disconnected_accounts; [exact Hf|by apply (wf_listed _ W _ _ Hf Hin)].
Qed.

Section Account.
Context {P : Type} `{CmPacket P} (cf : string → string).

(** The lookup reports nothing about the table, and leaves the invariant. *)
Lemma flow_accounts i k func (kl : loc → flow_state → L unit) s :
  wf s → (∀ l f s1, wf s1 → accounts (kl l f) s1) →
  accounts (st ← get_flow_log i k; _ ← log_flow cf func st; f ← mute (obj st); kl st f) s.
Proof.
  intros W Hk. apply accounts_bind; [by apply neutral_accounts, neutral_get_flow|].
  intros l s1 w Hg. assert (Hg' : get_flow i k s = Ok (l, s1)).
  { rewrite <- (get_flow_same i k s (wf_linked _ W)). unfold forget. by rewrite Hg. }
  destruct (get_flow_spec _ _ _ _ _ W Hg') as ([W1 _ _] & _).
  apply accounts_bind; [by apply neutral_accounts, neutral_log_flow|].
  intros [] s2 w2 (f & _ & -> & _)%note_Ok.
  apply accounts_bind; [apply neutral_accounts, neutral_obj|].
  intros f' s2 w3 [[_ ->]%obj_Ok _]%mute_Ok. auto.
Qed.

Ltac accounts_step :=
  match goal with
  | |- accounts (mute (lift _) ≫= _) _ =>
      apply accounts_bind; [apply neutral_accounts, neutral_lift|intros ? ? ? [[_ ->]%lift_Ok _]%mute_Ok]
  | W : wf ?s |- accounts (get_flow_log _ _ ≫= _) ?s => apply flow_accounts; [exact W|intros l f s1 W1]
  | |- accounts (match state ?f with _ => _ end) _ => destruct (state f)
  | W : wf ?s |- accounts (erase_flow_log _ _ ≫= _) ?s =>
      apply accounts_bind; [by apply erase_flow_accounts|intros]
  | |- accounts (on_established_log _ ≫= _) _ => apply accounts_bind; [apply on_established_accounts|intros]
  | |- accounts (if decide _ then _ else _) _ => case_decide
  | |- accounts (tell _ ≫= _) ?s =>
      apply accounts_bind; [apply neutral_accounts; by apply neutral_tell
                           |intros ? ? ?; rewrite tell_eq; intros [= <- <- <-]]
  | |- accounts (mret _ ≫= _) ?s => apply accounts_bind; [apply neutral_accounts, neutral_ret|intros ? ? ? [= <- <- <-]]
  | |- accounts ((if decide _ then _ else _) ≫= _) _ => case_decide
  | _ => apply neutral_accounts; by neutral_all
  | |- accounts (mute (assign _ _) ≫= _) _ => apply accounts_bind; [apply neutral_accounts, neutral_assign|intros]
  end.

Lemma process_accounts (p : P) dir s : wf s → accounts (process_log cf p dir) s.
Proof.
  intros W. unfold process_log. accounts_step. unfold handler_log.
  destruct dir; repeat case_match; simplify_eq;
    unfold req_sent_log, req_received_log, rej_sent_log, rej_received_log, rep_sent_log, rep_received_log,
      rtu_sent_log, rtu_received_log, dreq_sent_log, dreq_received_log, drep_sent_log, drep_received_log;
    repeat accounts_step.
Qed.

(** C21: the log is a faithful account of the table.  Over any run from the empty
    tracker, the connections that the log reports as established, each with its two
    queue pairs and as often as it is reported, are exactly those that it reports as
    disconnected together with those that the table of queue pairs lists at the
    end. *)
Theorem log_accounts tr s w :
  run_log cf empty_tracker tr = Ok (s, w) →
  opened w ≡ₚ (closed w ++ table_pairs (qpn_map s))%list.
Proof.
  intros Hr. assert (Hgen : ∀ s0, wf s0 → run_log cf s0 tr = Ok (s, w) →
    (opened w ++ table_pairs (qpn_map s0) ≡ₚ closed w ++ table_pairs (qpn_map s))%list).
  { clear Hr. revert w. induction tr as [|[dir p] tr IH]; intros w s0 W Hr; cbn [run_log] in Hr.
    { by injection Hr as <- <-. }
    destruct (process_log cf p dir s0) as [[[[] s1] w1]|] eqn:E; [|done].
    destruct (run_log cf s1 tr) as [[s2 w2]|] eqn:E2; [|done]. injection Hr as <- <-.
    assert (W1 : wf s1).
    { apply (process_wf s0 p dir tt s1 W). rewrite <- (process_same cf p dir s0 W). unfold forget. by rewrite E. }
    eapply account_app; [exact (process_accounts p dir s0 W _ _ _ E)|exact (IH w2 s1 W1 E2)]. }
  specialize (Hgen empty_tracker wf_empty Hr).
  change (table_pairs (qpn_map empty_tracker)) with (@nil (Z * Z)) in Hgen. by rewrite app_nil_r in Hgen.
Qed.
End Account.
