(* ===== verification/TrackerFaults.v ===== *)
(** * TrackerFaults: when processing stops the program

    On a packet whose fields can be read, the tracker never follows a dangling or
    null pointer: the only way it stops is one of its assertions.  Messages that a
    peer can send do make them fail; the conditions are proved here, as are two
    ways in which unusual messages leave the tables in a state that the protocol
    does not have. *)

From Stdlib Require Import ZArith Lia String.
From stdpp Require Import base tactics numbers list strings gmap.
From S2P Require Import Prelude Memory Layout IbMad Iba IbtaC12 Mbuf CmPacket Tracker TrackerInv TrackerStep TrackerSpec Handshake TrackerTrace.

Local Open Scope string_scope.
Open Scope Z_scope.
Open Scope ctcm_scope.

(** ** Only assertions *)

(** [e] run from [s] can stop only by an assertion, and otherwise satisfies [Q]. *)
Definition asserts {A} (Q : A → tracker → Prop) (e : M A) (s : tracker) : Prop :=
  match e s with Ok (a, s') => Q a s' | Fault x => x = AssertFailure end.

Lemma asserts_bind {A B} (Q : B → tracker → Prop) (e : M A) (k : A → M B) s :
  asserts (λ a s1, asserts Q (k a) s1) e s → asserts Q (e ≫= k) s.
Proof. unfold asserts, mbind, M_bind. by destruct (e s) as [[a s1]|x]. Qed.

Lemma asserts_ret {A} (Q : A → tracker → Prop) a s : Q a s → asserts Q (mret a) s.
Proof. done. Qed.

Lemma asserts_assert (Q : unit → tracker → Prop) b s : (b = true → Q tt s) → asserts Q (assertM b) s.
Proof. unfold asserts, assertM. destruct b; cbn; auto. Qed.

Lemma asserts_obj (Q : flow_state → tracker → Prop) l f s :
  heap s !! l = Some f → Q f s → asserts Q (obj l) s.
Proof. intros Hf HQ. unfold asserts, obj. by rewrite Hf. Qed.

Lemma asserts_update (Q : unit → tracker → Prop) g s : Q tt (g s) → asserts Q (update g) s.
Proof. done. Qed.

Lemma asserts_assign (Q : unit → tracker → Prop) l f g s :
  heap s !! l = Some f → Q tt (upd l (g f) s) → asserts Q (assign l g) s.
Proof. intros Hf HQ. unfold asserts. by rewrite (assign_run _ _ _ _ Hf). Qed.

Lemma asserts_weaken {A} (Q Q' : A → tracker → Prop) e s :
  asserts Q e s → (∀ a s', e s = Ok (a, s') → Q a s' → Q' a s') → asserts Q' e s.
Proof. unfold asserts. destruct (e s) as [[a s']|x]; auto. Qed.

Definition anyQ {A} : A → tracker → Prop := λ _ _, True.

Lemma asserts_name_local lid l f s :
  heap s !! l = Some f →
  asserts (λ _ s', ∃ f', heap s' !! l = Some f') (name_local lid l) s.
Proof.
  intros Hf. apply asserts_bind, (asserts_obj _ l f); [done|].
  apply asserts_bind, asserts_assert. intros _.
  apply asserts_bind, (asserts_assign _ l f); [done|]. apply asserts_update.
  eexists. apply lookup_insert_eq.
Qed.

Lemma asserts_name_remote rid l f s :
  heap s !! l = Some f → asserts anyQ (name_remote rid l) s.
Proof.
  intros Hf. apply asserts_bind, (asserts_obj _ l f); [done|].
  apply asserts_bind, asserts_assert. intros _.
  by apply asserts_bind, (asserts_assign _ l f).
Qed.

Lemma asserts_add_tail lid rid (b c : bool) l f s :
  heap s !! l = Some f →
  asserts anyQ (_ ← (if b then name_local lid l else mret tt);
                _ ← (if c then name_remote rid l else mret tt); mret l) s.
Proof.
  intros Hf. apply asserts_bind. eapply (asserts_weaken (λ _ s', ∃ f', heap s' !! l = Some f')).
  - destruct b; [by eapply asserts_name_local|]. by exists f.
  - intros _ s' _ (f' & Hf'). apply asserts_bind. eapply asserts_weaken.
    + destruct c; [by eapply asserts_name_remote|]. by apply (asserts_ret anyQ).
    + done.
Qed.

Lemma asserts_add_new_flow lid rid s : wf s → asserts anyQ (add_new_flow lid rid) s.
Proof.
  intros W. apply asserts_bind. change (asserts anyQ
    (let local_it := local_map s !! lid in let remote_it := remote_map s !! rid in
     match local_it, remote_it with
     | Some a, Some b =>
         _ ← assertM (bool_decide (a = b)); f ← obj a;
         _ ← assertM (bool_decide (local_id f = lid) && bool_decide (remote_id f = rid)); mret a
     | _, _ =>
         st ← match local_it, remote_it with
              | Some a, _ => mret a
              | None, Some b => mret b
              | None, None => _ ← assertM (negb (lid =? 0) || key_bool rid); make_shared
              end;
         _ ← (if bool_decide (local_it = None) && negb (lid =? 0) then name_local lid st else mret tt);
         _ ← (if bool_decide (remote_it = None) && key_bool rid then name_remote rid st else mret tt);
         mret st
     end) s).
  cbn zeta. destruct (local_map s !! lid) as [a|] eqn:HL, (remote_map s !! rid) as [b|] eqn:HR.
  - destruct (wf_local _ W _ _ HL) as (_ & f & Hf & _).
    apply asserts_bind, asserts_assert. intros _. apply asserts_bind, (asserts_obj _ a f); [done|].
    by apply asserts_bind, asserts_assert.
  - destruct (wf_local _ W _ _ HL) as (_ & f & Hf & _). by apply asserts_bind, asserts_ret, asserts_add_tail with f.
  - destruct (wf_remote _ W _ _ HR) as (_ & f & Hf & _). by apply asserts_bind, asserts_ret, asserts_add_tail with f.
  - apply asserts_bind, asserts_bind, asserts_assert. intros _.
    apply (asserts_add_tail lid rid _ _ (next s) new_flow_state). apply lookup_insert_eq.
Qed.

Lemma asserts_get_flow lid rid s : wf s → asserts anyQ (get_flow lid rid) s.
Proof.
  intros W. apply asserts_bind, asserts_assert. intros _. unfold asserts.
  rewrite (M_bind_l get_state _ s s s) by done. cbn zeta.
  destruct (if negb (lid =? 0) then local_map s !! lid else remote_map s !! rid); [done|].
  by apply asserts_add_new_flow.
Qed.

Lemma asserts_on_established l f s : heap s !! l = Some f → asserts anyQ (on_established l) s.
Proof.
  intros Hf. apply asserts_bind, (asserts_obj _ l f); [done|]. destruct (orb _ _); [done|].
  unfold asserts. rewrite (M_bind_l get_state _ s s s) by done.
  destruct (qpn_map s !! get_flow_key f); [done|].
  erewrite M_bind_l by done. by erewrite assign_run by exact Hf.
Qed.

Lemma asserts_on_disconnected l f s : heap s !! l = Some f → asserts anyQ (on_disconnected l) s.
Proof.
  intros Hf. apply asserts_bind, (asserts_obj _ l f); [done|]. destruct (orb _ _); [done|].
  unfold asserts. rewrite (M_bind_l get_state _ s s s) by done.
  destruct (qpn_map s !! get_flow_key f); [|done].
  erewrite M_bind_l by done. by erewrite assign_run by exact Hf.
Qed.

Lemma asserts_erase_flow lid rid s : wf s → asserts anyQ (erase_flow lid rid) s.
Proof.
  intros W. apply asserts_bind, asserts_assert. intros _. unfold asserts.
  rewrite (M_bind_l get_state _ s s s) by done. fold (asserts (@anyQ unit)).
  destruct (negb (lid =? 0)).
  - destruct (local_map s !! lid) as [l|] eqn:HL; [|done].
    destruct (wf_local _ W _ _ HL) as (_ & f & Hf & _). rewrite (obj_bind _ _ _ _ Hf).
    apply (asserts_bind anyQ). eapply asserts_weaken; [|done].
    destruct (in_qpn_map f); [by eapply asserts_on_disconnected|done].
  - destruct (remote_map s !! rid) as [l|] eqn:HR; [|done].
    destruct (wf_remote _ W _ _ HR) as (_ & f & Hf & _). rewrite (obj_bind _ _ _ _ Hf).
    apply (asserts_bind anyQ). eapply asserts_weaken; [|done].
    destruct (in_qpn_map f); [by eapply asserts_on_disconnected|done].
Qed.

Lemma asserts_handler lid rid (k : loc → flow_state → M unit) s :
  wf s → (∀ l f s1, wf s1 → heap s1 !! l = Some f → asserts anyQ (k l f) s1) →
  asserts anyQ (st ← get_flow lid rid; f ← obj st; k st f) s.
Proof.
  intros W Hk. apply asserts_bind. eapply asserts_weaken; [by apply asserts_get_flow|].
  intros l s1 Hg _. destruct (get_flow_spec _ _ _ _ _ W Hg) as (C & _ & _ & f & Hf & _).
  apply asserts_bind, (asserts_obj _ l f); [done|]. apply Hk; [by apply C|done].
Qed.

(** Handlers, after their reads. *)
Lemma wf_set_state s l f x :
  wf s → heap s !! l = Some f → used_state x = true → live_state (state f) = false →
  wf (upd l (set_state x f) s).
Proof.
  intros W Hf Hx Hl. eapply wf_assign; [done|done|by split|].
  apply set_state_ok; [by eapply wf_flow|done|congruence].
Qed.

Lemma asserts_rep_sent m s : wf s → asserts anyQ (rep_sent m) s.
Proof.
  intros W. unfold asserts, rep_sent. read_goal. apply (asserts_handler _ _ _ s W).
  intros l f s1 W1 Hf. cbn beta. destruct (state f) eqn:Hst; try done.
  all: apply asserts_bind, (asserts_assign _ l f); [done|]; apply asserts_bind.
  all: assert (W2 : wf (upd l (set_state REP_SENT f) s1)) by (by apply wf_set_state; rewrite ?Hst).
  all: eapply asserts_weaken; [by apply asserts_add_new_flow|]; intros l' s2 Had _.
  all: unfold asserts; read_goal.
  all: destruct (heap s2 !! l) as [f2|] eqn:Hf2; [by rewrite (assign_run _ _ _ _ Hf2)|].
  all: apply (bk_grows _ _ _ _ (add_new_flow_bk _ _ _ _ _ W2 Had)) in Hf2; by rewrite heap_upd in Hf2.
Qed.

Lemma asserts_rep_received m s : wf s → asserts anyQ (rep_received m) s.
Proof.
  intros W. unfold asserts, rep_received. read_goal. apply (asserts_handler _ _ _ s W).
  intros l f s1 W1 Hf. cbn beta. destruct (state f) eqn:Hst; try done.
  all: apply asserts_bind, (asserts_assign _ l f); [done|]; unfold asserts; read_goal.
  all: assert (W2 : wf (upd l (set_state REP_RCVD f) s1)) by (by apply wf_set_state; rewrite ?Hst).
  all: pose proof (not_live_unlisted _ _ _ W1 Hf ltac:(by rewrite Hst)) as Hin.
  all: rewrite (assign_bind _ _ _ _ _ (heap_upd _ _ _)).
  all: eapply (asserts_bind anyQ), asserts_weaken; [apply asserts_add_new_flow|done].
  all: pose proof (wf_flow _ W1 _ _ Hf) as [Fs Fr Fl].
  all: eapply wf_assign; [done|apply heap_upd|split; cbn; [done..|congruence]
                         |split; cbn; [done|done|congruence]].
Qed.

Lemma asserts_req_sent m s : wf s → asserts anyQ (req_sent m) s.
Proof.
  intros W. unfold asserts, req_sent. read_goal. apply (asserts_handler _ _ _ s W).
  intros l f s1 W1 Hf. cbn beta. destruct (state f); try done.
  all: apply asserts_bind, (asserts_assign _ l f); [done|]; unfold asserts; read_goal.
  all: by rewrite (assign_run _ _ _ _ (heap_upd _ _ _)).
Qed.

Lemma asserts_req_received m s : wf s → asserts anyQ (req_received m) s.
Proof.
  intros W. unfold asserts, req_received. read_goal. apply (asserts_handler _ _ _ s W).
  intros l f s1 W1 Hf. cbn beta. destruct (state f) eqn:Hst; try done.
  all: apply asserts_bind.
  1: rewrite decide_False by (by intros []); apply asserts_ret.
  2: rewrite decide_True by done; unfold asserts at 1; read_goal; apply asserts_assert; intros _.
  all: apply asserts_bind, (asserts_assign _ l f); [done|]; unfold asserts; read_goal.
  all: by rewrite (assign_run _ _ _ _ (heap_upd _ _ _)).
Qed.

Lemma asserts_rest m s :
  wf s →
  asserts anyQ (rej_sent m) s ∧ asserts anyQ (rej_received m) s ∧ asserts anyQ (drep_sent m) s ∧
  asserts anyQ (drep_received m) s ∧ asserts anyQ (rtu_sent m) s ∧ asserts anyQ (rtu_received m) s ∧
  asserts anyQ (dreq_sent m) s ∧ asserts anyQ (dreq_received m) s.
Proof.
  intros W. unfold asserts, rej_sent, rej_received, drep_sent, drep_received, rtu_sent, rtu_received,
    dreq_sent, dreq_received. read_goal.
  split_and!; apply (asserts_handler _ _ _ s W); intros l f s1 W1 Hf; cbn beta;
    destruct (state f); try done;
    first [ by apply asserts_erase_flow
          | by apply (asserts_assign _ l f)
          | apply asserts_bind, (asserts_assign _ l f); [done|];
            by apply (asserts_on_established _ _ _ (heap_upd _ _ _)) ].
Qed.

Lemma asserts_process (m : cm_msg) dir s : wf s → asserts anyQ (process m dir) s.
Proof.
  intros W.  unfold asserts. rewrite process_eq.
  rewrite (M_bind_l _ _ s (m_attr m) s) by (apply lift_Ok; by rewrite read_attr).
  destruct (asserts_rest m s W) as (A1 & A2 & A3 & A4 & A5 & A6 & A7 & A8).
  unfold handler_of. destruct dir;
  (destruct (m_attr m =? CM_REQ_ATTR_ID);
   [|destruct (m_attr m =? CM_REJ_ATTR_ID);
   [|destruct (m_attr m =? CM_REP_ATTR_ID);
   [|destruct (m_attr m =? CM_RTU_ATTR_ID);
   [|destruct (m_attr m =? CM_DREQ_ATTR_ID);
   [|destruct (m_attr m =? CM_DREP_ATTR_ID)]]]]]);
  lazymatch goal with
  | |- context [rej_sent m] => exact A1
  | |- context [rej_received m] => exact A2
  | |- context [drep_sent m] => exact A3
  | |- context [drep_received m] => exact A4
  | |- context [rtu_sent m] => exact A5
  | |- context [rtu_received m] => exact A6
  | |- context [dreq_sent m] => exact A7
  | |- context [dreq_received m] => exact A8
  | |- context [req_sent m] => by apply asserts_req_sent
  | |- context [req_received m] => by apply asserts_req_received
  | |- context [rep_sent m] => by apply asserts_rep_sent
  | |- context [rep_received m] => by apply asserts_rep_received
  | |- _ => by rewrite read_log
  end.
Qed.

(** With a consistent tracker and a packet whose fields can be read, the
    processing never dereferences a null or dangling pointer and reads nothing out
    of bounds: if it stops the program, it is by one of the assertions. *)
Theorem only_assertions {P} `{CmPacket P} s (p : P) m dir :
  wf s → carries p m → process p dir s ≠ Fault NullPointer ∧ process p dir s ≠ Fault OutOfBounds.
Proof.
  intros W Hc. pose proof (asserts_process m dir s W) as Ha.
  rewrite (carries_process _ _ _ _ Hc). unfold asserts in Ha.
  destruct (process m dir s) as [[u s']|x]; [done|]. by subst x.
Qed.

(** ** Messages that make an assertion fail *)

Lemma get_flow_nothing {A} (k : loc → M A) s :
  (get_flow 0 no_key ≫= k) s = Fault AssertFailure.
Proof. done. Qed.

(** A message that names no connection stops the program, whatever the state of
    the tracker: a REQ whose local communication id is zero, an RTU, DREQ or DREP
    whose id for the local side is zero, or such a REP from the network. *)
Theorem zero_comm_id_aborts {P} `{CmPacket P} s (p : P) m dir :
  carries p m →
  (m_attr m = CM_REQ_ATTR_ID ∧ m_local_comm_id m = 0) ∨
  (m_attr m = CM_RTU_ATTR_ID ∨ m_attr m = CM_DREQ_ATTR_ID ∨ m_attr m = CM_DREP_ATTR_ID ∨
   m_attr m = CM_REP_ATTR_ID ∧ dir = CTCM_FROM_NET) ∧ own_id dir m = 0 →
  process p dir s = Fault AssertFailure.
Proof.
  intros Hc Hm. rewrite (carries_process _ _ _ _ Hc).
  destruct Hm as [[Ha Hl]|[Ha Ho]]; [|destruct Ha as [Ha|[Ha|[Ha|[Ha Hd]]]]];
    destruct dir; try discriminate Hd; try (rewrite own_id_net in Ho by (by rewrite Ha)); try (cbn in Ho);
    erewrite process_handler by (by rewrite Ha);
    unfold req_sent, req_received, rep_received, rtu_sent, rtu_received, dreq_sent, dreq_received,
      drep_sent, drep_received; read_goal; rewrite ?Hl, ?Ho; try apply get_flow_nothing.
  unfold get_flow, mbind, M_bind, assertM, lift, assert_that, key_bool. cbn.
  by rewrite andb_false_r.
Qed.

(** A REQ from the network that repeats the ids of a pending one with another
    queue pair number stops the program. *)
Theorem conflicting_req_aborts {P} `{CmPacket P} s (p : P) m l f :
  carries p m → m_attr m = CM_REQ_ATTR_ID → m_saddr m ≠ 0 → m_local_comm_id m ≠ 0 →
  remote_map s !! (m_saddr m, m_local_comm_id m) = Some l → heap s !! l = Some f →
  state f = REQ_RCVD → remote_qpn f ≠ m_qpn m →
  process p CTCM_FROM_NET s = Fault AssertFailure.
Proof.
  intros Hc Ha Hs Hl HR Hf Hst Hq. rewrite (carries_process _ _ _ _ Hc).
  rewrite (process_handler m _ req_received) by (by rewrite Ha).
  unfold req_received. read_goal.
  rewrite (M_bind_l _ _ s l s).
  2:{ unfold get_flow, mbind, M_bind, assertM, lift, assert_that. rewrite key_bool_true by done.
      cbn -[lookup]. by rewrite HR. }
  rewrite (obj_bind _ _ _ _ Hf), Hst, decide_True by done.
  unfold mbind at 1, M_bind. read_goal. by rewrite (proj2 (Z.eqb_neq _ _) Hq).
Qed.

(** ** Unusual messages that leave unusual tables *)

Definition message (attr local_comm_id remote_comm_id qpn saddr daddr : Z) : cm_msg :=
  {| m_attr := attr; m_local_comm_id := local_comm_id; m_remote_comm_id := remote_comm_id;
     m_qpn := qpn; m_saddr := saddr; m_daddr := daddr |}.

(** Host 1 connects to host 2: ids 5 and 7, queue pairs 100 and 200. *)
Definition example_handshake : list (ctcm_direction * cm_msg) :=
  [(CTCM_FROM_HOST, message CM_REQ_ATTR_ID 5 0 100 1 2);
   (CTCM_FROM_NET, message CM_REP_ATTR_ID 7 5 200 2 1);
   (CTCM_FROM_HOST, message CM_RTU_ATTR_ID 5 7 0 1 2)].

(** [erase_flow] removes the other map's entry under the id that the packet
    names, not under the flow's own id.  After a REJ that carries no sender id, the
    flow stays reachable by its remote key; when the peer then opens a new
    connection with that id, the ordinary REP of the host stops the program. *)
Theorem stale_entry_aborts :
  run empty_tracker
    (example_handshake ++
     [(CTCM_FROM_NET, message CM_REJ_ATTR_ID 0 5 0 2 1);
      (CTCM_FROM_NET, message CM_REQ_ATTR_ID 7 0 300 2 1);
      (CTCM_FROM_HOST, message CM_REP_ATTR_ID 6 7 101 1 2)]) = Fault AssertFailure.
Proof. vm_compute. reflexivity. Qed.

(** A REP whose sender id is zero is accepted by [rep_received], but gives the
    flow no remote key: the RTU then lists the connection under address zero, and
    the query for the peer's address does not find it. *)
Theorem zero_rep_id_lists_no_address :
  match run empty_tracker
          [(CTCM_FROM_HOST, message CM_REQ_ATTR_ID 5 0 100 1 2);
           (CTCM_FROM_NET, message CM_REP_ATTR_ID 0 5 200 2 1);
           (CTCM_FROM_HOST, message CM_RTU_ATTR_ID 5 0 0 1 2)] with
  | Ok s => get_source_qpn s (2, 200) = 0 ∧ get_source_qpn s (0, 200) = 100
  | Fault _ => False
  end.
Proof. vm_compute. by split. Qed.
