(* ===== verification/Verdict.v ===== *)
(** * Verdict: exactly the messages that stop the program

    A table of the assertions of the tracker, seen from outside: for a message and
    the state it meets, whether processing it fails an assertion, and why.  The
    theorem says that the table is complete and exact: every other message is
    processed to the end. *)

From Stdlib Require Import ZArith Lia String.
From stdpp Require Import base tactics numbers list strings gmap.
From S2P Require Import Prelude Memory Layout IbMad Iba IbtaC12 Mbuf CmPacket Tracker TrackerInv TrackerStep TrackerSpec Handshake Conform TrackerTrace TrackerFaults.

Local Open Scope string_scope.
Open Scope Z_scope.
Open Scope ctcm_scope.

(** ** The table *)

(** The message names no flow; it names two flows, or a flow that has another id
    already; it repeats a request with another queue pair. *)
Inductive stop := Unnamed | Crossed | Changed.

#[global] Instance stop_eq_dec : EqDecision stop.
Proof. solve_decision. Defined.

(** The flow that the ids lead to. *)
Definition named (lid : Z) (rid : cm_flow_key) (s : tracker) : option flow_state :=
  match local_map s !! lid with
  | Some l => heap s !! l
  | None => l ← remote_map s !! rid; heap s !! l
  end.

Definition in_state (x : fstate) (f : option flow_state) : bool :=
  match f with Some f => bool_decide (state f = x) | None => false end.

(** Looking up the flow of a message. *)
Definition get_verdict (lid : Z) (rid : cm_flow_key) (s : tracker) : option stop :=
  if (lid =? 0) && negb (key_bool rid) then Some Unnamed else
  match local_map s !! lid, named lid rid s with
  | None, Some f => if (lid =? 0) || (local_id f =? 0) then None else Some Crossed
  | _, _ => None
  end.

(** Giving the flow of [lid] the key of the peer. *)
Definition add_verdict (lid : Z) (rid : cm_flow_key) (s : tracker) : option stop :=
  match local_map s !! lid, remote_map s !! rid with
  | Some a, Some b => if bool_decide (a = b) then None else Some Crossed
  | Some _, None =>
      match named lid rid s with
      | Some f => if key_bool rid && key_bool (remote_id f) then Some Crossed else None
      | None => None
      end
  | None, _ => None
  end.

(** One verdict, then another where the flow is in the state in which the handler
    goes on. *)
Definition and_in (x : fstate) (f : option flow_state) (v w : option stop) : option stop :=
  match v with Some e => Some e | None => if in_state x f then w else None end.

Definition verdict (dir : ctcm_direction) (m : cm_msg) (s : tracker) : option stop :=
  let lid := own_id dir m in
  let rid := peer_key dir m in
  let attr := m_attr m in
  if attr =? CM_REQ_ATTR_ID then
    match dir with
    | CTCM_FROM_HOST => get_verdict lid no_key s
    | CTCM_FROM_NET =>
        and_in REQ_RCVD (named 0 rid s) (get_verdict 0 rid s)
          (match named 0 rid s with
           | Some f => if remote_qpn f =? m_qpn m then None else Some Changed
           | None => None
           end)
    end
  else if attr =? CM_REJ_ATTR_ID then get_verdict lid rid s
  else if attr =? CM_REP_ATTR_ID then
    match dir with
    | CTCM_FROM_HOST => and_in REQ_RCVD (named lid rid s) (get_verdict lid rid s) (add_verdict lid rid s)
    | CTCM_FROM_NET => and_in REQ_SENT (named lid no_key s) (get_verdict lid no_key s) (add_verdict lid rid s)
    end
  else if (attr =? CM_RTU_ATTR_ID) || (attr =? CM_DREQ_ATTR_ID) || (attr =? CM_DREP_ATTR_ID) then
    get_verdict lid no_key s
  else None.

(** ** The operations *)

(** [e] fails an assertion when there is a reason, and otherwise returns with [Q]. *)
Definition judged {A} (v : option stop) (Q : A → tracker → Prop) (e : M A) (s : tracker) : Prop :=
  match v with Some _ => e s = Fault AssertFailure | None => returns Q e s end.

Definition any {A} : A → tracker → Prop := λ _ _, True.

Lemma judged_bind {A B} v (Q : A → tracker → Prop) (Q' : B → tracker → Prop) (e : M A) (k : A → M B) s :
  judged v Q e s → (∀ a s1, e s = Ok (a, s1) → Q a s1 → v = None → returns Q' (k a) s1) →
  judged v Q' (e ≫= k) s.
Proof.
  destruct v as [x|]; cbn; intros He Hk.
  - unfold mbind, M_bind. by rewrite He.
  - apply returns_bind. eapply returns_mono; [exact He|]. eauto.
Qed.

(** A first part that cannot be judged by itself. *)
Lemma judged_then {A B} x f v w (Q : A → tracker → Prop) (Q' : B → tracker → Prop) (e : M A) (k : A → M B) s :
  judged v Q e s →
  (∀ a s1, e s = Ok (a, s1) → Q a s1 → v = None → judged (if in_state x f then w else None) Q' (k a) s1) →
  judged (and_in x f v w) Q' (e ≫= k) s.
Proof.
  destruct v as [y|]; cbn; intros He Hk.
  - unfold mbind, M_bind. by rewrite He.
  - destruct He as (a & s1 & He & HQ). specialize (Hk a s1 He HQ eq_refl).
    unfold judged, returns in *. by rewrite (M_bind_l _ _ _ _ _ He).
Qed.

(** What [get_flow] leaves for the rest of a handler: the flow, as the ids named it
    before, or new. *)
Definition got (lid : Z) (rid : cm_flow_key) (s : tracker) (l : loc) (s1 : tracker) : Prop :=
  ∃ f, heap s1 !! l = Some f ∧
    match named lid rid s with
    | None => state f = IDLE
    | Some g => state f = state g ∧ remote_qpn f = remote_qpn g ∧
        ∀ r, r = rid ∨ rid = no_key → add_verdict lid r s1 = add_verdict lid r s
    end.

Lemma named_local lid rid s l f :
  local_map s !! lid = Some l → heap s !! l = Some f → named lid rid s = Some f.
Proof. unfold named. by intros -> ->. Qed.
Lemma named_remote lid rid s l f :
  local_map s !! lid = None → remote_map s !! rid = Some l → heap s !! l = Some f →
  named lid rid s = Some f.
Proof. unfold named. intros -> ->. by cbn. Qed.
Lemma named_none lid rid s :
  local_map s !! lid = None → remote_map s !! rid = None → named lid rid s = None.
Proof. unfold named. by intros -> ->. Qed.

Lemma got_same lid rid s l f :
  heap s !! l = Some f → named lid rid s = Some f → got lid rid s l s.
Proof. intros Hf Hn. exists f. by rewrite Hn. Qed.

(** A flow made for a local id, with or without the key of the peer. *)
Lemma get_flow_new lid rid s :
  wf s → lid ≠ 0 → local_map s !! lid = None → remote_map s !! rid = None →
  returns (got lid rid s) (get_flow lid rid) s.
Proof.
  intros W Hlid HL HR. unfold returns, got. rewrite named_none by done. run_unfold.
  rewrite (eqb_nonzero _ Hlid). run_cbn. rewrite HL. run_cbn. rewrite HL, HR. run_cbn.
  rewrite !lookup_insert_eq. run_cbn. rewrite !lookup_insert_eq. run_cbn.
  destruct (key_bool rid); run_cbn.
  - rewrite !lookup_insert_eq. run_cbn. rewrite !lookup_insert_eq. run_cbn.
    eexists _, _. split; [done|]. cbn. rewrite lookup_insert_eq. eauto.
  - eexists _, _. split; [done|]. cbn. rewrite lookup_insert_eq. eauto.
Qed.

Lemma get_flow_crossed lid rid s l f :
  lid ≠ 0 → local_map s !! lid = None → remote_map s !! rid = Some l → heap s !! l = Some f →
  local_id f ≠ 0 → get_flow lid rid s = Fault AssertFailure.
Proof.
  intros Hlid HL HR Hf Hid. run_unfold. rewrite (eqb_nonzero _ Hlid). run_cbn.
  rewrite HL. run_cbn. rewrite HL, HR. run_cbn. rewrite Hf. run_cbn. by rewrite (eqb_nonzero _ Hid).
Qed.

Lemma get_flow_judged lid rid s :
  wf s → judged (get_verdict lid rid s) (got lid rid s) (get_flow lid rid) s.
Proof.
  intros W. unfold get_verdict. destruct (Z.eqb_spec lid 0) as [->|Hlid]; cbn [andb orb].
  - pose proof (no_id_free _ W) as HL. destruct (key_bool rid) eqn:Hk; cbn [negb].
    2:{ cbn. unfold get_flow, mbind, M_bind, assertM, lift, assert_that. by rewrite Hk. }
    rewrite HL. destruct (remote_map s !! rid) as [l|] eqn:HR.
    + destruct (wf_remote _ W _ _ HR) as (_ & f & Hf & _).
      pose proof (named_remote _ _ _ _ _ HL HR Hf) as Hn. rewrite Hn. exists l, s.
      split; [|by eapply got_same]. run_M. by rewrite Hk, HR.
    + rewrite (named_none _ _ _ HL HR). destruct (get_flow_new_remote rid s W Hk HR) as (s1 & Hg & [Hh _ _ _]).
      exists (next s), s1. split; [done|]. eexists. split; [done|]. by rewrite named_none.
  - destruct (local_map s !! lid) as [l|] eqn:HL.
    + destruct (wf_local _ W _ _ HL) as (_ & f & Hf & _). exists l, s.
      split; [by apply get_flow_local|]. eapply got_same; [done|by eapply named_local].
    + destruct (remote_map s !! rid) as [l|] eqn:HR.
      2:{ rewrite (named_none _ _ _ HL HR). by apply get_flow_new. }
      destruct (wf_remote _ W _ _ HR) as (Hk & f & Hf & _).
      pose proof (named_remote _ _ _ _ _ HL HR Hf) as Hn. rewrite Hn.
      destruct (Z.eqb_spec (local_id f) 0) as [Hid|Hid]; [|by apply (get_flow_crossed lid rid s l f)].
      destruct (get_flow_add_local lid rid l f s Hlid HL HR Hf Hid) as (s1 & Hg & [Hh HL1 HR1 _]).
      exists l, s1. split; [done|]. eexists. split; [done|]. rewrite Hn. split_and!; [done..|].
      intros r [->|He]; [|by rewrite He in Hk]. unfold add_verdict.
      rewrite HL1, HR1, HL, HR, lookup_insert_eq, bool_decide_eq_true_2; done.
Qed.

Lemma add_verdict_upd lid rid s l f f' :
  heap s !! l = Some f → remote_id f' = remote_id f →
  add_verdict lid rid (upd l f' s) = add_verdict lid rid s.
Proof.
  intros Hf Hr. unfold add_verdict, named. cbn. destruct (local_map s !! lid) as [a|]; [|done].
  destruct (remote_map s !! rid); [done|]. destruct (decide (a = l)) as [->|Hne].
  - by rewrite lookup_insert_eq, Hf, Hr.
  - by rewrite lookup_insert_ne by done.
Qed.

Lemma add_new_flow_judged lid rid s :
  wf s → is_Some (named lid rid s) →
  (lid ≠ 0 → is_Some (local_map s !! lid)) →
  judged (add_verdict lid rid s) any (add_new_flow lid rid) s.
Proof.
  intros W Hn Hl. unfold add_verdict. destruct (local_map s !! lid) as [a|] eqn:HL.
  - destruct (wf_local _ W _ _ HL) as (_ & f & Hf & Hi).
    destruct (remote_map s !! rid) as [b|] eqn:HR.
    + destruct (bool_decide_reflect (a = b)) as [->|Hne].
      * destruct (wf_remote _ W _ _ HR) as (_ & g & Hg & Hr). simplify_eq.
        exists b, s. split; [by eapply add_both|done].
      * cbn [judged]. run_M. rewrite HL, HR. run_cbn. by rewrite bool_decide_eq_false_2.
    + rewrite (named_local _ _ _ _ _ HL Hf). destruct (key_bool rid) eqn:Hk; cbn [andb].
      * destruct (key_bool (remote_id f)) eqn:Hkf.
        -- cbn [judged]. run_M. rewrite HL, HR. run_cbn. rewrite Hk. run_cbn. rewrite Hf. run_cbn.
           by rewrite Hkf.
        -- destruct (add_remote lid rid a f s) as (s1 & Hs & _); [done..|]. by exists a, s1.
      * exists a, s. split; [|done]. run_M. rewrite HL, HR. run_cbn. by rewrite Hk.
  - destruct (decide (lid = 0)) as [->|Hlid]; [|by destruct (Hl Hlid)].
    unfold named in Hn. rewrite HL in Hn. destruct (remote_map s !! rid) as [b|] eqn:HR; [|by destruct Hn].
    exists b, s. split; [|done]. run_M. by rewrite HL, HR.
Qed.

(** The operations without an assertion of their own always return. *)
Lemma on_established_returns l f s : heap s !! l = Some f → returns any (on_established l) s.
Proof.
  intros Hf. apply returns_bind, (returns_obj _ l f); [done|]. destruct (orb _ _); [by apply returns_ret|].
  apply returns_bind. exists s, s. split; [done|].
  destruct (qpn_map s !! get_flow_key f); [by apply returns_ret|].
  apply returns_bind. eexists tt, _. split; [done|]. by eapply returns_assign.
Qed.

Lemma on_disconnected_returns l f s : heap s !! l = Some f → returns any (on_disconnected l) s.
Proof.
  intros Hf. apply returns_bind, (returns_obj _ l f); [done|]. destruct (orb _ _); [by apply returns_ret|].
  apply returns_bind. exists s, s. split; [done|].
  destruct (qpn_map s !! get_flow_key f); [|by apply returns_ret].
  apply returns_bind. eexists tt, _. split; [done|]. by eapply returns_assign.
Qed.

Lemma erase_flow_returns lid rid s :
  wf s → negb (lid =? 0) || key_bool rid = true → returns any (erase_flow lid rid) s.
Proof.
  intros W Hid. apply returns_bind. exists tt, s. split; [by apply assertM_Ok|].
  apply returns_bind. exists s, s. split; [done|].
  destruct (negb (lid =? 0)).
  - destruct (local_map s !! lid) as [l|] eqn:HL; [|by apply returns_ret].
    destruct (wf_local _ W _ _ HL) as (_ & f & Hf & _).
    apply returns_bind, (returns_obj _ l f); [done|]. apply returns_bind. eapply returns_mono.
    + destruct (in_qpn_map f); [by eapply on_disconnected_returns|by apply returns_ret].
    + intros. apply returns_bind. by do 2 eexists; split; [|do 2 eexists].
  - destruct (remote_map s !! rid) as [l|] eqn:HR; [|by apply returns_ret].
    destruct (wf_remote _ W _ _ HR) as (_ & f & Hf & _).
    apply returns_bind, (returns_obj _ l f); [done|]. apply returns_bind. eapply returns_mono.
    + destruct (in_qpn_map f); [by eapply on_disconnected_returns|by apply returns_ret].
    + intros. apply returns_bind. by do 2 eexists; split; [|do 2 eexists].
Qed.

(** ** The handlers *)

Lemma get_verdict_named lid rid s :
  get_verdict lid rid s = None → negb (lid =? 0) || key_bool rid = true.
Proof. unfold get_verdict. by destruct (lid =? 0), (key_bool rid). Qed.

(** A handler that can stop only while it looks up its flow. *)
Lemma handler_judged lid rid (k : loc → flow_state → M unit) s :
  wf s →
  (∀ l f s1, wf s1 → heap s1 !! l = Some f → negb (lid =? 0) || key_bool rid = true →
     returns any (k l f) s1) →
  judged (get_verdict lid rid s) any (st ← get_flow lid rid; f ← obj st; k st f) s.
Proof.
  intros W Hk. eapply judged_bind; [by apply get_flow_judged|].
  intros l s1 Hg (f & Hf & _) Hv. destruct (get_flow_spec _ _ _ _ _ W Hg) as (C & _).
  apply returns_bind, (returns_obj _ l f); [done|]. apply Hk; [by apply C|done|by eapply get_verdict_named].
Qed.

(** A handler that goes on with checks when the flow is in the state [x]. *)
Lemma handler_judged_in x w lid rid (k : loc → flow_state → M unit) s :
  x ≠ IDLE → wf s →
  (∀ l f s1, wf s1 → get_flow lid rid s = Ok (l, s1) → heap s1 !! l = Some f → state f ≠ x →
     used_state (state f) = true → returns any (k l f) s1) →
  (∀ l f g s1, wf s1 → get_flow lid rid s = Ok (l, s1) → heap s1 !! l = Some f → state f = x →
     named lid rid s = Some g → remote_qpn f = remote_qpn g →
     (∀ r, r = rid ∨ rid = no_key → add_verdict lid r s1 = add_verdict lid r s) →
     judged w any (k l f) s1) →
  judged (and_in x (named lid rid s) (get_verdict lid rid s) w) any
    (st ← get_flow lid rid; f ← obj st; k st f) s.
Proof.
  intros Hx W Hno Hyes. eapply judged_then; [by apply get_flow_judged|].
  intros l s1 Hg (f & Hf & Hn) Hv. destruct (get_flow_spec _ _ _ _ _ W Hg) as (C & _).
  assert (W1 : wf s1) by (by apply C). pose proof (fo_state _ (wf_flow _ W1 _ _ Hf)) as Hu.
  assert (Heq : judged (if in_state x (named lid rid s) then w else None) any (k l f) s1).
  { destruct (named lid rid s) as [g|] eqn:Hnm; cbn [in_state].
    - destruct Hn as (Hs & Hq & Ha). destruct (bool_decide_reflect (state g = x)) as [Hgx|Hgx].
      + eapply Hyes; eauto; congruence.
      + apply Hno; auto; congruence.
    - apply Hno; auto. by rewrite Hn. }
  unfold judged, returns in *. by rewrite (obj_bind _ _ _ _ Hf).
Qed.

Section Handlers.
Context (m : cm_msg) (s : tracker) (W : wf s).

Lemma simple_judged :
  judged (get_verdict (m_local_comm_id m) no_key s) any (req_sent m) s ∧
  judged (get_verdict (m_local_comm_id m) (m_daddr m, m_remote_comm_id m) s) any (rej_sent m) s ∧
  judged (get_verdict (m_remote_comm_id m) (m_saddr m, m_local_comm_id m) s) any (rej_received m) s ∧
  judged (get_verdict (m_local_comm_id m) no_key s) any (rtu_sent m) s ∧
  judged (get_verdict (m_remote_comm_id m) no_key s) any (rtu_received m) s ∧
  judged (get_verdict (m_local_comm_id m) no_key s) any (dreq_sent m) s ∧
  judged (get_verdict (m_remote_comm_id m) no_key s) any (dreq_received m) s ∧
  judged (get_verdict (m_local_comm_id m) no_key s) any (drep_sent m) s ∧
  judged (get_verdict (m_remote_comm_id m) no_key s) any (drep_received m) s.
Proof.
  unfold judged, returns, req_sent, rej_sent, rej_received, rtu_sent, rtu_received, dreq_sent, dreq_received,
    drep_sent, drep_received. read_goal.
  split_and!; apply (handler_judged _ _ _ s W); intros l f s1 W1 Hf Hid; cbn beta;
    destruct (state f); try (by apply returns_ret);
    first
      [ by apply erase_flow_returns; rewrite ?orb_false_r in Hid; rewrite ?Hid
      | by eapply returns_assign
      | apply returns_bind, (returns_assign _ l f); [done|];
        by apply (on_established_returns _ _ _ (heap_upd _ _ _))
      | apply returns_bind, (returns_assign _ l f); [done|]; unfold returns; read_goal;
        apply (returns_assign _ l (set_state REQ_SENT f)); [apply heap_upd|done] ].
Qed.

Lemma req_received_judged :
  judged (and_in REQ_RCVD (named 0 (m_saddr m, m_local_comm_id m) s)
            (get_verdict 0 (m_saddr m, m_local_comm_id m) s)
            (match named 0 (m_saddr m, m_local_comm_id m) s with
             | Some f => if remote_qpn f =? m_qpn m then None else Some Changed
             | None => None
             end)) any (req_received m) s.
Proof.
  unfold judged, returns, req_received. read_goal. apply (handler_judged_in _ _ _ _ _ s); [done|exact W|..].
  - intros l f s1 W1 _ Hf Hne Hu. cbn beta. destruct (state f) eqn:Hst; try done; try (by apply returns_ret).
    rewrite decide_False by (by intros []). apply returns_bind, returns_ret.
    apply returns_bind, (returns_assign _ l f); [done|]. unfold returns. read_goal.
    apply (returns_assign _ l (set_state REQ_RCVD f)); [apply heap_upd|done].
  - intros l f g s1 W1 _ Hf Hst Hn Hq _. cbn beta. rewrite Hst, Hn, <- Hq, decide_True by done.
    assert (Hc : (qpn ← lift (pkt_get CM_REQ_LOCAL_QPN m (Some 0)); assertM (remote_qpn f =? qpn)) s1
                 = assertM (remote_qpn f =? m_qpn m) s1) by (by read_goal).
    destruct (remote_qpn f =? m_qpn m); cbn [judged].
    2:{ unfold mbind at 1, M_bind at 1. by rewrite Hc. }
    apply returns_bind. exists tt, s1. split; [by rewrite Hc|].
    apply returns_bind, (returns_assign _ l f); [done|]. unfold returns. read_goal.
    apply (returns_assign _ l (set_state REQ_RCVD f)); [apply heap_upd|done].
Qed.

(** Going on to [add_new_flow] after assignments that leave the key of the flow. *)
Lemma add_after lid rid l f f' s1 s2 :
  wf s2 → s2 = upd l f' s1 → heap s1 !! l = Some f → remote_id f' = remote_id f →
  (lid ≠ 0 → local_map s1 !! lid = Some l) → (lid = 0 → remote_map s1 !! rid = Some l) →
  judged (add_verdict lid rid s1) any (add_new_flow lid rid) s2.
Proof.
  intros W2 -> Hf Hr Hl Hz. rewrite <- (add_verdict_upd _ _ _ _ _ f' Hf Hr).
  apply add_new_flow_judged; [done| |intros Hlid; cbn; rewrite Hl; eauto].
  destruct (decide (lid = 0)) as [->|Hlid].
  - exists f'. eapply named_remote; [by apply no_id_free|cbn; by apply Hz|apply heap_upd].
  - exists f'. eapply named_local; [cbn; by apply Hl|apply heap_upd].
Qed.

Lemma rep_sent_judged :
  let rid := (m_daddr m, m_remote_comm_id m) in
  judged (and_in REQ_RCVD (named (m_local_comm_id m) rid s) (get_verdict (m_local_comm_id m) rid s)
            (add_verdict (m_local_comm_id m) rid s)) any (rep_sent m) s.
Proof.
  cbn zeta. unfold judged, returns, rep_sent. read_goal. apply (handler_judged_in _ _ _ _ _ s); [done|exact W|..].
  - intros l f s1 W1 _ Hf Hne Hu. cbn beta. destruct (state f); try done; by apply returns_ret.
  - intros l f g s1 W1 Hg Hf Hst Hn Hq Ha. cbn beta. rewrite Hst.
    destruct (get_flow_spec _ _ _ _ _ W Hg) as (_ & Hl & Hz & _).
    assert (W2 : wf (upd l (set_state REP_SENT f) s1)) by (by apply wf_set_state; rewrite ?Hst).
    unfold judged, returns. rewrite (assign_bind _ _ _ _ _ Hf).
    rewrite <- (Ha _ (or_introl eq_refl)). eapply (judged_bind _ any any).
    + by apply (add_after _ _ l f (set_state REP_SENT f) s1).
    + intros l' s2 Had _ _. unfold returns. read_goal.
      destruct (heap s2 !! l) as [f2|] eqn:Hf2; [by eapply returns_assign|].
      apply (bk_grows _ _ _ _ (add_new_flow_bk _ _ _ _ _ W2 Had)) in Hf2. by rewrite heap_upd in Hf2.
Qed.

Lemma rep_received_judged :
  judged (and_in REQ_SENT (named (m_remote_comm_id m) no_key s) (get_verdict (m_remote_comm_id m) no_key s)
            (add_verdict (m_remote_comm_id m) (m_saddr m, m_local_comm_id m) s)) any (rep_received m) s.
Proof.
  unfold judged, returns, rep_received. read_goal. apply (handler_judged_in _ _ _ _ _ s); [done|exact W|..].
  - intros l f s1 W1 _ Hf Hne Hu. cbn beta. destruct (state f); try done; by apply returns_ret.
  - intros l f g s1 W1 Hg Hf Hst Hn Hq Ha. cbn beta. rewrite Hst.
    destruct (get_flow_spec _ _ _ _ _ W Hg) as (_ & Hl & Hz & _).
    pose proof (not_live_unlisted _ _ _ W1 Hf ltac:(by rewrite Hst)) as Hin.
    assert (W2 : wf (upd l (set_state REP_RCVD f) s1)) by (by apply wf_set_state; rewrite ?Hst).
    unfold judged, returns. rewrite (assign_bind _ _ _ _ _ Hf). read_goal.
    rewrite (assign_bind _ _ _ _ _ (heap_upd _ _ _)). rewrite <- (Ha _ (or_intror eq_refl)).
    eapply (judged_bind _ any any); [|intros; by apply returns_ret].
    set (f' := set_remote_qpn (m_qpn m) (set_state REP_RCVD f)).
    apply (add_after _ _ l f f' s1); [| |done|done|done|].
    + pose proof (wf_flow _ W1 _ _ Hf) as [Fs Fr Fl].
      eapply wf_assign; [done|apply heap_upd|split; cbn; [done..|congruence]
                         |split; cbn; [done|done|congruence]].
    + unfold upd, set_heap. cbn. by rewrite insert_insert_eq.
    + intros H0. by destruct (wf_remote _ W1 _ _ (Hz H0)) as (Hk & _).
Qed.
End Handlers.

Lemma message_judged (m : cm_msg) dir s : wf s → judged (verdict dir m s) any (process m dir) s.
Proof.
  intros W. unfold judged, returns. rewrite process_eq.
  rewrite (M_bind_l _ _ s (m_attr m) s) by (apply lift_Ok; by rewrite read_attr).
  destruct (simple_judged m s W) as (A1 & A2 & A3 & A4 & A5 & A6 & A7 & A8 & A9).
  unfold handler_of, verdict, own_id, peer_key. destruct dir;
  (destruct (m_attr m =? CM_REQ_ATTR_ID);
   [|destruct (m_attr m =? CM_REJ_ATTR_ID);
   [|destruct (m_attr m =? CM_REP_ATTR_ID);
   [|destruct (m_attr m =? CM_RTU_ATTR_ID);
   [|destruct (m_attr m =? CM_DREQ_ATTR_ID);
   [|destruct (m_attr m =? CM_DREP_ATTR_ID)]]]]]); cbn [orb];
  lazymatch goal with
  | |- context [req_sent m] => exact A1
  | |- context [rej_sent m] => exact A2
  | |- context [rej_received m] => exact A3
  | |- context [rtu_sent m] => exact A4
  | |- context [rtu_received m] => exact A5
  | |- context [dreq_sent m] => exact A6
  | |- context [dreq_received m] => exact A7
  | |- context [drep_sent m] => exact A8
  | |- context [drep_received m] => exact A9
  | |- context [req_received m] => exact (req_received_judged m s W)
  | |- context [rep_sent m] => exact (rep_sent_judged m s W)
  | |- context [rep_received m] => exact (rep_received_judged m s W)
  | |- _ => by exists tt, s
  end.
Qed.

(** ** Whole runs *)

(** The first message of a run that stops the program: its position and the reason. *)
Fixpoint first_stop (s : tracker) (tr : list (ctcm_direction * cm_msg)) : option (nat * stop) :=
  match tr with
  | [] => None
  | (dir, m) :: tr' =>
      match verdict dir m s with
      | Some x => Some (0%nat, x)
      | None =>
          match process m dir s with
          | Ok (_, s') => prod_map S id <$> first_stop s' tr'
          | Fault _ => None
          end
      end
  end.

(** C5: for every consistent state and every packet that can be read, the table
    [verdict] decides whether processing stops the program: with a verdict an
    assertion fails, without one the packet is processed to the end.  A run stops
    exactly where a message first has a verdict, and all messages before that one are
    processed. *)
Theorem verdict_exact {P} `{CmPacket P} s (p : P) m dir tr :
  wf s → carries p m →
  (process p dir s = Fault AssertFailure ↔ is_Some (verdict dir m s)) ∧
  ((∃ s', process p dir s = Ok (tt, s')) ↔ verdict dir m s = None) ∧
  match first_stop s tr with
  | None => ∃ s', run s tr = Ok s'
  | Some (n, x) => ∃ s' dir' m', run s (take n tr) = Ok s' ∧ tr !! n = Some (dir', m') ∧
      verdict dir' m' s' = Some x ∧ run s tr = Fault AssertFailure
  end.
Proof.
  intros W Hc. rewrite (carries_process _ _ _ _ Hc). split_and!.
  - pose proof (message_judged m dir s W) as J. destruct (verdict dir m s); cbn in J; [by split|].
    destruct J as ([] & s' & -> & _). by split; [|intros []].
  - pose proof (message_judged m dir s W) as J. destruct (verdict dir m s); cbn in J.
    + rewrite J. by split; [intros []|].
    + destruct J as ([] & s' & -> & _). split; eauto.
  - clear p m dir Hc. revert s W. induction tr as [|[dir m] tr IH]; intros s W; cbn; [eauto|].
    pose proof (message_judged m dir s W) as J. destruct (verdict dir m s) eqn:V; cbn in J.
    + exists s, dir, m. by rewrite J.
    + destruct J as ([] & s' & E & _). rewrite E. specialize (IH s' (process_wf _ _ _ _ _ W E)).
      destruct (first_stop s' tr) as [[n x]|]; cbn; [|done]. by rewrite E.
Qed.
