(* ===== verification/Cnp.v ===== *)
(** * Cnp: src/src/cnp.cpp

    Congestion notification packets: the template and its completion for a queue
    pair, with the invariant CRC over the pseudo packet. *)

From Stdlib Require Import ZArith Lia String.
From stdpp Require Import base tactics numbers list strings.
From coqutil Require Import Byte Word.LittleEndianList.
From S2P Require Import Prelude Memory Layout Bitfield RxeOpcode RxeHdr RxeHdrSpec IbPack Mbuf Parser.

Local Open Scope string_scope.
Local Open Scope list_scope.
Open Scope Z_scope.
Open Scope ctcm_scope.

(** Constants of <netinet/in.h> and <netinet/ip.h>. *)
Definition IPPROTO_UDP : Z := 17.
Definition IP_DF : Z := 0x4000.

Definition cnp_icrc_pseudo_packet : ctype :=
  Struct false [("reserved_1", Array c_u8 8); ("ip", iphdr); ("udp", udphdr); ("bth", rxe_bth);
                ("reserved_2", Array c_u8 CTCM_CNP_LENGTH)].

(** [memset]. *)
Definition memset (m : list byte) (p : Z) (b : byte) (n : Z) : result (list byte) :=
  store m p (replicate (Z.to_nat n) b).

Section Cnp.
Context `{Build} `{Endian} `{Dpdk}.

(** Assignment to the bit fields [version] and [ihl] of [struct iphdr]. *)
Definition set_version (m : list byte) (ip v : Z) : result (list byte) :=
  b ← load8 m (ip + offsetof iphdr "version_ihl");
  store8 m (ip + offsetof iphdr "version_ihl") ((b &&& 0x0f) ||| ((v mod 16) ≪ 4)).
Definition set_ihl (m : list byte) (ip v : Z) : result (list byte) :=
  b ← load8 m (ip + offsetof iphdr "version_ihl");
  store8 m (ip + offsetof iphdr "version_ihl") ((b &&& 0xf0) ||| (v mod 16)).

(** The template from the point where the space has been obtained. *)
Definition fill_headers (m : list byte) (ip len : Z) : result (list byte) :=
  m ← memset m ip Byte.x00 len;
  m ← set_version m ip 4;
  m ← set_ihl m ip (sizeof iphdr / 4);
  m ← store8 m (ip + offsetof iphdr "ttl") 255;
  m ← store8 m (ip + offsetof iphdr "protocol") IPPROTO_UDP;
  m ← store16 m (ip + offsetof iphdr "frag_off") (htons IP_DF);
  m ← store8 m (ip + offsetof iphdr "tos") 0xc2;
  m ← store16 m (ip + offsetof iphdr "tot_len") (htons len);
  let udp := ip + sizeof iphdr in
  m ← store16 m (udp + offsetof udphdr "uh_sport") (htons 0xf000);
  m ← store16 m (udp + offsetof udphdr "uh_dport") (htons UDP_PORT_ROCE_V2);
  m ← store16 m (udp + offsetof udphdr "uh_ulen") (htons (sizeof udphdr + CTCM_CNP_TOTAL_LENGTH));
  let bth := udp + sizeof udphdr in
  m ← __bth_set_opcode m bth 0x81;
  m ← __bth_set_becn m bth 1;
  __bth_set_pkey m bth 0xffff.

Definition ctcm_fill_cnp_template (cnp : rte_mbuf) : result (Z * rte_mbuf) :=
  let cnp := {| packet_type := RTE_PTYPE_L4_UDP ||| RTE_PTYPE_L3_IPV4; l2_len := l2_len cnp;
                l3_len := sizeof iphdr; l4_len := sizeof udphdr; pkt_len := pkt_len cnp;
                data_len := data_len cnp; buf := buf cnp; dyn := dyn cnp |} in
  let len := sizeof iphdr + sizeof udphdr + CTCM_CNP_TOTAL_LENGTH in
  let '(cnp, ip) := rte_pktmbuf_append cnp len in
  match ip with
  | None => Ok (-1, cnp)
  | Some ip => m ← fill_headers (buf cnp) ip len; Ok (0, set_buf cnp m)
  end.

(** The pseudo packet over which the ICRC is computed; [phdr] is the uninitialised
    local variable. *)
Definition icrc_pseudo_packet (phdr m : list byte) (ip : Z) : result (list byte) :=
  let t := cnp_icrc_pseudo_packet in
  phdr ← memset phdr (offsetof t "reserved_1") Byte.xff 8;
  bytes ← load m ip (Z.to_nat (sizeof t - 8));
  phdr ← store phdr (offsetof t "ip") bytes;
  phdr ← store16 phdr (offsetof t "ip" + offsetof iphdr "check") 0xffff;
  phdr ← store8 phdr (offsetof t "ip" + offsetof iphdr "ttl") 0xff;
  phdr ← store8 phdr (offsetof t "ip" + offsetof iphdr "tos") 0xff;
  phdr ← store16 phdr (offsetof t "udp" + offsetof udphdr "uh_sum") 0xffff;
  qpn ← __bth_qpn phdr (offsetof t "bth");
  store32 phdr (offsetof t "bth" + offsetof rxe_bth "qpn")
    (htonl (BTH_FECN_MASK ||| BTH_BECN_MASK ||| BTH_RESV6A_MASK ||| qpn)).

Definition ctcm_generate_cnp (phdr : list byte) (cnp : rte_mbuf) (dest_qpn : Z) : result rte_mbuf :=
  ip ← mutable_mbuf_ip cnp;
  bth ← mutable_mbuf_bth cnp;
  m ← __bth_set_qpn (buf cnp) bth dest_qpn;
  phdr ← icrc_pseudo_packet phdr m ip;
  let icrc := rte_net_crc_calc phdr RTE_NET_CRC32_ETH in
  m ← store32 m (bth + sizeof rxe_bth + CTCM_CNP_LENGTH) icrc;
  Ok (set_buf cnp m).

End Cnp.

(** The bytes of a template: IPv4 and UDP headers, BTH, reserved bytes, ICRC. *)
Definition cnp_template : list byte :=
  (byte.of_Z <$> [0x45; 0xc2; 0; 60; 0; 0; 0x40; 0; 255; 17; 0; 0]) ++ replicate 8 Byte.x00 ++
  (byte.of_Z <$> [0xf0; 0; 0x12; 0xb7; 0; 40; 0; 0]) ++
  (byte.of_Z <$> [0x81; 0; 0xff; 0xff; 0x40; 0; 0; 0; 0; 0; 0; 0]) ++ replicate 20 Byte.x00.

(** Writing the headers over zeros gives the template, whatever the byte order of
    the host. *)
Lemma fill_headers_zeros (E : Endian) :
  fill_headers (replicate 60 Byte.x00) 0 60 = Ok cnp_template.
Proof. destruct E as [[|]]; vm_compute; reflexivity. Qed.

Section CnpFacts.
Context `{Endian} `{Dpdk}.

(** ** Working inside a buffer *)

(** [e] does in the buffer [pre ++ r ++ post] what [e0] does in [r]. *)
Definition embeds (pre post : list byte) (e e0 : result (list byte)) : Prop :=
  ∀ r', e0 = Ok r' → e = Ok (pre ++ r' ++ post).

Lemma in_range_embed pre r post o n :
  in_range r o n = true → in_range (pre ++ r ++ post) (Z.of_nat (length pre) + o) n = true.
Proof. rewrite !in_range_true, !length_app. lia. Qed.

Lemma load_embed pre r post o n :
  in_range r o n = true → load (pre ++ r ++ post) (Z.of_nat (length pre) + o) n = load r o n.
Proof.
  intros Hr. unfold load. rewrite (in_range_embed pre r post) by done. rewrite Hr. f_equal.
  apply in_range_true in Hr. rewrite Z2Nat.inj_add, Nat2Z.id by lia.
  rewrite drop_app_add. rewrite drop_app_le, take_app_le by (rewrite ?length_drop; lia). done.
Qed.

Lemma load_int_embed pre r post o n :
  in_range r o n = true →
  load_int n (pre ++ r ++ post) (Z.of_nat (length pre) + o) = load_int n r o.
Proof. intros Hr. unfold load_int. by rewrite load_embed. Qed.

Lemma store_embed pre r post o bs :
  embeds pre post (store (pre ++ r ++ post) (Z.of_nat (length pre) + o) bs) (store r o bs).
Proof.
  intros r' Hs. apply store_Ok in Hs as [Hr ->]. unfold store.
  rewrite in_range_embed by done. f_equal. apply in_range_true in Hr.
  rewrite Z2Nat.inj_add, Nat2Z.id by lia.
  rewrite <- Nat.add_assoc, take_app_add, drop_app_add.
  rewrite take_app_le, drop_app_le by lia. by rewrite <- !app_assoc.
Qed.

Lemma embeds_bind pre post (e e0 : result (list byte)) (k k0 : list byte → result (list byte)) :
  embeds pre post e e0 → (∀ r, embeds pre post (k (pre ++ r ++ post)) (k0 r)) →
  embeds pre post (e ≫= k) (e0 ≫= k0).
Proof. intros He Hk r' Hs. inv_ok. rewrite (He _ E). by apply Hk. Qed.

Lemma store_at pre r post p o bs :
  p = Z.of_nat (length pre) + o → embeds pre post (store (pre ++ r ++ post) p bs) (store r o bs).
Proof. intros ->. apply store_embed. Qed.

Lemma store_int_at n pre r post p o v :
  p = Z.of_nat (length pre) + o →
  embeds pre post (store_int n (pre ++ r ++ post) p v) (store_int n r o v).
Proof. apply store_at. Qed.

(** A read-modify-write. *)
Lemma rmw_at n pre r post p q o o' (f : Z → Z) :
  p = Z.of_nat (length pre) + o → q = Z.of_nat (length pre) + o' →
  embeds pre post (v ← load_int n (pre ++ r ++ post) p; store_int n (pre ++ r ++ post) q (f v))
    (v ← load_int n r o; store_int n r o' (f v)).
Proof.
  intros -> -> r' Hs. apply bind_Ok in Hs as (v & Hv & Hs).
  assert (Hr : in_range r o n = true) by (by apply load_int_Ok in Hv as [? _]).
  rewrite load_int_embed, Hv by done. by apply store_embed.
Qed.

Ltac embed_step :=
  cbv zeta;
  lazymatch goal with
  | |- embeds _ _ (store_int ?n _ _ ?v) (store_int _ _ _ _) => apply (store_int_at n _ _ _ _ _ v); lia
  | |- embeds _ _ (store _ _ ?bs) (store _ _ _) => apply (store_at _ _ _ _ _ bs); lia
  | |- embeds _ _ (load_int ?n _ _ ≫= _) _ => apply (rmw_at n); lia
  | |- embeds _ _ (_ ≫= _) (_ ≫= _) => apply embeds_bind; [|intros ?]
  end.

Ltac embed_all := repeat (embed_step; [embed_step|]); embed_step.

Lemma fill_headers_embeds pre r post len :
  embeds pre post (fill_headers (pre ++ r ++ post) (Z.of_nat (length pre)) len)
    (fill_headers r 0 len).
Proof.
  unfold fill_headers, memset, set_version, set_ihl, __bth_set_opcode, __bth_set_becn,
    __bth_set_pkey, store8, store16, store32, load8, load32.
  layout_norm. embed_all.
Qed.

Lemma memset_all r b : length r = 60%nat → memset r 0 b 60 = Ok (replicate 60 b).
Proof.
  intros Hr. unfold memset. change (Z.to_nat 60) with 60%nat.
  rewrite store_in by (apply in_range_true; rewrite length_replicate; lia).
  rewrite length_replicate. change (Z.to_nat 0) with 0%nat. cbn [take Nat.add].
  rewrite drop_ge by lia. done.
Qed.

Lemma fill_headers_bytes r : length r = 60%nat → fill_headers r 0 60 = Ok cnp_template.
Proof.
  intros Hr. rewrite <- (fill_headers_zeros _). unfold fill_headers.
  rewrite (memset_all r), (memset_all (replicate 60 _)) by done. reflexivity.
Qed.

(** With room for the packet. *)
Lemma fill_template_room `{!DpdkLaws _} p :
  0 ≤ data_len p → data_len p + 60 ≤ Z.of_nat (length (buf p)) →
  let d := Z.to_nat (data_len p) in
  ctcm_fill_cnp_template p =
  Ok (0, {| packet_type := RTE_PTYPE_L4_UDP ||| RTE_PTYPE_L3_IPV4; l2_len := l2_len p; l3_len := 20;
            l4_len := 8; pkt_len := pkt_len p + 60; data_len := data_len p + 60;
            buf := take d (buf p) ++ cnp_template ++ drop (d + 60) (buf p); dyn := dyn p |}).
Proof.
  intros Hd Hle d. unfold ctcm_fill_cnp_template, CTCM_CNP_TOTAL_LENGTH, CTCM_BTH_LENGTH,
    CTCM_CNP_LENGTH, CTCM_ICRC_LENGTH. layout_norm.
  change (20 + 8 + (12 + 16 + 4)) with 60.
  rewrite append_ok by (cbn; lia). cbn [buf data_len].
  assert (Hb : buf p = take d (buf p) ++ take 60 (drop d (buf p)) ++ drop (d + 60) (buf p)).
  { rewrite <- drop_drop, take_drop, take_drop. done. }
  assert (Hl : Z.of_nat (length (take d (buf p))) = data_len p) by (rewrite length_take; lia).
  assert (Hf : fill_headers (buf p) (data_len p) 60 =
               Ok (take d (buf p) ++ cnp_template ++ drop (d + 60) (buf p))).
  { rewrite Hb at 1. rewrite <- Hl. apply fill_headers_embeds, fill_headers_bytes.
    rewrite length_take, length_drop. lia. }
  rewrite Hf. done.
Qed.

(** C25: [ctcm_fill_cnp_template] on a buffer with room for 60 more bytes appends
    exactly the template, in network order on hosts of either byte order: IPv4
    without options or addresses, don't-fragment, DSCP 48 and ECT(0), UDP to port
    4791, BTH with the notification opcode, BECN and the default partition; the
    lengths grow by 60 and the rest of the buffer is untouched.  Without the room it
    returns -1 and leaves the bytes and the lengths of the packet alone.  In both
    cases the packet type and the two header lengths have been set, since the function
    sets them before it asks for the room, and nothing else of the packet changes. *)
Theorem fill_cnp_template_bytes `{!DpdkLaws _} p :
  0 ≤ data_len p →
  let d := Z.to_nat (data_len p) in
  let room := data_len p + 60 <=? Z.of_nat (length (buf p)) in
  ctcm_fill_cnp_template p =
  Ok (if room then 0 else -1,
      {| packet_type := RTE_PTYPE_L4_UDP ||| RTE_PTYPE_L3_IPV4;
         l2_len := l2_len p; l3_len := 20; l4_len := 8;
         pkt_len := if room then pkt_len p + 60 else pkt_len p;
         data_len := if room then data_len p + 60 else data_len p;
         buf := if room then take d (buf p) ++ cnp_template ++ drop (d + 60) (buf p) else buf p;
         dyn := dyn p |}).
Proof.
  intros Hd d room. subst room.
  destruct (Z.leb_spec (data_len p + 60) (Z.of_nat (length (buf p)))) as [Hle|Hgt].
  - by rewrite fill_template_room.
  - unfold ctcm_fill_cnp_template, CTCM_CNP_TOTAL_LENGTH, CTCM_BTH_LENGTH, CTCM_CNP_LENGTH,
      CTCM_ICRC_LENGTH. layout_norm. by rewrite append_full by (cbn; lia).
Qed.

(** ** Completing a packet *)

(** The headers of a notification for queue pair [qpn]: the last three bytes of the
    BTH's third word are replaced. *)
Definition cnp_headers (r : list byte) (qpn : Z) : list byte :=
  take 33 r ++ be_split 3 qpn ++ drop 36 r.

Definition ones_bytes (n : nat) : list byte := replicate n Byte.xff.
Definition from_to (a b : nat) (r : list byte) : list byte := take (b - a) (drop a r).

(** The input of the ICRC: eight bytes of ones for the missing link header, then the
    packet up to the ICRC with the fields that change on the way replaced by ones:
    type of service, time to live, IP checksum, UDP checksum and the byte of the BTH
    with the congestion bits. *)
Definition icrc_input (r : list byte) : list byte :=
  ones_bytes 8 ++ from_to 0 1 r ++ ones_bytes 1 ++ from_to 2 8 r ++ ones_bytes 1 ++
  from_to 9 10 r ++ ones_bytes 2 ++ from_to 12 26 r ++ ones_bytes 2 ++ from_to 28 32 r ++
  ones_bytes 1 ++ from_to 33 56 r.

(** The finished packet. *)
Definition cnp_packet (crc : list byte → Z) (r : list byte) (qpn : Z) : list byte :=
  let r := cnp_headers r qpn in take 56 r ++ host_split 4 (crc (icrc_input r)).

Lemma of_Z_eq x b : Z.land x 255 = byte.unsigned b → byte.of_Z x = b.
Proof.
  intros Hx. rewrite <- (byte.of_Z_unsigned b), <- Hx. apply byte.unsigned_inj.
  rewrite !byte.unsigned_of_Z. unfold byte.wrap. change 255 with (Z.ones 8).
  rewrite Z.land_ones by lia. by rewrite Z.mod_mod.
Qed.

Lemma testbit_unsigned b i : 8 ≤ i → Z.testbit (byte.unsigned b) i = false.
Proof. intros. apply (testbit_high 8); [lia|apply byte.unsigned_range|done]. Qed.

(** The word of four bytes and the bytes of a word. *)
Lemma testbit_be4 b0 b1 b2 b3 i :
  0 ≤ i →
  Z.testbit (be_combine [b0; b1; b2; b3]) i =
  if i <? 8 then Z.testbit (byte.unsigned b3) i
  else if i <? 16 then Z.testbit (byte.unsigned b2) (i - 8)
  else if i <? 24 then Z.testbit (byte.unsigned b1) (i - 16)
  else Z.testbit (byte.unsigned b0) (i - 24).
Proof.
  intros Hi. unfold be_combine. cbn [rev app].
  change (le_combine [b3; b2; b1; b0]) with
    (Z.lor (byte.unsigned b3) (Z.shiftl (Z.lor (byte.unsigned b2) (Z.shiftl
      (Z.lor (byte.unsigned b1) (Z.shiftl (Z.lor (byte.unsigned b0) (Z.shiftl 0 8)) 8)) 8)) 8)).
  rewrite !Z.lor_spec, !testbit_shiftl by lia.
  destruct (Z.ltb_spec i 8), (Z.leb_spec 8 i); try lia; cbn [andb]; [by rewrite orb_false_r|].
  rewrite testbit_unsigned by lia. cbn [orb]. rewrite !Z.lor_spec, !testbit_shiftl by lia.
  destruct (Z.ltb_spec i 16), (Z.leb_spec 8 (i - 8)); try lia; cbn [andb]; [by rewrite orb_false_r|].
  rewrite testbit_unsigned by lia. cbn [orb].
  replace (i - 8 - 8) with (i - 16) by lia. rewrite !Z.lor_spec, !testbit_shiftl by lia.
  destruct (Z.ltb_spec i 24), (Z.leb_spec 8 (i - 16)); try lia; cbn [andb]; [by rewrite orb_false_r|].
  rewrite testbit_unsigned by lia. cbn [orb].
  replace (i - 16 - 8) with (i - 24) by lia. rewrite !Z.lor_spec, !testbit_shiftl by lia.
  rewrite Z.bits_0. by rewrite andb_false_r, orb_false_r.
Qed.

Lemma be_split_4 v :
  be_split 4 v = [byte.of_Z (Z.shiftr v 24); byte.of_Z (Z.shiftr v 16);
                  byte.of_Z (Z.shiftr v 8); byte.of_Z v].
Proof.
  unfold be_split.
  change (le_split 4 v) with [byte.of_Z v; byte.of_Z (Z.shiftr v 8); byte.of_Z (Z.shiftr (Z.shiftr v 8) 8);
                              byte.of_Z (Z.shiftr (Z.shiftr (Z.shiftr v 8) 8) 8)].
  by rewrite !Z.shiftr_shiftr by lia.
Qed.

Lemma be_split_3 v :
  be_split 3 v = [byte.of_Z (Z.shiftr v 16); byte.of_Z (Z.shiftr v 8); byte.of_Z v].
Proof.
  unfold be_split.
  change (le_split 3 v) with [byte.of_Z v; byte.of_Z (Z.shiftr v 8); byte.of_Z (Z.shiftr (Z.shiftr v 8) 8)].
  by rewrite !Z.shiftr_shiftr by lia.
Qed.


Ltac cmp_cases :=
  repeat match goal with
  | |- context [?a <? ?b] => destruct (Z.ltb_spec a b); try lia
  | |- context [?a <=? ?b] => destruct (Z.leb_spec a b); try lia
  end; cbn [andb orb negb].

Ltac word_bytes :=
  rewrite be_split_4, ?be_split_3; f_equal; [|f_equal; [|f_equal; [|f_equal]]];
  apply of_Z_eq; rewrite ?byte.unsigned_of_Z; unfold byte.wrap;
  change BTH_QPN_MASK with (mask_at 0 24); change 255 with (Z.ones 8);
  try change (byte.unsigned Byte.xff) with (Z.ones 8);
  apply Z.bits_inj'; intros i Hi; autorewrite with bits; rewrite ?testbit_be4 by lia;
  cmp_cases; rewrite ?testbit_unsigned by lia;
  rewrite ?andb_false_r, ?andb_true_r, ?orb_false_r; try done;
  first [f_equal; lia | by rewrite testbit_unsigned by lia | idtac].

(** Replacing the queue pair number keeps the first byte of the word... *)
Lemma set_qpn_bytes b0 b1 b2 b3 q :
  be_split 4 ((BTH_QPN_MASK &&& q) ||| (~~ BTH_QPN_MASK &&& be_combine [b0; b1; b2; b3])) =
  b0 :: be_split 3 q.
Proof. word_bytes. Qed.

(** ... and the pseudo packet has ones there. *)
Lemma icrc_qpn_bytes b0 b1 b2 b3 :
  be_split 4 (BTH_FECN_MASK ||| BTH_BECN_MASK ||| BTH_RESV6A_MASK |||
              (BTH_QPN_MASK &&& be_combine [b0; b1; b2; b3])) = [Byte.xff; b1; b2; b3].
Proof.
  change (BTH_FECN_MASK ||| BTH_BECN_MASK ||| BTH_RESV6A_MASK) with (mask_at 24 8).
  word_bytes.
Qed.

(** Access to a part of a list given by its neighbours. *)
Lemma store_parts a x c bs o :
  o = Z.of_nat (length a) → length x = length bs → store (a ++ x ++ c) o bs = Ok (a ++ bs ++ c).
Proof.
  intros -> Hx. rewrite store_in by (apply in_range_true; rewrite !length_app; lia).
  by rewrite Nat2Z.id, take_app_length, <- Hx, drop_app_add, drop_app_length.
Qed.

Lemma load_parts n a x c o :
  o = Z.of_nat (length a) → length x = n → load_int n (a ++ x ++ c) o = Ok (htobe n (be_combine x)).
Proof.
  intros -> Hx. rewrite load_int_in by (apply in_range_true; rewrite !length_app; lia).
  unfold be_at. by rewrite Nat2Z.id, drop_app_length, <- Hx, take_app_length.
Qed.

(** A list of known length is the list of its elements. *)
Lemma length_cons_inv (l : list byte) n :
  length l = S n → ∃ b l', l = b :: l' ∧ length l' = n.
Proof. destruct l as [|b l]; [done|]. intros [= <-]. by exists b, l. Qed.

Lemma bth_set_qpn_bytes pre r post q :
  length r = 60%nat →
  __bth_set_qpn (pre ++ r ++ post) (Z.of_nat (length pre) + 28) q =
  Ok (pre ++ cnp_headers r q ++ post).
Proof.
  intros Hr. unfold __bth_set_qpn, load32, store32, ntohl, htonl, store_int. layout_norm.
  assert (Hs : ∃ x b0 b1 b2 b3 y, r = x ++ [b0; b1; b2; b3] ++ y ∧ length x = 32%nat).
  { rewrite <- (take_drop 32 r). destruct (drop 32 r) as [|b0 [|b1 [|b2 [|b3 y]]]] eqn:Hd;
      apply (f_equal length) in Hd; rewrite length_drop in Hd; cbn in Hd; try lia.
    exists (take 32 r), b0, b1, b2, b3, y. rewrite length_take. split; [done|lia]. }
  destruct Hs as (x & b0 & b1 & b2 & b3 & y & -> & Hx).
  rewrite <- !app_assoc, (app_assoc pre x).
  rewrite load_parts by (rewrite ?length_app; cbn; lia). autorewrite with ctcm.
  rewrite htobe_inv by apply (be_combine_range [b0; b1; b2; b3]).
  rewrite host_split_htobe, set_qpn_bytes.
  rewrite store_parts by (rewrite ?length_app; cbn; rewrite ?length_be_split; lia).
  unfold cnp_headers. rewrite (take_app_ge x), (drop_app_ge x) by lia. rewrite Hx. cbn.
  by rewrite <- !app_assoc.

Qed.

(** Name the bytes of a list of known length. *)
Ltac name_bytes r Hr :=
  repeat (let b := fresh "b" in
          apply length_cons_inv in Hr as (b & ? & -> & Hr));
  apply nil_length_inv in Hr; subst.

Lemma store_ones16 m p : store16 m p 0xffff = store m p (ones_bytes 2).
Proof. unfold store16, store_int, host_split. by destruct little_endian. Qed.

Lemma store_ones8 m p : store8 m p 0xff = store m p (ones_bytes 1).
Proof. unfold store8, store_int, host_split. by destruct little_endian. Qed.

(** A store into a list of named bytes. *)
Ltac store_named :=
  rewrite ?store_ones16, ?store_ones8;
  match goal with
  | |- context [store ?m ?o ?bs] =>
      let m' := eval vm_compute in (take (Z.to_nat o) m ++ bs ++ drop (Z.to_nat o + length bs) m) in
      replace (store m o bs) with (@Ok (list byte) m') by reflexivity
  end; autorewrite with ctcm.

Lemma pseudo_packet_bytes phdr pre r post :
  length phdr = 64%nat → length r = 60%nat →
  icrc_pseudo_packet phdr (pre ++ r ++ post) (Z.of_nat (length pre)) = Ok (icrc_input r).
Proof.
  intros Hp Hr. unfold icrc_pseudo_packet, memset. layout_norm.
  rewrite store_in by (apply in_range_true; rewrite length_replicate; lia).
  autorewrite with ctcm. rewrite <- (Z.add_0_r (Z.of_nat (length pre))).
  rewrite load_embed by (apply in_range_true; lia).
  rewrite (proj2 (load_Ok r 0 (Z.to_nat (64 - 8)) (take 56 r))) by (split; [apply in_range_true; lia|done]).
  autorewrite with ctcm.
  change (take (Z.to_nat 0) phdr ++ replicate (Z.to_nat 8) Byte.xff ++ drop _ phdr)
    with (ones_bytes 8 ++ drop 8 phdr).
  rewrite <- (app_nil_r (drop 8 phdr)), store_parts, app_nil_r
    by first [reflexivity | rewrite ?length_take, ?length_drop; lia].
  autorewrite with ctcm. clear Hp phdr. name_bytes r Hr. cbn [take].
  do 4 store_named. unfold __bth_qpn, store32, load32, ntohl, htonl. layout_norm.
  rewrite load_int_in by reflexivity. autorewrite with ctcm. unfold store_int.
  rewrite htobe_be_at, host_split_htobe. unfold be_at.
  change (take 4 _) with [b31; b32; b33; b34]. rewrite icrc_qpn_bytes. store_named. reflexivity.
Qed.

Lemma generate_cnp_ok phdr p pre r post qpn :
  RTE_ETH_IS_IPV4_HDR (packet_type p) = true →
  l3_len p = 20 → l4_len p = 8 → l2_len p = Z.of_nat (length pre) →
  buf p = pre ++ r ++ post → length r = 60%nat → Z.of_nat (length phdr) = sizeof cnp_icrc_pseudo_packet →
  ctcm_generate_cnp phdr p qpn =
  Ok (set_buf p (pre ++ cnp_packet (λ bs, rte_net_crc_calc bs RTE_NET_CRC32_ETH) r qpn ++ post)).
Proof.
  intros Ht H3 H4 H2 Hb Hr Hp. unfold ctcm_generate_cnp, mutable_mbuf_ip, mutable_mbuf_bth, mbuf_ip, mbuf_bth.
  rewrite Ht, H2, H3, H4, Hb. autorewrite with ctcm. cbn [Z.eqb negb andb assert_that NDEBUG debug_build].
  autorewrite with ctcm. replace (Z.of_nat (length pre) + 20 + 8) with (Z.of_nat (length pre) + 28) by lia.
  rewrite bth_set_qpn_bytes by done. autorewrite with ctcm.
  assert (Hl : length (cnp_headers r qpn) = 60%nat).
  { unfold cnp_headers. rewrite !length_app, length_take, length_drop, length_be_split. lia. }
  rewrite pseudo_packet_bytes by (try done; layout_norm; lia). autorewrite with ctcm.
  unfold cnp_packet, store32, store_int, CTCM_CNP_LENGTH. layout_norm.
  set (h := cnp_headers r qpn) in *. set (c := host_split 4 _).
  assert (Hc : length c = 4%nat) by apply length_host_split.
  rewrite <- (take_drop 56 h) at 1. rewrite <- app_assoc, (app_assoc pre).
  rewrite store_parts by (rewrite ?length_app, ?length_take, ?length_drop; lia).
  autorewrite with ctcm. by rewrite <- !app_assoc.
Qed.
(** C24: completing a notification packet for a queue pair: on an IPv4 packet whose
    20-byte IP header, UDP header, BTH, reserved bytes and ICRC lie within the
    buffer, [ctcm_generate_cnp] writes the 24-bit queue pair number into the BTH,
    leaving the byte with the congestion bits, and replaces the ICRC by the CRC of
    the packet with its variable fields masked; every other byte stays, and nothing
    depends on the contents of the uninitialised pseudo packet. *)
Theorem generate_cnp_bytes phdr p pre r post qpn :
  RTE_ETH_IS_IPV4_HDR (packet_type p) = true →
  l3_len p = 20 → l4_len p = 8 → l2_len p = Z.of_nat (length pre) →
  buf p = pre ++ r ++ post → length r = 60%nat → Z.of_nat (length phdr) = sizeof cnp_icrc_pseudo_packet →
  ctcm_generate_cnp phdr p qpn =
  Ok (set_buf p (pre ++ cnp_packet (λ bs, rte_net_crc_calc bs RTE_NET_CRC32_ETH) r qpn ++ post)).
Proof. apply generate_cnp_ok. Qed.

(** ** The packet as the parser sees it *)

Lemma be_at_embed pre r post o n :
  0 ≤ o → o + Z.of_nat n ≤ Z.of_nat (length r) →
  be_at (pre ++ r ++ post) (Z.of_nat (length pre) + o) n = be_at r o n.
Proof.
  intros Ho Hn. unfold be_at. rewrite Z2Nat.inj_add, Nat2Z.id by lia.
  by rewrite drop_app_add, drop_app_le, take_app_le by (rewrite ?length_drop; lia).
Qed.

(** The words of a notification to [qpn] whose addresses are given. *)
Lemma cnp_words addrs qpn :
  length addrs = 8%nat →
  let r := take 56 (cnp_headers (take 12 cnp_template ++ addrs ++ drop 20 cnp_template) qpn) in
  length r = 56%nat ∧ be_at r 22 2 = UDP_PORT_ROCE_V2 ∧ be_at r 24 2 = 40 ∧
  bth_at r 28 = Bth 0x81 false false 0 0 0xffff false true 0 (qpn mod 2 ^ 24) false 0 0.
Proof.
  intros Ha. name_bytes addrs Ha. unfold cnp_headers.
  assert (Hw : be_combine (Byte.x40 :: be_split 3 qpn) = Z.lor (qpn mod 2 ^ 24) (2 ^ 30)).
  { unfold be_combine. cbn [rev]. rewrite LittleEndianList.le_combine_app, length_rev, length_be_split.
    fold (be_combine (be_split 3 qpn)). by rewrite be_combine_split. }
  remember (be_split 3 qpn) as q eqn:Hq. assert (Hl : length q = 3%nat) by (subst q; apply length_be_split).
  clear Hq. name_bytes q Hl.
  split; [reflexivity|]. split; [reflexivity|]. split; [reflexivity|]. unfold bth_at.
  match goal with |- context [be_at ?m (28 + 4) 4] =>
    change (be_at m (28 + 4) 4) with (be_combine [Byte.x40; b7; b8; b9]) end.
  rewrite Hw. unfold bth_of_words, slice. f_equal; try reflexivity.
  1-2: rewrite Z.lor_spec, Z.testbit_mod_pow2, Z.pow2_bits_eqb by lia; done.
  all: bits_eq.
Qed.

(** The whole way from a buffer to a finished notification. *)
Lemma cnp_made `{!DpdkLaws _} phdr p addrs qpn :
  0 ≤ data_len p → l2_len p = data_len p → data_len p + 60 ≤ Z.of_nat (length (buf p)) →
  length addrs = 8%nat → Z.of_nat (length phdr) = sizeof cnp_icrc_pseudo_packet →
  ∃ p1 m p2,
    ctcm_fill_cnp_template p = Ok (0, p1) ∧
    store (buf p1) (data_len p + offsetof iphdr "saddr") addrs = Ok m ∧
    ctcm_generate_cnp phdr (set_buf p1 m) qpn = Ok p2 ∧
    (is_roce p2 = true ∧ is_cm p2 = false ∧
     bth_of p2 = Bth 0x81 false false 0 0 0xffff false true 0 (qpn mod 2 ^ 24) false 0 0) ∧
    packet_type p2 = RTE_PTYPE_L4_UDP ||| RTE_PTYPE_L3_IPV4 ∧ l2_len p2 = l2_len p ∧ l3_len p2 = 20 ∧
    l4_len p2 = 8 ∧ pkt_len p2 = pkt_len p + 60 ∧ length (buf p2) = length (buf p) ∧ dyn p2 = dyn p ∧
    udp_length p2 = 40.
Proof.
  intros Hd Hl2 Hle Ha Hp. pose proof (fill_template_room p Hd Hle) as Hfill.
  set (d := Z.to_nat (data_len p)) in *. cbn zeta in Hfill.
  set (pre := take d (buf p)) in *. set (post := drop (d + 60) (buf p)) in *.
  assert (Hpre : Z.of_nat (length pre) = data_len p) by (unfold pre; rewrite length_take; lia).
  set (r := take 12 cnp_template ++ addrs ++ drop 20 cnp_template).
  eexists _, (pre ++ r ++ post), _. split; [exact Hfill|].
  split; [|split].
  { cbn [buf]. layout_norm. rewrite <- Hpre. apply store_embed.
    change cnp_template with (take 12 cnp_template ++ take 8 (drop 12 cnp_template) ++ drop 20 cnp_template).
    by apply store_parts. }
  { apply (generate_cnp_ok phdr _ pre r post); cbn; try done; [apply ptype_ipv4_udp|lia|].
    unfold r. rewrite !length_app, Ha. done. }
  destruct (cnp_words addrs qpn Ha) as (Hlen & Hport & Hulen & Hbth). fold r in Hlen, Hport, Hulen, Hbth.
  unfold cnp_packet. cbn zeta. rewrite <- (app_assoc (take 56 _)).
  set (h := take 56 (cnp_headers r qpn)) in *. set (rest := host_split 4 _ ++ post).
  assert (Hbe : ∀ o n, 0 ≤ o → o + Z.of_nat n ≤ 56 →
    be_at (pre ++ h ++ rest) (data_len p + o) n = be_at h o n).
  { intros. rewrite <- Hpre. apply be_at_embed; lia. }
  assert (Hlb : length (pre ++ h ++ rest) = length (buf p)).
  { unfold rest, pre, post. rewrite !length_app, length_host_split, Hlen, length_take, length_drop. lia. }
  unfold is_cm, is_roce, udp_dport, udp_length, bth_of, udp_at. cbn [buf set_buf l2_len l3_len].
  rewrite Hl2. replace (data_len p + 20 + 2) with (data_len p + 22) by lia.
  replace (data_len p + 20 + 4) with (data_len p + 24) by lia.
  replace (data_len p + 20 + 8) with (data_len p + 28) by lia.
  rewrite !Hbe, Hport, Hulen by lia.
  assert (Hb : bth_at (pre ++ h ++ rest) (data_len p + 28) = bth_at h 28).
  { unfold bth_at. rewrite <- !Z.add_assoc. by rewrite !Hbe by (cbn; lia). }
  rewrite Hb, Hbth. split_and!; done.
Qed.

(** A finished notification is a packet that the parser accepts. *)
Lemma cnp_complete `{!DpdkLaws _} phdr p addrs qpn :
  0 ≤ data_len p < 2 ^ 7 → l2_len p = data_len p → pkt_len p = data_len p →
  data_len p + 60 ≤ Z.of_nat (length (buf p)) →
  length addrs = 8%nat → Z.of_nat (length phdr) = sizeof cnp_icrc_pseudo_packet →
  ∃ p1 m p2,
    ctcm_fill_cnp_template p = Ok (0, p1) ∧
    store (buf p1) (data_len p + offsetof iphdr "saddr") addrs = Ok m ∧
    ctcm_generate_cnp phdr (set_buf p1 m) qpn = Ok p2 ∧
    udp_packet p2 ∧ complete p2 ∧ dyn p2 = dyn p ∧ udp_at p2 = data_len p + 20 ∧
    is_roce p2 = true ∧ is_cm p2 = false ∧
    bth_of p2 = Bth 0x81 false false 0 0 0xffff false true 0 (qpn mod 2 ^ 24) false 0 0.
Proof.
  intros [Hd Hd'] Hl2 Hpk Hle Ha Hp.
  destruct (cnp_made phdr p addrs qpn)
    as (p1 & m & p2 & ? & ? & ? & (? & ? & ?) & Ht & E2 & E3 & E4 & Epl & Ebl & Edy & Eul); [done..|].
  exists p1, m, p2. split_and!; try done.
  - split; [split; rewrite ?E2, ?E3, ?E4, ?Epl; lia|lia|]. rewrite Ht. apply ptype_l4_udp.
  - split; unfold udp_at; rewrite ?E2, ?E3, ?Eul, ?Epl, ?Ebl; lia.
  - unfold udp_at. by rewrite E2, E3, Hl2.
Qed.

(** C26: the library's parser recognises the library's notifications.  When a template
    is filled behind the link header of a packet, the application stores its
    addresses, and the packet is completed for a queue pair, [parse_packet] of the
    result returns no MAD and records the BTH behind the new UDP header and no MAD;
    and the BTH at the recorded place has the notification opcode, BECN, the default
    partition, the 24-bit queue pair number, and zero elsewhere. *)
Theorem cnp_roundtrip `{!DpdkLaws _} d phdr p addrs qpn :
  0 ≤ data_len p < 2 ^ 7 → l2_len p = data_len p → pkt_len p = data_len p →
  data_len p + 60 ≤ Z.of_nat (length (buf p)) → dynfields_ok d p →
  length addrs = 8%nat → Z.of_nat (length phdr) = sizeof cnp_icrc_pseudo_packet →
  ∃ p1 m p2 p3,
    ctcm_fill_cnp_template p = Ok (0, p1) ∧
    store (buf p1) (data_len p + offsetof iphdr "saddr") addrs = Ok m ∧
    ctcm_generate_cnp phdr (set_buf p1 m) qpn = Ok p2 ∧
    is_roce p2 = true ∧ is_cm p2 = false ∧
    parse_packet d p2 = Ok (None, p3) ∧
    ctcm_mbuf_get_bth d p3 = Ok (Some (data_len p + 28)) ∧
    ctcm_mbuf_get_mad d p3 = Ok None ∧
    bth_at (buf p3) (data_len p + 28) =
      Bth 0x81 false false 0 0 0xffff false true 0 (qpn mod 2 ^ 24) false 0 0.
Proof.
  intros Hd Hl2 Hpk Hle Hdy Ha Hp.
  destruct (cnp_complete phdr p addrs qpn)
    as (p1 & m & p2 & ? & ? & ? & Hu & Hc & Edy & Hat & Hro & Hcm & Hb); [done..|].
  assert (Hdy2 : dynfields_ok d p2) by (destruct Hdy; split; by rewrite ?Edy).
  destruct (parse_packet_ok d p2 Hu Hc Hdy2) as (p3 & Hp3 & Hfb & Hfm & He & _).
  unfold mad_ptr, bth_ptr in *. rewrite Hro, Hcm in *. unfold bth_of in Hb. rewrite Hat in *.
  replace (data_len p + 28) with (data_len p + 20 + 8) by lia. exists p1, m, p2, p3.
  split_and!; try done; [by apply get_bth_field|by apply get_mad_field|]. by rewrite He.
Qed.

(** ** Reusing a packet *)

Lemma from_to_prefix a b n r r' : (a ≤ b ≤ n)%nat → take n r = take n r' → from_to a b r = from_to a b r'.
Proof.
  intros Hab He. unfold from_to. rewrite !take_drop_commute. replace (a + (b - a))%nat with b by lia.
  f_equal. rewrite <- (Nat.min_l b n), <- !take_take, He by lia. done.
Qed.

(** Only the bytes before the ICRC matter. *)
Lemma icrc_input_prefix r r' : take 56 r = take 56 r' → icrc_input r = icrc_input r'.
Proof.
  intros He. unfold icrc_input.
  repeat match goal with |- context [from_to ?a ?b r] =>
    rewrite (from_to_prefix a b 56 r r') by (lia || done) end. done.
Qed.

Lemma cnp_headers_parts r q :
  length r = 60%nat →
  take 56 (cnp_headers r q) = take 33 (take 56 r) ++ be_split 3 q ++ drop 36 (take 56 r).
Proof.
  intros Hr. unfold cnp_headers. rewrite take_app, length_take, Hr. cbn [Nat.min Nat.sub].
  rewrite (take_ge (take 33 r)) by (rewrite length_take; lia).
  rewrite take_app, length_be_split. cbn [Nat.sub].
  rewrite (take_ge (be_split 3 q)) by (rewrite length_be_split; lia).
  rewrite take_take, take_drop_commute. done.
Qed.

Lemma length_cnp_headers r q : length r = 60%nat → length (cnp_headers r q) = 60%nat.
Proof.
  intros Hr. unfold cnp_headers. rewrite !length_app, length_take, length_drop, length_be_split. lia.
Qed.

(** A packet that was completed before is as good as a template. *)
Lemma cnp_packet_again crc r q q' :
  length r = 60%nat → cnp_packet crc (cnp_packet crc r q) q' = cnp_packet crc r q'.
Proof.
  intros Hr. pose proof (length_cnp_headers r q Hr) as Hh.
  assert (Hl : length (cnp_packet crc r q) = 60%nat).
  { unfold cnp_packet. cbn zeta. rewrite length_app, length_take, length_host_split. lia. }
  assert (H56 : take 56 (cnp_packet crc r q) = take 56 (cnp_headers r q)).
  { unfold cnp_packet. cbn zeta. rewrite take_app_le, take_take by (rewrite length_take; lia). done. }
  assert (He : take 56 (cnp_headers (cnp_packet crc r q) q') = take 56 (cnp_headers r q')).
  { rewrite !cnp_headers_parts, H56, cnp_headers_parts by done. f_equal.
    - rewrite take_app_le, take_ge by (rewrite !length_take; lia). done.
    - f_equal. rewrite app_assoc, drop_app_ge by (rewrite length_app, !length_take, length_be_split; lia).
      rewrite length_app, !length_take, length_be_split, Hr. done. }
  unfold cnp_packet at 1 3. cbn zeta. by rewrite He, (icrc_input_prefix _ _ He).
Qed.

(** C27: a notification can be reused: completing a packet that was already completed
    for another queue pair gives exactly what completing the original gives, ICRC
    included, so one template serves any number of flows one after the other. *)
Theorem template_reuse phdr phdr' phdr2 p pre r post q q' p1 :
  RTE_ETH_IS_IPV4_HDR (packet_type p) = true →
  l3_len p = 20 → l4_len p = 8 → l2_len p = Z.of_nat (length pre) →
  buf p = pre ++ r ++ post → length r = 60%nat →
  Forall (λ h : list byte, Z.of_nat (length h) = sizeof cnp_icrc_pseudo_packet) [phdr; phdr'; phdr2] →
  ctcm_generate_cnp phdr p q = Ok p1 →
  ctcm_generate_cnp phdr' p1 q' = ctcm_generate_cnp phdr2 p q'.
Proof.
  intros Ht H3 H4 H2 Hb Hr Hp Hg. repeat (apply Forall_cons in Hp as [? Hp]).
  rewrite (generate_cnp_ok phdr p pre r post) in Hg by done. injection Hg as <-.
  rewrite (generate_cnp_ok phdr2 p pre r post) by done.
  rewrite (generate_cnp_ok phdr' _ pre (cnp_packet (λ bs, rte_net_crc_calc bs RTE_NET_CRC32_ETH) r q) post); try done.
  - by rewrite cnp_packet_again.
  - unfold cnp_packet. cbn zeta. rewrite length_app, length_take, length_host_split, length_cnp_headers by done. lia.
Qed.
End CnpFacts.
