(* ===== verification/DpdkModel.v ===== *)
(** * DpdkModel: an instance of the DPDK interfaces

    Concrete functions for the parameters of [Mbuf.Dpdk] and
    [Parser.DynfieldRegistry] that have the documented behaviour: the theorems that
    assume it can be applied, and the examples evaluate. *)

From Stdlib Require Import ZArith Lia String.
From stdpp Require Import base tactics numbers list strings.
From coqutil Require Import Byte.
From S2P Require Import Prelude Memory Layout Mbuf Parser.

Local Open Scope string_scope.
Open Scope Z_scope.
Open Scope ctcm_scope.

(** ** Packets *)

(** The CRC-32 of Ethernet: reflected, with initial value and final complement. *)
Definition crc32_bit (c : Z) : Z :=
  if Z.odd c then Z.lxor (c ≫ 1) 0xedb88320 else c ≫ 1.

Definition crc32_byte (c : Z) (b : byte) : Z :=
  Nat.iter 8 crc32_bit (Z.lxor c (byte.unsigned b)).

Definition crc32 (bs : list byte) : Z :=
  u32 (Z.lxor (foldl crc32_byte 0xffffffff bs) 0xffffffff).

Definition append (p : rte_mbuf) (len : Z) : rte_mbuf * option Z :=
  if Z.of_nat (length (buf p)) <? data_len p + len then (p, None) else
  ({| packet_type := packet_type p; l2_len := l2_len p; l3_len := l3_len p;
      l4_len := l4_len p; pkt_len := pkt_len p + len; data_len := data_len p + len;
      buf := buf p; dyn := dyn p |}, Some (data_len p)).

#[export] Instance dpdk : Dpdk := {
  RTE_PTYPE_L3_IPV4 := 0x10;
  RTE_PTYPE_L4_UDP := 0x200;
  RTE_PTYPE_L4_MASK := 0xf00;
  RTE_ETH_IS_IPV4_HDR t := Z.testbit t 4;
  rte_pktmbuf_append := append;
  RTE_NET_CRC32_ETH := 1;
  rte_net_crc_calc bs _ := crc32 bs;
}.

#[export] Instance dpdk_laws : DpdkLaws dpdk.
Proof.
  constructor; [reflexivity|reflexivity|..]; cbn.
  - intros p len Hlen Hd Hle. unfold append. by rewrite (proj2 (Z.ltb_ge _ _)) by lia.
  - intros p len Hlt. unfold append. by rewrite (proj2 (Z.ltb_lt _ _)) by lia.
  - intros bs _. unfold crc32, u32. by apply Z.mod_pos_bound.
Qed.

(** ** Dynamic fields *)

(** The registered fields with their offsets, the latest first; a new field is put
    behind the others. *)
Definition fields : Type := list (rte_mbuf_dynfield * Z).

Definition area : Z := 36.

Definition end_of (r : fields) : Z :=
  match r with [] => 0 | (f, o) :: _ => o + df_size f end.

Definition same_field (f g : rte_mbuf_dynfield) : bool :=
  String.eqb (df_name f) (df_name g) && (df_size f =? df_size g) && (df_align f =? df_align g).

Definition register (r : fields) (f : rte_mbuf_dynfield) : fields * Z :=
  match List.find (λ '(g, _), String.eqb (df_name f) (df_name g)) r with
  | Some (g, o) => if same_field f g then (r, o) else (r, -1)
  | None =>
      let o := align_up (end_of r) (df_align f) in
      if (0 <? df_size f) && (0 <? df_align f) && (o + df_size f <=? area)
      then ((f, o) :: r, o) else (r, -1)
  end.

#[export] Instance dynfield_registry : DynfieldRegistry :=
  { registry := fields; rte_mbuf_dynfield_register := register }.

(** Each field lies behind the ones before it, within the area. *)
Fixpoint fields_ok (r : fields) : Prop :=
  match r with
  | [] => True
  | (f, o) :: r' => fields_ok r' ∧ 0 ≤ end_of r' ≤ o ∧ 0 < df_size f ∧ o + df_size f ≤ area ∧
                    ∀ g q, In (g, q) r' → df_name g ≠ df_name f
  end.

Lemma align_up_ge x a : 0 < a → x ≤ align_up x a.
Proof.
  intros Ha. unfold align_up. pose proof (Z.div_mod (x + a - 1) a).
  pose proof (Z.mod_pos_bound (x + a - 1) a). lia.
Qed.

Lemma end_of_nonneg r : fields_ok r → 0 ≤ end_of r.
Proof. destruct r as [|[f o] r]; cbn; lia. Qed.

Lemma fields_ok_below r f o : fields_ok r → In (f, o) r → 0 ≤ o ∧ o + df_size f ≤ end_of r.
Proof.
  induction r as [|[g q] r IH]; cbn; [done|]. intros (Hr & Hq & Hs & Ha & Hu) [[= <- <-]|Hi]; [lia|].
  specialize (IH Hr Hi). lia.
Qed.

Lemma fields_ok_apart r f o g o' :
  fields_ok r → In (f, o) r → In (g, o') r → df_name f ≠ df_name g →
  o + df_size f ≤ o' ∨ o' + df_size g ≤ o.
Proof.
  induction r as [|[h q] r IH]; cbn; [done|]. intros (Hr & Hq & Hs & Ha & Hu) Hf Hg Hn.
  destruct Hf as [[= <- <-]|Hf], Hg as [[= <- <-]|Hg]; [done|..].
  - pose proof (fields_ok_below _ _ _ Hr Hg). lia.
  - pose proof (fields_ok_below _ _ _ Hr Hf). lia.
  - by apply IH.
Qed.

Lemma register_ok r f r' o :
  fields_ok r → register r f = (r', o) →
  fields_ok r' ∧ (∀ x, In x r → In x r') ∧ (0 ≤ o → In (f, o) r').
Proof.
  intros Hr. unfold register. destruct (List.find _ r) as [[g q]|] eqn:Hf.
  - apply find_some in Hf as [Hi _]. unfold same_field.
    destruct (_ && _) eqn:Hs; intros [= <- <-]; split_and!; try done; try lia.
    rewrite !andb_true_iff, String.eqb_eq, !Z.eqb_eq in Hs.
    destruct f, g; cbn in *; intros _; by destruct Hs as [[-> ->] ->].
  - destruct (_ && _) eqn:Hs; intros [= <- <-]; (split; [|split]); try done; try lia.
    + rewrite !andb_true_iff, !Z.ltb_lt, Z.leb_le in Hs. destruct Hs as [[Hs Ha] Ho].
      pose proof (end_of_nonneg r Hr). pose proof (align_up_ge (end_of r) (df_align f) Ha).
      cbn. split_and!; try done. intros g q Hi He. pose proof (find_none _ _ Hf _ Hi) as Hn. cbn in Hn.
      by rewrite He, String.eqb_refl in Hn.
    + by right.
    + by left.
Qed.

Lemma register_known r f o : fields_ok r → In (f, o) r → register r f = (r, o).
Proof.
  intros Hr Hi. unfold register.
  assert (Hf : List.find (λ '(g, _), String.eqb (df_name f) (df_name g)) r = Some (f, o)).
  { induction r as [|[g q] r IH]; [done|]. destruct Hr as (Hr & _ & _ & _ & Hu). cbn.
    destruct Hi as [[= -> ->]|Hi]; [by rewrite String.eqb_refl|].
    destruct (String.eqb_spec (df_name f) (df_name g)) as [He|_]; [by destruct (Hu _ _ Hi)|auto]. }
  rewrite Hf. unfold same_field. by rewrite String.eqb_refl, !Z.eqb_refl.
Qed.

#[export] Program Instance dynfield_laws : DynfieldLaws dynfield_registry := {
  dyn_area := area;
  registered := λ r, r;
  registry_ok := fields_ok;
  register_preserves := register_ok;
  registry_ok_disjoint := fields_ok_apart;
  register_again := register_known;
}.
Next Obligation.
  intros r f o Hr Hi. pose proof (fields_ok_below r f o Hr Hi).
  destruct r as [|[g q] r]; cbn in *; lia.
Qed.
