(* ===== verification/Main.v ===== *)
(** * Main: src/src/main.cpp

    The C interface of the library: a context of a parser and a tracker, and the
    calls that an application makes for each packet. *)

From Stdlib Require Import ZArith Lia String.
From stdpp Require Import base tactics numbers list strings gmap.
From coqutil Require Import Byte.
From S2P Require Import Prelude Memory Layout Bitfield RxeHdr RxeHdrSpec IbMad Iba IbtaC12 Mbuf Parser CmPacket Tracker TrackerInv TrackerStep.

Local Open Scope string_scope.
Open Scope Z_scope.
Open Scope ctcm_scope.

(** [struct ctcm_context]; the parser's state is the offsets of its two fields. *)
Record ctcm_context := {
  ctx_parser : dynfield_offsets;
  ctx_tracker : tracker;
}.

Definition ENOMEM : Z := 12.

Section Api.
Context `{Build} `{Endian} `{Dpdk} `{DynfieldRegistry}.

(** [new ctcm_context{}]: the parser's constructor may throw; [storage] is what the
    memory held. *)
Definition ctcm_create (r : registry) (storage : dynfield_offsets)
  : result (registry * (string + ctcm_context)) :=
  '(r, c) ← parser_context r storage;
  match c with
  | Thrown what => Ok (r, inl what)
  | Constructed d => Ok (r, inr {| ctx_parser := d; ctx_tracker := empty_tracker |})
  end.

(** The result, [errno] if it is set, and the caller's structure. *)
Definition ctcm_dynfield_offsets (ctcm : ctcm_context) (offsets : dynfield_offsets)
  : Z * option Z * dynfield_offsets :=
  if dyn_size offsets <? sizeof c_dynfield_offsets then (-1, Some ENOMEM, offsets)
  else (0, None, {| dyn_size := dyn_size offsets; dyn_bth := dynfield_bth_offset (ctx_parser ctcm);
                    dyn_mad := dynfield_mad_offset (ctx_parser ctcm) |}).

Definition ctcm_parse_packet (ctcm : ctcm_context) (packet : rte_mbuf) : result (Z * rte_mbuf) :=
  '(_, packet) ← parse_packet (ctx_parser ctcm) packet;
  Ok (0, packet).

Definition ctcm_process_packet (ctcm : ctcm_context) (dir : ctcm_direction) (packet : rte_mbuf)
  : result (Z * ctcm_context) :=
  mad ← parser_get_mad (ctx_parser ctcm) packet;
  match mad with
  | Some _ =>
      '(_, s) ← @process _ _ (mbuf_packet (ctx_parser ctcm)) packet dir (ctx_tracker ctcm);
      Ok (0, {| ctx_parser := ctx_parser ctcm; ctx_tracker := s |})
  | None => Ok (0, ctcm)
  end.

Definition ctcm_query_ipv4 (ctcm : ctcm_context) (dest_ip dqpn : Z) : Z :=
  get_source_qpn (ctx_tracker ctcm) (dest_ip, dqpn).

(** What an application does with the packets it sees. *)
Definition handle (ctcm : ctcm_context) (dir : ctcm_direction) (packet : rte_mbuf)
  : result ctcm_context :=
  '(_, packet) ← ctcm_parse_packet ctcm packet;
  '(_, ctcm) ← ctcm_process_packet ctcm dir packet;
  Ok ctcm.

Fixpoint handle_all (ctcm : ctcm_context) (tr : list (ctcm_direction * rte_mbuf))
  : result ctcm_context :=
  match tr with
  | [] => Ok ctcm
  | (dir, p) :: tr' => ctcm ← handle ctcm dir p; handle_all ctcm tr'
  end.

End Api.

(** ** From packets to messages *)
Section ApiFacts.
Context `{Endian} `{Dpdk} `{DynfieldRegistry}.

(** The message in a communication management packet, by the layout of the headers:
    the MAD is 28 bytes behind the start of the UDP header, its attribute id at byte
    16, the communication ids at bytes 24 and 28, and the 24-bit queue pair number
    at byte 56 of a REQ and at byte 36 of a REP.  Addresses stay in network order. *)
Definition message_of (p : rte_mbuf) : cm_msg :=
  let mad := udp_at p + 28 in
  let attr := be_at (buf p) (mad + 16) 2 in
  {| m_attr := attr;
     m_local_comm_id := be_at (buf p) (mad + 24) 4;
     m_remote_comm_id := be_at (buf p) (mad + 28) 4;
     m_qpn := be_at (buf p) (mad + (if attr =? CM_REQ_ATTR_ID then 56 else 36)) 4 / 2 ^ 8;
     m_saddr := htobe 4 (be_at (buf p) (l2_len p + 12) 4);
     m_daddr := htobe 4 (be_at (buf p) (l2_len p + 16) 4) |}.

(** A UDP packet of the application: header lengths valid, datagram complete, the
    dynamic area in place; and if it is a communication management packet, it is
    IPv4 with a full header and holds a whole MAD of 256 bytes. *)
Record app_packet (d : dynfield_offsets) (p : rte_mbuf) : Prop := {
  ap_udp : udp_packet p;
  ap_complete : complete p;
  ap_dyn : dynfields_ok d p;
  ap_cm : is_cm p = true →
    RTE_ETH_IS_IPV4_HDR (packet_type p) = true ∧ 20 ≤ l3_len p ∧ 8 + 12 + 8 + 256 + 4 ≤ udp_length p;
}.

(** The messages among a sequence of packets. *)
Definition messages (tr : list (ctcm_direction * rte_mbuf)) : list (ctcm_direction * cm_msg) :=
  (λ '(dir, p), (dir, message_of p)) <$> List.filter (λ '(_, p), is_cm p) tr.

(** A 32-bit field of a message at a byte of the MAD. *)
Lemma get_field32 f m a off low w :
  fld_ok f = true → fld_bytes f = 4%nat → fld_offset f = off → fld_low f = low → fld_width f = w →
  low + w = 32 → in_range m (a + off) 4 = true →
  IBA_GET f m a = Ok (be_at m (a + off) 4 / 2 ^ low).
Proof.
  intros Hok Hb Ho Hl Hw H32 Hr. pose proof Hok as (_ & _ & Hl0 & Hw0 & _)%fld_ok_spec.
  rewrite IBA_GET_slice by (rewrite ?Ho, ?Hb; done). rewrite Hb, Ho, Hl, Hw.
  pose proof (be_at_range m (a + off) 4) as Hx. change (Z.of_nat 4 * 8) with 32 in Hx.
  f_equal. apply Z.mod_small. split; [apply Z.div_pos; lia|].
  apply Z.div_lt_upper_bound; [lia|]. rewrite <- Z.pow_add_r by lia. rewrite H32. lia.
Qed.

Lemma message_get p f :
  (∀ o n, 0 ≤ o → o + Z.of_nat n ≤ 256 → in_range (buf p) (udp_at p + 28 + o) n = true) →
  In f (read_fields (m_attr (message_of p))) →
  IBA_GET f (buf p) (udp_at p + 28) = pkt_get f (message_of p) (Some 0).
Proof.
  intros Hin Hf. unfold read_fields in Hf.
  assert (Hq : m_qpn (message_of p) =
    be_at (buf p) (udp_at p + 28 + (if m_attr (message_of p) =? CM_REQ_ATTR_ID then 56 else 36)) 4 / 2 ^ 8)
    by reflexivity.
  destruct (m_attr (message_of p) =? CM_REQ_ATTR_ID);
    [|destruct (m_attr (message_of p) =? CM_REP_ATTR_ID)];
    repeat destruct Hf as [<-|Hf]; try done; symmetry;
    first [ refine (eq_trans (msg_get_local _ _) _);
            rewrite (get_field32 _ _ _ 24 0 32) by (try reflexivity; apply Hin; lia);
            by rewrite Z.div_1_r
          | refine (eq_trans (msg_get_remote _ _) _);
            rewrite (get_field32 _ _ _ 28 0 32) by (try reflexivity; apply Hin; lia);
            by rewrite Z.div_1_r
          | refine (eq_trans (msg_get_req_qpn _ _) _);
            by rewrite (get_field32 _ _ _ 56 8 24), Hq by (try reflexivity; apply Hin; lia)
          | refine (eq_trans (msg_get_rep_qpn _ _) _);
            by rewrite (get_field32 _ _ _ 36 8 24), Hq by (try reflexivity; apply Hin; lia) ].
Qed.

Lemma carries_message d p :
  udp_packet p → complete p → RTE_ETH_IS_IPV4_HDR (packet_type p) = true → 20 ≤ l3_len p →
  288 ≤ udp_length p → ctcm_mbuf_get_mad d p = Ok (Some (udp_at p + 28)) →
  @carries _ (mbuf_packet d) p (message_of p).
Proof.
  intros [[Hl2 Hl3 _ _] _ _] [Hh Hb _ _] H4 H20 Hlen Hmad.
  assert (Hu : 0 ≤ udp_at p) by (unfold udp_at; lia).
  assert (Hip : l2_len p + 20 ≤ Z.of_nat (length (buf p))) by (unfold udp_at in *; lia).
  assert (Hin : ∀ o n, 0 ≤ o → o + Z.of_nat n ≤ 256 → in_range (buf p) (udp_at p + 28 + o) n = true)
    by (intros; apply in_range_true; lia).
  split; cbn [pkt_mad pkt_get pkt_attr_id pkt_hdr8 pkt_saddr pkt_daddr mbuf_packet].
  - exists (udp_at p + 28). cbn [deref]. split; [done|]. split; [|split].
    + autorewrite with ctcm. unfold load16, be16toh. layout_norm. rewrite load_int_in by (apply Hin; lia).
      autorewrite with ctcm. by rewrite htobe_be_at.
    + intros f Hf. autorewrite with ctcm. by apply message_get.
    + intros field Hf. eexists. autorewrite with ctcm. unfold load8. apply load_int_in.
      destruct Hf as [<-|[<-|[<-|[<-|[]]]]]; layout_norm; apply Hin; lia.
  - unfold mbuf_ip. rewrite H4. cbn [assert_that NDEBUG debug_build]. autorewrite with ctcm. unfold load32. layout_norm.
    by rewrite load_int_in by (apply in_range_true; lia).
  - unfold mbuf_ip. rewrite H4. cbn [assert_that NDEBUG debug_build]. autorewrite with ctcm. unfold load32. layout_norm.
    by rewrite load_int_in by (apply in_range_true; lia).
Qed.

(** One packet. *)
Lemma handle_packet c dir p :
  app_packet (ctx_parser c) p →
  handle c dir p =
  if is_cm p then
    '(_, s) ← process (message_of p) dir (ctx_tracker c);
    Ok {| ctx_parser := ctx_parser c; ctx_tracker := s |}
  else Ok c.
Proof.
  intros [Hu Hc Hd Hcm].
  destruct (parse_packet_ok _ p Hu Hc Hd) as (p' & Hp & _ & Hm & He & _).
  unfold handle, ctcm_parse_packet, ctcm_process_packet, parser_get_mad. rewrite Hp. autorewrite with ctcm.
  rewrite (get_mad_field _ _ _ Hm). autorewrite with ctcm.
  unfold mad_ptr in *. destruct (is_cm p) eqn:Hic; [|done].
  destruct (Hcm eq_refl) as (H4 & H20 & Hlen).
  assert (Hx : ∃ x, p' = set_dyn p x) by eauto. destruct Hx as [x ->].
  assert (Hca : @carries _ (mbuf_packet (ctx_parser c)) (set_dyn p x) (message_of (set_dyn p x))).
  { apply carries_message; try done; [by destruct Hu as [[]]|by destruct Hc|].
    by rewrite (get_mad_field _ _ _ Hm). }
  rewrite (carries_process _ _ _ _ Hca). change (message_of (set_dyn p x)) with (message_of p).
  destruct (process (message_of p) dir (ctx_tracker c)) as [[[] s]|]; done.
Qed.

(** C1: the library as the application sees it.  When every packet is complete and
    every communication management packet holds its whole MAD, parsing and
    processing a sequence of packets is running the tracker on the messages they
    carry, read by the layout of the headers from the bytes of each buffer: the
    other packets change nothing, no access leaves a buffer, and the only way to
    stop is that of the tracker. *)
Theorem handle_all_runs c tr :
  (∀ dir p, In (dir, p) tr → app_packet (ctx_parser c) p) →
  handle_all c tr =
  s ← run (ctx_tracker c) (messages tr);
  Ok {| ctx_parser := ctx_parser c; ctx_tracker := s |}.
Proof.
  revert c. induction tr as [|[dir p] tr IH]; intros c Htr; [by destruct c|].
  cbn [handle_all]. rewrite handle_packet by (eapply Htr; by left).
  unfold messages. cbn [List.filter]. destruct (is_cm p).
  - cbn [fmap list_fmap run]. destruct (process (message_of p) dir (ctx_tracker c)) as [[[] s]|]; [|done].
    cbn. rewrite IH; [done|]. intros. eapply Htr. by right.
  - cbn. rewrite IH; [done|]. intros. eapply Htr. by right.
Qed.

(** C36: the length check of the parser counts the BTH, the DETH, the MAD header and
    the ICRC but not the UDP header, and nothing checks the body of the MAD: a
    communication management packet with the REQ attribute whose datagram ends
    before the communication id is accepted by [ctcm_parse_packet], and processing
    it, from either side, reads past the end of the datagram (which is the end of
    the buffer here). *)
Theorem short_req_overruns c dir p :
  udp_packet p → complete p → dynfields_ok (ctx_parser c) p →
  is_cm p = true → m_attr (message_of p) = CM_REQ_ATTR_ID →
  udp_length p < 56 → Z.of_nat (length (buf p)) = udp_at p + udp_length p →
  (∃ p', ctcm_parse_packet c p = Ok (0, p') ∧
         ctcm_mbuf_get_mad (ctx_parser c) p' = Ok (Some (udp_at p + 28))) ∧
  handle c dir p = Fault OutOfBounds.
Proof.
  intros Hu Hc Hd Hcm Ha Hlen Hbuf.
  destruct (parse_packet_ok _ p Hu Hc Hd) as (p' & Hp & _ & Hm & He & _).
  unfold mad_ptr in *. rewrite Hcm in *. apply get_mad_field in Hm as Hg.
  unfold handle, ctcm_process_packet, ctcm_parse_packet, parser_get_mad. rewrite Hp. autorewrite with ctcm.
  split; [by exists p'|]. rewrite Hg. autorewrite with ctcm.
  assert (Hx : ∃ x, p' = set_dyn p x) by eauto. destruct Hx as [x ->]. clear He.
  assert (H48 : 48 ≤ udp_length p) by (unfold is_cm in Hcm; lia).
  assert (Hu0 : 0 ≤ udp_at p) by (destruct Hu as [[]]; unfold udp_at; lia).
  set (M := mbuf_packet (ctx_parser c)) in *.
  assert (Hattr : get_attr_id (set_dyn p x) = Ok CM_REQ_ATTR_ID).
  { unfold get_attr_id. cbn [pkt_mad M mbuf_packet]. rewrite Hg. autorewrite with ctcm.
    cbn [pkt_attr_id M mbuf_packet deref]. autorewrite with ctcm. unfold load16, be16toh. layout_norm.
    rewrite load_int_in by (apply in_range_true; cbn; lia). autorewrite with ctcm.
    rewrite htobe_be_at. by f_equal. }
  assert (Hget : pkt_get CM_REQ_LOCAL_COMM_ID (set_dyn p x) (Some (udp_at p + 28)) = Fault OutOfBounds).
  { cbn [pkt_get M mbuf_packet deref]. autorewrite with ctcm. unfold IBA_GET, _iba_get, load_int, load.
    change (fld_offset CM_REQ_LOCAL_COMM_ID) with 24. change (fld_bytes CM_REQ_LOCAL_COMM_ID) with 4%nat.
    destruct (in_range _ _ _) eqn:Hr; [|done]. apply in_range_true in Hr. cbn in Hr. lia. }
  rewrite process_eq, (M_bind_l _ _ _ CM_REQ_ATTR_ID (ctx_tracker c)) by (by apply lift_Ok).
  destruct dir; cbn [handler_of Z.eqb Pos.eqb CM_REQ_ATTR_ID]; unfold req_sent, req_received;
    rewrite (M_bind_l _ _ _ (Some (udp_at p + 28)) (ctx_tracker c)) by (by apply lift_Ok);
    unfold mbind, M_bind, lift; by rewrite Hget.
Qed.

(** What an application gets when it sets up the library.  [ctcm_create] throws
    exactly when DPDK refuses a field; otherwise the context has no flow, every
    query answers 0, and [ctcm_dynfield_offsets] hands out, to a structure that is
    large enough, offsets through which the inline functions of the header access
    the same fields as the library, valid in every buffer; a structure that is too
    small is left alone and the call fails with [ENOMEM]. *)
Theorem create_and_offsets `{!DynfieldLaws _} r storage :
  registry_ok r →
  ∃ r' c, ctcm_create r storage = Ok (r', c) ∧
    match c with
    | inl _ => (rte_mbuf_dynfield_register r bth_dynfield).2 < 0 ∨
               (rte_mbuf_dynfield_register (rte_mbuf_dynfield_register r bth_dynfield).1
                  mad_dynfield).2 < 0
    | inr c =>
        (∀ ip qpn, ctcm_query_ipv4 c ip qpn = 0) ∧
        ∀ offsets, let '(ret, errno, o) := ctcm_dynfield_offsets c offsets in
          if dyn_size offsets <? 12 then ret = -1 ∧ errno = Some ENOMEM ∧ o = offsets
          else ret = 0 ∧ errno = None ∧
               ∀ p, Z.of_nat (length (dyn p)) = dyn_area →
                 dynfields_ok o p ∧
                 ctcm_mbuf_get_bth o p = ctcm_mbuf_get_bth (ctx_parser c) p ∧
                 ctcm_mbuf_get_mad o p = ctcm_mbuf_get_mad (ctx_parser c) p
    end.
Proof.
  intros Hr. destruct (parser_context_ok r storage Hr) as (r' & k & Hk & _ & Hc).
  unfold ctcm_create. rewrite Hk. autorewrite with ctcm.
  destruct (rte_mbuf_dynfield_register r _) as [r1 o1]. cbn [fst snd].
  destruct (rte_mbuf_dynfield_register r1 _) as [r2 o2]. cbn [fst snd].
  destruct ((o1 <? 0) || (o2 <? 0)) eqn:Ho.
  - subst k. eexists _, _. split; [done|]. cbn. lia.
  - destruct Hc as [-> Hf]. eexists _, _. split; [done|]. split; [done|]. intros offsets.
    unfold ctcm_dynfield_offsets. layout_norm. destruct (dyn_size offsets <? 12); [done|].
    split_and!; [done..|]. intros p Hp. split_and!; [|done..].
    by destruct (Hf p Hp) as [? ? ?].
Qed.
End ApiFacts.
