(* ===== verification/Portable.v ===== *)
(** * Portable: the byte order of the host does not matter

    Addresses stay in network order in the tables, so that as numbers they depend on
    the byte order of the host; everything else is converted when it is read.  Two
    hosts of different byte order that see the same packets keep the same
    connections and give the same answer for the same address: their trackers are
    related by the translation that swaps the bytes of addresses ([Relate]). *)

From Stdlib Require Import ZArith Lia String.
From stdpp Require Import base tactics numbers list strings gmap.
From coqutil Require Import Byte.
From S2P Require Import Prelude Memory Layout IbMad Iba IbtaC12 Mbuf Parser CmPacket Tracker TrackerInv TrackerStep TrackerSpec Handshake Relate Main.

Local Open Scope string_scope.
Open Scope Z_scope.
Open Scope ctcm_scope.

Section Hosts.
Context (E1 E2 : Endian) `{Dpdk}.

(** The number of an address on the second host, from that on the first. *)
Definition renumber (a : Z) : Z :=
  if (0 <=? a) && (a <? 2 ^ 32) then @htobe E2 4 (@htobe E1 4 a) else a.

Lemma renumber_range a : (0 <=? renumber a) && (renumber a <? 2 ^ 32) = (0 <=? a) && (a <? 2 ^ 32).
Proof.
  unfold renumber. destruct ((0 <=? a) && (a <? 2 ^ 32)) eqn:Ha; [|done].
  pose proof (@htobe_range E2 4 (@htobe E1 4 a)) as Hr. change (2 ^ (Z.of_nat 4 * 8)) with (2 ^ 32) in Hr. lia.
Qed.

Lemma renumber_htobe v : renumber (@htobe E1 4 v) = @htobe E2 4 (v mod 2 ^ 32).
Proof.
  unfold renumber. pose proof (@htobe_range E1 4 v) as Hr. change (2 ^ (Z.of_nat 4 * 8)) with (2 ^ 32) in Hr.
  destruct ((0 <=? _) && _) eqn:Ha; [|lia]. by rewrite (@htobe_htobe E1).
Qed.

#[global] Instance renumber_translation : Translation renumber.
Proof.
  split.
  - intros a b Hab. assert (Hr : (0 <=? a) && (a <? 2 ^ 32) = (0 <=? b) && (b <? 2 ^ 32))
      by (rewrite <- (renumber_range a), <- (renumber_range b); by rewrite Hab).
    unfold renumber in Hab. rewrite Hr in Hab. destruct ((0 <=? b) && (b <? 2 ^ 32)) eqn:Hb; [|done].
    apply (f_equal (@htobe E2 4)) in Hab.
    rewrite !(@htobe_inv E2) in Hab by apply (@htobe_range E1).
    apply (f_equal (@htobe E1 4)) in Hab. rewrite !(@htobe_inv E1) in Hab by (change (2 ^ (Z.of_nat 4 * 8)) with (2 ^ 32); lia).
    done.
  - unfold renumber. cbn [Z.leb Z.ltb]. by rewrite !htobe_0.
Qed.

Lemma renumber_bytes ip : length ip = 4%nat → renumber (@host_combine E1 ip) = @host_combine E2 ip.
Proof.
  intros Hl. rewrite !(host_combine_htobe 4) by done. rewrite renumber_htobe. f_equal.
  pose proof (be_combine_range ip) as Hr. rewrite Hl in Hr. apply Z.mod_small. done.
Qed.

#[local] Transparent msg_packet.
Lemma message_twin p : twin renumber (@message_of E1 p) (@message_of E2 p).
Proof.
  split; try done; unfold tr_result; cbn; rewrite renumber_htobe; f_equal; f_equal; symmetry;
    apply Z.mod_small, be_at_range.
Qed.
#[local] Opaque msg_packet.

(** ** Runs *)

Lemma wf_fresh_next s : wf s → heap s !! next s = None.
Proof. intros W. destruct (heap s !! next s) as [f|] eqn:E; [|done]. apply (wf_next _ W) in E. lia. Qed.

(** Two contexts whose trackers are related. *)
Definition paired (c1 c2 : ctcm_context) : Prop :=
  wf (ctx_tracker c1) ∧ wf (ctx_tracker c2) ∧
  ∃ β, related renumber false β (ctx_tracker c1) (ctx_tracker c2).

Lemma paired_handle c1 c2 dir p :
  paired c1 c2 → app_packet (ctx_parser c1) p → app_packet (ctx_parser c2) p →
  match @handle _ E1 _ c1 dir p, @handle _ E2 _ c2 dir p with
  | Ok c1', Ok c2' => paired c1' c2' ∧ ctx_parser c1' = ctx_parser c1 ∧ ctx_parser c2' = ctx_parser c2
  | Fault x, Fault y => x = y
  | _, _ => False
  end.
Proof.
  intros (W1 & W2 & β & Hr) A1 A2. rewrite (@handle_packet E1), (@handle_packet E2) by done.
  destruct (is_cm p); [|split; [by split; [|split; [|exists β]]|done]].
  assert (Hr' : related renumber true β (ctx_tracker c1) (ctx_tracker c2)).
  { destruct Hr as [Rf Ri Rh Rl Rr Rm Rq _]. split; try done. intros _. by split; apply wf_fresh_next. }
  pose proof (process_related renumber _ _ (message_twin p) β _ _ dir W1 Hr') as Hs. unfold sim in Hs.
  destruct (process (@message_of E1 p) dir _) as [[u s1]|x] eqn:P1,
    (process (@message_of E2 p) dir _) as [[u' t1]|y] eqn:P2; try done.
  destruct Hs as (β1 & _ & Hr1 & _). cbn. split; [|done].
  split; [exact (process_wf _ _ _ _ _ W1 P1)|].
  split; [exact (process_wf _ _ _ _ _ W2 P2)|by exists β1].
Qed.

Lemma paired_query c1 c2 ip q :
  paired c1 c2 → length ip = 4%nat →
  ctcm_query_ipv4 c1 (@host_combine E1 ip) q = ctcm_query_ipv4 c2 (@host_combine E2 ip) q.
Proof.
  intros (_ & _ & β & Hr) Hl. unfold ctcm_query_ipv4, get_source_qpn. rewrite <- (renumber_bytes ip Hl).
  change (renumber (@host_combine E1 ip), q) with (trk renumber (@host_combine E1 ip, q)).
  by rewrite (qpn_lookup _ _ _ _ _ _ Hr).
Qed.

(** C15: two hosts, whatever the byte order of each, that handle the same packets either
    both stop in the same way or both go on, and then they answer every query for the
    same four bytes of an address and the same queue pair alike. *)
Theorem byte_order_portable c1 c2 tr :
  ctx_tracker c1 = empty_tracker → ctx_tracker c2 = empty_tracker →
  (∀ dir p, In (dir, p) tr → app_packet (ctx_parser c1) p ∧ app_packet (ctx_parser c2) p) →
  match @handle_all _ E1 _ c1 tr, @handle_all _ E2 _ c2 tr with
  | Ok c1', Ok c2' => ∀ ip q, length ip = 4%nat →
      ctcm_query_ipv4 c1' (@host_combine E1 ip) q = ctcm_query_ipv4 c2' (@host_combine E2 ip) q
  | Fault x, Fault y => x = y
  | _, _ => False
  end.
Proof.
  intros H1 H2 Htr.
  assert (Hp : paired c1 c2).
  { unfold paired. rewrite H1, H2. split_and!; [apply wf_empty..|].
    exists (λ _ _, False). split; try done; intros k; constructor. }
  clear H1 H2. revert c1 c2 Htr Hp.
  induction tr as [|[dir p] tr IH]; intros c1 c2 Htr Hp; cbn [handle_all]; [by intros; apply paired_query|].
  destruct (Htr dir p) as [A1 A2]; [by left|].
  pose proof (paired_handle c1 c2 dir p Hp A1 A2) as Hh.
  destruct (@handle _ E1 _ c1 dir p) as [c1'|x], (@handle _ E2 _ c2 dir p) as [c2'|y]; try done.
  destruct Hh as (Hp' & D1 & D2). apply IH; [|done]. intros dir' p' Hin. rewrite D1, D2.
  apply (Htr dir' p'). by right.
Qed.
End Hosts.
