(* ===== verification/Release.v ===== *)
(** * Release: the library without its assertions

    With [NDEBUG] defined the assertions of the sources expand to nothing.  Where the
    build with assertions goes on, the build without them does the same: the
    assertions only look.  Where an assertion would stop the tracker, the release
    build goes on with whatever it has, and is never stopped by a packet that can be
    read; but a truncated packet, which an assertion of the packet accessors catches,
    is read past its end. *)

From Stdlib Require Import ZArith Lia String.
From stdpp Require Import base tactics numbers list strings gmap.
From coqutil Require Import Byte.
From S2P Require Import Prelude Memory Layout Bitfield RxeHdr RxeHdrSpec IbMad Iba IbtaC12 IbPack Mbuf Parser CmPacket Tracker TrackerInv TrackerStep TrackerSpec Handshake Conform TrackerTrace TrackerFaults Cnp Main.

Local Open Scope string_scope.
Open Scope Z_scope.
Open Scope ctcm_scope.

(** ** What the build with assertions does, the other does *)

Definition leR {A} (e e' : result A) : Prop := ∀ r, e = Ok r → e' = Ok r.

#[global] Instance leR_preorder {A} : PreOrder (@leR A).
Proof. split; [by intros e r|]. intros e1 e2 e3 H12 H23 r He. by apply H23, H12. Qed.

Lemma leR_bind {A B} (e e' : result A) (k k' : A → result B) :
  leR e e' → (∀ a, leR (k a) (k' a)) → leR (e ≫= k) (e' ≫= k').
Proof.
  intros He Hk r (a & H1 & H2)%bind_Ok. apply bind_Ok. exists a. split; [by apply He|by apply Hk].
Qed.

Lemma leR_assert b : leR (@assert_that debug_build b) (@assert_that release_build b).
Proof. intros [] _. done. Qed.

Lemma leM_lift_leR {A} (e e' : result A) : leR e e' → leM (lift e) (lift e').
Proof. apply leM_lift. Qed.

Lemma leM_assert b : leM (@assertM debug_build b) (@assertM release_build b).
Proof. apply leM_lift_leR, leR_assert. Qed.

(** An assertion whose argument reads the packet is gone together with the read. *)
Lemma leM_assertion (Q : Prop) `{Decision Q} {A} (e : result A) (b : A → bool) (k : M unit) :
  leM (if decide (Q ∧ @NDEBUG debug_build = false) then a ← lift e; assertM (b a) else mret tt)
      (if decide (Q ∧ @NDEBUG release_build = false) then k else mret tt).
Proof.
  rewrite (decide_False (P := Q ∧ @NDEBUG release_build = false)) by (by intros []).
  case_decide; [|reflexivity]. intros s [[] s'] Hs. by inv_M.
Qed.

Create HintDb release.
#[local] Hint Resolve leR_assert leM_assert : release.

(** Two copies of one program, up to their assertions. *)
Ltac le_step :=
  match goal with
  | |- leR ?e ?e => reflexivity
  | |- leM ?e ?e => reflexivity
  | |- leR (_ ≫= _) (_ ≫= _) => apply leR_bind; [|intros ?]
  | |- leM (_ ≫= _) (_ ≫= _) => apply leM_bind; [|intros ?]
  | |- leM (assertM _) (assertM _) => apply leM_assert
  | |- leM (lift _) (lift _) => apply leM_lift_leR
  | |- leM (if decide (_ ∧ NDEBUG = false) then _ else _) _ => apply leM_assertion
  | |- leR (let _ := _ in _) _ => cbn zeta
  | |- leM (let _ := _ in _) _ => cbn zeta
  | |- leR (match ?x with _ => _ end) _ => destruct x
  | |- leM (match ?x with _ => _ end) _ => destruct x
  | _ => solve [auto with release nocore]
  end.
Ltac le_all := repeat le_step.

Section Accessors.
Context `{Endian} `{Dpdk} (d : dynfield_offsets) (p : rte_mbuf).

Lemma get_bth_le : leR (@ctcm_mbuf_get_bth debug_build _ d p) (@ctcm_mbuf_get_bth release_build _ d p).
Proof. unfold ctcm_mbuf_get_bth. le_all. Qed.
Lemma get_mad_le : leR (@ctcm_mbuf_get_mad debug_build _ d p) (@ctcm_mbuf_get_mad release_build _ d p).
Proof. unfold ctcm_mbuf_get_mad. le_all. Qed.
Lemma set_bth_le q : leR (@ctcm_mbuf_set_bth debug_build _ d p q) (@ctcm_mbuf_set_bth release_build _ d p q).
Proof. unfold ctcm_mbuf_set_bth. le_all. Qed.
Lemma set_mad_le q : leR (@ctcm_mbuf_set_mad debug_build _ d p q) (@ctcm_mbuf_set_mad release_build _ d p q).
Proof. unfold ctcm_mbuf_set_mad. le_all. Qed.
Lemma mbuf_ip_le : leR (@mbuf_ip debug_build _ p) (@mbuf_ip release_build _ p).
Proof. unfold mbuf_ip. le_all. Qed.
Lemma mbuf_udp_le : leR (@mbuf_udp debug_build _ p) (@mbuf_udp release_build _ p).
Proof. unfold mbuf_udp. le_all. Qed.
Lemma mbuf_bth_le : leR (@mbuf_bth debug_build p) (@mbuf_bth release_build p).
Proof. unfold mbuf_bth. le_all. Qed.
End Accessors.
#[local] Hint Resolve get_bth_le get_mad_le set_bth_le set_mad_le mbuf_ip_le mbuf_udp_le mbuf_bth_le : release.

(** ** The tracker *)

Section Tracker.
Abbreviation dbg := debug_build.
Abbreviation rel := release_build.

Lemma add_new_flow_le lid rid : leM (@add_new_flow dbg lid rid) (@add_new_flow rel lid rid).
Proof. unfold add_new_flow. le_all. Qed.
#[local] Hint Resolve add_new_flow_le : release.
Lemma get_flow_le lid rid : leM (@get_flow dbg lid rid) (@get_flow rel lid rid).
Proof. unfold get_flow. le_all. Qed.
Lemma erase_flow_le lid rid : leM (@erase_flow dbg lid rid) (@erase_flow rel lid rid).
Proof. unfold erase_flow. le_all. Qed.
#[local] Hint Resolve get_flow_le erase_flow_le : release.

(** The reads of a packet that two builds make. *)
Context {P : Type} (H1 H2 : CmPacket P).

Record reads_le (p : P) : Prop := {
  rd_mad : leR (@pkt_mad _ H1 p) (@pkt_mad _ H2 p);
  rd_get : ∀ f msg, leR (@pkt_get _ H1 f p msg) (@pkt_get _ H2 f p msg);
  rd_attr : ∀ msg, leR (@pkt_attr_id _ H1 p msg) (@pkt_attr_id _ H2 p msg);
  rd_hdr8 : ∀ f msg, leR (@pkt_hdr8 _ H1 f p msg) (@pkt_hdr8 _ H2 f p msg);
  rd_saddr : leR (@pkt_saddr _ H1 p) (@pkt_saddr _ H2 p);
  rd_daddr : leR (@pkt_daddr _ H1 p) (@pkt_daddr _ H2 p);
}.
#[local] Hint Resolve rd_mad rd_get rd_attr rd_hdr8 rd_saddr rd_daddr : release.

Context (p : P) (Hp : reads_le p).
#[local] Hint Resolve Hp : release.

Lemma handler_le dir attr :
  match @handler_of dbg _ H1 dir attr, @handler_of rel _ H2 dir attr with
  | Some h, Some h' => leM (h p) (h' p)
  | None, None => True
  | _, _ => False
  end.
Proof.
  unfold handler_of. destruct dir; repeat case_match; simplify_eq; try done;
    unfold req_sent, req_received, rej_sent, rej_received, rep_sent, rep_received, rtu_sent, rtu_received,
      dreq_sent, dreq_received, drep_sent, drep_received, from_src, from_dest; le_all.
Qed.

Lemma process_le dir : leM (@process dbg _ H1 p dir) (@process rel _ H2 p dir).
Proof.
  intros s r. rewrite !process_eq. revert s r.
  change (leM
    (attr ← lift (@get_attr_id _ H1 p); match @handler_of dbg _ H1 dir attr with Some h => h p | None =>
       hdr ← lift (@pkt_mad _ H1 p); _ ← lift (@pkt_hdr8 _ H1 "base_version" p hdr);
       _ ← lift (@pkt_hdr8 _ H1 "mgmt_class" p hdr); _ ← lift (@pkt_hdr8 _ H1 "class_version" p hdr);
       _ ← lift (@pkt_hdr8 _ H1 "method" p hdr); mret tt end)
    (attr ← lift (@get_attr_id _ H2 p); match @handler_of rel _ H2 dir attr with Some h => h p | None =>
       hdr ← lift (@pkt_mad _ H2 p); _ ← lift (@pkt_hdr8 _ H2 "base_version" p hdr);
       _ ← lift (@pkt_hdr8 _ H2 "mgmt_class" p hdr); _ ← lift (@pkt_hdr8 _ H2 "class_version" p hdr);
       _ ← lift (@pkt_hdr8 _ H2 "method" p hdr); mret tt end)).
  apply leM_bind; [unfold get_attr_id; le_all|]. intros attr. pose proof (handler_le dir attr) as Hh.
  destruct (@handler_of dbg _ H1 dir attr), (@handler_of rel _ H2 dir attr); try done. le_all.
Qed.
End Tracker.

Section Library.
Context `{Endian} `{Dpdk} `{DynfieldRegistry}.

Lemma parse_packet_le d p : leR (@parse_packet debug_build _ _ d p) (@parse_packet release_build _ _ d p).
Proof. unfold parse_packet, mutable_mbuf_udp, parser_set_bth, parser_set_mad. le_all. Qed.

Lemma create_le r storage :
  leR (@ctcm_create debug_build _ r storage) (@ctcm_create release_build _ r storage).
Proof. unfold ctcm_create, parser_context, dynfields. cbn [register_loop]. le_all. Qed.

Lemma mbuf_reads_le d p : reads_le (@mbuf_packet debug_build _ _ d) (@mbuf_packet release_build _ _ d) p.
Proof. split; intros; unfold mbuf_packet; cbn [pkt_mad pkt_get pkt_attr_id pkt_hdr8 pkt_saddr pkt_daddr]; le_all. Qed.

Lemma process_packet_le c dir p :
  leR (@ctcm_process_packet debug_build _ _ c dir p) (@ctcm_process_packet release_build _ _ c dir p).
Proof.
  unfold ctcm_process_packet, parser_get_mad. apply leR_bind; [le_all|]. intros [a|]; [|reflexivity].
  apply leR_bind; [|reflexivity]. intros r. apply process_le, mbuf_reads_le.
Qed.

Lemma handle_le c dir p : leR (@handle debug_build _ _ c dir p) (@handle release_build _ _ c dir p).
Proof.
  unfold handle, ctcm_parse_packet. apply leR_bind.
  - apply leR_bind; [apply parse_packet_le|reflexivity].
  - intros [x p']. apply leR_bind; [apply process_packet_le|reflexivity].
Qed.

Lemma generate_cnp_le phdr p q :
  leR (@ctcm_generate_cnp debug_build _ _ phdr p q) (@ctcm_generate_cnp release_build _ _ phdr p q).
Proof. unfold ctcm_generate_cnp, mutable_mbuf_ip, mutable_mbuf_bth. le_all. Qed.

(** The assertions have no effect but to stop the program.  Whatever a call of the
    build with assertions returns, and whatever a sequence of packets leaves, the
    build without them returns and leaves the same: creating a context, handling
    packets and completing a notification. *)
Theorem assertions_only_stop c tr r storage phdr cnp q :
  leR (@ctcm_create debug_build _ r storage) (@ctcm_create release_build _ r storage) ∧
  leR (@handle_all debug_build _ _ c tr) (@handle_all release_build _ _ c tr) ∧
  leR (@ctcm_generate_cnp debug_build _ _ phdr cnp q) (@ctcm_generate_cnp release_build _ _ phdr cnp q).
Proof.
  split_and!; [apply create_le| |apply generate_cnp_le].
  revert c. induction tr as [|[dir p] tr IH]; intros c; cbn [handle_all]; [reflexivity|].
  apply leR_bind; [apply handle_le|apply IH].
Qed.
End Library.

(** ** The tracker is never stopped *)

Section Total.
#[local] Existing Instance release_build | 0.

(** Without the assertions the ids of flows and entries may disagree; what remains is
    that entries lead to flow objects. *)
Record closed (s : tracker) : Prop := {
  cl_local : ∀ k l, local_map s !! k = Some l → is_Some (heap s !! l);
  cl_remote : ∀ k l, remote_map s !! k = Some l → is_Some (heap s !! l);
}.

(** The state after a part of a handler: entries still lead to objects, and no object
    is gone. *)
Record onward (s s' : tracker) : Prop := {
  ow_closed : closed s → closed s';
  ow_heap : ∀ l, is_Some (heap s !! l) → is_Some (heap s' !! l);
}.

#[local] Instance onward_preorder : PreOrder onward.
Proof. split; [by split|]. intros s1 s2 s3 [C1 H1] [C2 H2]. split; auto. Qed.

Lemma onward_upd l f s : onward s (upd l f s).
Proof.
  assert (Hh : ∀ l', is_Some (heap s !! l') → is_Some (heap (upd l f s) !! l')).
  { intros l' Hl. cbn. destruct (decide (l' = l)) as [->|Hne]; [by rewrite lookup_insert_eq|].
    by rewrite lookup_insert_ne. }
  split; [|done]. intros [CL CR]. split; intros k l' Hk; apply Hh; eauto.
Qed.

Lemma onward_qpn q s : onward s (set_qpn_map q s).
Proof. split; [|done]. by intros [CL CR]. Qed.

Lemma onward_local k x s :
  (∀ l, x = Some l → is_Some (heap s !! l)) →
  onward s (set_local_map (partial_alter (λ _, x) k (local_map s)) s).
Proof.
  intros Hx. split; [|done]. intros [CL CR]. split; cbn; [|done]. intros i l.
  destruct (decide (i = k)) as [->|Hne]; [rewrite lookup_partial_alter_eq; apply Hx|].
  rewrite lookup_partial_alter_ne by done. apply CL.
Qed.

Lemma onward_remote k x s :
  (∀ l, x = Some l → is_Some (heap s !! l)) →
  onward s (set_remote_map (partial_alter (λ _, x) k (remote_map s)) s).
Proof.
  intros Hx. split; [|done]. intros [CL CR]. split; cbn; [done|]. intros i l.
  destruct (decide (i = k)) as [->|Hne]; [rewrite lookup_partial_alter_eq; apply Hx|].
  rewrite lookup_partial_alter_ne by done. apply CR.
Qed.

(** [e] returns from [s], goes [onward], and its result satisfies [R]. *)
Definition goes {A} (R : A → tracker → Prop) (e : M A) (s : tracker) : Prop :=
  returns (λ a s', onward s s' ∧ R a s') e s.

Lemma goes_bind {A B} (R : A → tracker → Prop) (R' : B → tracker → Prop) (e : M A) (k : A → M B) s :
  goes R e s → (∀ a s1, onward s s1 → R a s1 → goes R' (k a) s1) → goes R' (e ≫= k) s.
Proof.
  intros (a & s1 & He & Ho & HR) Hk. destruct (Hk a s1 Ho HR) as (b & s2 & Hb & Ho' & HR').
  exists b, s2. split; [by rewrite (M_bind_l _ _ _ _ _ He)|]. split; [by etransitivity|done].
Qed.

Lemma goes_ret {A} (R : A → tracker → Prop) a s : R a s → goes R (mret a) s.
Proof. intros HR. by exists a, s. Qed.

Lemma goes_assert b s : goes (λ _ _, True) (assertM b) s.
Proof. by exists tt, s. Qed.

Lemma goes_obj l s : is_Some (heap s !! l) → goes (λ f _, True) (obj l) s.
Proof. intros [f Hf]. exists f, s. split; [by apply obj_Ok|done]. Qed.

Lemma goes_assign l g s : is_Some (heap s !! l) → goes (λ _ _, True) (assign l g) s.
Proof. intros [f Hf]. exists tt, (upd l (g f) s). split; [by apply assign_run|]. split; [apply onward_upd|done]. Qed.

Lemma goes_update g s : onward s (g s) → goes (λ _ _, True) (update g) s.
Proof. intros Hg. by exists tt, (g s). Qed.

Lemma goes_get_state s : goes (λ a s', a = s') get_state s.
Proof. by exists s, s. Qed.

Definition placed : loc → tracker → Prop := λ l s, is_Some (heap s !! l).

Create HintDb onward.
#[local] Hint Resolve ow_closed : onward.
#[local] Hint Extern 2 (is_Some (heap _ !! _)) => eapply ow_heap : onward.

Ltac placed := unfold placed in *; by eauto 8 with onward.

Ltac go_atom :=
  first [ apply goes_assert | apply goes_get_state
        | apply goes_obj; placed | apply goes_assign; placed
        | apply goes_update;
          first [ apply onward_qpn
                | apply (onward_local _ None); done | apply (onward_remote _ None); done
                | apply (onward_local _ (Some _)); intros ? [= <-]; placed
                | apply (onward_remote _ (Some _)); intros ? [= <-]; placed ] ].
Ltac go :=
  repeat match goal with
  | |- goes _ (mret _) _ => apply goes_ret; first [done | placed]
  | |- goes _ (let _ := _ in _) _ => cbn zeta
  | |- goes _ (match ?x with _ => _ end) _ => destruct x eqn:?
  | |- goes _ (_ ≫= _) _ => eapply goes_bind; [go_atom|intros ? ? ? ?]
  | |- goes (λ _ _, True) _ _ => go_atom
  end.

Lemma on_established_goes l s : is_Some (heap s !! l) → goes (λ _ _, True) (on_established l) s.
Proof. intros Hl. unfold on_established. go. Qed.

Lemma on_disconnected_goes l s : is_Some (heap s !! l) → goes (λ _ _, True) (on_disconnected l) s.
Proof. intros Hl. unfold on_disconnected. go. Qed.

Lemma make_shared_goes s : goes placed make_shared s.
Proof.
  eexists _, _. split; [done|]. split; [|unfold placed; cbn; rewrite lookup_insert_eq; eauto].
  destruct (onward_upd (next s) new_flow_state s) as [C Hh]. split; [|exact Hh].
  intros Cs. destruct (C Cs) as [CL CR]. by split.
Qed.

(** The naming of a flow, in the build without assertions. *)
Lemma add_tail_goes lid rid (b c : bool) l s :
  is_Some (heap s !! l) →
  goes placed
    (_ ← (if b then f ← obj l; _ ← assertM (local_id f =? 0); _ ← assign l (set_local_id lid);
            update (λ s, set_local_map (<[lid := l]> (local_map s)) s) else mret tt);
     _ ← (if c then f ← obj l; _ ← assertM (negb (key_bool (remote_id f))); _ ← assign l (set_remote_id rid);
            update (λ s, set_remote_map (<[rid := l]> (remote_map s)) s) else mret tt);
     mret l) s.
Proof.
  intros Hl. eapply (goes_bind (λ _ _, True)); [destruct b; go|]. intros _ s1 O1 _.
  eapply (goes_bind (λ _ _, True)); [destruct c; go|]. intros _ s2 O2 _. go.
Qed.

Lemma add_new_flow_goes lid rid s : closed s → goes placed (add_new_flow lid rid) s.
Proof.
  intros C. unfold add_new_flow. eapply goes_bind; [apply goes_get_state|]. intros ? s1 O1 ->.
  assert (C1 : closed s1) by eauto with onward. cbn zeta.
  destruct (local_map s1 !! lid) as [a|] eqn:HL, (remote_map s1 !! rid) as [b|] eqn:HR.
  - pose proof (cl_local _ C1 _ _ HL). go.
  - pose proof (cl_local _ C1 _ _ HL). eapply (goes_bind placed); [by apply goes_ret|].
    intros l s2 O2 Hl. by apply add_tail_goes.
  - pose proof (cl_remote _ C1 _ _ HR). eapply (goes_bind placed); [by apply goes_ret|].
    intros l s2 O2 Hl. by apply add_tail_goes.
  - eapply (goes_bind placed); [|intros l s2 O2 Hl; by apply add_tail_goes].
    eapply goes_bind; [apply goes_assert|]. intros. apply make_shared_goes.
Qed.

Lemma get_flow_goes lid rid s : closed s → goes placed (get_flow lid rid) s.
Proof.
  intros C. unfold get_flow. eapply goes_bind; [apply goes_assert|]. intros _ s1 O1 _.
  eapply goes_bind; [apply goes_get_state|]. intros ? s2 O2 ->. assert (C2 : closed s2) by eauto with onward.
  cbn zeta. destruct (if negb (lid =? 0) then _ else _) as [l|] eqn:Hl; [|by apply add_new_flow_goes].
  apply goes_ret. destruct (negb (lid =? 0)); [by eapply cl_local|by eapply cl_remote].
Qed.

Lemma erase_flow_goes lid rid s : closed s → goes (λ _ _, True) (erase_flow lid rid) s.
Proof.
  intros C. unfold erase_flow. eapply goes_bind; [apply goes_assert|]. intros _ s1 O1 _.
  eapply goes_bind; [apply goes_get_state|]. intros ? s2 O2 ->. assert (C2 : closed s2) by eauto with onward.
  destruct (negb (lid =? 0)).
  - destruct (local_map s2 !! lid) as [l|] eqn:HL; [|by apply goes_ret]. pose proof (cl_local _ C2 _ _ HL).
    eapply goes_bind; [by apply goes_obj|]. intros f s3 O3 _.
    eapply (goes_bind (λ _ _, True)); [destruct (in_qpn_map f); [apply on_disconnected_goes; placed|by apply goes_ret]|].
    intros _ s4 O4 _. go.
  - destruct (remote_map s2 !! rid) as [l|] eqn:HR; [|by apply goes_ret]. pose proof (cl_remote _ C2 _ _ HR).
    eapply goes_bind; [by apply goes_obj|]. intros f s3 O3 _.
    eapply (goes_bind (λ _ _, True)); [destruct (in_qpn_map f); [apply on_disconnected_goes; placed|by apply goes_ret]|].
    intros _ s4 O4 _. go.
Qed.

Lemma handler_goes lid rid (k : loc → flow_state → M unit) s :
  closed s → (∀ l f s1, closed s1 → is_Some (heap s1 !! l) → goes (λ _ _, True) (k l f) s1) →
  goes (λ _ _, True) (st ← get_flow lid rid; f ← obj st; k st f) s.
Proof.
  intros C Hk. eapply goes_bind; [by apply get_flow_goes|]. intros l s1 O1 Hl.
  eapply goes_bind; [by apply goes_obj|]. intros f s2 O2 _. apply Hk; [by eauto with onward|placed].
Qed.

(** A read of the message in the middle of a handler. *)
Lemma goes_read {A B} (R : B → tracker → Prop) (e : result A) a (k : A → M B) s :
  e = Ok a → goes R (k a) s → goes R (lift e ≫= k) s.
Proof. intros -> Hk. done. Qed.

Lemma handlers_go (m : cm_msg) s dir attr (h : cm_msg → M unit) :
  closed s → handler_of dir attr = Some h → goes (λ _ _, True) (h m) s.
Proof.
  intros C Hh. unfold handler_of in Hh. destruct dir; repeat case_match; simplify_eq;
    unfold goes, returns, req_sent, req_received, rej_sent, rej_received, rep_sent, rep_received, rtu_sent,
      rtu_received, dreq_sent, dreq_received, drep_sent, drep_received; read_goal;
    apply (handler_goes _ _ _ s C); intros l f s1 C1 Hl; cbn beta; destruct (state f) eqn:Hst;
    try (by apply goes_ret); try (by apply erase_flow_goes).
  all: repeat match goal with
  | |- goes _ (on_established _) _ => apply on_established_goes; placed
  | |- goes _ (assign _ _) _ => apply goes_assign; placed
  | |- goes _ (mret _) _ => by apply goes_ret
  | |- goes _ (assign _ _ ≫= _) _ => eapply goes_bind; [apply goes_assign; placed|intros ? ? ? ?]
  | |- goes _ (lift _ ≫= _) _ => eapply goes_read; [reflexivity|]
  | |- goes _ (assertM _) _ => apply goes_assert
  | |- goes _ (add_new_flow _ _ ≫= _) _ =>
      eapply goes_bind; [apply add_new_flow_goes; by eauto with onward|intros ? ? ? ?]
  | |- goes _ ((if decide _ then _ else _) ≫= _) _ =>
      eapply (goes_bind (λ _ _, True)); [case_decide|intros ? ? ? ?]
  end.
Qed.

Lemma process_goes (m : cm_msg) dir s : closed s → goes (λ _ _, True) (process m dir) s.
Proof.
  intros C. unfold goes, returns. rewrite process_eq.
  rewrite (M_bind_l _ _ s (m_attr m) s) by (apply lift_Ok; by rewrite read_attr).
  destruct (handler_of dir (m_attr m)) as [h|] eqn:Hh; [by eapply handlers_go|]. by exists tt, s.
Qed.
End Total.

(** C22: without its assertions the tracker is never stopped: it processes every
    sequence of packets that can be read, in whatever order and from whatever
    peers, and at the end every entry of its maps still leads to a flow object. *)
Theorem release_never_stops {P} `{CmPacket P} (tr : list (ctcm_direction * P)) :
  Forall (λ x, ∃ m, carries x.2 m) tr →
  ∃ s, @run release_build _ _ empty_tracker tr = Ok s ∧ closed s.
Proof.
  assert (C0 : closed empty_tracker) by (by split).
  revert C0. generalize empty_tracker. induction tr as [|[dir p] tr IH]; intros s C Htr; [by exists s|].
  apply Forall_cons in Htr as [[m Hm] Htr]. cbn [run].
  destruct (process_goes m dir s C) as ([] & s' & Hp & O & _).
  rewrite (carries_process _ _ _ _ Hm), Hp. apply IH; [by apply O|done].
Qed.

(** ** Truncated packets *)

Section Truncated.
Context `{Endian} `{Dpdk}.

Lemma u16_range z : 0 ≤ u16 z < 2 ^ 16.
Proof. apply Z.mod_pos_bound. lia. Qed.

(** Without assertions the setters store whatever they are given. *)
Lemma set_release d p q :
  dynfields_ok d p →
  (∃ x, @ctcm_mbuf_set_bth release_build _ d p q = Ok (set_dyn p x) ∧ dynfields_ok d (set_dyn p x)) ∧
  (∃ x, @ctcm_mbuf_set_mad release_build _ d p q = Ok (set_dyn p x) ∧ dynfields_ok d (set_dyn p x)).
Proof.
  intros [Hb Hm Ha]. set (o := match q with Some a => u64 a | None => 0 end).
  destruct (store16_load16 (dyn p) _ (u16 o) Hb (u16_range o)) as (x & Hx & Lx & _).
  destruct (store16_load16 (dyn p) _ (u16 o) Hm (u16_range o)) as (y & Hy & Ly & _).
  split; [exists x|exists y].
  - unfold ctcm_mbuf_set_bth, ctcm_mbuf_bth_offset. cbn [assert_that NDEBUG release_build].
    autorewrite with ctcm. fold o. rewrite Hx. split; [done|]. split; cbn; unfold in_range in *; by rewrite ?Lx.
  - unfold ctcm_mbuf_set_mad, ctcm_mbuf_mad_offset. cbn [assert_that NDEBUG release_build].
    autorewrite with ctcm. fold o. rewrite Hy. split; [done|]. split; cbn; unfold in_range in *; by rewrite ?Ly.
Qed.

(** C37: the length in the UDP header is not compared with the length of the packet.  A
    packet to the RoCE port that announces a datagram but ends with its UDP header
    stops the build with assertions in [ctcm_mbuf_set_bth]; the build without them
    stores the offset of a header that is not there and reads the opcode past the
    end of the buffer. *)
Theorem truncated_roce_by_build d p :
  udp_packet p → udp_at p + 8 = Z.of_nat (length (buf p)) → dynfields_ok d p →
  is_roce p = true → pkt_len p ≤ udp_at p + 8 →
  @parse_packet debug_build _ _ d p = Fault AssertFailure ∧
  @parse_packet release_build _ _ d p = Fault OutOfBounds.
Proof.
  intros Hu Hh Hd Hr Hp. split; [apply truncated_roce_aborts; auto; lia|].
  destruct Hu as [[Hl2 Hl3 _ _] Hn Ht]. assert (Hu0 : 0 ≤ udp_at p) by (unfold udp_at; lia).
  unfold parse_packet, parser_set_bth, parser_set_mad, mutable_mbuf_udp, mbuf_udp.
  cbn [assert_that NDEBUG release_build]. autorewrite with ctcm. fold (udp_at p). unfold load16, ntohs.
  change (offsetof udphdr "uh_ulen") with 4.
  rewrite load_int_in by (apply in_range_true; lia). autorewrite with ctcm.
  rewrite htobe_be_at. fold (udp_length p). rewrite extract_bth_spec by lia. autorewrite with ctcm.
  unfold bth_ptr. rewrite Hr.
  destruct (set_release d p (Some (udp_at p + 8)) Hd) as [(x & -> & Hd1) _]. autorewrite with ctcm.
  destruct (set_release d (set_dyn p x) None Hd1) as [_ (y & -> & _)]. autorewrite with ctcm.
  unfold extract_deth, __bth_opcode, load8, load_int, load. cbn [buf set_dyn].
  destruct (in_range _ _ _) eqn:Hin; [|done]. apply in_range_true in Hin.
  change (offsetof rxe_bth "opcode") with 0 in Hin. lia.
Qed.
End Truncated.
