(* ===== verification/Api.v ===== *)
(** * Api: the library in a process

    The calls of the C interface as an application issues them: contexts that are
    created and destroyed, packet buffers that all contexts share, and the registry
    of dynamic fields that is one per process.  An application is a sequence of
    calls. *)

From Stdlib Require Import ZArith Lia String.
From stdpp Require Import base tactics numbers list strings gmap.
From coqutil Require Import Byte.
From S2P Require Import Prelude Memory Layout Bitfield RxeHdr IbMad Iba IbtaC12 Mbuf Parser CmPacket Tracker TrackerInv TrackerStep TrackerSpec Handshake Conform Cnp Main.

Local Open Scope string_scope.
Open Scope Z_scope.
Open Scope ctcm_scope.

Section Process.
Context `{Endian} `{Dpdk} `{DynfieldRegistry}.

(** The contexts by handle, in the order of their creation, and the buffers of the
    application by name. *)
Record host := {
  h_registry : registry;
  h_contexts : gmap nat ctcm_context;
  h_next : nat;
  h_packets : gmap Z rte_mbuf;
}.

Definition set_contexts (x : gmap nat ctcm_context) (h : host) : host :=
  {| h_registry := h_registry h; h_contexts := x; h_next := h_next h; h_packets := h_packets h |}.
Definition set_packets (x : gmap Z rte_mbuf) (h : host) : host :=
  {| h_registry := h_registry h; h_contexts := h_contexts h; h_next := h_next h; h_packets := x |}.

(** [delete]: nothing for a null pointer, and a context at most once. *)
Definition ctcm_destroy (h : host) (ctcm : option nat) : result host :=
  match ctcm with
  | None => Ok h
  | Some i => match h_contexts h !! i with
              | Some _ => Ok (set_contexts (delete i (h_contexts h)) h)
              | None => Fault NullPointer
              end
  end.

(** The calls; [CallReceive] is the application that fills a buffer.  The values of
    uninitialised memory are arguments: [storage] of a new context, [phdr] of the
    pseudo header in [ctcm_generate_cnp]. *)
Inductive call :=
| CallCreate (storage : dynfield_offsets)
| CallDestroy (ctcm : option nat)
| CallOffsets (ctcm : nat) (offsets : dynfield_offsets)
| CallParse (ctcm : nat) (packet : Z)
| CallProcess (ctcm : nat) (dir : ctcm_direction) (packet : Z)
| CallQuery (ctcm : nat) (dest_ip dqpn : Z)
| CallFillCnp (ctcm : nat) (cnp : Z)
| CallGenerateCnp (ctcm : nat) (phdr : list byte) (cnp : Z) (dest_qpn : Z)
| CallReceive (packet : Z) (p : rte_mbuf).

(** What a call returns. *)
Inductive answer :=
| AnsVoid
| AnsInt (ret : Z)
| AnsHandle (ctcm : nat)
| AnsThrown (what : string)
| AnsOffsets (ret : Z) (errno : option Z) (offsets : dynfield_offsets).

(** A use of a handle or of a buffer that does not exist is undefined behaviour. *)
Definition do_call (h : host) (c : call) : result (host * answer) :=
  match c with
  | CallCreate storage =>
      '(r, x) ← ctcm_create (h_registry h) storage;
      match x with
      | inl what =>
          Ok ({| h_registry := r; h_contexts := h_contexts h; h_next := h_next h;
                 h_packets := h_packets h |}, AnsThrown what)
      | inr ctx =>
          Ok ({| h_registry := r; h_contexts := <[h_next h := ctx]> (h_contexts h);
                 h_next := S (h_next h); h_packets := h_packets h |}, AnsHandle (h_next h))
      end
  | CallDestroy i => h ← ctcm_destroy h i; Ok (h, AnsVoid)
  | CallOffsets i offsets =>
      ctx ← deref (h_contexts h !! i);
      let '(ret, errno, o) := ctcm_dynfield_offsets ctx offsets in
      Ok (h, AnsOffsets ret errno o)
  | CallParse i n =>
      ctx ← deref (h_contexts h !! i);
      p ← deref (h_packets h !! n);
      '(ret, p) ← ctcm_parse_packet ctx p;
      Ok (set_packets (<[n := p]> (h_packets h)) h, AnsInt ret)
  | CallProcess i dir n =>
      ctx ← deref (h_contexts h !! i);
      p ← deref (h_packets h !! n);
      '(ret, ctx) ← ctcm_process_packet ctx dir p;
      Ok (set_contexts (<[i := ctx]> (h_contexts h)) h, AnsInt ret)
  | CallQuery i ip qpn =>
      ctx ← deref (h_contexts h !! i);
      Ok (h, AnsInt (ctcm_query_ipv4 ctx ip qpn))
  | CallFillCnp i n =>
      p ← deref (h_packets h !! n);
      '(ret, p) ← ctcm_fill_cnp_template p;
      Ok (set_packets (<[n := p]> (h_packets h)) h, AnsInt ret)
  | CallGenerateCnp i phdr n qpn =>
      p ← deref (h_packets h !! n);
      p ← ctcm_generate_cnp phdr p qpn;
      Ok (set_packets (<[n := p]> (h_packets h)) h, AnsVoid)
  | CallReceive n p => Ok (set_packets (<[n := p]> (h_packets h)) h, AnsVoid)
  end.

Fixpoint do_calls (h : host) (cs : list call) : result (host * list answer) :=
  match cs with
  | [] => Ok (h, [])
  | c :: cs' =>
      '(h, a) ← do_call h c;
      '(h, l) ← do_calls h cs';
      Ok (h, a :: l)
  end.

(** ** The state of a process *)
Context `{!DynfieldLaws _}.

Record host_ok (h : host) : Prop := {
  ho_registry : registry_ok (h_registry h);
  ho_tracker : ∀ i c, h_contexts h !! i = Some c → wf (ctx_tracker c);
  ho_parser : ∀ i c, h_contexts h !! i = Some c → ∃ o1 o2,
    ctx_parser c = offsets_of o1 o2 ∧ In (bth_dynfield, o1) (registered (h_registry h)) ∧
    In (mad_dynfield, o2) (registered (h_registry h));
  ho_next : ∀ i, (h_next h ≤ i)%nat → h_contexts h !! i = None;
}.

(** A process that has not called the library yet. *)
Definition fresh_host (r : registry) (ps : gmap Z rte_mbuf) : host :=
  {| h_registry := r; h_contexts := ∅; h_next := 0; h_packets := ps |}.

Lemma fresh_host_ok r ps : registry_ok r → host_ok (fresh_host r ps).
Proof. intros Hr. by split. Qed.

Lemma offsets_unique r f o o' :
  registry_ok r → In (f, o) (registered r) → In (f, o') (registered r) → o = o'.
Proof.
  intros Hr Ho Ho'. pose proof (register_again _ _ _ Hr Ho) as Hb1.
  pose proof (register_again _ _ _ Hr Ho') as Hm1. congruence.
Qed.

Lemma same_parser h i j c c' :
  host_ok h → h_contexts h !! i = Some c → h_contexts h !! j = Some c' → ctx_parser c = ctx_parser c'.
Proof.
  intros [Hr _ Hp _] Hi Hj. destruct (Hp _ _ Hi) as (o1 & o2 & -> & Hb1 & Hm1).
  destruct (Hp _ _ Hj) as (o1' & o2' & -> & Hb1' & Hm1').
  by rewrite (offsets_unique _ _ _ _ Hr Hb1 Hb1'), (offsets_unique _ _ _ _ Hr Hm1 Hm1').
Qed.

(** What the constructor does to the registry. *)
Lemma create_registers r storage r' x :
  registry_ok r → ctcm_create r storage = Ok (r', x) →
  registry_ok r' ∧ (∀ y, In y (registered r) → In y (registered r')) ∧
  match x with
  | inl _ => True
  | inr c => ctx_tracker c = empty_tracker ∧ ∃ o1 o2, ctx_parser c = offsets_of o1 o2 ∧
      In (bth_dynfield, o1) (registered r') ∧ In (mad_dynfield, o2) (registered r')
  end.
Proof.
  intros Hr Hc. unfold ctcm_create, parser_context, dynfields in Hc. cbn [register_loop] in Hc.
  destruct (rte_mbuf_dynfield_register r _) as [r1 o1] eqn:Hb1.
  destruct (register_preserves _ _ _ _ Hr Hb1) as (Hr1 & Hk1 & Hi1).
  destruct (rte_mbuf_dynfield_register r1 _) as [r2 o2] eqn:Hm1.
  destruct (register_preserves _ _ _ _ Hr1 Hm1) as (Hr2 & Hk2 & Hi2).
  destruct (Z.ltb_spec o1 0); [by injection Hc as <- <-|].
  destruct (Z.ltb_spec o2 0); injection Hc as <- <-; (split; [done|split; [by auto|]]); [done|].
  split; [done|]. exists o1, o2. auto.
Qed.

Lemma process_packet_ok c dir p ret c' :
  wf (ctx_tracker c) → ctcm_process_packet c dir p = Ok (ret, c') →
  wf (ctx_tracker c') ∧ ctx_parser c' = ctx_parser c.
Proof.
  intros W Hp. unfold ctcm_process_packet in Hp. inv_ok. destruct a as [mad|]; inv_ok; [|done].
  destruct a as [u s]. inv_ok. split; [|done]. by eapply (process_wf _ _ _ _ _ W E0).
Qed.

Lemma host_ok_contexts h c i ctx :
  host_ok h → h_contexts h !! i = Some c → wf (ctx_tracker ctx) → ctx_parser ctx = ctx_parser c →
  host_ok (set_contexts (<[i := ctx]> (h_contexts h)) h).
Proof.
  intros [Hr Ht Hp Hn] Hi Hw He. split; cbn; [done|..].
  - intros j c' [[_ <-]|[_ Hj]]%lookup_insert_Some; eauto.
  - intros j c' [[_ <-]|[_ Hj]]%lookup_insert_Some; [rewrite He|]; eauto.
  - intros j Hj. rewrite lookup_insert_ne; [auto|]. intros <-. by rewrite (Hn i Hj) in Hi.
Qed.

Lemma do_call_ok h c h' a : host_ok h → do_call h c = Ok (h', a) → host_ok h'.
Proof.
  intros Hh Hc. pose proof Hh as [Hr Ht Hp Hn].
  destruct c; cbn [do_call] in Hc; inv_ok; try done.
  - destruct a0 as [r x]. destruct (create_registers _ _ _ _ Hr E) as (Hr' & Hk & Hx).
    assert (Hp' : ∀ i c, h_contexts h !! i = Some c → ∃ o1 o2, ctx_parser c = offsets_of o1 o2 ∧
              In (bth_dynfield, o1) (registered r) ∧ In (mad_dynfield, o2) (registered r)).
    { intros i c Hi. destruct (Hp _ _ Hi) as (o1 & o2 & ? & ? & ?). exists o1, o2. auto. }
    destruct x as [what|ctx]; inv_ok; split; cbn; try done.
    + intros i c [[_ <-]|[_ Hi]]%lookup_insert_Some; [|eauto]. destruct Hx as [-> _]. apply wf_empty.
    + intros i c [[_ <-]|[_ Hi]]%lookup_insert_Some; [|eauto]. by destruct Hx.
    + intros i Hi. rewrite lookup_insert_ne by lia. apply Hn. lia.
  - unfold ctcm_destroy in E. destruct ctcm as [i|]; inv_ok; [|done].
    destruct (h_contexts h !! i); inv_ok. split; cbn; [done|..].
    + intros j c0 [_ Hj]%lookup_delete_Some. eauto.
    + intros j c0 [_ Hj]%lookup_delete_Some. eauto.
    + intros j Hj. rewrite lookup_delete_None. auto.
  - unfold ctcm_dynfield_offsets in Hc. destruct (_ <? _); by inv_ok.
  - destruct a2. by inv_ok.
  - destruct a2 as [ret ctx]. inv_ok. destruct (process_packet_ok _ _ _ _ _ (Ht _ _ E) E1) as [W He].
    by eapply host_ok_contexts.
  - destruct a1. by inv_ok.
Qed.

Lemma do_calls_ok cs h h' l : host_ok h → do_calls h cs = Ok (h', l) → host_ok h'.
Proof.
  revert h h' l. induction cs as [|c cs IH]; intros h h' l Hh Hc; cbn in Hc; inv_ok; [done|].
  destruct a as [h1 a]. inv_ok. destruct a0 as [h2 l2]. inv_ok.
  eapply IH; [|done]. by eapply do_call_ok.
Qed.

Lemma offsets_valid r o1 o2 p :
  registry_ok r → In (bth_dynfield, o1) (registered r) → In (mad_dynfield, o2) (registered r) →
  Z.of_nat (length (dyn p)) = dyn_area → dynfields_ok (offsets_of o1 o2) p.
Proof.
  intros Hr Hb1 Hm1 Hp. pose proof (registry_ok_inside _ _ _ Hr Hb1). pose proof (registry_ok_inside _ _ _ Hr Hm1).
  pose proof (registry_ok_disjoint _ _ _ _ _ Hr Hb1 Hm1 ltac:(done)).
  cbn in *. constructor; cbn; rewrite ?in_range_true; lia.
Qed.

(** C14: whatever calls an application makes, in every state of the process that they
    lead to: the tracker of each live context satisfies its invariant, all live
    contexts use the same two places of a buffer, which are valid in every buffer
    and apart, and so a packet may be parsed through any context: the effect is
    the same. *)
Theorem process_invariant r ps cs h l :
  registry_ok r → do_calls (fresh_host r ps) cs = Ok (h, l) →
  (∀ i c, h_contexts h !! i = Some c →
     wf (ctx_tracker c) ∧
     ∀ p, Z.of_nat (length (dyn p)) = dyn_area → dynfields_ok (ctx_parser c) p) ∧
  ∀ i j, is_Some (h_contexts h !! i) → is_Some (h_contexts h !! j) →
    (ctx_parser <$> h_contexts h !! i) = (ctx_parser <$> h_contexts h !! j) ∧
    ∀ n, do_call h (CallParse i n) = do_call h (CallParse j n).
Proof.
  intros Hr Hcs. pose proof (do_calls_ok _ _ _ _ (fresh_host_ok r ps Hr) Hcs) as Hh. split.
  - intros i c Hi. split; [by eapply ho_tracker|]. intros p Hp.
    destruct (ho_parser _ Hh _ _ Hi) as (o1 & o2 & -> & Hb & Hm). by eapply (offsets_valid _ _ _ _ (ho_registry _ Hh)).
  - intros i j [c Hi] [c' Hj]. pose proof (same_parser _ _ _ _ _ Hh Hi Hj) as He.
    split; [by rewrite Hi, Hj; cbn; rewrite He|].
    intros n. cbn [do_call]. rewrite Hi, Hj. unfold ctcm_parse_packet. cbn [deref].
    autorewrite with ctcm. by rewrite He.
Qed.

(** ** Conforming traffic, through the interface *)

(** For each packet the application fills a buffer, parses and processes it. *)
Definition serve (i : nat) (n : Z) (tr : list (ctcm_direction * rte_mbuf)) : list call :=
  tr ≫= λ '(dir, p), [CallReceive n p; CallParse i n; CallProcess i dir n].

Lemma do_calls_app cs1 cs2 h :
  do_calls h (cs1 ++ cs2)%list =
  '(h1, l1) ← do_calls h cs1; '(h2, l2) ← do_calls h1 cs2; Ok (h2, (l1 ++ l2)%list).
Proof.
  revert h. induction cs1 as [|c cs1 IH]; intros h; cbn.
  - by destruct (do_calls h cs2) as [[h2 l2]|].
  - destruct (do_call h c) as [[h1 a]|]; cbn; [|done]. rewrite IH.
    destruct (do_calls h1 cs1) as [[h2 l2]|]; cbn; [|done].
    by destruct (do_calls h2 cs2) as [[h3 l3]|].
Qed.

(** One packet through the interface is [handle]. *)
Lemma serve_one h i n c dir p c' :
  h_contexts h !! i = Some c → handle c dir p = Ok c' →
  ∃ h' l, do_calls h [CallReceive n p; CallParse i n; CallProcess i dir n] = Ok (h', l) ∧
          h_contexts h' !! i = Some c'.
Proof.
  intros Hi Hc. unfold handle in Hc. cbn [do_calls do_call]. autorewrite with ctcm.
  cbn [h_contexts h_packets set_packets]. rewrite Hi, lookup_insert_eq. cbn [deref]. autorewrite with ctcm.
  destruct (ctcm_parse_packet c p) as [[ret p']|]; [|done]. autorewrite with ctcm in *.
  cbn [h_contexts h_packets set_packets]. rewrite Hi, lookup_insert_eq. cbn [deref]. autorewrite with ctcm.
  destruct (ctcm_process_packet c dir p') as [[ret' c1]|]; [|done]. autorewrite with ctcm in *.
  injection Hc as ->. eexists _, _. split; [done|]. apply lookup_insert_eq.
Qed.

(** A packet of the traffic: what [app_packet] asks of it, and if it is a
    communication management packet, it belongs to one of the sessions. *)
Record good_packet (S : list session) (dir : ctcm_direction) (p : rte_mbuf) : Prop := {
  gp_udp : udp_packet p;
  gp_complete : complete p;
  gp_dyn : Z.of_nat (length (dyn p)) = dyn_area;
  gp_cm : is_cm p = true →
    RTE_ETH_IS_IPV4_HDR (packet_type p) = true ∧ 20 ≤ l3_len p ∧ 8 + 12 + 8 + 256 + 4 ≤ udp_length p ∧
    conforms S (dir, message_of p);
}.

Lemma handle_fits S c dir p :
  sessions_ok S → good_packet S dir p → dynfields_ok (ctx_parser c) p → fits S (ctx_tracker c) →
  ∃ c', handle c dir p = Ok c' ∧ ctx_parser c' = ctx_parser c ∧ fits S (ctx_tracker c').
Proof.
  intros HS [Hu Hc Hd Hcm] Hdy F. rewrite handle_packet.
  2:{ split; [done..|]. intros Hi. by destruct (Hcm Hi) as (? & ? & ? & _). }
  destruct (is_cm p); [|by exists c]. destruct (Hcm eq_refl) as (_ & _ & _ & Hco).
  destruct (fits_step S HS dir (message_of p) _ Hco F) as (s' & -> & F'). cbn. by eexists.
Qed.

Lemma serve_fits S i n tr h c :
  sessions_ok S → h_contexts h !! i = Some c → fits S (ctx_tracker c) →
  (∀ dir p, In (dir, p) tr → good_packet S dir p ∧ dynfields_ok (ctx_parser c) p) →
  ∃ h' l c', do_calls h (serve i n tr) = Ok (h', l) ∧ h_contexts h' !! i = Some c' ∧ fits S (ctx_tracker c').
Proof.
  intros HS. revert h c. induction tr as [|[dir p] tr IH]; intros h c Hi F Htr; [by eexists _, _, c|].
  destruct (Htr dir p (or_introl eq_refl)) as [Hg Hd].
  destruct (handle_fits S c dir p HS Hg Hd F) as (c1 & Hc1 & He & F1).
  destruct (serve_one h i n c dir p c1 Hi Hc1) as (h1 & l1 & Hs1 & Hi1).
  destruct (IH h1 c1 Hi1 F1) as (h2 & l2 & c2 & Hs2 & Hi2 & F2).
  { intros dir' p' Hin. rewrite He. apply Htr. by right. }
  exists h2, (l1 ++ l2)%list, c2. split; [|done].
  change (serve i n ((dir, p) :: tr))
    with ([CallReceive n p; CallParse i n; CallProcess i dir n] ++ serve i n tr)%list.
  by rewrite do_calls_app, Hs1; cbn; rewrite Hs2.
Qed.

(** A context that is created and then serves conforming traffic. *)
Lemma created_serves S r ps storage n tr h0 i :
  sessions_ok S → registry_ok r →
  do_call (fresh_host r ps) (CallCreate storage) = Ok (h0, AnsHandle i) →
  (∀ dir p, In (dir, p) tr → good_packet S dir p) →
  ∃ h l c, do_calls h0 (serve i n tr) = Ok (h, l) ∧ h_contexts h !! i = Some c ∧
           fits S (ctx_tracker c) ∧ host_ok h.
Proof.
  intros HS Hr Hc Htr. pose proof (do_call_ok _ _ _ _ (fresh_host_ok r ps Hr) Hc) as Hh0.
  cbn [do_call] in Hc. inv_ok. destruct a as [r' x].
  destruct (create_registers _ _ _ _ Hr E) as (Hr' & _ & Hx). destruct x as [what|c]; inv_ok; [done|].
  destruct Hx as (Ht & o1 & o2 & Hp & Hb & Hm).
  match goal with |- context [do_calls ?h0 _] =>
    destruct (serve_fits S (h_next (fresh_host r ps)) n tr h0 c HS) as (h & l & c' & Hs & Hi & F)
  end.
  { apply lookup_insert_eq. }
  { rewrite Ht. apply fits_empty. }
  { intros dir p Hin. split; [by apply Htr|]. rewrite Hp. eapply offsets_valid; [exact Hr'|done..|].
    by apply (Htr dir p Hin). }
  exists h, l, c'. split_and!; [done..|]. by eapply do_calls_ok.
Qed.

(** C13: the library on conforming traffic, from the first call on.  In a process
    whose registry accepts the fields, an application creates a context and feeds
    it complete packets, of any kind, of which the communication management packets
    belong to a set of sessions, in any order and with any losses and repetitions.
    No call stops the program, and each query then answers 0 or the queue pair of
    the host in the session that it names. *)
Theorem library_conforms S r ps storage n tr h0 i :
  sessions_ok S → registry_ok r →
  do_call (fresh_host r ps) (CallCreate storage) = Ok (h0, AnsHandle i) →
  (∀ dir p, In (dir, p) tr → good_packet S dir p) →
  ∃ h l, do_calls h0 (serve i n tr) = Ok (h, l) ∧
    ∀ ip qpn, ∃ q, do_call h (CallQuery i ip qpn) = Ok (h, AnsInt q) ∧
      (q = 0 ∨ ∃ x, x ∈ S ∧ (ip, qpn) = s_flow x ∧ q = s_lqpn x).
Proof.
  intros HS Hr Hc Htr. destruct (created_serves S r ps storage n tr h0 i HS Hr Hc Htr) as (h & l & c & Hs & Hi & F & _).
  exists h, l. split; [exact Hs|]. intros ip qpn. exists (ctcm_query_ipv4 c ip qpn).
  split; [cbn [do_call]; by rewrite Hi|]. by apply fits_answers.
Qed.
End Process.
