(* ===== verification/Notify.v ===== *)
(** * Notify: from tracked connections to notifications

    What the library is for, end to end: the application feeds it the packets of
    the connection managers, asks for the sender of a flow that is congested, and
    sends that sender a notification.  The theorem follows the calls of the README:
    query, template, addresses, completion. *)

From Stdlib Require Import ZArith Lia String.
From stdpp Require Import base tactics numbers list strings gmap.
From coqutil Require Import Byte.
From S2P Require Import Prelude Memory Layout Bitfield RxeHdr RxeHdrSpec IbMad Iba IbtaC12 Mbuf Parser CmPacket Tracker TrackerInv TrackerStep TrackerSpec Handshake Conform Product Cnp Main Api.

Local Open Scope string_scope.
Open Scope Z_scope.
Open Scope ctcm_scope.

Section Notify.
Context `{Endian} {D : Dpdk} `{!DpdkLaws D} `{DynfieldRegistry} `{!DynfieldLaws _}.

(** The calls that make a notification in buffer [n]: [p] is the buffer as the
    application hands it over, and [filled] the same with what it stores between the calls. *)
Definition notify (i : nat) (n : Z) (p : rte_mbuf) (filled : rte_mbuf) (phdr : list byte) (q : Z)
  : list call :=
  [CallReceive n p; CallFillCnp i n; CallReceive n filled; CallGenerateCnp i phdr n q].

(** A buffer with room for a notification behind its link header. *)
Record cnp_room (p : rte_mbuf) : Prop := {
  cr_data : 0 ≤ data_len p < 2 ^ 7;
  cr_l2 : l2_len p = data_len p;
  cr_pkt : pkt_len p = data_len p;
  cr_room : data_len p + 60 ≤ Z.of_nat (length (buf p));
  cr_dyn : Z.of_nat (length (dyn p)) = dyn_area;
}.

(** The notifications that reach queue pair [q]. *)
Record notifies (p : rte_mbuf) (q : Z) : Prop := {
  no_roce : is_roce p = true;
  no_cm : is_cm p = false;
  no_bth : bth_of p = Bth 0x81 false false 0 0 0xffff false true 0 q false 0 0;
}.

Lemma notify_calls i n p addrs phdr q h :
  cnp_room p → length addrs = 8%nat → Z.of_nat (length phdr) = sizeof cnp_icrc_pseudo_packet →
  ∃ p1 m p2 h',
    ctcm_fill_cnp_template p = Ok (0, p1) ∧
    store (buf p1) (data_len p + offsetof iphdr "saddr") addrs = Ok m ∧
    do_calls h (notify i n p (set_buf p1 m) phdr q) = Ok (h', [AnsVoid; AnsInt 0; AnsVoid; AnsVoid]) ∧
    h_packets h' !! n = Some p2 ∧ h_contexts h' = h_contexts h ∧
    notifies p2 (q mod 2 ^ 24) ∧ udp_packet p2 ∧ complete p2 ∧ dyn p2 = dyn p.
Proof.
  intros [Hd Hl2 Hpk Hr Hdy] Ha Hp.
  destruct (cnp_complete phdr p addrs q Hd Hl2 Hpk Hr Ha Hp)
    as (p1 & m & p2 & H1 & H2 & H3 & Hu & Hc & Edy & _ & Hro & Hcm & Hb).
  eexists p1, m, p2, _. split_and!; [done..| | | | |done|done|done].
  - unfold notify. cbn [do_calls do_call]. autorewrite with ctcm. cbn [h_packets set_packets].
    rewrite lookup_insert_eq. cbn [deref]. autorewrite with ctcm. rewrite H1. autorewrite with ctcm.
    cbn [h_packets set_packets]. rewrite lookup_insert_eq. cbn [deref]. autorewrite with ctcm. rewrite H3.
    autorewrite with ctcm. reflexivity.
  - cbn. apply lookup_insert_eq.
  - done.
  - by split.
Qed.

(** A notification that comes back to the library is no business of the tracker. *)
Lemma notification_ignored c dir p q :
  notifies p q → udp_packet p → complete p → dynfields_ok (ctx_parser c) p → handle c dir p = Ok c.
Proof.
  intros [_ Hcm _] Hu Hc Hd. rewrite handle_packet by (split; [done..|congruence]). by rewrite Hcm.
Qed.

Lemma reprocess_ignored h i n c dir p :
  h_contexts h !! i = Some c → h_packets h !! n = Some p → handle c dir p = Ok c →
  ∃ h' l, do_calls h [CallParse i n; CallProcess i dir n] = Ok (h', l) ∧ h_contexts h' = h_contexts h.
Proof.
  intros Hi Hn Hc. unfold handle in Hc. cbn [do_calls do_call]. rewrite Hi, Hn. cbn [deref].
  autorewrite with ctcm. destruct (ctcm_parse_packet c p) as [[ret p']|]; [|done]. autorewrite with ctcm in *.
  cbn [h_contexts h_packets set_packets]. rewrite Hi, lookup_insert_eq. cbn [deref]. autorewrite with ctcm.
  destruct (ctcm_process_packet c dir p') as [[ret' c1]|]; [|done]. autorewrite with ctcm in *.
  injection Hc as ->. eexists _, _. split; [done|]. cbn. by apply insert_id.
Qed.

(** C12: the notification reaches the sender.  In a process that has created a context
    and fed it complete packets, of which the communication management packets are
    those of conforming sessions: the query for the address and queue pair of the
    peer of a session returns.  If the answer is not 0, it is the queue pair of the
    host in that session, and the calls of the library, with any
    addresses and any leftovers in memory, make in the buffer a RoCE v2 packet with
    the notification opcode and BECN for exactly that queue pair, no context has
    changed, and if the packet is fed to the library again it leaves the context
    as it is. *)
Theorem notification_reaches_sender S r ps storage n tr h0 i x n' p addrs phdr :
  sessions_ok S → registry_ok r →
  do_call (fresh_host r ps) (CallCreate storage) = Ok (h0, AnsHandle i) →
  (∀ dir p, In (dir, p) tr → good_packet S dir p) →
  x ∈ S → 0 ≤ s_lqpn x < 2 ^ 24 → cnp_room p → length addrs = 8%nat →
  Z.of_nat (length phdr) = sizeof cnp_icrc_pseudo_packet →
  ∃ h l q, do_calls h0 (serve i n tr) = Ok (h, l) ∧
    do_call h (CallQuery i (s_rip x) (s_rqpn x)) = Ok (h, AnsInt q) ∧
    (q ≠ 0 → q = s_lqpn x ∧ ∃ p1 m p2 h',
       ctcm_fill_cnp_template p = Ok (0, p1) ∧
       store (buf p1) (data_len p + offsetof iphdr "saddr") addrs = Ok m ∧
       do_calls h (notify i n' p (set_buf p1 m) phdr q) = Ok (h', [AnsVoid; AnsInt 0; AnsVoid; AnsVoid]) ∧
       h_packets h' !! n' = Some p2 ∧ notifies p2 (s_lqpn x) ∧ h_contexts h' = h_contexts h ∧
       ∀ dir, ∃ h2 l2, do_calls h' [CallParse i n'; CallProcess i dir n'] = Ok (h2, l2) ∧
                       h_contexts h2 = h_contexts h).
Proof.
  intros HS Hr Hc Htr Hx Hq Hp Ha Hph.
  destruct (created_serves S r ps storage n tr h0 i HS Hr Hc Htr) as (h & l & c & Hs & Hi & F & Hh).
  exists h, l, (ctcm_query_ipv4 c (s_rip x) (s_rqpn x)). split_and!; [done|cbn [do_call]; by rewrite Hi|].
  intros Hz. assert (Hqx : ctcm_query_ipv4 c (s_rip x) (s_rqpn x) = s_lqpn x).
  { destruct (fits_answers S _ (s_flow x) F) as [?|(y & Hy & Hk & Ha')]; [done|].
    by rewrite <- (ss_flow _ HS x y Hx Hy Hk) in Ha'. }
  rewrite Hqx. split; [done|].
  destruct (notify_calls i n' p addrs phdr (s_lqpn x) h Hp Ha Hph)
    as (p1 & m & p2 & h' & H1 & H2 & H3 & H4 & H5 & H6 & H7 & H8 & H9).
  rewrite Z.mod_small in H6 by done. exists p1, m, p2, h'. split_and!; [done..|]. intros dir.
  assert (Hd : dynfields_ok (ctx_parser c) p2).
  { destruct (ho_parser _ Hh _ _ Hi) as (o1 & o2 & -> & Hb & Hm).
    eapply offsets_valid; [apply Hh|done..|]. rewrite H9. apply Hp. }
  rewrite <- H5. rewrite <- H5 in Hi. apply (reprocess_ignored h' i n' c dir p2); [done..|].
  by eapply notification_ignored.
Qed.
End Notify.
