(* ===== verification/TestCnp.v ===== *)
(** * TestCnp: src/tests/test_cnp.cpp

    The program's own test: the fixture that creates and destroys a context, and
    the case that fills a template, stores addresses, ids and type of service as an
    application does, completes the packet for a queue pair and compares it with a
    packet from the vendor's documentation.  The test framework's verdict is a
    value; what the test prints is a list of lines. *)

From Stdlib Require Import ZArith Lia String Ascii Strings.Byte.
From stdpp Require Import base tactics numbers list strings gmap.
From coqutil Require Import Byte Word.LittleEndianList.
From S2P Require Import Prelude Memory Layout Bitfield RxeHdr IbPack Mbuf Parser Tracker Log Cnp DpdkModel Main Api.

Local Open Scope string_scope.
Local Open Scope list_scope.
Open Scope Z_scope.
Open Scope ctcm_scope.

#[global] Instance byte_eq_dec : EqDecision byte := Strings.Byte.byte_eq_dec.

(** ** What the test uses *)

(** Digits as boost::algorithm::hex prints them. *)
Definition upper_digit (d : Z) : ascii :=
  ascii_of_nat (Z.to_nat (if d <? 10 then 48 + d else 55 + d)).

Fixpoint hex_text (bs : list byte) : string :=
  match bs with
  | [] => ""
  | b :: bs => String (upper_digit (byte.unsigned b / 16))
                 (String (upper_digit (byte.unsigned b mod 16)) (hex_text bs))
  end.

(** boost/algorithm/hex.hpp and rte_eal.h: parameters. *)
Class TestLibraries := {
  boost_hex : list byte → string;
  boost_unhex : string → list byte;
  rte_eal_init : Z;
  rte_eal_cleanup : Z;
}.

(** "Converts a sequence of integral types into a hexadecimal sequence of
    characters", and back. *)
Class TestLibrariesLaws (T : TestLibraries) : Prop := {
  hex_ok : ∀ bs, boost_hex bs = hex_text bs;
  unhex_ok : ∀ bs, boost_unhex (hex_text bs) = bs;
}.

(** [inet_aton] on four decimal numbers: the bytes of the address, in network
    order. *)
Definition dec_digit (c : ascii) : option Z :=
  let d := Z.of_nat (nat_of_ascii c) - 48 in if (0 <=? d) && (d <=? 9) then Some d else None.

Fixpoint inet_aton_from (acc : Z) (s : string) : option (list byte) :=
  match s with
  | EmptyString => if acc <? 256 then Some [byte.of_Z acc] else None
  | String c s' =>
      if Ascii.eqb c "." then
        if acc <? 256 then bs ← inet_aton_from 0 s'; Some (byte.of_Z acc :: bs) else None
      else d ← dec_digit c; inet_aton_from (10 * acc + d) s'
  end.
Definition inet_aton (s : string) : option (list byte) :=
  bs ← inet_aton_from 0 s; if decide (length bs = 4%nat) then Some bs else None.

Definition store_addr (m : list byte) (p : Z) (s : string) : result (list byte) :=
  match inet_aton s with Some bs => store m p bs | None => Ok m end.

(** ** [hexdump] *)

(** [std::setfill('0') << std::setw(4)] of a number in hexadecimal. *)
Definition setw4 (s : string) : string :=
  match String.length s with
  | 0%nat => "0000" ++ s | 1%nat => "000" ++ s | 2%nat => "00" ++ s | 3%nat => "0" ++ s
  | _ => s
  end%string.

Section Hexdump.
Context `{T : TestLibraries}.

Definition hexdump_line (strbuf : list byte) (i : nat) : string :=
  let cur_end := Nat.min (i + 16) (length strbuf) in
  (setw4 (hex (Z.of_nat i)) ++ ": " ++ boost_hex (take (cur_end - i) (drop i strbuf))
   ++ String "010" "")%string.

(** The loop over [i]; [None] when the bound on the iterations is not enough. *)
Fixpoint hexdump_loop (fuel : nat) (strbuf : list byte) (i : nat) : option (list string) :=
  if decide (i < length strbuf)%nat then
    match fuel with
    | O => None
    | S fuel => lines ← hexdump_loop fuel strbuf (i + 16); Some (hexdump_line strbuf i :: lines)
    end
  else Some [].

Definition hexdump (strbuf : list byte) : list string :=
  default [] (hexdump_loop (length strbuf) strbuf 0).
End Hexdump.

(** ** The test *)

(** [struct cnp]. *)
Definition cnp : ctype :=
  Struct false [("ip", iphdr); ("udp", udphdr);
                ("reserved_2", Array c_u8 (CTCM_BTH_LENGTH + CTCM_CNP_LENGTH + CTCM_ICRC_LENGTH))].

Definition expected_cnp : string :=
  "4589003C98C640002011692716161608" ++
  "16161607DBAE12B7002800008100FFFF" ++
  "400000D2000000000000000000000000" ++
  "0000000000000000DAFC1BEF".

(** What the test framework reports. *)
Inductive verdict := Passed | Failed (what : string).

Section Test.
Context `{Endian} `{Dpdk} `{DynfieldRegistry} `{T : TestLibraries}.

(** [CTCM::SetUp]: what it leaves in the member [ctcm], and its verdict; [ctcm] is the
    uninitialised member of the fixture.  A call of [ctcm_create] that throws leaves the
    member as it was, and the framework reports the exception as a failure. *)
Definition SetUp (h : host) (ctcm : option nat) (storage : dynfield_offsets)
  : result (host * option nat * verdict) :=
  if negb (rte_eal_init =? 0) then Ok (h, ctcm, Failed "ret") else
  '(h, a) ← do_call h (CallCreate storage);
  match a with
  | AnsHandle i => Ok (h, Some i, Passed)
  | AnsThrown what => Ok (h, ctcm, Failed what)
  | _ => Ok (h, None, Failed "ctcm")
  end.

Definition TearDown (h : host) (ctcm : option nat) : result (host * verdict) :=
  h ← ctcm_destroy h ctcm;
  Ok (h, if rte_eal_cleanup =? 0 then Passed else Failed "ret").

(** [rte_mbuf p{}] over the zeroed packet; [area] is the size of the dynamic fields. *)
Definition test_packet (area : nat) : rte_mbuf :=
  {| packet_type := 0; l2_len := 0; l3_len := 0; l4_len := 0; pkt_len := 0; data_len := 0;
     buf := replicate (Z.to_nat (sizeof cnp)) Byte.x00; dyn := replicate area Byte.x00 |}.

(** What the test stores into [cnpacket] between the two calls. *)
Definition app_fields (m : list byte) : result (list byte) :=
  let ip := offsetof cnp "ip" in
  m ← store_addr m (ip + offsetof iphdr "saddr") "22.22.22.8";
  m ← store_addr m (ip + offsetof iphdr "daddr") "22.22.22.7";
  m ← store16 m (ip + offsetof iphdr "id") (htons 0x98c6);
  m ← store8 m (ip + offsetof iphdr "ttl") 0x20;
  m ← store8 m (ip + offsetof iphdr "tos") 0x89;
  store16 m (offsetof cnp "udp" + offsetof udphdr "uh_sport") (htons 56238).

(** The packet that the library and the test make together; [phdr] is the
    uninitialised variable of [ctcm_generate_cnp]. *)
Definition generated (area : nat) (phdr : list byte) : result (list byte) :=
  '(_, p) ← ctcm_fill_cnp_template (test_packet area);
  m ← app_fields (buf p);
  p ← ctcm_generate_cnp phdr (set_buf p m) 0xd2;
  load (buf p) 0 (Z.to_nat (sizeof cnp)).

(** The packet of the documentation without its IP checksum; [junk] is the
    uninitialised variable. *)
Definition expected (junk : list byte) : result (list byte) :=
  m ← store junk 0 (boost_unhex expected_cnp);
  m ← store16 m (offsetof cnp "ip" + offsetof iphdr "check") 0;
  load m 0 (Z.to_nat (sizeof cnp)).

(** The body of the case: what it prints and what it reports. *)
Definition cnp_gen (area : nat) (phdr junk : list byte) : result (list string * verdict) :=
  g ← generated area phdr;
  e ← expected junk;
  if decide (g = e) then Ok ([], Passed)
  else Ok ("Expected: " :: hexdump e ++ "Generated: " :: hexdump g, Failed "generated").

(** The first failure of a case is what it is reported with. *)
Definition first_failure (v w : verdict) : verdict := match v with Passed => w | _ => v end.

(** The case within its fixture: the body runs only if [SetUp] succeeded, [TearDown]
    always. *)
Definition TEST_F_cnp_gen (h : host) (ctcm : option nat) (storage : dynfield_offsets) (area : nat)
    (phdr junk : list byte) : result (host * list string * verdict) :=
  '(h, ctcm, u) ← SetUp h ctcm storage;
  '(out, v) ← match u with Passed => cnp_gen area phdr junk | _ => Ok ([], Passed) end;
  '(h, w) ← TearDown h ctcm;
  Ok (h, out, first_failure u (first_failure v w)).
End Test.

(** ** [hexdump] shows every byte *)
Section HexdumpFacts.
Context `{T : TestLibraries} `{!TestLibrariesLaws T}.

(** The lines that are due: from [i], one for each 16 bytes. *)
Lemma hexdump_loop_lines fuel strbuf i :
  (length strbuf ≤ i + 16 * fuel)%nat →
  hexdump_loop fuel strbuf i =
  Some ((λ n, hexdump_line strbuf (i + 16 * n)) <$> seq 0 ((length strbuf - i + 15) / 16)).
Proof.
  revert i. induction fuel as [|fuel IH]; intros i Hf; cbn [hexdump_loop]; case_decide as Hi.
  - lia.
  - replace (length strbuf - i)%nat with 0%nat by lia. done.
  - rewrite IH by lia. cbn [option_bind mbind].
    replace ((length strbuf - i + 15) / 16)%nat with (S ((length strbuf - (i + 16) + 15) / 16)).
    2:{ destruct (decide (i + 16 ≤ length strbuf)%nat).
        - replace (length strbuf - i + 15)%nat with (length strbuf - (i + 16) + 15 + 1 * 16)%nat by lia.
          rewrite Nat.div_add by lia. lia.
        - replace (length strbuf - (i + 16))%nat with 0%nat by lia.
          rewrite <- (Nat.div_unique (length strbuf - i + 15) 16 1 (length strbuf - i - 1)) by lia. done. }
    cbn [seq fmap list_fmap]. f_equal. f_equal; [f_equal; lia|].
    rewrite <- fmap_S_seq, <- list_fmap_compose. apply list_fmap_ext. intros n k _. cbn. f_equal. lia.
  - replace (length strbuf - i)%nat with 0%nat by lia. done.
Qed.

(** Slices of 16 bytes make up the whole. *)
Lemma slices_concat (l : list byte) i n :
  (length l ≤ i + 16 * n)%nat →
  concat ((λ k, take 16 (drop (i + 16 * k) l)) <$> seq 0 n) = drop i l.
Proof.
  revert i. induction n as [|n IH]; intros i Hl; cbn [seq fmap list_fmap concat].
  - rewrite drop_ge by lia. done.
  - rewrite <- (take_drop 16 (drop i l)), drop_drop. rewrite <- (IH (i + 16)%nat) by lia.
    rewrite Nat.mul_0_r, Nat.add_0_r. f_equal. f_equal. rewrite <- fmap_S_seq, <- list_fmap_compose.
    apply list_fmap_ext. intros k m _. cbn. do 2 f_equal. lia.
Qed.

(** [hexdump] terminates on every buffer, after one line for each 16 bytes
    started: any bound on the iterations that covers them gives the same lines,
    with the length of the buffer as one.  Line [n] starts with the
    offset 16 * n and shows the bytes from there in hexadecimal, and the bytes of
    all lines together are the buffer. *)
Theorem hexdump_terminates strbuf fuel :
  (length strbuf ≤ 16 * fuel)%nat →
  hexdump_loop fuel strbuf 0 = Some (hexdump strbuf) ∧
  length (hexdump strbuf) = ((length strbuf + 15) / 16)%nat ∧
  (∀ n line, hexdump strbuf !! n = Some line →
     line = (setw4 (hex (Z.of_nat (16 * n))) ++ ": " ++
             hex_text (take 16 (drop (16 * n) strbuf)) ++ String "010" "")%string) ∧
  concat ((λ n, take 16 (drop (16 * n) strbuf)) <$> seq 0 (length (hexdump strbuf))) = strbuf.
Proof.
  intros Hf. unfold hexdump. rewrite !hexdump_loop_lines by lia. cbn [from_option id].
  rewrite Nat.sub_0_r, length_fmap, length_seq.
  assert (Hd : (length strbuf ≤ 16 * ((length strbuf + 15) / 16))%nat).
  { pose proof (Nat.div_mod (length strbuf + 15) 16). pose proof (Nat.mod_upper_bound (length strbuf + 15) 16). lia. }
  split_and!; [done..| |by rewrite (slices_concat strbuf 0)].
  intros n line (k & Hk & (-> & Hlt)%lookup_seq)%list_lookup_fmap_Some. cbn beta in Hk. subst line. unfold hexdump_line.
  rewrite hex_ok, !Nat.add_0_l. do 3 f_equal.
  destruct (Nat.min_spec (16 * n + 16) (length strbuf)) as [[? ->]|[? ->]].
  - f_equal. f_equal. lia.
  - rewrite take_ge, take_ge by (rewrite length_drop; lia). done.
Qed.
End HexdumpFacts.

(** ** The test passes *)
Section TestFacts.
Context {E : Endian} {D : Dpdk} `{!DpdkLaws D} `{DynfieldRegistry} `{!DynfieldLaws _}.
Context `{T : TestLibraries} `{!TestLibrariesLaws T}.

(** rte_net_crc.h: [RTE_NET_CRC32_ETH] selects the CRC-32 of Ethernet. *)
Context (crc_ethernet : ∀ bs, rte_net_crc_calc bs RTE_NET_CRC32_ETH = crc32 bs).

(** The headers that the test asks for, up to the queue pair number, and zeros. *)
Definition test_headers : list byte :=
  (byte.of_Z <$> [0x45; 0x89; 0; 60; 0x98; 0xc6; 0x40; 0; 0x20; 17; 0; 0; 22; 22; 22; 8; 22; 22; 22; 7]) ++
  (byte.of_Z <$> [0xdb; 0xae; 0x12; 0xb7; 0; 40; 0; 0; 0x81; 0; 0xff; 0xff; 0x40]) ++
  replicate 27 Byte.x00.

Lemma app_fields_template : app_fields cnp_template = Ok test_headers.
Proof. destruct E as [[|]]; vm_compute; reflexivity. Qed.

Lemma generated_bytes area phdr :
  length phdr = 64%nat →
  generated area phdr = Ok (take 56 (cnp_headers test_headers 0xd2) ++ host_split 4 0xef1bfcda).
Proof.
  intros Hp. unfold generated. rewrite fill_template_room by (vm_compute; discriminate). autorewrite with ctcm.
  cbn [buf data_len test_packet].
  change (take (Z.to_nat 0) _ ++ cnp_template ++ drop (Z.to_nat 0 + 60) _) with cnp_template.
  rewrite app_fields_template. autorewrite with ctcm.
  rewrite (generate_cnp_ok phdr _ [] test_headers [] 0xd2); try done; [|apply ptype_ipv4_udp|layout_norm; lia].
  autorewrite with ctcm. cbn [buf set_buf app]. unfold cnp_packet. rewrite app_nil_r, crc_ethernet.
  destruct E as [[|]]; vm_compute; reflexivity.
Qed.

Lemma expected_bytes junk :
  length junk = 60%nat →
  expected junk = Ok (take 56 (cnp_headers test_headers 0xd2) ++ le_split 4 0xef1bfcda).
Proof.
  intros Hj. unfold expected.
  assert (Hu : expected_cnp = hex_text (take 10 (cnp_headers test_headers 0xd2) ++ [Byte.x69; Byte.x27] ++
                 take 44 (drop 12 (cnp_headers test_headers 0xd2)) ++ le_split 4 0xef1bfcda))
    by (vm_compute; reflexivity).
  rewrite Hu, unhex_ok. rewrite store_in by (apply in_range_true; vm_compute length at 1; lia).
  autorewrite with ctcm. rewrite (drop_ge junk) by (vm_compute Nat.add; lia).
  destruct E as [[|]]; vm_compute; reflexivity.
Qed.

(** When the environment does not start, [TearDown] destroys the member that [SetUp]
    never set. *)
Lemma failed_setup_destroys h storage i area phdr junk :
  rte_eal_init ≠ 0 → h_contexts h !! i = None →
  TEST_F_cnp_gen h (Some i) storage area phdr junk = Fault NullPointer.
Proof.
  intros Hi Hn. unfold TEST_F_cnp_gen, SetUp, TearDown, ctcm_destroy.
  rewrite (proj2 (Z.eqb_neq _ _) Hi). cbn [negb]. autorewrite with ctcm. by rewrite Hn.
Qed.

(** C28: the program's test passes on every host whose byte order is little endian
    and fails on every other.  In any process in which a context can be created and
    the environment starts and stops, whatever the uninitialised variables hold,
    the case runs to its end; the packet that is made equals the documented one,
    up to the IP checksum, exactly if the host stores the ICRC low byte first; and
    the fixture leaves the contexts of the process as they were. *)
Theorem cnp_test_passes h storage h0 ctcm ctcm0 area phdr junk :
  host_ok h → rte_eal_init = 0 → rte_eal_cleanup = 0 →
  do_call h (CallCreate storage) = Ok (h0, AnsHandle ctcm) →
  length phdr = 64%nat → Z.of_nat (length junk) = sizeof cnp →
  ∃ h' out, TEST_F_cnp_gen h ctcm0 storage area phdr junk =
            Ok (h', out, if little_endian then Passed else Failed "generated") ∧
            h_contexts h' = h_contexts h ∧ (little_endian = true → out = []).
Proof.
  intros Hh Hi Hc Hcr Hp Hj. unfold TEST_F_cnp_gen, SetUp, cnp_gen, TearDown.
  rewrite Hi, Hc, Hcr. autorewrite with ctcm. cbn [Z.eqb negb]. autorewrite with ctcm.
  rewrite generated_bytes by done. autorewrite with ctcm.
  rewrite expected_bytes by (revert Hj; layout_norm; lia). autorewrite with ctcm.
  cbn [do_call] in Hcr. inv_ok. destruct a as [r x]. destruct x; inv_ok; [discriminate|]. 
  unfold ctcm_destroy. cbn [h_contexts]. rewrite lookup_insert_eq.
  unfold host_split. destruct little_endian.
  - rewrite decide_True by done. autorewrite with ctcm. eexists _, _. split; [done|]. split; [|done].
    cbn. rewrite delete_insert_id; [done|]. by apply (ho_next _ Hh).
  - rewrite decide_False by (vm_compute; discriminate). autorewrite with ctcm.
    eexists _, _. split; [done|]. split; [|done].
    cbn. rewrite delete_insert_id; [done|]. by apply (ho_next _ Hh).
Qed.
End TestFacts.
