(* ===== verification/Witnesses.v ===== *)
(** * Witnesses: the theorems at concrete inputs

    Each lemma applies one theorem of the development to concrete data on a
    little-endian host: packet buffers given byte by byte, the handshake of two
    hosts, the notification packet of src/tests/test_cnp.cpp, with the functions of
    [DpdkModel] for DPDK. *)

From Stdlib Require Import ZArith Lia String.
From stdpp Require Import base tactics numbers list strings gmap.
From coqutil Require Import Byte.
From S2P Require Import Prelude Memory Layout Bitfield RxeOpcode RxeHdr RxeHdrSpec IbMad Iba IbtaC12 IbPack Mbuf Parser CmPacket Tracker TrackerInv TrackerStep TrackerSpec Handshake TrackerTrace Widths TrackerFaults Cnp DpdkModel Main.

Local Open Scope string_scope.
Local Open Scope list_scope.
Open Scope Z_scope.
Open Scope ctcm_scope.

#[local] Instance host : Endian := LittleEndianHost.

Definition zeros (n : nat) : list byte := replicate n Byte.x00.
Definition bytes (l : list Z) : list byte := byte.of_Z <$> l.

(** ** Bit fields and headers *)

Lemma field_get_prep_witness :
  FIELD_GET (GENMASK 11 4) (FIELD_PREP (GENMASK 11 4) 0x1ab) = 0x1ab mod 2 ^ (11 - 4 + 1).
Proof. apply (field_get_prep 11 4 0x1ab); lia. Defined.

Lemma replace_bits_get_bits_witness :
  ∃ new,
    replace_bits OrderBE 4 0x12345678 0xff (GENMASK 15 8) = Some new ∧
    get_bits OrderBE 4 new (GENMASK 15 8) = Some (0xff mod 2 ^ (15 - 8 + 1)) ∧
    ∀ h' l', 0 ≤ l' → l' ≤ h' → h' < Z.of_nat 4 * 8 → 15 < l' ∨ h' < 8 →
      get_bits OrderBE 4 new (GENMASK h' l') = get_bits OrderBE 4 0x12345678 (GENMASK h' l').
Proof. apply (replace_bits_get_bits OrderBE 4 0x12345678 0xff 15 8); lia. Defined.

Lemma field_multiplier_contiguous_witness :
  ((∃ mult, field_multiplier 0xff0 = Some mult) ↔
   ∃ h l, 0 ≤ l ∧ l ≤ h < 64 ∧ 0xff0 = GENMASK h l) ∧
  (∀ mult, field_multiplier 0xff0 = Some mult → mult = 2 ^ __bf_shf 0xff0).
Proof. apply (field_multiplier_contiguous 0xff0). lia. Defined.

Lemma rxe_hdr_flag_test_witness :
  Z.land RXE_REQ_MASK (flags_union [RXE_REQ_MASK; RXE_SEND_MASK]) ≠ 0 ↔
  RXE_REQ_MASK ∈ [RXE_REQ_MASK; RXE_SEND_MASK].
Proof.
  apply (rxe_hdr_flag_test [RXE_REQ_MASK; RXE_SEND_MASK] RXE_REQ_MASK).
  - apply (bool_decide_unpack _). vm_compute. exact I.
  - intros x [->|[->|[]%not_elem_of_nil]%elem_of_cons]%elem_of_cons;
      apply (bool_decide_unpack _); vm_compute; exact I.
Defined.

(** A BTH of a UD SEND to queue pair 1 at byte 3 of a buffer. *)
Definition bth_buffer : list byte :=
  zeros 3 ++ bytes [0x64; 0x40; 0xff; 0xff; 0x00; 0x00; 0x00; 0x01; 0x80; 0x00; 0x00; 0x2a] ++ zeros 2.

Lemma bth_getters_witness :
  let b := bth_at bth_buffer 3 in
  __bth_opcode bth_buffer 3 = Ok (b_opcode b) ∧
  __bth_se bth_buffer 3 = Ok (Z.b2z (b_se b)) ∧
  __bth_mig bth_buffer 3 = Ok (Z.b2z (b_mig b)) ∧
  __bth_pad bth_buffer 3 = Ok (b_pad b) ∧
  __bth_tver bth_buffer 3 = Ok (b_tver b) ∧
  __bth_pkey bth_buffer 3 = Ok (b_pkey b) ∧
  __bth_qpn bth_buffer 3 = Ok (b_qpn b) ∧
  __bth_fecn bth_buffer 3 = Ok (Z.b2z (b_fecn b)) ∧
  __bth_becn bth_buffer 3 = Ok (Z.b2z (b_becn b)) ∧
  __bth_resv6a bth_buffer 3 = Ok (b_resv6a b) ∧
  __bth_ack bth_buffer 3 = Ok (Z.b2z (b_ack b)) ∧
  __bth_psn bth_buffer 3 = Ok (b_psn b).
Proof. apply (bth_getters bth_buffer 3). reflexivity. Defined.

Lemma bth_setters_witness :
  (∃ m', bth_run (SetQpn 0x123456) bth_buffer 3 = Ok m' ∧ bth_set_post (SetQpn 0x123456) bth_buffer 3 m') ∧
  (∃ m', __bth_set_resv6a bth_buffer 3 = Ok m' ∧ bth_set_post SetResv6a bth_buffer 3 m').
Proof.
  split.
  - apply (bth_setters (SetQpn 0x123456) bth_buffer 3). reflexivity.
  - apply (bth_setters SetResv6a bth_buffer 3). reflexivity.
Defined.

Lemma eth_accessors_witness :
  eth_get DethSqp bth_buffer 3 = Ok (eth_value DethSqp bth_buffer 3) ∧
  ∃ m', eth_set DethSqp bth_buffer 3 0x17 = Ok m' ∧
        eth_value DethSqp m' 3 = 0x17 mod 2 ^ eth_width DethSqp ∧
        (∀ g, eth_header g = eth_header DethSqp → g ≠ DethSqp →
              eth_value g m' 3 = eth_value g bth_buffer 3) ∧
        same_outside 3 (3 + Z.of_nat (eth_size DethSqp)) bth_buffer m'.
Proof. apply (eth_accessors DethSqp bth_buffer 3 0x17). reflexivity. Defined.

(** ** Management datagrams *)

Definition mad_buffer : list byte := zeros 300.

Lemma cpi_accessors_witness :
  ib_get_cpi_resp_time mad_buffer 24 = Ok (cpi_word mad_buffer 24 mod 2 ^ 5) ∧
  ib_get_cpi_capmask2 mad_buffer 24 = Ok (cpi_word mad_buffer 24 / 2 ^ 5) ∧
  (∃ m', ib_set_cpi_resp_time mad_buffer 24 0x3f = Ok m' ∧
         cpi_word m' 24 mod 2 ^ 5 = 0x3f mod 2 ^ 5 ∧
         cpi_word m' 24 / 2 ^ 5 = cpi_word mad_buffer 24 / 2 ^ 5 ∧
         same_outside (24 + 4) (24 + 8) mad_buffer m') ∧
  (∃ m', ib_set_cpi_capmask2 mad_buffer 24 0x3f = Ok m' ∧
         cpi_word m' 24 mod 2 ^ 5 = cpi_word mad_buffer 24 mod 2 ^ 5 ∧
         cpi_word m' 24 / 2 ^ 5 = 0x3f mod 2 ^ 27 ∧
         same_outside (24 + 4) (24 + 8) mad_buffer m').
Proof. apply (cpi_accessors mad_buffer 24 0x3f). reflexivity. Defined.

Lemma rmpp_accessors_witness :
  let byte m := be_at m (24 + 2) 1 in
  ib_get_rmpp_resptime mad_buffer 24 = Ok (byte mad_buffer / 2 ^ 3) ∧
  ib_get_rmpp_flags mad_buffer 24 = Ok (byte mad_buffer mod 2 ^ 3) ∧
  (∃ m', ib_set_rmpp_resptime mad_buffer 24 0x15 = Ok m' ∧
         byte m' / 2 ^ 3 = 0x15 mod 2 ^ 5 ∧ byte m' mod 2 ^ 3 = byte mad_buffer mod 2 ^ 3 ∧
         same_outside (24 + 2) (24 + 3) mad_buffer m') ∧
  (∃ m', ib_set_rmpp_flags mad_buffer 24 0x15 = Ok m' ∧
         byte m' / 2 ^ 3 = byte mad_buffer / 2 ^ 3 ∧ byte m' mod 2 ^ 3 = 0x15 mod 2 ^ 3 ∧
         same_outside (24 + 2) (24 + 3) mad_buffer m').
Proof. apply (rmpp_accessors mad_buffer 24 0x15). reflexivity. Defined.

Definition example_pkt : rxe_pkt_info :=
  {| pkt_hdr := 1; pkt_mask := 0; pkt_psn := 0; pkt_pkey_index := 0; pkt_paylen := 0;
     pkt_port_num := 1; pkt_opcode := 0; pkt_offset := 2 |}.

Lemma bth_init_fills_witness :
  let arg := pkt_hdr example_pkt + pkt_offset example_pkt in
  ∃ m', bth_init bth_buffer example_pkt 0x64 0 1 2 0xffff 0x1000001 1 42 = Ok m' ∧
    bth_at m' arg =
      Bth (0x64 mod 2 ^ 8) (truthy 0) (truthy 1) (2 mod 2 ^ 2) 0 (0xffff mod 2 ^ 16)
          false false 0 (0x1000001 mod 2 ^ 24) (truthy 1) 0 (42 mod 2 ^ 24) ∧
    same_outside arg (arg + 12) bth_buffer m'.
Proof. apply (bth_init_fills bth_buffer example_pkt 0x64 0 1 2 0xffff 0x1000001 1 42). reflexivity. Defined.

Lemma IBA_accessors_witness :
  let f := CM_REQ_LOCAL_QPN in let g := CM_REQ_RESPONDER_RESOURCES in
  IBA_GET f mad_buffer 4 = Ok (net_bits mad_buffer 4 (fld_pos f) (Z.to_nat (fld_width f))) ∧
  ∃ m', IBA_SET f mad_buffer 4 0x123456 = Ok m' ∧ length m' = length mad_buffer ∧
        IBA_GET f m' 4 = Ok (0x123456 mod 2 ^ fld_width f) ∧
        IBA_GET g m' 4 = IBA_GET g mad_buffer 4 ∧
        ∀ i, 0 ≤ i → i < fld_pos f ∨ fld_pos f + fld_width f ≤ i →
             msg_bit m' 4 i = msg_bit mad_buffer 4 i.
Proof.
  apply (IBA_accessors CM_REQ_LOCAL_QPN CM_REQ_RESPONDER_RESOURCES mad_buffer 4 0x123456);
    [reflexivity|reflexivity|lia|reflexivity|reflexivity|left; vm_compute; discriminate].
Defined.

Lemma location_macros_witness :
  (3 + 5 ≤ 8 → denotes (IBA_FIELD_BLOC 50 3 5) (8 * 50 + 3) 5) ∧
  (5 ≤ 8 → denotes (IBA_FIELD8_LOC 50 5) (8 * 50) 5) ∧
  (8 * (50 mod 2) + 5 ≤ 16 → denotes (IBA_FIELD16_LOC 50 5) (8 * 50) 5) ∧
  (8 * (50 mod 4) + 5 ≤ 32 → denotes (IBA_FIELD32_LOC 50 5) (8 * 50) 5) ∧
  denotes (IBA_FIELD64_LOC 50) (8 * 50) 64.
Proof. apply (location_macros 50 3 5); lia. Defined.

Lemma IBA_MEM_roundtrip_witness :
  let f := CM_REQ_PRIVATE_DATA in let src := bytes [1; 2; 3; 4] in let dst := zeros 6 in
  IBA_SET_MEM f mad_buffer 4 None 4 = Ok mad_buffer ∧
  IBA_GET_MEM f mad_buffer 4 None 4 = Ok None ∧
  IBA_SET_MEM f mad_buffer 4 (Some src) 0 = Ok mad_buffer ∧
  ∃ m', IBA_SET_MEM f mad_buffer 4 (Some src) 4 = Ok m' ∧
        IBA_GET_MEM f m' 4 (Some dst) 4 = Ok (Some (take 4 src ++ drop 4 dst)) ∧
        same_outside (4 + mf_offset f) (4 + mf_offset f + Z.of_nat 4) mad_buffer m'.
Proof.
  apply (IBA_MEM_roundtrip CM_REQ_PRIVATE_DATA mad_buffer 4 (bytes [1; 2; 3; 4]) (zeros 6) 4);
    [reflexivity|cbn; lia|cbn; lia].
Defined.

Lemma cm_field_access_witness :
  sizeof (msg_struct rep_message) = IB_MGMT_MAD_SIZE ∧
  IBA_GET CM_REP_LOCAL_COMM_ID mad_buffer 10 =
    Ok (net_bits mad_buffer 10 (fld_pos CM_REP_LOCAL_COMM_ID) (Z.to_nat (fld_width CM_REP_LOCAL_COMM_ID))) ∧
  ∃ m', IBA_SET CM_REP_LOCAL_COMM_ID mad_buffer 10 77 = Ok m' ∧ length m' = length mad_buffer ∧
        IBA_GET CM_REP_LOCAL_COMM_ID m' 10 = Ok (77 mod 2 ^ fld_width CM_REP_LOCAL_COMM_ID) ∧
        (∀ b, 0 ≤ b < 8 * IB_MGMT_MAD_HDR → msg_bit m' 10 b = msg_bit mad_buffer 10 b) ∧
        (∀ j s b, msg_spans rep_message !! j = Some s → j ≠ 0%nat → 0 ≤ b → s.1 ≤ b < s.2 →
                  msg_bit m' 10 b = msg_bit mad_buffer 10 b).
Proof.
  apply (cm_field_access rep_message 0 CM_REP_LOCAL_COMM_ID mad_buffer 10 77);
    [cbn; tauto|reflexivity|lia|reflexivity].
Defined.

(** ** Packets *)

Definition offsets : dynfield_offsets := {| dyn_size := 12; dyn_bth := 0; dyn_mad := 2 |}.

(** Ethernet, IPv4, UDP with the given length, BTH of a UD SEND to queue pair 1, DETH,
    and what follows; addresses in network order. *)
Definition frame (src dst : list Z) (ulen : Z) (payload : list byte) : rte_mbuf :=
  let b := zeros 14 ++
    bytes ([0x45; 0; 0; 0; 0; 0; 0x40; 0; 64; 17; 0; 0] ++ src ++ dst) ++
    bytes [0xc0; 0x00; 0x12; 0xb7; ulen / 256; ulen mod 256; 0; 0] ++
    bytes [0x64; 0; 0xff; 0xff; 0; 0; 0; 1; 0; 0; 0; 0] ++ bytes [0x80; 1; 0; 0; 0; 0; 0; 1] ++
    payload in
  {| packet_type := 0x210; l2_len := 14; l3_len := 20; l4_len := 8;
     pkt_len := Z.of_nat (length b); data_len := Z.of_nat (length b); buf := b; dyn := zeros 36 |}.

(** A header of a MAD of class CM. *)
Definition cm_header (attr : Z) : list byte :=
  bytes [1; 7; 2; 3; 0; 0; 0; 0; 0; 0; 0; 0; 0; 0; 0; 1; 0; attr; 0; 0; 0; 0; 0; 0].

(** A whole message: 256 bytes and the ICRC; [qpn] is at byte 56 of a REQ and at
    byte 36 of a REP. *)
Definition cm_frame (src dst : list Z) (attr lid rid qpn : Z) : rte_mbuf :=
  frame src dst 288
    (cm_header attr ++ be_split 4 lid ++ be_split 4 rid ++
     zeros 4 ++ be_split 3 qpn ++ zeros 17 ++ be_split 3 qpn ++ zeros 197 ++ zeros 4).

Definition host1 : list Z := [10; 0; 0; 1].
Definition host2 : list Z := [10; 0; 0; 2].

Lemma header_offsets_roundtrip_witness :
  let p := cm_frame host1 host2 CM_REQ_ATTR_ID 5 0 100 in
  ∃ p1 p2,
    ctcm_mbuf_set_bth offsets p (Some 42) = Ok p1 ∧ ctcm_mbuf_set_mad offsets p1 None = Ok p2 ∧
    ctcm_mbuf_get_bth offsets p2 = Ok (Some 42) ∧ ctcm_mbuf_get_mad offsets p2 = Ok None ∧
    ctcm_mbuf_get_mad offsets p1 = ctcm_mbuf_get_mad offsets p ∧ p2 = set_dyn p (dyn p2).
Proof.
  apply (header_offsets_roundtrip offsets (cm_frame host1 host2 CM_REQ_ATTR_ID 5 0 100) (Some 42) None).
  - split; [reflexivity|reflexivity|cbn; lia].
  - vm_compute. by split_and!.
  - vm_compute. done.
Defined.

(** The conditions of the parser, by evaluation. *)
Ltac eval_packet :=
  repeat first [split | progress intros]; vm_compute; first [done | lia | by left | by right].

Lemma parse_packet_classifies_witness :
  let p := cm_frame host1 host2 CM_REQ_ATTR_ID 5 0 100 in
  mad_ptr p = Some 62 ∧
  ∃ p', parse_packet offsets p = Ok (mad_ptr p, p') ∧
        ctcm_mbuf_get_bth offsets p' = Ok (bth_ptr p) ∧
        ctcm_mbuf_get_mad offsets p' = Ok (mad_ptr p) ∧
        p' = set_dyn p (dyn p') ∧ dynfields_ok offsets p'.
Proof.
  split; [vm_compute; reflexivity|].
  apply (parse_packet_classifies offsets (cm_frame host1 host2 CM_REQ_ATTR_ID 5 0 100)); eval_packet.
Defined.

(** The IP packet ends with the UDP header, which announces 288 bytes. *)
Definition truncated_frame : rte_mbuf :=
  let p := cm_frame host1 host2 CM_REQ_ATTR_ID 5 0 100 in
  {| packet_type := packet_type p; l2_len := 14; l3_len := 20; l4_len := 8; pkt_len := 42;
     data_len := 42; buf := take 42 (buf p); dyn := dyn p |}.

Lemma truncated_roce_aborts_witness : parse_packet offsets truncated_frame = Fault AssertFailure.
Proof. apply (truncated_roce_aborts offsets truncated_frame); eval_packet. Defined.

(** ** The tracker on messages *)

Definition after (tr : list (ctcm_direction * cm_msg)) : tracker :=
  match run empty_tracker tr with Ok s => s | Fault _ => empty_tracker end.

Lemma after_wf tr : wf (after tr).
Proof.
  unfold after. destruct (run empty_tracker tr) as [s|] eqn:Hr; [|apply wf_empty].
  by eapply run_wf; [apply wf_empty|].
Qed.

(** Host 1 connects to host 2, as in [example_handshake]; then the host ends the
    connection. *)
Definition established : tracker := after example_handshake.
Definition dreq : cm_msg := message CM_DREQ_ATTR_ID 5 7 0 1 2.
Definition drep : cm_msg := message CM_DREP_ATTR_ID 7 5 0 2 1.
Definition rtu : cm_msg := message CM_RTU_ATTR_ID 5 7 0 1 2.
Definition before_rtu : tracker := after (take 2 example_handshake).

Lemma reachable_wf_witness : wf established.
Proof.
  apply (reachable_wf (P := cm_msg)). apply (reach_step before_rtu rtu CTCM_FROM_HOST tt).
  - apply (reach_step (after (take 1 example_handshake)) (message CM_REP_ATTR_ID 7 5 200 2 1) CTCM_FROM_NET tt).
    + apply (reach_step empty_tracker (message CM_REQ_ATTR_ID 5 0 100 1 2) CTCM_FROM_HOST tt);
        [apply reach_init|vm_compute; reflexivity].
    + vm_compute. reflexivity.
  - vm_compute. reflexivity.
Defined.

Lemma tracker_refines_table_witness :
  abs empty_tracker = ∅ ∧
  table_step CTCM_FROM_HOST (decode rtu) (abs before_rtu) (abs established) ∧
  table_answer (abs established) (2, 200) (get_source_qpn established (2, 200)).
Proof.
  apply (tracker_refines_table before_rtu rtu CTCM_FROM_HOST tt established (2, 200));
    [apply after_wf|vm_compute; reflexivity].
Defined.

Lemma query_changes_witness :
  let m := decode rtu in
  (∀ k, get_source_qpn established k = get_source_qpn before_rtu k) ∨
  ∃ k0, (∀ k, k ≠ k0 → get_source_qpn established k = get_source_qpn before_rtu k) ∧
    (m_attr m = CM_RTU_ATTR_ID ∧ get_source_qpn before_rtu k0 = 0 ∧ get_source_qpn established k0 ≠ 0 ∨
     (m_attr m = CM_REJ_ATTR_ID ∨ m_attr m = CM_DREP_ATTR_ID) ∧
     get_source_qpn before_rtu k0 ≠ 0 ∧ get_source_qpn established k0 = 0).
Proof.
  apply (query_changes before_rtu rtu CTCM_FROM_HOST tt established);
    [apply after_wf|vm_compute; reflexivity].
Defined.

(** A message of another connection. *)
Definition other_req : cm_msg := message CM_REQ_ATTR_ID 9 0 400 1 3.

Lemma avoids_other : Forall (avoids 5 (2, 7)) [(CTCM_FROM_HOST, other_req)].
Proof. repeat constructor; vm_compute; discriminate. Qed.

Lemma active_handshake_witness :
  let req := message CM_REQ_ATTR_ID 5 0 100 1 2 in
  let rep := message CM_REP_ATTR_ID 7 5 200 2 1 in
  let other := [(CTCM_FROM_HOST, other_req)] in
  ∃ s1, process req CTCM_FROM_HOST empty_tracker = Ok (tt, s1) ∧ ∀ s1', run s1 other = Ok s1' →
  ∃ s2, process rep CTCM_FROM_NET s1' = Ok (tt, s2) ∧ ∀ s2', run s2 [] = Ok s2' →
  get_source_qpn s2' (2, 200) = 0 →
  ∃ s3, process rtu CTCM_FROM_HOST s2' = Ok (tt, s3) ∧
        get_source_qpn s3 (2, 200) = 100 ∧
        (∀ k, k ≠ (2, 200) → get_source_qpn s3 k = get_source_qpn s2' k) ∧
        ∀ s3', run s3 other = Ok s3' → get_source_qpn s3' (2, 200) = 100.
Proof.
  apply (active_handshake 5 7 2 100 200) with (req := message CM_REQ_ATTR_ID 5 0 100 1 2)
    (rep := message CM_REP_ATTR_ID 7 5 200 2 1) (rtu := rtu);
    first [apply carries_refl | apply wf_empty | apply avoids_other | apply Forall_nil; exact I
          | vm_compute; by split_and! | vm_compute; discriminate | vm_compute; reflexivity].
Defined.

Lemma passive_handshake_witness :
  let req := message CM_REQ_ATTR_ID 7 0 200 2 1 in
  let rep := message CM_REP_ATTR_ID 5 7 100 1 2 in
  let rtu := message CM_RTU_ATTR_ID 7 5 0 2 1 in
  let other := [(CTCM_FROM_HOST, other_req)] in
  ∃ s1, process req CTCM_FROM_NET empty_tracker = Ok (tt, s1) ∧ ∀ s1', run s1 other = Ok s1' →
  ∃ s2, process rep CTCM_FROM_HOST s1' = Ok (tt, s2) ∧ ∀ s2', run s2 [] = Ok s2' →
  get_source_qpn s2' (2, 200) = 0 →
  ∃ s3, process rtu CTCM_FROM_NET s2' = Ok (tt, s3) ∧
        get_source_qpn s3 (2, 200) = 100 ∧
        (∀ k, k ≠ (2, 200) → get_source_qpn s3 k = get_source_qpn s2' k) ∧
        ∀ s3', run s3 other = Ok s3' → get_source_qpn s3' (2, 200) = 100.
Proof.
  apply (passive_handshake 5 7 2 100 200) with (req := message CM_REQ_ATTR_ID 7 0 200 2 1)
    (rep := message CM_REP_ATTR_ID 5 7 100 1 2) (rtu := message CM_RTU_ATTR_ID 7 5 0 2 1);
    first [apply carries_refl | apply wf_empty | apply avoids_other | apply Forall_nil; exact I
          | vm_compute; by split_and! | vm_compute; discriminate | vm_compute; reflexivity].
Defined.

(** The flow of the established connection. *)
Definition established_flow : flow_state := Flow ESTABLISHED 5 (2, 7) 100 200 true.

Lemma established_stage : stage 5 (2, 7) established_flow established.
Proof.
  split; [|by right|by right|by left]. exists 0%nat. vm_compute. by split_and!.
Qed.

Lemma teardown_witness :
  ∃ s1, process dreq CTCM_FROM_HOST established = Ok (tt, s1) ∧
    ∀ s1', run s1 [(CTCM_FROM_HOST, other_req)] = Ok s1' →
        get_source_qpn s1' (get_flow_key established_flow) = local_qpn established_flow ∧
  ∃ s2, process drep CTCM_FROM_NET s1' = Ok (tt, s2) ∧
        get_source_qpn s2 (get_flow_key established_flow) = 0 ∧
        (∀ k, k ≠ get_flow_key established_flow → get_source_qpn s2 k = get_source_qpn s1' k) ∧
        local_map s2 !! 5 = None ∧ remote_map s2 !! peer_key CTCM_FROM_NET drep = None.
Proof.
  apply (teardown 5 (2, 7)) with (dreq := dreq) (drep := drep);
    first [apply carries_refl | apply after_wf | apply avoids_other | apply established_stage
          | vm_compute; reflexivity | vm_compute; discriminate].
Defined.

Lemma reject_closes_witness :
  let rej := message CM_REJ_ATTR_ID 7 5 0 2 1 in
  get_source_qpn established (get_flow_key established_flow) = local_qpn established_flow ∧
  ∃ s', process rej CTCM_FROM_NET established = Ok (tt, s') ∧
        get_source_qpn s' (get_flow_key established_flow) = 0 ∧
        (∀ k, k ≠ get_flow_key established_flow → get_source_qpn s' k = get_source_qpn established k) ∧
        local_map s' !! 5 = None.
Proof.
  apply (reject_closes 5 (2, 7)) with (rej := message CM_REJ_ATTR_ID 7 5 0 2 1);
    first [apply carries_refl | apply after_wf | apply established_stage
          | vm_compute; reflexivity | vm_compute; discriminate | by left].
Defined.

Lemma flow_transitions_witness :
  flow_step CTCM_FROM_HOST (decode rtu) (default new_flow_state (heap before_rtu !! 0%nat))
    established_flow.
Proof.
  apply (flow_transitions before_rtu rtu CTCM_FROM_HOST tt established);
    [apply after_wf|vm_compute; reflexivity|vm_compute; reflexivity].
Defined.

Lemma answers_grounded_witness :
  ∃ lid rid, lid ≠ 0 ∧
  (∃ p, In (CTCM_FROM_HOST, p) example_handshake ∧
        announces (decode p) (get_source_qpn established (2, 200)) ∧
        (m_local_comm_id (decode p) = lid ∨
         m_attr (decode p) = CM_REP_ATTR_ID ∧ m_local_comm_id (decode p) = 0 ∧
         (m_daddr (decode p), m_remote_comm_id (decode p)) = (2, rid))) ∧
  (∃ p, In (CTCM_FROM_NET, p) example_handshake ∧ announces (decode p) 200 ∧
        (m_attr (decode p) = CM_REP_ATTR_ID → m_remote_comm_id (decode p) = lid) ∧
        ((m_saddr (decode p), m_local_comm_id (decode p)) = (2, rid) ∨
         m_attr (decode p) = CM_REP_ATTR_ID ∧
         (m_saddr (decode p) = 0 ∨ m_local_comm_id (decode p) = 0))) ∧
  (∃ dir p, In (dir, p) example_handshake ∧ m_attr (decode p) = CM_RTU_ATTR_ID ∧
        own_id dir (decode p) = lid) ∧
  ((2, rid) = no_key ∨
   ∃ dir p, In (dir, p) example_handshake ∧ own_id dir (decode p) = lid ∧
        peer_key dir (decode p) = (2, rid)).
Proof.
  apply (answers_grounded example_handshake established 2 200);
    [vm_compute; reflexivity|vm_compute; discriminate].
Defined.

Lemma only_assertions_witness :
  process dreq CTCM_FROM_HOST established ≠ Fault NullPointer ∧
  process dreq CTCM_FROM_HOST established ≠ Fault OutOfBounds.
Proof.
  apply (only_assertions established dreq dreq CTCM_FROM_HOST); [apply after_wf|apply carries_refl].
Defined.

Lemma zero_comm_id_aborts_witness :
  process (message CM_REQ_ATTR_ID 0 0 100 2 1) CTCM_FROM_NET established = Fault AssertFailure.
Proof.
  apply (zero_comm_id_aborts established (message CM_REQ_ATTR_ID 0 0 100 2 1)
           (message CM_REQ_ATTR_ID 0 0 100 2 1) CTCM_FROM_NET); [apply carries_refl|by left].
Defined.

(** A second REQ with the id of the first and another queue pair. *)
Lemma conflicting_req_aborts_witness :
  process (message CM_REQ_ATTR_ID 7 0 201 2 1) CTCM_FROM_NET
    (after [(CTCM_FROM_NET, message CM_REQ_ATTR_ID 7 0 200 2 1)]) = Fault AssertFailure.
Proof.
  apply (conflicting_req_aborts _ (message CM_REQ_ATTR_ID 7 0 201 2 1)
           (message CM_REQ_ATTR_ID 7 0 201 2 1) 0%nat (Flow REQ_RCVD 0 (2, 7) 0 200 false));
    first [apply carries_refl | vm_compute; reflexivity | vm_compute; discriminate].
Defined.

(** ** Notification packets *)

(** An empty packet with room for 64 bytes, and one without room. *)
Definition empty_mbuf (room : nat) : rte_mbuf :=
  {| packet_type := 0; l2_len := 0; l3_len := 0; l4_len := 0; pkt_len := 0; data_len := 0;
     buf := zeros room; dyn := zeros 36 |}.

Lemma fill_cnp_template_bytes_witness :
  ctcm_fill_cnp_template (empty_mbuf 64) =
  Ok (0, {| packet_type := RTE_PTYPE_L4_UDP ||| RTE_PTYPE_L3_IPV4; l2_len := 0; l3_len := 20;
            l4_len := 8; pkt_len := 60; data_len := 60;
            buf := cnp_template ++ zeros 4; dyn := zeros 36 |}) ∧
  ctcm_fill_cnp_template (empty_mbuf 59) =
  Ok (-1, {| packet_type := RTE_PTYPE_L4_UDP ||| RTE_PTYPE_L3_IPV4; l2_len := 0; l3_len := 20;
             l4_len := 8; pkt_len := 0; data_len := 0; buf := zeros 59; dyn := zeros 36 |}).
Proof.
  split.
  - exact (fill_cnp_template_bytes (empty_mbuf 64) ltac:(vm_compute; discriminate)).
  - exact (fill_cnp_template_bytes (empty_mbuf 59) ltac:(vm_compute; discriminate)).
Defined.

(** The packet of the test: the template with addresses, id, ttl, tos and source port
    set by the application, before and after its completion for queue pair 0xd2. *)
Definition test_headers : list byte :=
  bytes [0x45; 0x89; 0x00; 0x3c;  0x98; 0xc6; 0x40; 0x00;  0x20; 0x11; 0x00; 0x00;
         0x16; 0x16; 0x16; 0x08;  0x16; 0x16; 0x16; 0x07;
         0xdb; 0xae; 0x12; 0xb7;  0x00; 0x28; 0x00; 0x00;
         0x81; 0x00; 0xff; 0xff;  0x40; 0x00; 0x00; 0x00] ++ zeros 24.

Definition expected_cnp : list byte :=
  bytes [0x45; 0x89; 0x00; 0x3c;  0x98; 0xc6; 0x40; 0x00;  0x20; 0x11; 0x00; 0x00;
         0x16; 0x16; 0x16; 0x08;  0x16; 0x16; 0x16; 0x07;
         0xdb; 0xae; 0x12; 0xb7;  0x00; 0x28; 0x00; 0x00;
         0x81; 0x00; 0xff; 0xff;  0x40; 0x00; 0x00; 0xd2] ++ zeros 20 ++
  bytes [0xda; 0xfc; 0x1b; 0xef].

Definition test_mbuf : rte_mbuf :=
  {| packet_type := 0x210; l2_len := 0; l3_len := 20; l4_len := 8; pkt_len := 60; data_len := 60;
     buf := test_headers; dyn := zeros 36 |}.

(** The library produces the bytes that the test expects. *)
Lemma generate_cnp_bytes_witness :
  ctcm_generate_cnp (zeros 64) test_mbuf 0xd2 = Ok (set_buf test_mbuf expected_cnp).
Proof.
  rewrite (generate_cnp_bytes (zeros 64) test_mbuf [] test_headers [] 0xd2)
    by (vm_compute; reflexivity).
  vm_compute. reflexivity.
Defined.

Lemma cnp_roundtrip_witness :
  ∃ p1 m p2 p3,
    ctcm_fill_cnp_template (empty_mbuf 60) = Ok (0, p1) ∧
    store (buf p1) (0 + offsetof iphdr "saddr") (bytes (host1 ++ host2)) = Ok m ∧
    ctcm_generate_cnp (zeros 64) (set_buf p1 m) 0x10000d2 = Ok p2 ∧
    is_roce p2 = true ∧ is_cm p2 = false ∧
    parse_packet offsets p2 = Ok (None, p3) ∧
    ctcm_mbuf_get_bth offsets p3 = Ok (Some (0 + 28)) ∧
    ctcm_mbuf_get_mad offsets p3 = Ok None ∧
    bth_at (buf p3) (0 + 28) =
      Bth 0x81 false false 0 0 0xffff false true 0 (0x10000d2 mod 2 ^ 24) false 0 0.
Proof.
  apply (cnp_roundtrip offsets (zeros 64) (empty_mbuf 60) (bytes (host1 ++ host2)) 0x10000d2);
    try first [vm_compute; reflexivity | vm_compute; discriminate].
  - split; [vm_compute; discriminate|vm_compute; reflexivity].
  - split; [vm_compute; reflexivity|vm_compute; reflexivity|left; vm_compute; discriminate].
Defined.

(** ** The library *)

Definition new_context : ctcm_context := {| ctx_parser := offsets; ctx_tracker := empty_tracker |}.

(** The handshake as packets, with a packet to another UDP port in between. *)
Definition packets : list (ctcm_direction * rte_mbuf) :=
  [(CTCM_FROM_HOST, cm_frame host1 host2 CM_REQ_ATTR_ID 5 0 100);
   (CTCM_FROM_NET, cm_frame host2 host1 CM_REP_ATTR_ID 7 5 200);
   (CTCM_FROM_NET, {| packet_type := 0x210; l2_len := 14; l3_len := 20; l4_len := 8; pkt_len := 42;
                      data_len := 42; buf := zeros 34 ++ bytes [0; 53; 0; 53; 0; 8; 0; 0]; dyn := zeros 36 |});
   (CTCM_FROM_HOST, cm_frame host1 host2 CM_RTU_ATTR_ID 5 7 0)].

(** Queries name the peer by its address in network order and its queue pair. *)
Lemma handle_all_runs_witness :
  handle_all new_context packets =
    (s ← run empty_tracker (messages packets); Ok {| ctx_parser := offsets; ctx_tracker := s |}) ∧
  ∃ c, handle_all new_context packets = Ok c ∧
       ctcm_query_ipv4 c (le_combine (bytes host2)) 200 = 100.
Proof.
  assert (Hr : handle_all new_context packets =
    (s ← run empty_tracker (messages packets); Ok {| ctx_parser := offsets; ctx_tracker := s |})).
  { apply (handle_all_runs new_context packets). intros dir p Hp.
    destruct Hp as [[= <- <-]|[[= <- <-]|[[= <- <-]|[[= <- <-]|[]]]]]; eval_packet. }
  split; [exact Hr|]. rewrite Hr. eexists. split; vm_compute; reflexivity.
Defined.

(** The tracker after the first packet, as the parser hands it on. *)
Definition parsed_req : rte_mbuf :=
  match parse_packet offsets (cm_frame host1 host2 CM_REQ_ATTR_ID 5 0 100) with
  | Ok (_, p) => p | Fault _ => empty_mbuf 0 end.
Definition requested_by_host : tracker :=
  match @process _ _ (mbuf_packet offsets) parsed_req CTCM_FROM_HOST empty_tracker with
  | Ok (_, s) => s | Fault _ => empty_tracker end.

Lemma reachable_typed_witness :
  typed requested_by_host ∧ ∀ k, u24 (get_source_qpn requested_by_host k).
Proof.
  apply (@reachable_typed rte_mbuf (mbuf_packet offsets) (mbuf_packet_laws offsets)).
  apply (@reach_step _ (mbuf_packet offsets) empty_tracker parsed_req CTCM_FROM_HOST tt);
    [apply reach_init|vm_compute; reflexivity].
Defined.

(** A REQ of 48 bytes, the least that the parser accepts: the datagram ends inside the
    MAD header. *)
Definition short_req : rte_mbuf := frame host2 host1 48 (take 20 (cm_header CM_REQ_ATTR_ID)).

Lemma short_req_overruns_witness :
  (∃ p', ctcm_parse_packet new_context short_req = Ok (0, p') ∧
         ctcm_mbuf_get_mad offsets p' = Ok (Some (udp_at short_req + 28))) ∧
  handle new_context CTCM_FROM_NET short_req = Fault OutOfBounds.
Proof. apply (short_req_overruns new_context CTCM_FROM_NET short_req); eval_packet. Defined.

Lemma create_and_offsets_witness :
  let r : registry := [] in
  ∃ r' c, ctcm_create r offsets = Ok (r', c) ∧
    match c with
    | inl _ => (rte_mbuf_dynfield_register r bth_dynfield).2 < 0 ∨
               (rte_mbuf_dynfield_register (rte_mbuf_dynfield_register r bth_dynfield).1
                  mad_dynfield).2 < 0
    | inr c =>
        (∀ ip qpn, ctcm_query_ipv4 c ip qpn = 0) ∧
        ∀ offsets, let '(ret, errno, o) := ctcm_dynfield_offsets c offsets in
          if dyn_size offsets <? 12 then ret = -1 ∧ errno = Some ENOMEM ∧ o = offsets
          else ret = 0 ∧ errno = None ∧
               ∀ p, Z.of_nat (length (dyn p)) = dyn_area →
                 dynfields_ok o p ∧
                 ctcm_mbuf_get_bth o p = ctcm_mbuf_get_bth (ctx_parser c) p ∧
                 ctcm_mbuf_get_mad o p = ctcm_mbuf_get_mad (ctx_parser c) p
    end.
Proof. exact (create_and_offsets (H1 := dynfield_registry) ([] : fields) offsets I). Defined.
