(* ===== verification/Examples.v ===== *)
(** * Examples: sessions and processes at concrete inputs

    The theorems of [BitfieldSpec], [Conform], [Recover]
    and [Api] applied to concrete data: two sessions of a host, one opened by it and
    one by its peer, as messages and as packets. *)

From Stdlib Require Import ZArith Lia String.
From stdpp Require Import base tactics numbers list strings gmap.
From coqutil Require Import Byte.
From S2P Require Import Prelude Memory Layout BuildBug Bitfield BitfieldSpec RxeOpcode RxeHdr RxeHdrSpec RxePkt IbMad Iba IbtaC12 Mbuf Parser CmPacket Tracker TrackerInv TrackerStep TrackerSpec Handshake Conform Recover TrackerFaults Cnp DpdkModel Main Api Witnesses.

Local Open Scope string_scope.
Local Open Scope list_scope.
Open Scope Z_scope.
Open Scope ctcm_scope.

#[local] Existing Instance Witnesses.host.
#[local] Transparent msg_packet.

(** ** Bit fields *)

#[local] Instance gcc_O2 : Compiler := {| __OPTIMIZE__ := true |}.

(** A mask with a hole does not build, nor does a value that is too large. *)
Lemma field_check_builds_witness :
  (FIELD_PREP_build 0xff0 (Some 0x80) = Builds ↔ (__OPTIMIZE__ = true →
     ∃ h l, 0 ≤ l ∧ l ≤ h < 64 ∧ 0xff0 = GENMASK h l ∧ ∀ v, Some 0x80 = Some v → v < 2 ^ (h - l + 1))) ∧
  (FIELD_FIT_build 0xff0 (Some 0x80) = Builds ↔ (__OPTIMIZE__ = true →
     ∃ h l, 0 ≤ l ∧ l ≤ h < 64 ∧ 0xff0 = GENMASK h l ∧ ∀ v, Some 0x80 = Some v → v < 2 ^ (h - l + 1))) ∧
  (FIELD_GET_build 0xff0 0xffff = Builds ↔ (__OPTIMIZE__ = true → contiguous 0xff0 ∧ 0xff0 ≤ 0xffff)).
Proof. apply (field_check_builds 0xff0 0xffff (Some 0x80)); [lia|]. intros v [= <-]. lia. Defined.

Lemma field_checks :
  FIELD_PREP_build 0xff0 (Some 0x80) = Builds ∧
  FIELD_PREP_build 0xff0 (Some 0x180) = Breaks "FIELD_PREP: value too large for the field" ∧
  FIELD_PREP_build 0 None = Breaks "FIELD_PREP: mask is zero" ∧
  FIELD_GET_build 0x1ff00 0xffff = Breaks "FIELD_GET: type of reg too small for mask" ∧
  FIELD_PREP_build 0xf0f (Some 1) ≠ Builds.
Proof. vm_compute. by split_and!. Qed.

(** 16 does not fit the four bits from 60 to 63, but passes. *)
Lemma field_fit_wraps_witness :
  FIELD_FIT (GENMASK 63 60) 16 = (16 mod 2 ^ (64 - 60) <? 2 ^ (63 - 60 + 1)) ∧
  (63 = 63 → FIELD_FIT (GENMASK 63 60) 16 = true) ∧
  (16 < 2 ^ (64 - 60) → FIELD_FIT (GENMASK 63 60) 16 = (16 <? 2 ^ (63 - 60 + 1))).
Proof. apply (field_fit_wraps 63 60 16); lia. Defined.

Lemma generated_ops_are_macros_witness :
  let mask := GENMASK 15 8 in
  encode_bits OrderBE 4 0xab mask = Some (order_conv OrderBE 4 (FIELD_PREP mask 0xab)) ∧
  get_bits OrderBE 4 0x12345678 mask = Some (FIELD_GET mask (order_conv OrderBE 4 0x12345678)) ∧
  replace_bits OrderBE 4 0x12345678 0xab mask =
    Some (order_conv OrderBE 4 ((order_conv OrderBE 4 0x12345678 &&& ~~ mask) ||| FIELD_PREP mask 0xab)).
Proof. apply (generated_ops_are_macros OrderBE 4 0x12345678 0xab 15 8); lia. Defined.

(** ** Packets by opcode *)

(** Two entries of a table of opcodes: a UD SEND, and an RC RDMA WRITE with immediate,
    whose RETH and immediate follow the BTH. *)
Definition opcode_table (opcode : Z) : rxe_opcode_info :=
  if opcode =? 0x64
  then {| oi_mask := hdr_mask RXE_DETH ||| hdr_mask RXE_PAYLOAD ||| RXE_SEND_MASK; oi_length := 20;
          oi_offset t := match t with RXE_DETH => 12 | RXE_PAYLOAD => 20 | _ => 0 end |}
  else {| oi_mask := hdr_mask RXE_RETH ||| hdr_mask RXE_IMMDT ||| hdr_mask RXE_PAYLOAD ||| RXE_WRITE_MASK;
          oi_length := 32;
          oi_offset t := match t with RXE_RETH => 12 | RXE_IMMDT => 28 | RXE_PAYLOAD => 32 | _ => 0 end |}.

Definition write_pkt (paylen : Z) : rxe_pkt_info :=
  {| pkt_hdr := 1; pkt_mask := 0; pkt_psn := 0; pkt_pkey_index := 0; pkt_paylen := paylen;
     pkt_port_num := 1; pkt_opcode := 0x0b; pkt_offset := 2 |}.
Definition write_buffer : list byte := zeros 3 ++ bytes [0x0b; 0x20] ++ zeros 55.

Lemma write_pkt_ok paylen : pkt_ok opcode_table write_buffer (write_pkt paylen).
Proof.
  split; [split|by split|vm_compute; done|done].
  - reflexivity.
  - by split.
  - intros t Ht. destruct t; vm_compute in Ht; try discriminate Ht; by left.
  - intros t Ht _. destruct t; vm_compute in Ht; try discriminate Ht; by vm_compute.
  - intros t u Ht Hu Hne. destruct t; vm_compute in Ht; try discriminate Ht;
      destruct u; vm_compute in Hu; try discriminate Hu; try done; vm_compute;
      first [by left | by right].
Qed.

Lemma packet_accessors_witness :
  let m := write_buffer in let pkt := write_pkt 49 in
  hdr_get opcode_table RethLen m pkt =
    Ok (eth_value RethLen m (pkt_header opcode_table pkt (eth_header RethLen))) ∧
  ∃ m', hdr_set opcode_table RethLen m pkt 0x1000 = Ok m' ∧ pkt_ok opcode_table m' pkt ∧
        hdr_get opcode_table RethLen m' pkt = Ok (0x1000 mod 2 ^ eth_width RethLen) ∧
        (∀ g, pkt_has opcode_table pkt g → g ≠ RethLen →
              hdr_get opcode_table g m' pkt = hdr_get opcode_table g m pkt) ∧
        bth_at m' (pkt_hdr pkt + pkt_offset pkt) = bth_at m (pkt_hdr pkt + pkt_offset pkt) ∧
        same_outside (pkt_hdr pkt + pkt_offset pkt + 12) (payload_addr opcode_table pkt) m m'.
Proof. apply (packet_accessors opcode_table); [apply write_pkt_ok|reflexivity]. Defined.

(** Padding of two bytes: 32 + 2 + 4 bytes of 49 are not payload. *)
Lemma payload_extent_witness :
  let m := write_buffer in let pkt := write_pkt 49 in
  let bth := pkt_hdr pkt + pkt_offset pkt in
  let pad := b_pad (bth_at m bth) in
  let need := header_size opcode_table pkt - pkt_offset pkt + pad + RXE_ICRC_SIZE in
  payload_addr opcode_table pkt = pkt_hdr pkt + header_size opcode_table pkt ∧
  ∃ n, payload_size opcode_table m pkt = Ok n ∧
    if need <=? pkt_paylen pkt
    then payload_addr opcode_table pkt + n + pad + RXE_ICRC_SIZE = bth + pkt_paylen pkt ∧ 0 ≤ n
    else n = 2 ^ 64 - (need - pkt_paylen pkt) ∧ 2 ^ 63 < n.
Proof. apply (payload_extent opcode_table); [apply write_pkt_ok|cbn; lia]. Defined.

Lemma payload_sizes :
  payload_size opcode_table write_buffer (write_pkt 49) = Ok 11 ∧
  payload_size opcode_table write_buffer (write_pkt 37) = Ok (2 ^ 64 - 1).
Proof. vm_compute. by split. Qed.

(** ** Sessions *)

(** The host opens a session to address 2, and address 3 opens one to the host. *)
Definition session1 : session := Session true 5 2 7 100 200.
Definition session2 : session := Session false 6 3 8 101 201.
Definition sessions : list session := [session1; session2].

Lemma sessions_are_ok : sessions_ok sessions.
Proof.
  split; [repeat constructor; discriminate|..]; intros x y Hx Hy;
    apply list_elem_of_In in Hx, Hy; destruct Hx as [<-|[<-|[]]], Hy as [<-|[<-|[]]]; vm_compute; congruence.
Qed.

(** A message of a session is conforming. *)
Lemma said (S : list session) x dir (m : cm_msg) : x ∈ S → says x dir m → conforms S (dir, m).
Proof. intros Hx Hs. exists m. split; [apply carries_refl|]. right. by exists x. Qed.

Ltac by_saying := vm_compute; split_and!; intros; destruct_or?; done.
Ltac by_session x :=
  apply (said _ x);
    [apply (bool_decide_unpack _); vm_compute; exact I|by_saying].

(** Disorder: an RTU before its handshake, repetitions, a lost REP, a stray DREP, an
    MRA, which has no handler. *)
Definition disorder : list (ctcm_direction * cm_msg) :=
  [(CTCM_FROM_HOST, message CM_RTU_ATTR_ID 5 7 0 1 2);
   (CTCM_FROM_NET, message CM_REQ_ATTR_ID 8 0 201 3 1);
   (CTCM_FROM_HOST, message CM_REQ_ATTR_ID 5 0 100 1 2);
   (CTCM_FROM_NET, message CM_REQ_ATTR_ID 8 0 201 3 1);
   (CTCM_FROM_NET, message CM_RTU_ATTR_ID 8 6 0 3 1);
   (CTCM_FROM_HOST, message CM_REP_ATTR_ID 6 8 101 1 3);
   (CTCM_FROM_NET, message CM_DREP_ATTR_ID 7 5 0 2 1);
   (CTCM_FROM_NET, message CM_MRA_ATTR_ID 0 0 0 9 9)].

Lemma disorder_conforms : Forall (conforms sessions) disorder.
Proof.
  repeat apply Forall_cons_2; [..|apply Forall_nil; exact I].
  1,3,7: by_session session1. 1-4: by_session session2.
  exists (message CM_MRA_ATTR_ID 0 0 0 9 9). split; [apply carries_refl|by left].
Qed.

Lemma conforming_runs_witness :
  ∃ s, run empty_tracker disorder = Ok s ∧
    ∀ k, get_source_qpn s k = 0 ∨
         ∃ x, x ∈ sessions ∧ k = s_flow x ∧ get_source_qpn s k = s_lqpn x.
Proof. apply (conforming_runs sessions sessions_are_ok disorder). exact disorder_conforms. Defined.

(** The first session is reset and set up, while the second sends its REQ again. *)
Definition second_try : list (ctcm_direction * cm_msg) :=
  [(CTCM_FROM_HOST, message CM_REJ_ATTR_ID 5 7 0 1 2);
   (CTCM_FROM_HOST, message CM_DREQ_ATTR_ID 5 7 0 1 2);
   (CTCM_FROM_NET, message CM_DREP_ATTR_ID 7 5 0 2 1);
   (CTCM_FROM_NET, message CM_REQ_ATTR_ID 8 0 201 3 1);
   (CTCM_FROM_HOST, message CM_REQ_ATTR_ID 5 0 100 1 2);
   (CTCM_FROM_NET, message CM_REP_ATTR_ID 7 5 200 2 1);
   (CTCM_FROM_HOST, message CM_RTU_ATTR_ID 5 7 0 1 2)].

Lemma second_try_woven : woven sessions session1 (closing ++ opening session1) second_try.
Proof.
  unfold closing, opening, second_try. cbn [app s_active session1].
  repeat first
    [ apply woven_nil
    | match goal with |- woven _ _ (_ :: _) ((?d, ?m) :: _) =>
        apply (woven_own sessions session1 d m m);
          [apply carries_refl|by_saying|] end
    | apply woven_other; [by_session session2|] ].
Qed.

Lemma session_recovers_witness :
  ∃ s, run empty_tracker (disorder ++ second_try) = Ok s ∧
       get_source_qpn s (s_flow session1) = s_lqpn session1.
Proof.
  apply (session_recovers sessions sessions_are_ok session1);
    [apply (bool_decide_unpack _); vm_compute; exact I|exact disorder_conforms|exact second_try_woven].
Defined.

(** ** A process *)

(** No field is registered; the application has one buffer. *)
Definition no_fields : registry := ([] : fields).
Definition start : Api.host := fresh_host no_fields ∅.

(** Two contexts; a packet is parsed by one and processed by the other. *)
Definition two_contexts : list call :=
  [CallCreate offsets; CallCreate offsets; CallDestroy None;
   CallReceive 1 (cm_frame host1 host2 CM_REQ_ATTR_ID 5 0 100); CallParse 0 1;
   CallProcess 1 CTCM_FROM_HOST 1; CallQuery 1 2 200].

Definition both_live : Api.host :=
  match do_calls start two_contexts with Ok (h, _) => h | Fault _ => start end.
Definition both_answers : list answer :=
  match do_calls start two_contexts with Ok (_, l) => l | Fault _ => [] end.

Lemma process_invariant_witness :
  (∀ i c, h_contexts both_live !! i = Some c →
     wf (ctx_tracker c) ∧
     ∀ p, Z.of_nat (length (dyn p)) = dyn_area → dynfields_ok (ctx_parser c) p) ∧
  ∀ i j, is_Some (h_contexts both_live !! i) → is_Some (h_contexts both_live !! j) →
    (ctx_parser <$> h_contexts both_live !! i) = (ctx_parser <$> h_contexts both_live !! j) ∧
    ∀ n, do_call both_live (CallParse i n) = do_call both_live (CallParse j n).
Proof.
  apply (process_invariant no_fields ∅ two_contexts both_live both_answers);
    [exact I|vm_compute; reflexivity].
Defined.

Lemma both_contexts_live :
  is_Some (h_contexts both_live !! 0%nat) ∧ is_Some (h_contexts both_live !! 1%nat) ∧
  length both_answers = 7%nat.
Proof. vm_compute. split_and!; eauto. Qed.

(** The session of [packets]: the address of the peer is in network order. *)
Definition packet_session : session := Session true 5 (le_combine (bytes host2)) 7 100 200.

Definition created : Api.host :=
  match do_call start (CallCreate offsets) with Ok (h, _) => h | Fault _ => start end.

Lemma packet_session_ok : sessions_ok [packet_session].
Proof.
  split; [repeat constructor; discriminate|..]; intros x y Hx Hy;
    apply list_elem_of_In in Hx, Hy; destruct Hx as [<-|[]], Hy as [<-|[]]; done.
Qed.

Lemma packets_good dir p : In (dir, p) packets → good_packet [packet_session] dir p.
Proof.
  assert (Hcm : ∀ dir p, is_cm p = true → says packet_session dir (message_of p) →
            conforms [packet_session] (dir, message_of p)).
  { intros. apply (said _ packet_session); [by apply list_elem_of_In; left|done]. }
  intros Hp. destruct Hp as [[= <- <-]|[[= <- <-]|[[= <- <-]|[[= <- <-]|[]]]]].
  all: split; [eval_packet..|]; intros Hc; try discriminate Hc;
    (split_and!; [reflexivity|vm_compute; done..|apply Hcm; [done|by_saying]]).
Qed.

Lemma library_conforms_witness :
  ∃ h l, do_calls created (serve 0 1 packets) = Ok (h, l) ∧
    ∀ ip qpn, ∃ q, do_call h (CallQuery 0 ip qpn) = Ok (h, AnsInt q) ∧
      (q = 0 ∨ ∃ x, x ∈ [packet_session] ∧ (ip, qpn) = s_flow x ∧ q = s_lqpn x).
Proof.
  apply (library_conforms [packet_session] no_fields ∅ offsets 1 packets created 0);
    [exact packet_session_ok|exact I|vm_compute; reflexivity|exact packets_good].
Defined.

(** The last of the calls is answered with the queue pair of the host. *)
Lemma library_answers :
  match do_calls created (serve 0 1 packets ++ [CallQuery 0 (le_combine (bytes host2)) 200]) with
  | Ok (_, l) => List.last l AnsVoid = AnsInt 100
  | Fault _ => False
  end.
Proof. vm_compute. reflexivity. Qed.
