(* ===== verification/Scenarios.v ===== *)
(** * Scenarios: whole runs on concrete input

    The theorems about growth, progress, sessions, networks of hosts, the log,
    notifications and the program's test, each applied to a concrete run. *)

From Stdlib Require Import ZArith Lia String Ascii.
From stdpp Require Import base tactics numbers list strings gmap.
From coqutil Require Import Byte.
From S2P Require Import Prelude Memory Layout Bitfield RxeHdr RxeHdrSpec IbMad Iba IbtaC12 Mbuf Parser CmPacket Tracker Log TrackerInv TrackerStep TrackerSpec Handshake Conform Product Recover Network TrackerTrace Growth TrackerLog LogSpec Cnp DpdkModel Main Api Notify TestCnp TrackerFaults Witnesses Examples.

Local Open Scope string_scope.
Local Open Scope list_scope.
Open Scope Z_scope.
Open Scope ctcm_scope.

#[local] Existing Instance Witnesses.host.
#[local] Transparent msg_packet.

(** ** Progress and size *)

Definition after_disorder : tracker :=
  match run empty_tracker disorder with Ok s => s | Fault _ => empty_tracker end.
Definition at_the_end : tracker :=
  match run after_disorder second_try with Ok s => s | Fault _ => empty_tracker end.

Lemma disorder_runs : run empty_tracker disorder = Ok after_disorder.
Proof. vm_compute. reflexivity. Qed.
Lemma second_try_runs : run after_disorder second_try = Ok at_the_end.
Proof. vm_compute. reflexivity. Qed.

(** The flow of the passive session, which is the second one that is made. *)
Lemma flow_progress_witness :
  (phase_at empty_tracker 1 ≤ phase_at after_disorder 1 ≤ 4)%nat ∧
  (advances empty_tracker (disorder ++ second_try) 1 ≤ 4 - phase_at empty_tracker 1)%nat ∧
  advances empty_tracker (disorder ++ second_try) 1 =
    (advances empty_tracker disorder 1 + advances after_disorder second_try 1)%nat ∧
  (phase_at after_disorder 1 = 4%nat → advances after_disorder second_try 1 = 0%nat).
Proof. apply (flow_progress disorder second_try empty_tracker after_disorder 1); [apply wf_empty|exact disorder_runs]. Defined.

Lemma flow_progress_steps :
  phase_at after_disorder 1 = 1%nat ∧ advances empty_tracker disorder 1 = 1%nat.
Proof. vm_compute. by split. Qed.

(** Requests of two peers, and a reply that goes out later. *)
Definition requests : list cm_msg :=
  [message CM_REQ_ATTR_ID 8 0 201 3 1; message CM_REQ_ATTR_ID 8 0 201 4 1].
Definition reply : list (ctcm_direction * cm_msg) :=
  [(CTCM_FROM_HOST, message CM_REP_ATTR_ID 6 8 101 1 3)].

Lemma reply_keeps : no_erasing reply.
Proof. repeat apply Forall_cons_2; [split; discriminate|by apply Forall_nil]. Qed.

Definition requested : tracker :=
  match run empty_tracker ((λ p, (CTCM_FROM_NET, p)) <$> requests) with Ok s => s | Fault _ => empty_tracker end.
Definition replied : tracker :=
  match run requested reply with Ok s => s | Fault _ => empty_tracker end.

Lemma table_sizes_witness :
  (size (local_map requested) ≤ length ((λ p : cm_msg, (CTCM_FROM_NET, p)) <$> requests))%nat ∧
  (size (remote_map requested) ≤ length ((λ p : cm_msg, (CTCM_FROM_NET, p)) <$> requests))%nat ∧
  (size (qpn_map requested) ≤ size (local_map requested))%nat ∧
  (no_erasing reply →
   dom (local_map requested) ⊆ dom (local_map replied) ∧ dom (remote_map requested) ⊆ dom (remote_map replied)).
Proof.
  apply (table_sizes ((λ p, (CTCM_FROM_NET, p)) <$> requests) reply requested replied);
    vm_compute; reflexivity.
Defined.

Lemma requests_pile_up_witness :
  ∃ s, run empty_tracker ((λ p, (CTCM_FROM_NET, p)) <$> requests) = Ok s ∧
       size (remote_map s) = 2%nat ∧ ∀ s', run s reply = Ok s' → (2 ≤ size (remote_map s'))%nat.
Proof.
  apply (requests_pile_up requests [(3, 8); (4, 8)] reply).
  - repeat apply Forall2_cons_2; [..|by apply Forall2_nil];
      (eexists; split; [apply carries_refl|]; by split).
  - repeat apply NoDup_cons_2; [..|by apply NoDup_nil]; intros Hin%list_elem_of_In; cbn in Hin;
      intuition congruence.
  - repeat apply Forall_cons_2; [vm_compute; reflexivity..|by apply Forall_nil].
  - exact reply_keeps.
Defined.

(** ** Sessions *)

Lemma tracker_is_product_witness :
  ∃ s, run empty_tracker disorder = Ok s ∧
    (∀ x, x ∈ sessions →
       view_of x s = foldl (session_step x) no_view (own_messages x disorder) ∧
       get_source_qpn s (s_flow x) = view_answer (foldl (session_step x) no_view (own_messages x disorder))) ∧
    ∀ k, (∀ x, x ∈ sessions → k ≠ s_flow x) → get_source_qpn s k = 0.
Proof. apply (tracker_is_product sessions sessions_are_ok disorder). exact disorder_conforms. Defined.

(** What the two automata come to. *)
Lemma automata_of_disorder :
  own_messages session1 disorder =
    [(CTCM_FROM_HOST, CM_RTU_ATTR_ID); (CTCM_FROM_HOST, CM_REQ_ATTR_ID); (CTCM_FROM_NET, CM_DREP_ATTR_ID)] ∧
  foldl (session_step session1) no_view (own_messages session1 disorder) =
    Apart (Some (Flow REQ_SENT 5 no_key 100 0 false)) None ∧
  foldl (session_step session2) no_view (own_messages session2 disorder) =
    Apart (Some (Flow IDLE 6 no_key 0 0 false)) (Some (Flow REQ_RCVD 0 (3, 8) 0 201 false)).
Proof. vm_compute. by split_and!. Qed.

(** ** A network *)

(** Host 1 with its two sessions, and the peers at the other ends. *)
Definition sessions_at (a : Z) : list session :=
  if a =? 1 then sessions
  else if a =? 2 then [mirror 1 session1]
  else if a =? 3 then [mirror 1 session2]
  else [].

Lemma one_session_ok x : session_ok x → sessions_ok [x].
Proof.
  intros Hx. split; [by constructor|..]; intros y z Hy Hz;
    apply list_elem_of_In in Hy, Hz; destruct Hy as [<-|[]], Hz as [<-|[]]; done.
Qed.

Lemma sessions_at_ok : network_ok sessions_at.
Proof.
  split.
  - intros a. unfold sessions_at.
    destruct (a =? 1); [exact sessions_are_ok|]. destruct (a =? 2); [by apply one_session_ok|].
    destruct (a =? 3); [by apply one_session_ok|]. split; [constructor|..]; intros x y Hx%list_elem_of_In; done.
  - intros a x. unfold sessions_at at 1. intros Hx%list_elem_of_In. apply (bool_decide_unpack _).
    destruct (Z.eqb_spec a 1) as [->|_]; [destruct Hx as [<-|[<-|[]]]; vm_compute; exact I|].
    destruct (Z.eqb_spec a 2) as [->|_]; [destruct Hx as [<-|[]]; vm_compute; exact I|].
    destruct (Z.eqb_spec a 3) as [->|_]; [destruct Hx as [<-|[]]; vm_compute; exact I|done].
Qed.

(** The handshake of the first session with repetitions, and a request of host 3 in
    between; its reply is lost. *)
Definition traffic : list event :=
  let req1 := message CM_REQ_ATTR_ID 5 0 100 1 2 in
  let rep1 := message CM_REP_ATTR_ID 7 5 200 2 1 in
  let rtu1 := message CM_RTU_ATTR_ID 5 7 0 1 2 in
  let req2 := message CM_REQ_ATTR_ID 8 0 201 3 1 in
  let rep2 := message CM_REP_ATTR_ID 6 8 101 1 3 in
  [Send req1; Send req2; Deliver req1; Deliver req1; Send rep1; Deliver req2; Send req1; Deliver rep1;
   Send rep2; Send rtu1; Deliver rep1; Deliver req1; Deliver rtu1].

Ltac by_uttering x :=
  right; exists x; split; [apply (bool_decide_unpack _); vm_compute; exact I|by_saying].

Lemma traffic_possible : possible sessions_at [] traffic.
Proof.
  unfold traffic. cbn [possible]. split_and!;
    first [exact I|apply list_elem_of_In; cbn; tauto|by_uttering session1|by_uttering session2
          |by_uttering (mirror 1 session1)|by_uttering (mirror 1 session2)].
Qed.

Lemma network_sound_witness :
  ∃ w, net_run ∅ traffic = Ok w ∧
    ∀ a b r, let q := get_source_qpn (tracker_of w a) (b, r) in q ≠ 0 →
      (∃ x, x ∈ sessions_at a ∧ mirror a x ∈ sessions_at b ∧ s_rip x = b ∧ s_lqpn x = q ∧ s_rqpn x = r) ∧
      (get_source_qpn (tracker_of w b) (a, q) = r ∨ get_source_qpn (tracker_of w b) (a, q) = 0).
Proof. apply (network_sound sessions_at sessions_at_ok traffic). exact traffic_possible. Defined.

Lemma network_handshake_witness :
  ∃ w, net_run ∅ traffic = Ok w ∧
    get_source_qpn (tracker_of w 1) (2, 200) = 100 ∧ get_source_qpn (tracker_of w 2) (1, 100) = 200.
Proof.
  apply (network_handshake sessions_at sessions_at_ok traffic 1 session1).
  - exact traffic_possible.
  - apply (bool_decide_unpack _). vm_compute. exact I.
  - exists 1%nat. eexists. split; [vm_compute; reflexivity|].
    split; [apply (bool_decide_unpack _); vm_compute; exact I|].
    repeat apply Forall_cons_2; [apply (bool_decide_unpack _); vm_compute; exact I..|by apply Forall_nil].
  - exists 1%nat. eexists. split; [vm_compute; reflexivity|].
    split; [apply (bool_decide_unpack _); vm_compute; exact I|].
    repeat apply Forall_cons_2; [apply (bool_decide_unpack _); vm_compute; exact I..|by apply Forall_nil].
Defined.

(** ** The log *)

(** A name as it stands in the source. *)
Definition plain_name (func : string) : string := ("cm_connection_tracker::" ++ func)%string.

(** The first session is set up and closed again. *)
Definition up_and_down : list (ctcm_direction * cm_msg) :=
  disorder ++ second_try ++ [(CTCM_FROM_HOST, dreq); (CTCM_FROM_NET, drep)].

Definition logged : result (tracker * list entry) := run_log plain_name empty_tracker up_and_down.
Definition log_of_run : list entry := match logged with Ok (_, w) => w | Fault _ => [] end.
Definition logged_end : tracker := match logged with Ok (s, _) => s | Fault _ => empty_tracker end.

Lemma logging_is_silent_witness :
  match logged with Ok (s', _) => Ok s' | Fault e => Fault e end = run empty_tracker up_and_down.
Proof. apply (logging_is_silent plain_name up_and_down empty_tracker). apply wf_empty. Defined.

Lemma log_accounts_witness :
  opened log_of_run ≡ₚ (closed log_of_run ++ table_pairs (qpn_map logged_end))%list.
Proof. apply (log_accounts plain_name up_and_down). vm_compute. reflexivity. Defined.

Lemma log_reports :
  opened log_of_run = [(100, 200)] ∧ closed log_of_run = [(100, 200)] ∧
  text (LFlow (plain_name "req_received") (Flow REQ_RCVD 0 (3, 8) 0 201 false)) =
    Ok ("conntrack-cm: cm_connection_tracker::req_received: state: REQ_RCVD, IDs: (0x0, 0x8), QPNs: (0x0, 0xc9)"
        ++ newline)%string.
Proof. vm_compute. by split_and!. Qed.

(** ** Notifications *)

Definition notified : rte_mbuf :=
  match ctcm_generate_cnp (zeros 64) test_mbuf 0xd2 with Ok p => p | Fault _ => test_mbuf end.

Lemma template_reuse_witness :
  ctcm_generate_cnp (zeros 64) notified 0x1234 = ctcm_generate_cnp (replicate 64 Byte.xff) test_mbuf 0x1234.
Proof.
  apply (template_reuse (zeros 64) (zeros 64) (replicate 64 Byte.xff) test_mbuf [] Witnesses.test_headers [] 0xd2);
    try (vm_compute; reflexivity).
  repeat apply Forall_cons_2; [vm_compute; reflexivity..|by apply Forall_nil].
Defined.

Lemma notification_reaches_sender_witness :
  ∃ h l q, do_calls created (serve 0 1 packets) = Ok (h, l) ∧
    do_call h (CallQuery 0 (s_rip packet_session) (s_rqpn packet_session)) = Ok (h, AnsInt q) ∧
    (q ≠ 0 → q = 100 ∧ ∃ p1 m p2 h',
       ctcm_fill_cnp_template (empty_mbuf 64) = Ok (0, p1) ∧
       store (buf p1) (0 + offsetof iphdr "saddr") (bytes (host2 ++ host1)) = Ok m ∧
       do_calls h (notify 0 2 (empty_mbuf 64) (set_buf p1 m) (zeros 64) q) =
         Ok (h', [AnsVoid; AnsInt 0; AnsVoid; AnsVoid]) ∧
       h_packets h' !! 2 = Some p2 ∧ notifies p2 100 ∧ h_contexts h' = h_contexts h ∧
       ∀ dir, ∃ h2 l2, do_calls h' [CallParse 0 2; CallProcess 0 dir 2] = Ok (h2, l2) ∧
                       h_contexts h2 = h_contexts h).
Proof.
  apply (notification_reaches_sender [packet_session] no_fields ∅ offsets 1 packets created 0 packet_session 2
           (empty_mbuf 64) (bytes (host2 ++ host1)) (zeros 64)).
  - exact packet_session_ok.
  - exact I.
  - vm_compute. reflexivity.
  - exact packets_good.
  - apply (bool_decide_unpack _). vm_compute. exact I.
  - vm_compute. by split.
  - split; vm_compute; try reflexivity; try discriminate. by split.
  - reflexivity.
  - reflexivity.
Defined.

(** ** The test *)

(** Digits back to numbers. *)
Definition digit_of (c : ascii) : Z :=
  let d := Z.of_nat (nat_of_ascii c) in if d <? 58 then d - 48 else d - 55.
Fixpoint from_hex (s : string) : list byte :=
  match s with
  | String a (String b s) => byte.of_Z (16 * digit_of a + digit_of b) :: from_hex s
  | _ => []
  end.

#[local] Instance test_libraries : TestLibraries :=
  {| boost_hex := hex_text; boost_unhex := from_hex; rte_eal_init := 0; rte_eal_cleanup := 0 |}.

#[local] Instance test_libraries_laws : TestLibrariesLaws test_libraries.
Proof.
  split; [done|]. cbn. induction bs as [|b bs IH]; [done|]. cbn [hex_text from_hex]. rewrite IH. f_equal.
  destruct b; vm_compute; reflexivity.
Qed.

Lemma cnp_test_passes_witness :
  ∃ h' out, TEST_F_cnp_gen start (Some 7%nat) offsets 36 (zeros 64) (zeros 60) =
            Ok (h', out, if little_endian then Passed else Failed "generated") ∧
            h_contexts h' = h_contexts start ∧ (little_endian = true → out = []).
Proof.
  apply (cnp_test_passes (D := dpdk) (λ bs, eq_refl) start offsets created 0 (Some 7%nat) 36 (zeros 64) (zeros 60));
    [apply fresh_host_ok; exact I|reflexivity|reflexivity|vm_compute; reflexivity|reflexivity|reflexivity].
Defined.

Lemma hexdump_lines :
  hexdump (replicate 17 Byte.xab) =
  ["0000: ABABABABABABABABABABABABABABABAB" ++ newline; "0010: AB" ++ newline]%string.
Proof. vm_compute. reflexivity. Qed.
