(* ===== verification/Variants.v ===== *)
(** * Variants: other hosts, other builds, other memory

    The theorems about verdicts, memory, byte orders and the build without
    assertions, each applied to a concrete run. *)

From Stdlib Require Import ZArith Lia String.
From stdpp Require Import base tactics numbers list strings gmap.
From coqutil Require Import Byte.
From S2P Require Import Prelude Memory Layout Bitfield RxeHdr RxeHdrSpec IbMad Iba IbtaC12 Mbuf Parser CmPacket Tracker TrackerInv TrackerStep TrackerSpec Handshake Conform Product Relate Lifetime Reclaim TrackerFaults Verdict Cnp DpdkModel Main Portable Release Witnesses Examples.

Local Open Scope string_scope.
Local Open Scope list_scope.
Open Scope Z_scope.
Open Scope ctcm_scope.

#[local] Transparent msg_packet.

(** ** Verdicts *)

(** A request is pending, and is repeated with another queue pair. *)
Definition pending : tracker := after [(CTCM_FROM_NET, message CM_REQ_ATTR_ID 8 0 201 3 1)].
Definition repeated : cm_msg := message CM_REQ_ATTR_ID 8 0 202 3 1.

(** The peer's id belongs to the session that answers with id 6. *)
Definition crossing : list (ctcm_direction * cm_msg) :=
  [(CTCM_FROM_HOST, message CM_REP_ATTR_ID 6 8 101 1 3);
   (CTCM_FROM_HOST, message CM_REP_ATTR_ID 9 8 101 1 3)].

Lemma verdict_exact_witness :
  (process repeated CTCM_FROM_NET pending = Fault AssertFailure ↔ is_Some (verdict CTCM_FROM_NET repeated pending)) ∧
  ((∃ s', process repeated CTCM_FROM_NET pending = Ok (tt, s')) ↔ verdict CTCM_FROM_NET repeated pending = None) ∧
  match first_stop pending crossing with
  | None => ∃ s', run pending crossing = Ok s'
  | Some (n, x) => ∃ s' dir' m', run pending (take n crossing) = Ok s' ∧ crossing !! n = Some (dir', m') ∧
      verdict dir' m' s' = Some x ∧ run pending crossing = Fault AssertFailure
  end.
Proof. apply (verdict_exact pending repeated repeated CTCM_FROM_NET crossing); [apply after_wf|apply carries_refl]. Defined.

Lemma verdicts :
  verdict CTCM_FROM_NET repeated pending = Some Changed ∧
  verdict CTCM_FROM_NET (message CM_RTU_ATTR_ID 8 0 0 3 1) pending = Some Unnamed ∧
  verdict CTCM_FROM_NET (message CM_REQ_ATTR_ID 8 0 201 3 1) pending = None ∧
  first_stop pending crossing = Some (1%nat, Crossed).
Proof. vm_compute. done. Qed.

(** ** Freed objects *)

(** Two connections, one after the other. *)
Definition one_after_the_other : list (ctcm_direction * cm_msg) :=
  example_handshake ++
  [(CTCM_FROM_HOST, message CM_DREQ_ATTR_ID 5 7 0 1 2);
   (CTCM_FROM_NET, message CM_DREP_ATTR_ID 7 5 0 2 1);
   (CTCM_FROM_NET, message CM_REQ_ATTR_ID 9 0 300 4 1)].

(** The first session comes and goes, and the second one is requested. *)
Definition turnover : list (ctcm_direction * cm_msg) :=
  example_handshake ++
  [(CTCM_FROM_HOST, message CM_DREQ_ATTR_ID 5 7 0 1 2);
   (CTCM_FROM_NET, message CM_DREP_ATTR_ID 7 5 0 2 1);
   (CTCM_FROM_NET, message CM_REQ_ATTR_ID 8 0 201 3 1)].

Lemma memory_follows_sessions_witness :
  ∃ t, run_rc lowest_free empty_tracker turnover = Ok t ∧
    (map_to_list (heap t)).*2 ≡ₚ sessions ≫= (λ x, view_flows (session_after turnover x)) ∧
    ((∀ x, x ∈ sessions → session_after turnover x = no_view) → t = Tracker ∅ (next t) ∅ ∅ ∅).
Proof.
  apply (memory_follows_sessions lowest_free sessions turnover).
  - exact lowest_free_free.
  - exact sessions_are_ok.
  - apply (bool_decide_unpack _). vm_compute. exact I.
  - unfold turnover. cbn [app example_handshake].
    repeat apply Forall_cons_2; [by_session session1..|by_session session2|by apply Forall_nil].
Defined.

(** One flow is left, and none after the first session alone. *)
Lemma turnover_flows :
  sessions ≫= (λ x, view_flows (session_after turnover x)) = [Flow REQ_RCVD 0 (3, 8) 0 201 false] ∧
  sessions ≫= (λ x, view_flows (session_after (take 5 turnover) x)) = [].
Proof. vm_compute. by split. Qed.

(** The second flow is where the first one was. *)
Lemma place_reused :
  match run empty_tracker one_after_the_other, run_rc lowest_free empty_tracker one_after_the_other with
  | Ok s, Ok t => size (heap s) = 2%nat ∧ size (heap t) = 1%nat ∧
      remote_map s !! (4, 9) = Some 1%nat ∧ remote_map t !! (4, 9) = Some 0%nat
  | _, _ => False
  end.
Proof. vm_compute. done. Qed.

(** ** Byte orders *)

Lemma byte_order_portable_witness :
  match @handle_all _ LittleEndianHost _ new_context packets, @handle_all _ BigEndianHost _ new_context packets with
  | Ok c1', Ok c2' => ∀ ip q, length ip = 4%nat →
      ctcm_query_ipv4 c1' (@host_combine LittleEndianHost ip) q =
      ctcm_query_ipv4 c2' (@host_combine BigEndianHost ip) q
  | Fault x, Fault y => x = y
  | _, _ => False
  end.
Proof.
  apply (byte_order_portable LittleEndianHost BigEndianHost new_context new_context packets);
    [reflexivity|reflexivity|].
  intros dir p Hp.
  destruct Hp as [[= <- <-]|[[= <- <-]|[[= <- <-]|[[= <- <-]|[]]]]]; eval_packet.
Defined.

(** The number of an address differs, the answer does not. *)
Lemma same_answer :
  match @handle_all _ LittleEndianHost _ new_context packets, @handle_all _ BigEndianHost _ new_context packets with
  | Ok c1', Ok c2' =>
      @host_combine LittleEndianHost (bytes host2) ≠ @host_combine BigEndianHost (bytes host2) ∧
      ctcm_query_ipv4 c1' (@host_combine LittleEndianHost (bytes host2)) 200 = 100 ∧
      ctcm_query_ipv4 c2' (@host_combine BigEndianHost (bytes host2)) 200 = 100
  | _, _ => False
  end.
Proof. vm_compute. done. Qed.

(** ** The build without assertions *)

(** Messages that stop the other build. *)
Definition hostile : list (ctcm_direction * cm_msg) :=
  [(CTCM_FROM_NET, message CM_REQ_ATTR_ID 8 0 201 3 1); (CTCM_FROM_NET, repeated);
   (CTCM_FROM_NET, message CM_RTU_ATTR_ID 8 0 0 3 1)].

Lemma release_never_stops_witness :
  ∃ s, @run release_build _ _ empty_tracker hostile = Ok s ∧ closed s.
Proof.
  apply (release_never_stops hostile).
  repeat apply Forall_cons_2; [eexists; apply carries_refl..|by apply Forall_nil].
Defined.

Lemma hostile_stops_debug : run empty_tracker hostile = Fault AssertFailure.
Proof. vm_compute. reflexivity. Qed.

#[local] Instance little : Endian := LittleEndianHost.

Lemma truncated_roce_by_build_witness :
  @parse_packet debug_build _ _ offsets truncated_frame = Fault AssertFailure ∧
  @parse_packet release_build _ _ offsets truncated_frame = Fault OutOfBounds.
Proof. apply (truncated_roce_by_build offsets truncated_frame); eval_packet. Defined.
